(* ===== verification/_CoqProject ===== *)
-Q . S2P
Prelude.v
Sorting.v
Bytes.v
HciEvents.v
Transport.v
Hci.v
Trace.v
Results.v
Pair.v
PairLaws.v
Iso.v
Connected.v
Periodic.v
PeriodicLaws.v
Bis.v
Ends.v
Reassembly.v
Phases.v
Logs.v
ConnectedPair.v
CoreAdvanced.v
Recovery.v
Core54.v
PhasesLaws.v
Auracast.v
AuracastLaws.v
NativeUsb.v
Att.v
GattSpec.v
Peripheral.v
Catalog.v
Commands.v
Probe.v
ProbeLaws.v
ProbeVerdict.v
Guard.v
Conditions.v
Cis.v
CisLaws.v
Stress.v
StressLaws.v
Discovery.v
DiscoveryLaws.v
Tools.v
ToolsLaws.v
Smp.v
SmpSafety.v
SmpAgreement.v
Secure.v
SecureLaws.v
