(* ===== verification/Prelude.v ===== *)
(** * HciController: a verification library for its Python host side

    The repository drives Bluetooth controllers from a PC: a Python package
    (src/python/hcicontroller) that talks HCI to one or two boards, and the
    firmware it talks to. This development models the Python package; the C++
    firmware, the build files and the tests are not part of it.

    ** The program and its files here

    - Bytes: Python's [struct], [int.from_bytes] and [bytes([...])], with what
      they raise out of range. HciEvents: codes, error names and the decoding
      of connection events (hci_events.py).
    - Transport: the H:4 framing and the serial transport of hci_transport.py,
      and the [Transport] interface with its laws, against which everything
      above is proved. NativeUsb: the native USB transport, its two reader
      threads as a step relation.
    - Hci: the engine, class Hci of hci_ble_test.py and hci_ble_test_impl.py:
      the queue of deferred packets, events, credits, the command/answer
      match. Trace: what a program of engine calls wrote, the proof rules the
      components share.
    - Att: the GATT server; GattSpec: its contract, and that it keeps it.
      Peripheral: the legacy pairing responder.
    - Catalog, Commands: the table of HCI commands (hci_commands_catalog.py)
      and its release profile (hci_commands.py). Probe, ProbeLaws,
      ProbeVerdict: the command probe (cmd_probe), what it may send, that it
      ends, what its counts, its undoing and its bisection establish. Guard:
      the wrapper hci_ble_test.py puts around the probe's commands. Conditions:
      the commands a feature makes mandatory (hci_core_conditions.py).
    - Smp, SmpSafety, SmpAgreement: LE Secure Connections pairing
      (smp_central.py), initiator and responder, safety of each and agreement
      of the two.
    - Iso: ISO data packets (hci_iso.py). Connected: waiting for events and the
      procedures on a link (connected_features.py). Pair, PairLaws: preparing
      and connecting two controllers (hci_pair.py). Periodic, PeriodicLaws:
      periodic advertising, sync and PAwR (periodic_features.py). Auracast,
      AuracastLaws: the broadcast source (auracast.py).
    - Bis: creating, joining and ending broadcast streams (bis_features.py).
      Results: the result book (results.py). Phases: the release phases over two
      controllers that record in it (run_periodic_sync_phase, run_past_phase,
      run_connected_feature_phase, run_subrate_phase, run_bis_phase).
    - Reassembly: the wait for a fragmented L2CAP frame; ConnectedPair: the
      procedures and the phase around it (connected_features_pair.py).
      CoreAdvanced, Core54, Recovery: the phases of core_advanced.py,
      core54_features.py (with profile.py) and recovery_features.py.
    - Cis, CisLaws: connecting two controllers with retries, creating a CIS,
      moving SDUs over it and the teardown (hci_cis_pair_test.py,
      hci_cis_cleanup.py). Stress, StressLaws: the stress phase over such a
      pair (stress_features.py).
    - Sorting: [sorted] with a key. Discovery, DiscoveryLaws: finding the
      controllers attached and choosing one or two of them (hci_transport.py,
      pair_transport.py, hci_cis_usb_pair_test.py). Tools, ToolsLaws: the
      command-line tools of hci_ble_test_impl.py (advertise, scan, connect with
      its flood, counters, dtm-tx, dtm-rx), their wrappers in hci_ble_test.py
      and the frame of main.
    - Secure, SecureLaws: L2CAP on one controller with a record of its events,
      and the pair-and-reconnect tool on top of it
      (examples/secure_reconnect.py).
    - Ends: device programs that end, the procedures above among them. Logs:
      proof rules for programs over two controllers and a book. PhasesLaws:
      every phase meets its contract.

    ** How the code is represented

    A Python value that may raise is a [res]; a method that changes state is a
    function of [M S A], state passing with exceptions ([Ok], [Exc], and
    [Stuck] where a model would run out of fuel, which the theorems exclude).
    A device is a clock in microseconds and an [hci]; an object with an engine
    inside is a pair of the two ([on_dev], [on_own]). Names are those of the
    source where Rocq allows it. Printing is left out, except where a printed
    line is what a caller learns (the probe's report). Exceptions carry their
    format string and arguments ([msg]), not the rendered text.

    Time is what the transport makes pass: a read takes up to its timeout, and
    nothing else takes time but a sleep and, by a microsecond, a turn of the
    loop [Cis.drain], which goes on whatever its reads raise. Loops that end at
    a deadline run on fuel: one turn per packet queued or still to come and one
    per waiting period until the deadline, which is enough because a turn that
    reads no packet spends its waiting period ([TransportLaws]);
    [Hci.command_terminates], [PairLaws.acl_pair_connected],
    [ProbeLaws.ProbeLaws.probe_ends] say so.
    The probe's bisection and the SMP crypto retries have fuel of their own,
    bounded by their data.

    ** What is assumed

    The operating system's serial port and PyUSB are scripts of outcomes. The
    controller is whatever the transport delivers: no theorem about the engine
    assumes anything of its answers. P-256 and AES-CMAC (the cryptography
    package) are the interface [Crypto]; the agreement of a pairing relies on
    [CryptoLaws], and its witness runs on a concrete instance.

    ** What the theorems show

    Framing and routing: packets survive chunking, threads and closing. The
    engine: commands end with the first answer, keep order and credits. The
    servers: every request is answered, the GATT server refines a store, keys
    are confirmed before they are used. The tables: every row builds and is
    sendable, and the features' mandatory ones are checked. The probe: consent,
    termination, counting, undoing, bisection; a guarded command's success is
    that of the event that ends it.
    Pairing: safety against any peer, agreement with an honest one. The
    features: encoders round-trip, procedures write their own commands in
    order, waits lose nothing, fragmented frames included, syncs are fresh. The
    phases: whatever the controllers answer, each ends with its engines intact
    and every one of its rows recorded, or a failure; the runs that open ports
    close them, and waiting for credits loses no other handle's. The verdict of
    a release follows from what was recorded. Discovery: one port per board, the
    best one, and a choice that is unambiguous or refused. The tools: each ends
    with an exit code, a scan counts right, a flood sends what it was asked for,
    a connection that passes was made, used and ended. The secure reconnect:
    frames cut to the controller's buffers arrive whole, its pairing is a run of
    the initiator above, a pass stands for an encryption of every connection,
    the port is closed whatever happens.

    ** Not modelled

    The PAwR phase with its service thread, opening and closing a native USB
    device, the other examples, and the parts that only describe or declare (the board
    profile target_profile.py, the interface dut.py, what argparse does before
    the tools). *)

From stdpp Require Export base tactics list option numbers strings.
From Stdlib Require Export ZArith Lia.
#[export] Set Default Goal Selector "!".

(** ** Bytes, Python slices *)

(** A Python [bytes] value: a list of integers. [bytes_ok] says every
    element is an octet, which holds of every value Python can build. *)
Abbreviation bytes := (list Z).

Definition is_byte (b : Z) : Prop := (0 ≤ b < 256)%Z.

Definition bytes_ok (bs : bytes) : Prop := Forall is_byte bs.

#[export] Instance is_byte_dec b : Decision (is_byte b).
Proof. unfold is_byte; apply _. Defined.
#[export] Instance bytes_ok_dec bs : Decision (bytes_ok bs).
Proof. unfold bytes_ok; apply _. Defined.

(** Decidable octet test, the range check [bytes([...])] makes. *)
Definition byteb (b : Z) : bool := ((0 <=? b) && (b <? 256))%Z.

(** [data[i:j]] for non-negative [i] and [j]: Python clips both ends. *)
Definition slice {A} (i j : nat) (l : list A) : list A := take (j - i) (drop i l).

(** Length of a byte string as a Python integer. *)
Definition blen {A} (l : list A) : Z := Z.of_nat (length l).

(** [bytes(n)]: [n] zero octets. *)
Definition zeros (n : nat) : bytes := replicate n 0%Z.

Arguments slice {A} i j l : simpl never.
Arguments blen {A} l : simpl never.
Arguments zeros n : simpl never.

(** [needle in haystack]. *)
Definition str_contains (needle haystack : string) : bool :=
  match String.index 0 needle haystack with Some _ => true | None => false end.

(** ** Exceptions *)

(** A formatted message, kept as its Python format string and arguments: the
    model never renders it. *)
Inductive arg : Type :=
  | AInt (z : Z)
  | AStr (s : string)
  | ABytes (b : bytes).

Record text : Type := Fmt { fmt : string; fargs : list arg }.

Definition Lit (s : string) : text := Fmt s [].

(** The exception classes the modelled code raises or catches. *)
Inductive exn : Type :=
  | HciError (t : text)          (* hci_events.HciError *)
  | HciGone (t : text)           (* hci_events.HciGone *)
  | TransportError (t : text)    (* hci_transport.TransportError *)
  | TransportGone (t : text)     (* subclass of TransportError *)
  | SelectionError (t : text)    (* subclass of TransportError *)
  | PairingError (t : text)      (* smp_central.PairingError *)
  | ValueError (t : text)
  | StructError                  (* struct.error *)
  | IndexError
  | KeyError
  | TypeError
  | RuntimeError (t : text)
  | AssertionError (t : text)
  | OSError.                     (* and serial.SerialException *)

(** [except TransportError] catches the two subclasses as well. *)
Definition is_transport_error (e : exn) : bool :=
  match e with
  | TransportError _ | TransportGone _ | SelectionError _ => true
  | _ => false
  end.

(** [except (HciError, HciGone)]. *)
Definition is_hci_error (e : exn) : bool :=
  match e with HciError _ | HciGone _ => true | _ => false end.

(** [str(err)]; the messages of Python's own exceptions are not kept. *)
Definition str (e : exn) : text :=
  match e with
  | HciError t | HciGone t | TransportError t | TransportGone t | SelectionError t
  | PairingError t | ValueError t | RuntimeError t | AssertionError t => t
  | _ => Lit ""
  end.

(** ** Results: a value, a raised exception, or a loop out of fuel *)

Inductive res (A : Type) : Type :=
  | Ok (a : A)
  | Exc (e : exn)
  | Stuck.
Arguments Ok {A} a.
Arguments Exc {A} e.
Arguments Stuck {A}.

#[export] Instance res_ret : MRet res := λ A a, Ok a.
#[export] Instance res_bind : MBind res := λ A B f m,
  match m with Ok a => f a | Exc e => Exc e | Stuck => Stuck end.
#[export] Instance res_fmap : FMap res := λ A B f m,
  match m with Ok a => Ok (f a) | Exc e => Exc e | Stuck => Stuck end.

Definition is_ok {A} (r : res A) : bool :=
  match r with Ok _ => true | _ => false end.

(** [l[i]], raising IndexError past the end. *)
Definition idx {A} (l : list A) (i : nat) : res A :=
  match l !! i with Some x => Ok x | None => Exc IndexError end.

(** ** The state and error monad *)

Definition M (S A : Type) : Type := S → res A * S.

#[export] Instance M_ret {S} : MRet (M S) := λ A a s, (Ok a, s).
#[export] Instance M_bind {S} : MBind (M S) := λ A B f m s,
  match m s with
  | (Ok a, s') => f a s'
  | (Exc e, s') => (Exc e, s')
  | (Stuck, s') => (Stuck, s')
  end.

Definition raise {S A} (e : exn) : M S A := λ s, (Exc e, s).
Definition getS {S} : M S S := λ s, (Ok s, s).
Definition gets {S A} (f : S → A) : M S A := λ s, (Ok (f s), s).
Definition modify {S} (f : S → S) : M S unit := λ s, (Ok tt, f s).
Definition lift {S A} (r : res A) : M S A := λ s, (r, s).
Definition skip {S} : M S unit := λ s, (Ok tt, s).

(** [if c: m] with nothing in the else branch. *)
Definition when {S} (c : bool) (m : M S unit) : M S unit :=
  if c then m else skip.

(** [try: m except classes: h err]. *)
Definition try_except {S A} (catches : exn → bool) (m : M S A)
    (h : exn → M S A) : M S A := λ s,
  match m s with
  | (Exc e, s') => if catches e then h e s' else (Exc e, s')
  | rs => rs
  end.

(** [try: m finally: c]: an exception of the clean-up replaces the outcome. *)
Definition try_finally {S A} (m : M S A) (c : M S unit) : M S A := λ s,
  let '(r, s1) := m s in
  match c s1 with
  | (Ok _, s2) => (r, s2)
  | (Exc e, s2) => (Exc e, s2)
  | (Stuck, s2) => (Stuck, s2)
  end.

(** [for x in l: f x], in order. *)
Fixpoint for_each {S A} (l : list A) (f : A → M S unit) : M S unit :=
  match l with
  | [] => skip
  | x :: l' => f x ;; for_each l' f
  end.

(** Run a computation of a component inside a larger state. *)
Definition zoom {S T A} (get : S → T) (set : T → S → S) (m : M T A) : M S A :=
  λ s, let '(r, t) := m (get s) in (r, set t s).

(** ** Reasoning about monadic code

    [runs I R E m]: from a state satisfying the invariant [I], [m] ends (it
    never runs out of fuel) in a state that satisfies [I] again and is related
    to the initial one by [R], and any exception it lets through satisfies
    [E]. [R] is a preorder, so the predicate composes along [;;]. *)

Section runs.
Context {S : Type} (I : S → Prop) (R : relation S) `{!PreOrder R}.
Implicit Types E : exn → Prop.

Definition runs {A} E (m : M S A) : Prop := ∀ s, I s →
  I (m s).2 ∧ R s (m s).2 ∧ (∀ e, (m s).1 = Exc e → E e) ∧ (m s).1 ≠ Stuck.

Lemma runs_weaken {A} E E' (m : M S A) :
  (∀ e, E e → E' e) → runs E m → runs E' m.
Proof. intros HE Hm s Hs. destruct (Hm s Hs) as (?&?&?&?). repeat split; eauto. Qed.

Lemma runs_ret {A} E (a : A) : runs E (mret a).
Proof. intros s Hs. repeat split; cbn; [done|done|discriminate|discriminate]. Qed.

Lemma runs_skip E : runs E skip.
Proof. apply (runs_ret E tt). Qed.

Lemma runs_gets {A} E (f : S → A) : runs E (gets f).
Proof. intros s Hs. repeat split; cbn; [done|done|discriminate|discriminate]. Qed.

Lemma runs_raise {A} E e : E e → runs E (raise (A:=A) e).
Proof.
  intros He s Hs. repeat split; cbn; [done|done| |discriminate].
  by intros ? [= <-].
Qed.

Lemma runs_lift {A} E (r : res A) :
  r ≠ Stuck → (∀ e, r = Exc e → E e) → runs E (lift r).
Proof. intros Hr He s Hs. repeat split; cbn; done. Qed.

Lemma runs_lift_ok {A B} E (r : res A) a (k : A → M S B) :
  r = Ok a → runs E (k a) → runs E (lift r ≫= k).
Proof. intros -> Hk s Hs. apply (Hk s Hs). Qed.

Lemma runs_modify E f :
  (∀ s, I s → I (f s) ∧ R s (f s)) → runs E (modify f).
Proof.
  intros Hf s Hs. destruct (Hf s Hs).
  repeat split; cbn; [done|done|discriminate|discriminate].
Qed.

Lemma runs_bind {A B} E (m : M S A) (f : A → M S B) :
  runs E m → (∀ a, runs E (f a)) → runs E (m ≫= f).
Proof.
  intros Hm Hf s Hs. destruct (Hm s Hs) as (HI&HR&HE&HS).
  unfold mbind, M_bind. destruct (m s) as [[a|e|] s'] eqn:Em; cbn in *.
  - destruct (Hf a s' HI) as (?&?&?&?). repeat split; try done. by etrans.
  - repeat split; try done. intros ? [= <-]. by apply HE.
  - done.
Qed.

(** The same, with a continuation that is only run from states [m] reaches. *)
Lemma runs_bind_post {A B} E (m : M S A) (f : A → M S B) :
  runs E m →
  (∀ a s s', I s → I s' → m s = (Ok a, s') →
     I (f a s').2 ∧ R s' (f a s').2 ∧ (∀ e, (f a s').1 = Exc e → E e) ∧ (f a s').1 ≠ Stuck) →
  runs E (m ≫= f).
Proof.
  intros Hm Hf s Hs. destruct (Hm s Hs) as (HI&HR&HE&HS).
  unfold mbind, M_bind. destruct (m s) as [[a|e|] s'] eqn:Em; cbn in *.
  - destruct (Hf a s s' Hs HI Em) as (?&?&?&?). repeat split; try done. by etrans.
  - repeat split; try done. intros ? [= <-]. by apply HE.
  - done.
Qed.

(** The same, knowing where the value came from. *)
Lemma runs_bind_at {A B} E (m : M S A) (f : A → M S B) :
  runs E m → (∀ a s s', I s → m s = (Ok a, s') → runs E (f a)) → runs E (m ≫= f).
Proof.
  intros Hm Hf s Hs. destruct (Hm s Hs) as (HI&HR&HE&HS).
  unfold mbind, M_bind. destruct (m s) as [[a|e|] s'] eqn:Em; cbn in *.
  - destruct (Hf a s s' Hs Em s' HI) as (?&?&?&?). repeat split; try done. by etrans.
  - repeat split; try done. intros ? [= <-]. by apply HE.
  - done.
Qed.

Lemma runs_when E (c : bool) m : (c = true → runs E m) → runs E (when c m).
Proof. destruct c; cbn; intros Hm; [by apply Hm | apply runs_skip]. Qed.

Lemma runs_try_except {A} E E' catches (m : M S A) h :
  runs E m →
  (∀ e, E e → catches e = true → runs E' (h e)) →
  (∀ e, E e → catches e = false → E' e) →
  runs E' (try_except catches m h).
Proof.
  intros Hm Hh HE' s Hs. destruct (Hm s Hs) as (HI&HR&HE&HS).
  unfold try_except. destruct (m s) as [[a|e|] s'] eqn:Em; cbn in *.
  - repeat split; [done|done|discriminate|discriminate].
  - destruct (catches e) eqn:Ec.
    + destruct (Hh e (HE e eq_refl) Ec s' HI) as (?&?&?&?).
      repeat split; try done. by etrans.
    + repeat split; try done. intros ? [= <-]. by apply HE'; [apply HE|].
  - done.
Qed.

Lemma runs_try_finally {A} E (m : M S A) c :
  runs E m → runs E c → runs E (try_finally m c).
Proof.
  intros Hm Hc s Hs. destruct (Hm s Hs) as (HI&HR&HE&HS).
  unfold try_finally. destruct (m s) as [r s1] eqn:Em; cbn in *.
  destruct (Hc s1 HI) as (HI2&HR2&HE2&HS2).
  destruct (c s1) as [[u|e|] s2] eqn:Ec; cbn in *.
  - repeat split; try done. by etrans.
  - repeat split; try done; [by etrans|]. intros ? [= <-]. by apply HE2.
  - done.
Qed.

Lemma runs_for_each {A} E (l : list A) f :
  (∀ x, x ∈ l → runs E (f x)) → runs E (for_each l f).
Proof.
  induction l as [|x l IH]; intros Hf; cbn; [apply runs_skip|].
  apply runs_bind; [by apply Hf; left|].
  intros _. apply IH. intros y Hy. apply Hf. by right.
Qed.
End runs.

Lemma runs_zoom {S T A} (I : S → Prop) R (I' : T → Prop) R' E
    (get : S → T) set (m : M T A) :
  runs I' R' E m →
  (∀ s, I s → I' (get s)) →
  (∀ s t, I s → I' t → R' (get s) t → I (set t s) ∧ R s (set t s)) →
  runs I R E (zoom get set m).
Proof.
  intros Hm Hget Hset s Hs. unfold zoom.
  destruct (Hm (get s) (Hget s Hs)) as (HI&HR&HE&HS).
  destruct (m (get s)) as [r t]; cbn in *.
  destruct (Hset s t Hs HI HR). split_and!; done.
Qed.

(** A relation that holds whatever happens. *)
#[export] Instance any_preorder {S} : PreOrder (λ _ _ : S, True).
Proof. by split. Qed.

Create HintDb runs.
#[export] Hint Extern 1 (PreOrder _) => typeclasses eauto : runs.
#[export] Hint Resolve runs_ret runs_skip runs_gets : runs.

(** One step of the syntax-directed proof that a program [runs]. *)
Ltac runs_step :=
  lazymatch goal with
  | |- PreOrder _ => apply _
  | |- runs _ _ _ (mret _) => apply runs_ret; apply _
  | |- runs _ _ _ skip => apply runs_skip; apply _
  | |- runs _ _ _ (gets _) => apply runs_gets; apply _
  | |- runs _ _ _ (raise _) => apply runs_raise; [apply _|]
  | |- runs _ _ _ (mbind _ _) => apply runs_bind; [apply _| |intros ?]
  | |- runs _ _ _ (when _ _) => apply runs_when; [apply _|intros ?]
  | |- runs _ _ _ (for_each _ _) => apply runs_for_each; [apply _|intros ? ?]
  | |- runs _ _ _ (match ?x with _ => _ end) => destruct x eqn:?
  | |- runs _ _ _ (if ?x then _ else _) => destruct x eqn:?
  end.
Ltac runs_auto := repeat (solve [eauto 3 with runs] || runs_step).

(** Inverting a run that returned. *)
Lemma bind_ok_inv {S A B} (m : M S A) (f : A → M S B) s b s' :
  (m ≫= f) s = (Ok b, s') → ∃ a s1, m s = (Ok a, s1) ∧ f a s1 = (Ok b, s').
Proof. unfold mbind, M_bind. destruct (m s) as [[a|e|] s1]; [eauto|done|done]. Qed.

(** ** Weakest preconditions

    [wp m Q s]: the outcome and the final state of [m] from [s] satisfy [Q]. *)

Definition wp {S A} (m : M S A) (Q : res A → S → Prop) (s : S) : Prop :=
  Q (fst (m s)) (snd (m s)).

Section wp.
Context {S A B : Type} (Q : res B → S → Prop) (s : S).

Lemma wp_bind (m : M S A) (f : A → M S B) :
  wp m (λ r s', match r with
                | Ok a => wp (f a) Q s' | Exc e => Q (Exc e) s' | Stuck => Q Stuck s'
                end) s →
  wp (m ≫= f) Q s.
Proof. unfold wp, mbind, M_bind. by destruct (m s) as [[] ?]. Qed.

Lemma wp_modify_bind g (k : M S B) : wp k Q (g s) → wp (modify g ;; k) Q s.
Proof. done. Qed.

Lemma wp_gets_bind (g : S → A) k : wp (k (g s)) Q s → wp (gets g ≫= k) Q s.
Proof. done. Qed.

Lemma wp_getS_bind k : wp (k s) Q s → wp (getS ≫= k) Q s.
Proof. done. Qed.

Lemma wp_ret_bind (a : A) k : wp (k a) Q s → wp (mret a ≫= k) Q s.
Proof. done. Qed.

Lemma wp_lift_bind (r : res A) k :
  (∀ a, r = Ok a → wp (k a) Q s) → (∀ e, r = Exc e → Q (Exc e) s) →
  (r = Stuck → Q Stuck s) → wp (lift r ≫= k) Q s.
Proof. intros HO HE HS. destruct r; [by apply HO|by apply HE|by apply HS]. Qed.

Lemma wp_assoc {C} (m : M S C) (f : C → M S A) (k : A → M S B) :
  wp (m ≫= λ c, f c ≫= k) Q s → wp ((m ≫= f) ≫= k) Q s.
Proof. unfold wp, mbind, M_bind. by destruct (m s) as [[] ?]. Qed.

Lemma wp_raise e : Q (Exc e) s → wp (raise e) Q s.
Proof. done. Qed.

Lemma wp_raise_bind e (k : A → M S B) : Q (Exc e) s → wp (raise e ≫= k) Q s.
Proof. done. Qed.

Lemma wp_ret b : Q (Ok b) s → wp (mret b) Q s.
Proof. done. Qed.

Lemma wp_mono (Q' : res B → S → Prop) m :
  wp m Q' s → (∀ r s', Q' r s' → Q r s') → wp m Q s.
Proof. unfold wp. auto. Qed.
End wp.

Lemma wp_modify {S} Q (s : S) g : Q (Ok tt) (g s) → wp (modify g) Q s.
Proof. done. Qed.

Lemma wp_skip {S} Q (s : S) : Q (Ok tt) s → wp skip Q s.
Proof. done. Qed.

Lemma wp_skip_bind {S B} Q (s : S) (k : M S B) : wp k Q s → wp (skip ;; k) Q s.
Proof. done. Qed.

Lemma wp_try_except {S A} (Q : res A → S → Prop) s (catches : exn → bool) (m : M S A) h :
  wp m (λ r s', match r with
                | Exc e => if catches e then wp (h e) Q s' else Q (Exc e) s'
                | Ok a => Q (Ok a) s'
                | Stuck => Q Stuck s'
                end) s →
  wp (try_except catches m h) Q s.
Proof.
  unfold wp, try_except. destruct (m s) as [[a|e|] s']; cbn; try done.
  by destruct (catches e).
Qed.

Lemma wp_zoom {S T A} (get : S → T) set (m : M T A) Q s :
  wp m (λ r t, Q r (set t s)) (get s) → wp (zoom get set m) Q s.
Proof. unfold wp, zoom. by destruct (m (get s)). Qed.

(** Symbolic execution of straight-line code. *)
Ltac wp_step :=
  lazymatch goal with
  | |- wp (modify _ ≫= _) _ _ => apply wp_modify_bind
  | |- wp (modify _) _ _ => apply wp_modify
  | |- wp (gets _ ≫= _) _ _ => apply wp_gets_bind
  | |- wp (getS ≫= _) _ _ => apply wp_getS_bind
  | |- wp (mret _ ≫= _) _ _ => apply wp_ret_bind
  | |- wp (lift _ ≫= _) _ _ => apply wp_lift_bind; [intros ? ?|intros ? ?|intros ?]
  | |- wp (raise _ ≫= _) _ _ => apply wp_raise_bind
  | |- wp (skip ≫= _) _ _ => apply wp_skip_bind
  | |- wp ((_ ≫= _) ≫= _) _ _ => apply wp_assoc
  | |- wp (raise _) _ _ => apply wp_raise
  | |- wp (mret _) _ _ => apply wp_ret
  | |- wp skip _ _ => apply wp_skip
  | |- wp (if ?b then _ else _) _ _ => destruct b eqn:?
  | |- wp ((if ?b then _ else _) ≫= _) _ _ => destruct b eqn:?
  | |- wp (match ?b with _ => _ end) _ _ => destruct b eqn:?
  end.

(** ** Generic list lemmas *)

Lemma slice_length {A} i j (l : list A) :
  length (slice i j l) = Nat.min (j - i) (length l - i).
Proof. unfold slice. by rewrite length_take, length_drop. Qed.

Lemma blen_nonneg {A} (l : list A) : (0 ≤ blen l)%Z.
Proof. unfold blen. lia. Qed.

Lemma blen_app {A} (l1 l2 : list A) : blen (l1 ++ l2) = (blen l1 + blen l2)%Z.
Proof. unfold blen. rewrite length_app. lia. Qed.

Lemma slice_full {A} i j (l : list A) :
  i ≤ j → j ≤ length l → length (slice i j l) = j - i.
Proof. intros. rewrite slice_length. lia. Qed.

Lemma slice_app_mid {A} (l1 l2 l3 : list A) i j :
  i = length l1 → j = length l1 + length l2 →
  slice i j (l1 ++ l2 ++ l3) = l2.
Proof.
  intros -> ->. unfold slice. rewrite drop_app_length.
  replace (length l1 + length l2 - length l1) with (length l2) by lia.
  apply take_app_length.
Qed.

Lemma take_drop_cons_lookup {A} (l : list A) i x :
  l !! i = Some x → drop i l = x :: drop (S i) l.
Proof. apply drop_S. Qed.

Lemma bytes_ok_app bs1 bs2 : bytes_ok (bs1 ++ bs2) ↔ bytes_ok bs1 ∧ bytes_ok bs2.
Proof. apply Forall_app. Qed.

Lemma bytes_ok_take n bs : bytes_ok bs → bytes_ok (take n bs).
Proof. apply Forall_take. Qed.

Lemma bytes_ok_drop n bs : bytes_ok bs → bytes_ok (drop n bs).
Proof. apply Forall_drop. Qed.

Lemma bytes_ok_slice i j bs : bytes_ok bs → bytes_ok (slice i j bs).
Proof. intros. unfold slice. by apply bytes_ok_take, bytes_ok_drop. Qed.

Lemma bytes_ok_zeros n : bytes_ok (zeros n).
Proof. apply Forall_replicate. unfold is_byte. lia. Qed.

Lemma bytes_ok_lookup bs i b : bytes_ok bs → bs !! i = Some b → is_byte b.
Proof. intros Hok Hi. by eapply Forall_lookup_1 in Hi. Qed.

Lemma byteb_spec b : byteb b = true ↔ is_byte b.
Proof. unfold byteb, is_byte. rewrite andb_true_iff, Z.leb_le, Z.ltb_lt. done. Qed.

Create HintDb bytes.
#[export] Hint Resolve bytes_ok_take bytes_ok_drop bytes_ok_slice
  bytes_ok_zeros : bytes.
