(* ===== verification/Sorting.v ===== *)
(** * Sorting: Python's stable [sorted] with a key

    [sorted(l, key=k)] compares keys with [<] only and keeps the order of
    elements neither of which is before the other. *)

From Stdlib Require Import Sorting.Sorted.
From S2P Require Export Prelude.

(** ** The sort *)

Section sort.
Context {A : Type} (before : A → A → bool).

(** [x] goes in front of the first element that is not before it. *)
Fixpoint insert_by (x : A) (l : list A) : list A :=
  match l with
  | [] => [x]
  | y :: l' => if before y x then y :: insert_by x l' else x :: l
  end.

Fixpoint sort_by (l : list A) : list A :=
  match l with [] => [] | x :: l' => insert_by x (sort_by l') end.

(** What [<] on keys is: a strict weak order. *)
Class StrictWeak : Prop := {
  before_asym x y : before x y = true → before y x = false;
  not_before_trans x y z :
    before x y = false → before y z = false → before x z = false;
}.

Definition in_order (x y : A) : Prop := before y x = false.

Lemma insert_by_perm x l : insert_by x l ≡ₚ x :: l.
Proof.
  induction l as [|y l IH]; [done|]. cbn. destruct (before y x); [|done].
  rewrite IH. apply Permutation_swap.
Qed.

Lemma sort_by_perm l : sort_by l ≡ₚ l.
Proof. induction l as [|x l IH]; [done|]. cbn. by rewrite insert_by_perm, IH. Qed.

Lemma elem_of_sort_by x l : x ∈ sort_by l ↔ x ∈ l.
Proof. by rewrite sort_by_perm. Qed.

Lemma insert_by_sorted `{!StrictWeak} x l :
  StronglySorted in_order l → StronglySorted in_order (insert_by x l).
Proof.
  induction 1 as [|y l Hl IH Hy]; cbn; [by repeat constructor|].
  destruct (before y x) eqn:E.
  - constructor; [done|]. rewrite insert_by_perm. constructor; [|done].
    by apply before_asym.
  - constructor; [by constructor|]. constructor; [done|].
    eapply Forall_impl; [exact Hy|]. intros z Hz. by eapply not_before_trans.
Qed.

Lemma sort_by_sorted `{!StrictWeak} l : StronglySorted in_order (sort_by l).
Proof. induction l as [|x l IH]; cbn; [constructor|by apply insert_by_sorted]. Qed.

(** Elements none of which is before another keep their order. *)
Lemma insert_by_filter (P : A → Prop) `{!∀ x, Decision (P x)} x l :
  (∀ y, y ∈ l → P x → P y → before y x = false) →
  filter P (insert_by x l) = filter P (x :: l).
Proof.
  induction l as [|y l IH]; [done|]. intros Hl. cbn [insert_by].
  destruct (before y x) eqn:E; [|done].
  rewrite (filter_cons _ y), IH by (intros; apply Hl; [by right|done|done]).
  rewrite !filter_cons. destruct (decide (P x)) as [HPx|]; [|done].
  destruct (decide (P y)) as [HPy|]; [|done].
  rewrite (Hl y) in E; [done|by left|done|done].
Qed.

Lemma sort_by_stable (P : A → Prop) `{!∀ x, Decision (P x)} l :
  (∀ x y, x ∈ l → y ∈ l → P x → P y → before x y = false) →
  filter P (sort_by l) = filter P l.
Proof.
  induction l as [|x l IH]; [done|]. intros Hl. cbn [sort_by].
  rewrite insert_by_filter.
  - rewrite !filter_cons, IH; [done|]. intros. apply Hl; [by right|by right|done|done].
  - intros y Hy Hx HPy. apply Hl; [|by left|done|done]. right. by apply elem_of_sort_by.
Qed.
End sort.

(** ** Orders *)

Section orders.
Implicit Types s t u : string.

Lemma ltb_leb s t : String.ltb s t = negb (String.leb t s).
Proof.
  unfold String.ltb, String.leb. rewrite (String.compare_antisym t s).
  by destruct (String.compare s t).
Qed.

Lemma ascii_compare_eq a b : Ascii.compare a b = Eq → a = b.
Proof. apply Ascii.compare_eq_iff. Qed.

Lemma string_compare_trans s : ∀ t u,
  String.compare s t ≠ Gt → String.compare t u ≠ Gt → String.compare s u ≠ Gt.
Proof.
  induction s as [|a s IH]; intros [|b t] [|c u]; cbn; try done.
  destruct (Ascii.compare a b) eqn:Eab; [| |done];
    destruct (Ascii.compare b c) eqn:Ebc; try done; intros H1 H2.
  - apply ascii_compare_eq in Eab, Ebc as ->. subst.
    destruct (Ascii.compare c c) eqn:E; [by eapply IH|done|].
    unfold Ascii.compare in E. by rewrite N.compare_refl in E.
  - apply ascii_compare_eq in Eab as ->. by rewrite Ebc.
  - apply ascii_compare_eq in Ebc as ->. by rewrite Eab.
  - replace (Ascii.compare a c) with Lt; [done|]. symmetry.
    unfold Ascii.compare in *. rewrite N.compare_lt_iff in *. lia.
Qed.

#[export] Instance string_strict_weak : StrictWeak String.ltb.
Proof.
  split.
  - intros s t. rewrite !ltb_leb, negb_true_iff, negb_false_iff. intros H.
    by destruct (String.leb_total s t) as [|H']; [|rewrite H in H'].
  - intros s t u. rewrite !ltb_leb, !negb_false_iff. unfold String.leb.
    intros H1 H2. pose proof (string_compare_trans u t s) as H.
    destruct (String.compare u t), (String.compare t s), (String.compare u s);
      try done; exfalso; by apply H.
Qed.

(** Pairs are compared by their first component, then by their second. *)
Definition lex {A B} (lt1 : A → A → bool) (lt2 : B → B → bool) (x y : A * B) : bool :=
  lt1 x.1 y.1 || (negb (lt1 y.1 x.1) && lt2 x.2 y.2).

#[export] Instance Z_strict_weak : StrictWeak Z.ltb.
Proof. split; intros; lia. Qed.

#[export] Instance lex_strict_weak {A B} (lt1 : A → A → bool) (lt2 : B → B → bool) :
  StrictWeak lt1 → StrictWeak lt2 → StrictWeak (lex lt1 lt2).
Proof.
  intros H1 H2. unfold lex. split.
  - intros [a b] [c d]; cbn. destruct (lt1 a c) eqn:E1; cbn.
    + rewrite (before_asym lt1 _ _ E1). done.
    + destruct (lt1 c a) eqn:E2; cbn; [done|]. apply (before_asym lt2).
  - intros [a b] [c d] [e f]; cbn.
    destruct (lt1 a c) eqn:E1, (lt1 c e) eqn:E2; cbn; try done.
    rewrite (not_before_trans lt1 _ _ _ E1 E2); cbn.
    destruct (lt1 c a) eqn:E3, (lt1 e c) eqn:E4; cbn; intros Hbd Hdf.
    + destruct (lt1 e a) eqn:E5; [done|]. exfalso.
      pose proof (not_before_trans lt1 c e a E2 E5). congruence.
    + destruct (lt1 e a) eqn:E5; [done|]. exfalso.
      pose proof (not_before_trans lt1 c e a E2 E5). congruence.
    + destruct (lt1 e a) eqn:E5; [done|]. exfalso.
      pose proof (not_before_trans lt1 e a c E5 E1). congruence.
    + destruct (lt1 e a); [done|]. cbn. by eapply not_before_trans.
Qed.

#[export] Instance strict_weak_key {A B} (lt : B → B → bool) (key : A → B) :
  StrictWeak lt → StrictWeak (λ x y, lt (key x) (key y)).
Proof. intros [Ha Ht]. split; eauto. Qed.
End orders.
