(* ===== verification/Bytes.v ===== *)
(** * Bytes: Python's struct module and integer/byte conversions

    The little-endian encoders and decoders every other file uses:
    [struct.pack], [struct.unpack], [int.from_bytes(.., "little")] and
    [bytes([..])], each raising what Python raises out of range. *)

From S2P Require Export Prelude.
#[local] Open Scope Z_scope.

(** ** Little-endian conversion *)

(** [int.from_bytes(bs, "little")]. *)
Fixpoint le_Z (bs : bytes) : Z :=
  match bs with
  | [] => 0
  | b :: bs' => b + 256 * le_Z bs'
  end.

(** The [n] low octets of [v], least significant first. *)
Fixpoint le_bytes (n : nat) (v : Z) : bytes :=
  match n with
  | O => []
  | S n' => v mod 256 :: le_bytes n' (v / 256)
  end.

(** ** struct.pack *)

(** One field of a little-endian format: B, H, I, b, h or raw octets. *)
Inductive field : Type :=
  | FB (v : Z) | FH (v : Z) | FI (v : Z) | Fb (v : Z) | Fh (v : Z) | FS (bs : bytes).

Definition pack_le (n : nat) (v : Z) : res bytes :=
  if ((0 <=? v) && (v <? 256 ^ Z.of_nat n)) then Ok (le_bytes n v)
  else Exc StructError.

Definition pack_field (f : field) : res bytes :=
  match f with
  | FB v => pack_le 1 v
  | FH v => pack_le 2 v
  | FI v => pack_le 4 v
  | Fb v => if ((-128 <=? v) && (v <? 128)) then Ok [v mod 256]
            else Exc StructError
  | Fh v => if ((-32768 <=? v) && (v <? 32768)) then Ok (le_bytes 2 (v mod 65536))
            else Exc StructError
  | FS bs => Ok bs
  end.

(** [struct.pack("<...", fields)]. *)
Fixpoint pack (fs : list field) : res bytes :=
  match fs with
  | [] => Ok []
  | f :: fs' =>
      match pack_field f with
      | Ok bs => match pack fs' with
                 | Ok rest => Ok (bs ++ rest)
                 | Exc e => Exc e
                 | Stuck => Stuck
                 end
      | Exc e => Exc e
      | Stuck => Stuck
      end
  end.

(** [bytes([..])]: ValueError outside 0..255. *)
Definition mkbytes (l : list Z) : res bytes :=
  if forallb byteb l then Ok l
  else Exc (ValueError (Lit "bytes must be in range(0, 256)")).

(** [(v).to_bytes(n, "little")]: OverflowError out of range, a ValueError
    here since nothing tells the two apart. *)
Definition to_bytes_le (n : nat) (v : Z) : res bytes :=
  if ((0 <=? v) && (v <? 256 ^ Z.of_nat n)) then Ok (le_bytes n v)
  else Exc (ValueError (Lit "int too big to convert")).

(** ** struct.unpack of one field *)

Definition unpack_le (n : nat) (bs : bytes) : res Z :=
  if decide (length bs = n) then Ok (le_Z bs) else Exc StructError.

(** [struct.unpack("<H", bs)[0]], ["<I"] and ["<b"]. *)
Definition unpack_H (bs : bytes) : res Z := unpack_le 2 bs.
Definition unpack_I (bs : bytes) : res Z := unpack_le 4 bs.
Definition signed8 (b : Z) : Z := if b <? 128 then b else b - 256.
Definition unpack_b (bs : bytes) : res Z :=
  match bs with [b] => Ok (signed8 b) | _ => Exc StructError end.

(** [struct.unpack("<HH", bs)]: exactly four octets. *)
Definition unpack_HH (bs : bytes) : res (Z * Z) :=
  if decide (length bs = 4%nat)
  then Ok (le_Z (take 2 bs), le_Z (drop 2 bs)) else Exc StructError.

(** [struct.unpack("<HHH", bs)]: exactly six octets. *)
Definition unpack_HHH (bs : bytes) : res (Z * Z * Z) :=
  if decide (length bs = 6%nat)
  then Ok (le_Z (slice 0 2 bs), le_Z (slice 2 4 bs), le_Z (slice 4 6 bs))
  else Exc StructError.

(** [struct.unpack("<HBHB", bs)]: exactly six octets. *)
Definition unpack_HBHB (bs : bytes) : res (Z * Z * Z * Z) :=
  if decide (length bs = 6%nat)
  then Ok (le_Z (slice 0 2 bs), le_Z (slice 2 3 bs),
           le_Z (slice 3 5 bs), le_Z (slice 5 6 bs))
  else Exc StructError.

(** [x & 0x0FFF], the connection handle of a handle-and-flags field. *)
Definition mask12 (v : Z) : Z := Z.land v 0x0FFF.
(** [x & 0x3FFF], the 14-bit ISO data load length. *)
Definition mask14 (v : Z) : Z := Z.land v 0x3FFF.

(** ** Lemmas *)

Lemma length_le_bytes n v : length (le_bytes n v) = n.
Proof. revert v. induction n; cbn; intros; [done|]. by rewrite IHn. Qed.

Lemma blen_le_bytes n v : blen (le_bytes n v) = Z.of_nat n.
Proof. unfold blen. by rewrite length_le_bytes. Qed.

Lemma le_bytes_ok n v : bytes_ok (le_bytes n v).
Proof.
  revert v. induction n; cbn; intros v; constructor; [|apply IHn].
  unfold is_byte. apply Z.mod_pos_bound. lia.
Qed.

Lemma pow256_S n : 256 ^ Z.of_nat (S n) = 256 * 256 ^ Z.of_nat n.
Proof. rewrite Nat2Z.inj_succ, Z.pow_succ_r; lia. Qed.

Lemma pow256_pos n : 0 < 256 ^ Z.of_nat n.
Proof. apply Z.pow_pos_nonneg; lia. Qed.

Lemma le_Z_le_bytes n v : le_Z (le_bytes n v) = v mod 256 ^ Z.of_nat n.
Proof.
  revert v. induction n as [|n IH]; intros v; [by rewrite Z.mod_1_r|].
  cbn [le_bytes le_Z]. rewrite IH, pow256_S.
  pose proof (pow256_pos n). rewrite Z.rem_mul_r; lia.
Qed.

Lemma le_Z_le_bytes_small n v :
  0 ≤ v < 256 ^ Z.of_nat n → le_Z (le_bytes n v) = v.
Proof. intros. rewrite le_Z_le_bytes. by apply Z.mod_small. Qed.

Lemma le_Z_bound bs : bytes_ok bs → 0 ≤ le_Z bs < 256 ^ blen bs.
Proof.
  unfold blen. induction 1 as [|b bs Hb _ IH]; [done|].
  cbn [le_Z length]. rewrite pow256_S. unfold is_byte in Hb. nia.
Qed.

Lemma le_bytes_le_Z bs : bytes_ok bs → le_bytes (length bs) (le_Z bs) = bs.
Proof.
  induction 1 as [|b bs Hb _ IH]; [done|]. cbn [length le_Z le_bytes].
  unfold is_byte in Hb. f_equal.
  - rewrite Z.mul_comm, Z_mod_plus_full. apply Z.mod_small. lia.
  - rewrite Z.mul_comm, Z.div_add, Z.div_small by lia. by rewrite Z.add_0_l.
Qed.

Lemma le_bytes_mod n v : le_bytes n v = le_bytes n (v mod 256 ^ Z.of_nat n).
Proof.
  rewrite <-le_Z_le_bytes. pose proof (le_bytes_le_Z _ (le_bytes_ok n v)) as E.
  by rewrite length_le_bytes in E.
Qed.

Lemma le_Z_app bs1 bs2 :
  le_Z (bs1 ++ bs2) = le_Z bs1 + 256 ^ blen bs1 * le_Z bs2.
Proof.
  unfold blen. induction bs1 as [|b bs1 IH]; cbn [app le_Z length]; [lia|].
  rewrite IH, pow256_S. ring.
Qed.

Lemma pack_le_ok n v :
  0 ≤ v < 256 ^ Z.of_nat n → pack_le n v = Ok (le_bytes n v).
Proof.
  intros [? ?]. unfold pack_le.
  by rewrite (proj2 (Z.leb_le _ _)), (proj2 (Z.ltb_lt _ _)) by done.
Qed.

Lemma pack_le_inv n v bs :
  pack_le n v = Ok bs → 0 ≤ v < 256 ^ Z.of_nat n ∧ bs = le_bytes n v.
Proof.
  unfold pack_le. destruct (0 <=? v) eqn:H1, (v <? _) eqn:H2; cbn; try done.
  intros [= <-]. apply Z.leb_le in H1. apply Z.ltb_lt in H2. done.
Qed.

(** Packing then unpacking an [n]-octet field gives the value back. *)
Lemma unpack_pack_le n v bs : pack_le n v = Ok bs → unpack_le n bs = Ok v.
Proof.
  intros [? ->]%pack_le_inv. unfold unpack_le.
  rewrite decide_True by apply length_le_bytes.
  by rewrite le_Z_le_bytes_small.
Qed.

Lemma mask12_spec v : mask12 v = v mod 4096.
Proof. unfold mask12. change 4095 with (Z.ones 12). by rewrite Z.land_ones. Qed.

Lemma mask14_spec v : mask14 v = v mod 16384.
Proof. unfold mask14. change 16383 with (Z.ones 14). by rewrite Z.land_ones. Qed.

(** Fields in the range of their format. *)
Definition field_ok (f : field) : Prop :=
  match f with
  | FB v => 0 ≤ v < 256
  | FH v => 0 ≤ v < 65536
  | FI v => 0 ≤ v < 4294967296
  | Fb v => -128 ≤ v < 128
  | Fh v => -32768 ≤ v < 32768
  | FS bs => bytes_ok bs
  end.

Definition field_size (f : field) : nat :=
  match f with
  | FB _ | Fb _ => 1 | FH _ | Fh _ => 2 | FI _ => 4 | FS bs => length bs
  end.

(** A computation of octets that succeeds with [n] of them. *)
Definition built (r : res bytes) (n : nat) : Prop :=
  ∃ bs, r = Ok bs ∧ bytes_ok bs ∧ length bs = n.

Lemma pack_field_ok f : field_ok f → built (pack_field f) (field_size f).
Proof.
  unfold built. destruct f as [v|v|v|v|v|bs]; cbn [field_ok pack_field field_size]; intros Hf.
  - rewrite (pack_le_ok 1) by (cbn; lia). eauto using le_bytes_ok, length_le_bytes.
  - rewrite (pack_le_ok 2) by (cbn; lia). eauto using le_bytes_ok, length_le_bytes.
  - rewrite (pack_le_ok 4) by (cbn; lia). eauto using le_bytes_ok, length_le_bytes.
  - rewrite (proj2 (Z.leb_le _ _)), (proj2 (Z.ltb_lt _ _)) by lia. cbn.
    eexists. split_and!; [done| |done]. repeat constructor; apply Z.mod_pos_bound; lia.
  - rewrite (proj2 (Z.leb_le _ _)), (proj2 (Z.ltb_lt _ _)) by lia. cbn [andb].
    eauto using le_bytes_ok, length_le_bytes.
  - eauto.
Qed.

Lemma built_pack fs : Forall field_ok fs → built (pack fs) (sum_list_with field_size fs).
Proof.
  induction 1 as [|f fs Hf _ IH]; cbn; [exists []; by split_and!; [|constructor|]|].
  destruct (pack_field_ok f Hf) as (a&->&Ha&<-), IH as (b&->&Hb&<-).
  exists (a ++ b). split_and!; [done|by apply bytes_ok_app|apply length_app].
Qed.

Lemma pack_struct_error fs e : pack fs = Exc e → e = StructError.
Proof.
  revert e. induction fs as [|f fs IH]; intros e; cbn; [done|].
  assert (Hf : ∀ e, pack_field f = Exc e → e = StructError).
  { intros e'. destruct f; cbn; unfold pack_le; repeat case_match; congruence. }
  destruct (pack_field f) as [b|e'|] eqn:Ef; [|intros [= <-]; by apply Hf|done].
  destruct (pack fs) as [b'|e'|] eqn:Efs; [done|intros [= <-]; by apply IH|done].
Qed.

Lemma mkbytes_ok l : bytes_ok l → mkbytes l = Ok l.
Proof.
  intros H. unfold mkbytes. replace (forallb byteb l) with true; [done|].
  symmetry. apply forallb_forall. intros x Hx.
  apply byteb_spec. eapply Forall_forall; [exact H|]. by apply list_elem_of_In.
Qed.

Lemma mkbytes_inv l bs : mkbytes l = Ok bs → bs = l ∧ bytes_ok l.
Proof.
  unfold mkbytes. destruct (forallb byteb l) eqn:E; [|done]. intros [= <-].
  split; [done|]. apply Forall_forall. intros x Hx.
  rewrite forallb_forall in E. apply byteb_spec, E. by apply list_elem_of_In.
Qed.

Lemma pack_not_stuck fs : pack fs ≠ Stuck.
Proof.
  induction fs as [|f fs IH]; cbn; [done|].
  destruct f; cbn; unfold pack_le; repeat case_match; cbn; congruence.
Qed.

Lemma mkbytes_not_stuck l : mkbytes l ≠ Stuck.
Proof. unfold mkbytes. by destruct (forallb byteb l). Qed.

(** Computations on data end; the tactic decomposes them. *)
Lemma bind_total {A B} (r : res A) (f : A → res B) :
  r ≠ Stuck → (∀ a, f a ≠ Stuck) → (r ≫= f) ≠ Stuck.
Proof. intros Hr Hf. destruct r; [apply Hf|done|done]. Qed.

(** A decoder ends, and raises only what slicing and indexing raise. *)
Definition decodes {A} (r : res A) : Prop :=
  r ≠ Stuck ∧ ∀ e, r = Exc e → e = StructError ∨ e = IndexError.

Lemma decodes_ok {A} (a : A) : decodes (Ok a).
Proof. by split. Qed.
Lemma decodes_idx {A} (l : list A) i : decodes (idx l i).
Proof. unfold idx, decodes. case_match; split; try done. intros ? [= <-]. by right. Qed.
Lemma decodes_unpack n l : decodes (unpack_le n l).
Proof. unfold unpack_le, decodes. case_decide; split; try done. intros ? [= <-]. by left. Qed.
Lemma decodes_unpack_b l : decodes (unpack_b l).
Proof.
  unfold unpack_b, decodes. repeat case_match; split; try done; intros ? [= <-]; by left.
Qed.
Lemma decodes_unpack_HH l : decodes (unpack_HH l).
Proof. unfold unpack_HH, decodes. case_decide; split; try done. intros ? [= <-]. by left. Qed.
Lemma decodes_bind {A B} (r : res A) (f : A → res B) :
  decodes r → (∀ a, decodes (f a)) → decodes (r ≫= f).
Proof. intros [Hs He] Hf. destruct r; [apply Hf|split; [done|intros ? [= <-]; by apply He]|done]. Qed.

Lemma unpack_HBHB_total bs : unpack_HBHB bs ≠ Stuck.
Proof. unfold unpack_HBHB. by case_decide. Qed.

Ltac total :=
  repeat first
    [ discriminate | assumption | apply mkbytes_not_stuck | apply pack_not_stuck
    | apply (proj1 (decodes_idx _ _)) | apply (proj1 (decodes_unpack _ _))
    | apply (proj1 (decodes_unpack_b _)) | apply unpack_HBHB_total
    | apply bind_total; [|intros ?] | case_match ].

Ltac decode :=
  repeat first
    [ apply decodes_ok | apply decodes_idx | apply decodes_unpack | apply decodes_unpack_b
    | apply decodes_unpack_HH
    | assumption | apply decodes_bind; [|intros ?] | case_match ].

#[export] Hint Resolve le_bytes_ok pack_not_stuck mkbytes_not_stuck : bytes.
