(* ===== verification/HciEvents.v ===== *)
(** * HciEvents: the HCI vocabulary (hci_events.py)

    Packet and event codes, error names, the packet value the transports hand
    to the host engine, and the decoding of connection-complete events. *)

From S2P Require Export Bytes.
#[local] Open Scope Z_scope.

(** ** Packet indicators and event codes *)

Definition H4_COMMAND : Z := 0x01.
Definition H4_ACL : Z := 0x02.
Definition H4_SCO : Z := 0x03.
Definition H4_EVENT : Z := 0x04.
Definition H4_ISO : Z := 0x05.

Definition EVT_DISCONNECTION_COMPLETE : Z := 0x05.
Definition EVT_ENCRYPTION_CHANGE : Z := 0x08.
Definition EVT_COMMAND_COMPLETE : Z := 0x0E.
Definition EVT_COMMAND_STATUS : Z := 0x0F.
Definition EVT_NUM_COMPLETED_PACKETS : Z := 0x13.
Definition EVT_LE_META : Z := 0x3E.

Definition LE_CONNECTION_COMPLETE : Z := 0x01.
Definition LE_ADVERTISING_REPORT : Z := 0x02.
Definition LE_CONNECTION_UPDATE_COMPLETE : Z := 0x03.
Definition LE_READ_REMOTE_FEATURES_COMPLETE : Z := 0x04.
Definition LE_LONG_TERM_KEY_REQUEST : Z := 0x05.
Definition LE_DATA_LENGTH_CHANGE : Z := 0x07.
Definition LE_ENHANCED_CONNECTION_COMPLETE : Z := 0x0A.
Definition LE_PHY_UPDATE_COMPLETE : Z := 0x0C.
Definition LE_EXTENDED_ADVERTISING_REPORT : Z := 0x0D.
Definition LE_ENHANCED_CONNECTION_COMPLETE_V2 : Z := 0x29.

Definition LE_CONNECTION_COMPLETE_LEN : nat := 18.
Definition LE_ENHANCED_CONNECTION_COMPLETE_LEN : nat := 30.

Definition ERROR_NAMES : list (Z * string) :=
  [ (0x00, "Success"); (0x01, "Unknown HCI Command");
    (0x02, "Unknown Connection Identifier"); (0x08, "Connection Timeout");
    (0x0C, "Command Disallowed");
    (0x11, "Unsupported Feature or Parameter Value");
    (0x12, "Invalid HCI Command Parameters");
    (0x13, "Remote User Terminated Connection");
    (0x16, "Connection Terminated By Local Host");
    (0x1A, "Unsupported Remote Feature"); (0x3A, "Controller Busy");
    (0x3E, "Connection Failed To Be Established");
    (0x41, "Unacceptable Connection Parameters");
    (0x42, "Unknown Advertising Identifier"); (0x43, "Limit Reached");
    (0x44, "Operation Cancelled By Host") ]%string.

(** [ERROR_NAMES.get(status, "")]. *)
Definition error_name (status : Z) : string :=
  match List.find (λ kv, fst kv =? status) ERROR_NAMES with
  | Some (_, name) => name
  | None => ""%string
  end.

Definition status_text (status : Z) : list arg :=
  [AInt status; AStr (error_name status)].

(** ** Packets as the transports return them: (kind, code, body) *)

Record packet : Type := Pkt { kind : Z; code : option Z; body : bytes }.

#[export] Instance packet_eq_dec : EqDecision packet.
Proof. solve_decision. Defined.

(** [kind == H4_EVENT and code == c]. *)
Definition is_event (c : Z) (p : packet) : bool :=
  (kind p =? H4_EVENT) && bool_decide (code p = Some c).

(** What every transport promises of the packets it hands out: an event has a
    code and at most 255 parameter octets, an ACL or ISO packet has its whole
    four-octet header and exactly the payload the header declares. *)
Definition packet_wf (p : packet) : Prop :=
  (kind p = H4_EVENT ∧ is_Some (code p) ∧ blen (body p) ≤ 255) ∨
  (kind p = H4_ACL ∧ code p = None ∧ (4 ≤ length (body p))%nat ∧
     blen (body p) = 4 + le_Z (slice 2 4 (body p))) ∨
  (kind p = H4_ISO ∧ code p = None ∧ (4 ≤ length (body p))%nat ∧
     blen (body p) = 4 + mask14 (le_Z (slice 2 4 (body p)))).

#[export] Instance packet_wf_dec p : Decision (packet_wf p).
Proof. unfold packet_wf; apply _. Defined.

(** A packet as it arrives: well formed, its body octets. *)
Definition packet_ok (p : packet) : Prop := packet_wf p ∧ bytes_ok (body p).

#[export] Instance packet_ok_dec p : Decision (packet_ok p).
Proof. unfold packet_ok; apply _. Defined.

(** ** Connection complete events *)

Record conn_info : Type := ConnInfo {
  ci_status : Z; ci_handle : Z; ci_role : Z; ci_peer : bytes;
  ci_interval : Z; ci_latency : Z; ci_timeout : Z }.

(** The fields both layouts share: status, handle, role and peer address. *)
Definition connection_fields (body : bytes) (triple : Z * Z * Z)
    : res (option conn_info) :=
  status ← idx body 1;
  raw ← unpack_H (slice 2 4 body);
  role ← idx body 4;
  let '(interval, latency, timeout) := triple in
  Ok (Some (ConnInfo status (mask12 raw) role (slice 6 12 body)
              interval latency timeout)).

Definition parse_connection (body : bytes) : res (option conn_info) :=
  match body with
  | [] => Ok None
  | sub :: _ =>
      if sub =? LE_CONNECTION_COMPLETE then
        if (length body <? LE_CONNECTION_COMPLETE_LEN)%nat then Ok None
        else (t ← unpack_HHH (slice 12 18 body); connection_fields body t)
      else if (sub =? LE_ENHANCED_CONNECTION_COMPLETE)
              || (sub =? LE_ENHANCED_CONNECTION_COMPLETE_V2) then
        if (length body <? LE_ENHANCED_CONNECTION_COMPLETE_LEN)%nat then Ok None
        else (t ← unpack_HHH (slice 24 30 body); connection_fields body t)
      else Ok None
  end.

(** ** Reference layouts of the two connection-complete forms *)

(** The legacy event body (Vol 4 Part E 7.7.65.1) of given fields. *)
Definition legacy_connection (status handle role peer_type : Z) (peer : bytes)
    (interval latency timeout : Z) (rest : bytes) : bytes :=
  [LE_CONNECTION_COMPLETE; status] ++ le_bytes 2 handle ++ [role; peer_type]
  ++ peer ++ le_bytes 2 interval ++ le_bytes 2 latency ++ le_bytes 2 timeout
  ++ rest.

(** The enhanced event body, version [sub]: two resolvable private addresses
    sit between the peer address and the interval. *)
Definition enhanced_connection (sub status handle role peer_type : Z)
    (peer local_rpa peer_rpa : bytes)
    (interval latency timeout : Z) (rest : bytes) : bytes :=
  [sub; status] ++ le_bytes 2 handle ++ [role; peer_type]
  ++ peer ++ local_rpa ++ peer_rpa
  ++ le_bytes 2 interval ++ le_bytes 2 latency ++ le_bytes 2 timeout ++ rest.

(** ** Lemmas *)

Lemma idx_ok {A} (l : list A) i : (i < length l)%nat → ∃ x, idx l i = Ok x.
Proof.
  intros Hi. destruct (lookup_lt_is_Some_2 l i Hi) as [x Hx].
  exists x. unfold idx. by rewrite Hx.
Qed.

Lemma unpack_H_ok bs : length bs = 2%nat → unpack_H bs = Ok (le_Z bs).
Proof. intros. unfold unpack_H, unpack_le. by rewrite decide_True. Qed.

Lemma unpack_HHH_ok bs : length bs = 6%nat → ∃ t, unpack_HHH bs = Ok t.
Proof. intros. unfold unpack_HHH. rewrite decide_True by done. eauto. Qed.

Lemma connection_fields_ok body t :
  (12 ≤ length body)%nat → ∃ ci, connection_fields body t = Ok (Some ci).
Proof.
  intros Hl. unfold connection_fields.
  destruct (idx_ok body 1) as [x ->]; [lia|].
  destruct (idx_ok body 4) as [y Hy]; [lia|].
  destruct t as [[a b] c]. cbn.
  rewrite unpack_H_ok by (rewrite slice_full; lia). cbn. rewrite Hy. by eauto.
Qed.

Lemma parse_connection_total (bs : bytes) :
  ∃ r, parse_connection bs = Ok r.
Proof.
  unfold parse_connection. destruct bs as [|sub rest] eqn:Eb; [eauto|].
  rewrite <-Eb. unfold LE_CONNECTION_COMPLETE_LEN, LE_ENHANCED_CONNECTION_COMPLETE_LEN.
  repeat case_match; eauto.
  - destruct (unpack_HHH_ok (slice 12 18 bs)) as [t ->].
    { rewrite slice_full; apply Nat.ltb_ge in H0; lia. }
    destruct (connection_fields_ok bs t) as [ci Hci]; [apply Nat.ltb_ge in H0; lia|].
    cbn. eauto.
  - destruct (unpack_HHH_ok (slice 24 30 bs)) as [t ->].
    { rewrite slice_full; apply Nat.ltb_ge in H1; lia. }
    destruct (connection_fields_ok bs t) as [ci Hci]; [apply Nat.ltb_ge in H1; lia|].
    cbn. eauto.
Qed.

(** A malformed event is ignorable: [parse_connection] returns None rather
    than raising for anything it cannot read, and otherwise a whole record. *)
Theorem parse_connection_never_raises (bs : bytes) :
  ∃ r, parse_connection bs = Ok r.
Proof. apply parse_connection_total. Qed.

Lemma peer_cases (peer : bytes) :
  length peer = 6%nat →
  ∃ a b c d e f, peer = [a; b; c; d; e; f].
Proof.
  destruct peer as [|a[|b[|c[|d[|e[|f[|]]]]]]]; cbn; try done. intros _. by eexists _, _, _, _, _, _.
Qed.

Lemma le_bytes_2 v : le_bytes 2 v = [v mod 256; (v / 256) mod 256].
Proof. done. Qed.

Lemma le_Z_pair v :
  0 ≤ v < 65536 → le_Z [v mod 256; (v / 256) mod 256] = v.
Proof. intros. rewrite <-le_bytes_2. by apply le_Z_le_bytes_small. Qed.

(** The two layouts decode to the fields they were built from, the two
    enhanced versions alike, whatever is appended after the fields. *)
Theorem parse_connection_layouts (status handle role peer_type : Z) (peer local_rpa
    peer_rpa : bytes) (interval latency timeout : Z) (rest : bytes)
    (Hpeer : length peer = 6%nat) (Hl : length local_rpa = 6%nat)
    (Hp : length peer_rpa = 6%nat) (Hh : 0 ≤ handle < 65536)
    (Hi : 0 ≤ interval < 65536) (Hla : 0 ≤ latency < 65536)
    (Ht : 0 ≤ timeout < 65536) :
  let ci := ConnInfo status (handle mod 4096) role peer interval latency timeout in
  parse_connection (legacy_connection status handle role peer_type peer
                      interval latency timeout rest) = Ok (Some ci) ∧
  ∀ sub, sub ∈ [LE_ENHANCED_CONNECTION_COMPLETE; LE_ENHANCED_CONNECTION_COMPLETE_V2] →
    parse_connection (enhanced_connection sub status handle role peer_type peer
       local_rpa peer_rpa interval latency timeout rest) = Ok (Some ci).
Proof.
  apply peer_cases in Hpeer as (p1&p2&p3&p4&p5&p6&->).
  apply peer_cases in Hl as (l1&l2&l3&l4&l5&l6&->).
  apply peer_cases in Hp as (r1&r2&r3&r4&r5&r6&->).
  cbn zeta. rewrite <-mask12_spec.
  assert (Hci : ConnInfo status (mask12 handle) role [p1;p2;p3;p4;p5;p6]
                  interval latency timeout =
    ConnInfo status (mask12 (le_Z (le_bytes 2 handle))) role [p1;p2;p3;p4;p5;p6]
      (le_Z (le_bytes 2 interval)) (le_Z (le_bytes 2 latency))
      (le_Z (le_bytes 2 timeout))).
  { by rewrite !le_Z_le_bytes_small. }
  rewrite Hci. split; [reflexivity|].
  intros sub [->|[->|[]%not_elem_of_nil]%elem_of_cons]%elem_of_cons; reflexivity.
Qed.

Lemma parse_connection_layouts_witness :
  length (zeros 6) = 6%nat ∧
  parse_connection (legacy_connection 0 0x0040 1 0 [1;2;3;4;5;6] 24 0 400 [])
    = Ok (Some (ConnInfo 0 0x0040 1 [1;2;3;4;5;6] 24 0 400)).
Proof.
  split; [reflexivity|].
  apply (parse_connection_layouts 0 0x0040 1 0 [1;2;3;4;5;6] (zeros 6) (zeros 6)
           24 0 400 []); (reflexivity || lia).
Defined.
