(* ===== verification/Transport.v ===== *)
(** * Transport: the packet-transport interface and the serial H:4 transport

    [Transport] is what the host engine needs of a wire transport
    (hci_transport.py): read one packet within a timeout, write one packet,
    ask whether input is pending. [TransportLaws] is what it relies on.
    Module [SerialH4] models [SerialH4Transport] over a scripted serial port
    and discharges the laws.

    Time is an integer number of microseconds. Only the operations that wait
    let it pass: reading an idle transport, and [time.sleep]. *)

From S2P Require Export HciEvents.
#[local] Open Scope Z_scope.

(** ** The interface *)

Class Transport (T : Type) : Type := {
  t_read_packet : Z → M (Z * T) (option packet);
  t_write_packet : bytes → M T unit;
  t_has_pending_input : M (Z * T) bool;
  (** Ghost observers: packets written so far, and a bound on the number of
      reads the input that is still to come can serve. *)
  t_sent : T → list bytes;
  t_backlog : T → nat;
  (** What holds of every state the transport can be in. *)
  t_wf : T → Prop;
}.

(** Reading never loses track of time, never touches the written packets and
    uses up input; a read that returns nothing has let its timeout pass or has
    used up input. *)
Definition read_frame `{Transport T} (s s' : Z * T) : Prop :=
  fst s ≤ fst s' ∧ t_sent (snd s') = t_sent (snd s) ∧
  (t_backlog (snd s') ≤ t_backlog (snd s))%nat.

#[export] Instance read_frame_preorder `{Transport T} :
  PreOrder (read_frame (T:=T)).
Proof.
  split; [by intros [? ?]; repeat split|].
  intros [? ?] [? ?] [? ?] (?&?&?) (?&?&?). unfold read_frame in *; cbn in *.
  repeat split; [lia|congruence|lia].
Qed.

Class TransportLaws (T : Type) `{Transport T} : Prop := {
  read_runs timeout :
    runs (λ s, t_wf (snd s)) read_frame (λ e, is_transport_error e = true)
      (t_read_packet (T:=T) timeout);
  read_some timeout now t p s' :
    t_wf t → t_read_packet timeout (now, t) = (Ok (Some p), s') →
    packet_ok p ∧ (t_backlog (snd s') < t_backlog t)%nat;
  read_none timeout now t s' :
    t_wf t → 0 < timeout → t_read_packet timeout (now, t) = (Ok None, s') →
    now + timeout ≤ fst s' ∨ (t_backlog (snd s') < t_backlog t)%nat;
  pending_runs :
    runs (λ s, t_wf (snd s)) read_frame (λ e, is_transport_error e = true)
      (t_has_pending_input (T:=T));
  write_runs bs :
    runs t_wf (λ t t', t_backlog t' = t_backlog t)
      (λ e, is_transport_error e = true) (t_write_packet (T:=T) bs);
  write_ok bs t t' :
    t_write_packet bs t = (Ok tt, t') → t_sent t' = t_sent t ++ [bs];
  write_exc bs t t' e :
    t_write_packet bs t = (Exc e, t') → t_sent t' = t_sent t;
}.

(** ** H:4 framing *)

Module H4.

(** The framed octets of a packet, as they travel on the UART. *)
Definition frame (p : packet) : bytes :=
  match code p with
  | Some c => [kind p; c; blen (body p)] ++ body p
  | None => kind p :: body p
  end.

(** [SerialH4Transport._expected_length]. *)
Definition expected_length (data : bytes) : res (option Z) :=
  match data with
  | [] => Ok None
  | kind :: _ =>
      if kind =? H4_EVENT then
        if (length data <? 3)%nat then Ok None
        else (n ← idx data 2; Ok (Some (3 + n)))
      else if kind =? H4_ACL then
        if (length data <? 5)%nat then Ok None
        else Ok (Some (5 + le_Z (slice 3 5 data)))
      else if kind =? H4_ISO then
        if (length data <? 5)%nat then Ok None
        else Ok (Some (5 + mask14 (le_Z (slice 3 5 data))))
      else Exc (TransportError
        (Fmt "bad H:4 packet indicator 0x%02X, stream out of sync" [AInt kind]))
  end.

(** [SerialH4Transport._take_packet], over the receive buffer. *)
Definition take_packet : M bytes (option packet) :=
  rx ← getS;
  expected ← lift (expected_length rx);
  match expected with
  | None => mret None
  | Some n =>
      if blen rx <? n then mret None
      else
        let pkt := take (Z.to_nat n) rx in
        modify (drop (Z.to_nat n)) ;;
        kind ← lift (idx pkt 0);
        if kind =? H4_EVENT then
          code ← lift (idx pkt 1);
          mret (Some (Pkt kind (Some code) (drop 3 pkt)))
        else mret (Some (Pkt kind None (drop 1 pkt)))
  end.

(** *** Framing lemmas *)

(** A complete packet is at least three octets long. *)
Lemma expected_length_bound data n :
  bytes_ok data → expected_length data = Ok (Some n) → 3 ≤ n.
Proof.
  intros Hok. unfold expected_length. destruct data as [|k rest] eqn:Ed; [done|].
  rewrite <-Ed in *. repeat case_match; try done.
  - unfold idx. destruct (data !! 2%nat) eqn:E2; cbn; [|done]. intros [= <-].
    eapply bytes_ok_lookup in E2; [|done]. unfold is_byte in *. lia.
  - intros [= <-]. pose proof (le_Z_bound (slice 3 5 data) (bytes_ok_slice _ _ _ Hok)). lia.
  - intros [= <-]. rewrite mask14_spec. pose proof (Z.mod_pos_bound (le_Z (slice 3 5 data)) 16384). lia.
Qed.

Lemma expected_length_exc data e :
  expected_length data = Exc e → is_transport_error e = true.
Proof.
  unfold expected_length. destruct data as [|k rest] eqn:Ed; [done|].
  rewrite <-Ed. repeat case_match; try done.
  - apply Nat.ltb_ge in H0. destruct (idx_ok data 2) as [x ->]; [lia|done].
  - by intros [= <-].
Qed.

Lemma expected_length_not_stuck data : expected_length data ≠ Stuck.
Proof.
  unfold expected_length. destruct data as [|k rest] eqn:Ed; [done|].
  rewrite <-Ed. repeat case_match; try done.
  apply Nat.ltb_ge in H0. destruct (idx_ok data 2) as [x ->]; [lia|done].
Qed.
(** An event packet is its three-octet header and its parameters; the other
    packets carry their own length field. *)
Lemma frame_expected p rest :
  packet_wf p → expected_length (frame p ++ rest) = Ok (Some (blen (frame p))).
Proof.
  destruct p as [k c b]. unfold packet_wf, frame; cbn.
  intros [(->&[x ->]&Hl)|[(->&->&Hl&Hb)|(->&->&Hl&Hb)]]; cbn.
  - do 2 f_equal. unfold blen; cbn [length]. lia.
  - destruct b as [|b0 [|b1 [|b2 [|b3 b']]]]; cbn in Hl; try lia.
    cbn. unfold blen in *. cbn [length] in *. do 2 f_equal. rewrite Nat2Z.inj_succ.
    unfold slice in *. cbn in *. rewrite take_0 in *. lia.
  - destruct b as [|b0 [|b1 [|b2 [|b3 b']]]]; cbn in Hl; try lia.
    cbn. unfold blen in *. cbn [length] in *. do 2 f_equal. rewrite Nat2Z.inj_succ.
    unfold slice in *. cbn in *. rewrite take_0 in *. lia.
Qed.

(** Taking a packet off a buffer that starts with its frame. *)
Lemma take_packet_frame p rest :
  packet_wf p → take_packet (frame p ++ rest) = (Ok (Some p), rest).
Proof.
  intros Hp. unfold take_packet, getS, lift, modify, mbind, M_bind.
  rewrite frame_expected by done.
  assert ((blen (frame p ++ rest) <? blen (frame p)) = false) as ->.
  { apply Z.ltb_ge. unfold blen. rewrite length_app. lia. }
  unfold blen. rewrite Nat2Z.id, take_app_length, drop_app_length.
  destruct p as [k c b].
  destruct Hp as [(Hk&[x Hx]&Hl)|[(Hk&Hx&Hl&Hb)|(Hk&Hx&Hl&Hb)]];
    cbn in Hk, Hx; subst; reflexivity.
Qed.

(** What the framer knows of a buffer whose expected length is [n]. *)
Lemma expected_length_inv data n :
  bytes_ok data → expected_length data = Ok (Some n) →
  ∃ k, data !! 0%nat = Some k ∧
  ((k = H4_EVENT ∧ ∃ c l, data !! 1%nat = Some c ∧ data !! 2%nat = Some l ∧ n = 3 + l)
   ∨ (k = H4_ACL ∧ (5 ≤ length data)%nat ∧ n = 5 + le_Z (slice 3 5 data))
   ∨ (k = H4_ISO ∧ (5 ≤ length data)%nat ∧ n = 5 + mask14 (le_Z (slice 3 5 data)))).
Proof.
  intros Hok. unfold expected_length. destruct data as [|k rest] eqn:Ed; [done|].
  rewrite <-Ed. exists k. split; [by subst|]. revert H.
  destruct (Z.eqb_spec k H4_EVENT); [|destruct (Z.eqb_spec k H4_ACL);
    [|destruct (Z.eqb_spec k H4_ISO); [|done]]].
  - destruct (Nat.ltb_spec (length data) 3); [done|].
    destruct (lookup_lt_is_Some_2 data 1) as [c Hc]; [lia|].
    destruct (lookup_lt_is_Some_2 data 2) as [l Hl]; [lia|].
    unfold idx. rewrite Hl. cbn. intros [= <-]. left. eauto 10.
  - destruct (Nat.ltb_spec (length data) 5); [done|]. intros [= <-]. auto.
  - destruct (Nat.ltb_spec (length data) 5); [done|]. intros [= <-]. auto.
Qed.

(** A complete event prefix is its frame. *)
Lemma event_prefix m c l rx :
  is_byte l → m = Z.to_nat (3 + l) → (m ≤ length (H4_EVENT :: c :: l :: rx))%nat →
  let pkt := take m (H4_EVENT :: c :: l :: rx) in
  let p := Pkt H4_EVENT (Some c) (drop 3 pkt) in
  H4_EVENT :: c :: l :: rx = frame p ++ drop m (H4_EVENT :: c :: l :: rx)
  ∧ packet_wf p.
Proof.
  unfold is_byte. intros Hl -> Hm. cbn in Hm.
  replace (Z.to_nat (3 + l)) with (S (S (S (Z.to_nat l)))) in * by lia. cbn.
  assert (blen (take (Z.to_nat l) rx) = l) as Hbl.
  { unfold blen. rewrite length_take. lia. }
  rewrite drop_0. split; [by rewrite Hbl, take_drop|].
  left. cbn. split; [done|]. split; [eauto|]. rewrite Hbl. lia.
Qed.

(** So is a complete ACL or ISO prefix. *)
Lemma data_prefix m k rx n :
  (k = H4_ACL ∧ n = le_Z (slice 3 5 (k :: rx)) ∨
   k = H4_ISO ∧ n = mask14 (le_Z (slice 3 5 (k :: rx)))) →
  0 ≤ n → m = Z.to_nat (5 + n) → (m ≤ length (k :: rx))%nat →
  let p := Pkt k None (drop 1 (take m (k :: rx))) in
  k :: rx = frame p ++ drop m (k :: rx) ∧ packet_wf p.
Proof.
  intros Hk Hn -> Hm.
  destruct rx as [|r1 [|r2 [|r3 [|r4 rx]]]]; cbn in Hm; try lia.
  replace (Z.to_nat (5 + n)) with (S (S (S (S (S (Z.to_nat n)))))) in * by lia.
  cbn. split; [by rewrite take_drop|].
  unfold slice in Hk. cbn in Hk. rewrite !take_0 in Hk. cbn [le_Z] in Hk.
  unfold packet_wf. cbn. unfold slice, blen. cbn. rewrite !take_0. cbn [le_Z].
  rewrite length_take. right.
  destruct Hk as [[-> Hk]|[-> Hk]]; [left|right]; repeat split; lia.
Qed.

Lemma frame_body_ok p : bytes_ok (frame p) → bytes_ok (body p).
Proof.
  unfold frame. destruct (code p); [intros [_ H]%bytes_ok_app; exact H|].
  by intros [_ H]%Forall_cons.
Qed.

Lemma take_packet_inv rx p rx' :
  bytes_ok rx → take_packet rx = (Ok (Some p), rx') →
  rx = frame p ++ rx' ∧ packet_wf p.
Proof.
  intros Hok. unfold take_packet, getS, lift, modify, mbind, M_bind.
  destruct (expected_length rx) as [[n|]|e|] eqn:E; try done.
  destruct (Z.ltb_spec (blen rx) n) as [|Hn]; [done|].
  pose proof (expected_length_bound rx n Hok E) as Hn3.
  destruct (expected_length_inv rx n Hok E) as (k&Hk&Hcases).
  pose proof (le_Z_bound (slice 3 5 rx) (bytes_ok_slice _ _ _ Hok)) as Hb0.
  pose proof (Z.mod_pos_bound (le_Z (slice 3 5 rx)) 16384) as Hb1.
  unfold blen in Hn, Hb0. unfold idx. rewrite !lookup_take_lt, Hk by lia. cbn.
  destruct rx as [|r0 rx]; cbn in Hk; [done|injection Hk as ->].
  destruct Hcases as [(->&c&l&Hc&Hl&->)|Hcases].
  - destruct rx as [|r1 [|r2 rx]]; cbn in Hc, Hl; try done.
    injection Hc as ->. injection Hl as ->. cbn. intros [= <- <-].
    apply event_prefix; [|done|lia]. by eapply (bytes_ok_lookup _ 2) in Hok.
  - assert ((k =? H4_EVENT) = false) as ->.
    { by destruct Hcases as [[-> _]|[-> _]]. }
    intros [= <- <-]. rewrite mask14_spec in Hcases.
    destruct Hcases as [(->&_&->)|(->&_&->)].
    + eapply data_prefix; [left; eauto|lia|done|lia].
    + eapply data_prefix; [right; split; [done|]; symmetry; apply mask14_spec
                          |lia|done|lia].
Qed.

(** A buffer that gives no packet yet is left as it is. *)
Lemma take_packet_none rx rx' : take_packet rx = (Ok None, rx') → rx' = rx.
Proof.
  unfold take_packet, getS, lift, modify, mbind, M_bind.
  destruct (expected_length rx) as [[n|]|e|]; [|by intros [= ->]|done|done].
  destruct (blen rx <? n); [by intros [= ->]|].
  destruct (idx (take _ rx) 0) as [k|e|]; [|done|done].
  destruct (k =? H4_EVENT); [|done]. by destruct (idx _ 1).
Qed.

(** The only failure is a bad packet indicator, which consumes nothing. *)
Lemma take_packet_fails rx :
  bytes_ok rx → (take_packet rx).1 ≠ Stuck ∧
  ∀ e, (take_packet rx).1 = Exc e → is_transport_error e = true ∧ (take_packet rx).2 = rx.
Proof.
  intros Hok. unfold take_packet, getS, lift, modify, mbind, M_bind.
  destruct (expected_length rx) as [[n|]|e|] eqn:E; cbn; try done.
  - destruct (Z.ltb_spec (blen rx) n) as [|Hn]; [done|].
    pose proof (expected_length_bound rx n Hok E). unfold blen in Hn.
    destruct (idx_ok (take (Z.to_nat n) rx) 0) as [k ->]; [rewrite length_take; lia|].
    destruct (idx_ok (take (Z.to_nat n) rx) 1) as [c Hc]; [rewrite length_take; lia|].
    destruct (k =? H4_EVENT); [rewrite Hc|]; done.
  - split; [done|]. intros e' [= <-]. split; [|done]. by eapply expected_length_exc.
  - by apply expected_length_not_stuck in E.
Qed.

(** More input never changes what the framer already decided. *)
Lemma expected_length_app data more :
  match expected_length data with
  | Ok None => True
  | r => expected_length (data ++ more) = r
  end.
Proof.
  unfold expected_length. destruct data as [|k rest]; [done|].
  cbn [app]. change (k :: rest ++ more) with ((k :: rest) ++ more).
  set (data := k :: rest). assert (Hl : (length data ≤ length (data ++ more))%nat)
    by (rewrite length_app; lia).
  assert (∀ n, (n < length data)%nat → (data ++ more) !! n = data !! n) as Hn
    by (intros; by apply lookup_app_l).
  assert (Hs : (5 ≤ length data)%nat → slice 3 5 (data ++ more) = slice 3 5 data).
  { intros. unfold slice. rewrite drop_app_le, take_app_le; [done| |lia].
    rewrite length_drop. lia. }
  destruct (k =? H4_EVENT); [|destruct (k =? H4_ACL); [|destruct (k =? H4_ISO)]].
  - destruct (Nat.ltb_spec (length data) 3); [done|].
    rewrite (proj2 (Nat.ltb_ge (length (data ++ more)) 3)) by lia.
    unfold idx. rewrite Hn by lia. by destruct (data !! 2%nat).
  - destruct (Nat.ltb_spec (length data) 5); [done|].
    rewrite (proj2 (Nat.ltb_ge (length (data ++ more)) 5)) by lia. by rewrite Hs.
  - destruct (Nat.ltb_spec (length data) 5); [done|].
    rewrite (proj2 (Nat.ltb_ge (length (data ++ more)) 5)) by lia. by rewrite Hs.
  - done.
Qed.

(** A strict prefix of a frame gives no packet. *)
Lemma take_packet_prefix rx more p rest :
  packet_wf p → rx ++ more = frame p ++ rest →
  (length rx < length (frame p))%nat → take_packet rx = (Ok None, rx).
Proof.
  intros Hp Heq Hlt. pose proof (expected_length_app rx more) as Happ.
  rewrite Heq, frame_expected in Happ by done.
  unfold take_packet, getS, lift, modify, mbind, M_bind.
  destruct (expected_length rx) as [[n|]|e|]; try done.
  injection Happ as <-. unfold blen.
  by rewrite (proj2 (Z.ltb_lt _ _)) by lia.
Qed.
End H4.

(** ** SerialH4Transport *)

Module SerialH4.

(** One observation of the serial port by [_read_pending]: pyserial reports
    [waiting] octets and a read of that many returns [chunk], or it raises. *)
Inductive poll : Type :=
  | Waiting (waiting : Z) (chunk : bytes)
  | PortError.

(** The transport object over a scripted port: the receive buffer [_rx], the
    observations still to come (none left: nothing ever waits again), the
    packets written, and whether each write to come raises. *)
Record state : Type := Serial {
  rx : bytes; polls : list poll; written : list bytes; write_faults : list bool }.

Definition set_rx (b : bytes) (t : state) : state :=
  Serial b (polls t) (written t) (write_faults t).
Definition set_polls (ps : list poll) (t : state) : state :=
  Serial (rx t) ps (written t) (write_faults t).

Definition gone : exn := TransportGone (Lit "serial port error").

(** [_take_packet]. *)
Definition take_packet : M state (option packet) :=
  zoom rx set_rx H4.take_packet.

(** [_read_pending]. *)
Definition read_pending : M state bool := λ t,
  match polls t with
  | [] => (Ok false, t)
  | PortError :: ps => (Exc gone, set_polls ps t)
  | Waiting waiting chunk :: ps =>
      let t1 := set_polls ps t in
      if waiting <=? 0 then (Ok false, t1)
      else match chunk with
           | [] => (Ok false, t1)
           | _ => (Ok true, set_rx (rx t ++ chunk) t1)
           end
  end.

(** The transport half of a (clock, transport) state. *)
Definition on_port {A} (m : M state A) : M (Z * state) A :=
  zoom snd (λ t s, (fst s, t)) m.

Definition sleep (d : Z) : M (Z * state) unit := modify (λ s, (fst s + d, snd s)).

Fixpoint read_loop (fuel : nat) (timeout deadline : Z)
    : M (Z * state) (option packet) :=
  match fuel with
  | O => λ s, (Stuck, s)
  | S fuel' =>
      packet ← on_port take_packet;
      match packet with
      | Some p => mret (Some p)
      | None =>
          more ← on_port read_pending;
          if (more : bool) then read_loop fuel' timeout deadline
          else if timeout <=? 0 then mret None
          else
            now ← gets fst;
            let remaining := deadline - now in
            if remaining <=? 0 then mret None
            else sleep (Z.min 1000 remaining) ;; read_loop fuel' timeout deadline
      end
  end.

(** Turns of the loop that can be needed: one per observation to come, one per
    millisecond up to the deadline, and the last one. *)
Definition loop_fuel (timeout : Z) (t : state) : nat :=
  (length (polls t) + Z.to_nat ((timeout + 999) / 1000) + 1)%nat.

(** [SerialH4Transport.read_packet]. *)
Definition read_packet (timeout : Z) : M (Z * state) (option packet) :=
  let timeout := Z.max 0 timeout in
  now ← gets fst;
  fuel ← gets (λ s, loop_fuel timeout (snd s));
  read_loop fuel timeout (now + timeout).

(** [SerialH4Transport.write_packet]: write and flush, either may raise. *)
Definition write_packet (pkt : bytes) : M state unit := λ t,
  match write_faults t with
  | true :: fs => (Exc gone, Serial (rx t) (polls t) (written t) fs)
  | false :: fs => (Ok tt, Serial (rx t) (polls t) (written t ++ [pkt]) fs)
  | [] => (Ok tt, Serial (rx t) (polls t) (written t ++ [pkt]) [])
  end.

(** [SerialH4Transport.has_pending_input]. *)
Definition has_pending_input : M (Z * state) bool := λ s,
  match rx (snd s) with
  | _ :: _ => (Ok true, s)
  | [] => match polls (snd s) with
          | Waiting waiting _ :: _ => (Ok (negb (waiting =? 0)), s)
          | PortError :: _ => (Ok false, s)
          | [] => (Ok false, s)
          end
  end.

Definition poll_weight (p : poll) : nat :=
  match p with Waiting _ chunk => S (length chunk) | PortError => 1 end.
Definition backlog (t : state) : nat :=
  (length (rx t) + sum_list_with poll_weight (polls t))%nat.

Definition poll_ok (p : poll) : Prop :=
  match p with Waiting _ chunk => bytes_ok chunk | PortError => True end.
Definition wf (t : state) : Prop := bytes_ok (rx t) ∧ Forall poll_ok (polls t).

#[global] Instance poll_ok_dec p : Decision (poll_ok p).
Proof. destruct p; cbn; apply _. Defined.
#[global] Instance wf_dec t : Decision (wf t).
Proof. unfold wf; apply _. Defined.

#[global] Instance serial_transport : Transport state := {|
  t_read_packet := read_packet;
  t_write_packet := write_packet;
  t_has_pending_input := has_pending_input;
  t_sent := written;
  t_backlog := backlog;
  t_wf := wf;
|}.

(** *** Lemmas *)

#[local] Hint Extern 2 (wf _) => split; cbn : core.

Definition turns (deadline now : Z) : nat := Z.to_nat ((deadline - now + 999) / 1000).

Lemma serial_turns_step deadline now :
  0 < deadline - now →
  (turns deadline (now + Z.min 1000 (deadline - now)) < turns deadline now)%nat.
Proof.
  intros H. unfold turns.
  destruct (Z.min_spec 1000 (deadline - now)) as [[? ->]|[? ->]].
  - replace (deadline - (now + 1000) + 999) with ((deadline - now + 999) + (-1) * 1000) by lia.
    rewrite Z.div_add by lia.
    assert (1 ≤ (deadline - now + 999) / 1000) by (apply Z.div_le_lower_bound; lia). lia.
  - replace (deadline - (now + (deadline - now)) + 999) with 999 by lia.
    assert (1 ≤ (deadline - now + 999) / 1000) by (apply Z.div_le_lower_bound; lia).
    rewrite (Z.div_small 999) by lia. lia.
Qed.

Lemma take_packet_cases t r t' :
  wf t → take_packet t = (r, t') →
  wf t' ∧ polls t' = polls t ∧ written t' = written t ∧
  ((∃ p, r = Ok (Some p) ∧ packet_ok p ∧ (length (rx t') < length (rx t))%nat) ∨
   (r = Ok None ∧ t' = t) ∨
   (∃ e, r = Exc e ∧ is_transport_error e = true ∧ t' = t)).
Proof.
  intros [Hrx Hps]. unfold take_packet, zoom.
  destruct (H4.take_packet (rx t)) as [r0 b] eqn:E. intros [= <- <-].
  destruct (H4.take_packet_fails (rx t) Hrx) as [Hs He]. rewrite E in Hs, He; cbn in *.
  destruct r0 as [[p|]|e|]; [..|done].
  - apply H4.take_packet_inv in E as [E Hp]; [|done].
    assert (bytes_ok b) by (rewrite E, bytes_ok_app in Hrx; tauto).
    assert (bytes_ok (body p)).
    { rewrite E, bytes_ok_app in Hrx. destruct Hrx as [Hf _]. by apply H4.frame_body_ok. }
    split_and!; auto. left. exists p. split; [done|]. split; [by split|].
    rewrite E, length_app. unfold H4.frame. destruct (code p); cbn; lia.
  - apply H4.take_packet_none in E as ->. destruct t; split_and!; auto.
  - destruct (He e eq_refl) as [? ->]. destruct t; split_and!; eauto 10.
Qed.

Lemma read_pending_cases t r t' :
  wf t → read_pending t = (r, t') →
  wf t' ∧ written t' = written t ∧ (backlog t' ≤ backlog t)%nat ∧
  (length (polls t') ≤ length (polls t))%nat ∧
  ((r = Ok true ∧ (length (polls t') < length (polls t))%nat)
   ∨ r = Ok false ∨ r = Exc gone).
Proof.
  intros [Hrx Hps]. unfold read_pending, backlog.
  destruct t as [rx ps w f]; cbn in *.
  destruct ps as [|[n chunk|] ps]; cbn in *.
  - intros [= <- <-]. cbn. split_and!; auto.
  - apply Forall_cons in Hps as [Hc Hps].
    destruct (n <=? 0); [intros [= <- <-]; cbn; split_and!; auto; lia|].
    destruct chunk as [|c chunk]; intros [= <- <-]; cbn; split_and!; auto; try lia.
    + split; cbn; [by apply bytes_ok_app|done].
    + rewrite length_app; cbn; lia.
  - apply Forall_cons in Hps as [Hc Hps].
    intros [= <- <-]. cbn. split_and!; auto; lia.
Qed.

(** Everything the laws need of the loop, by one induction on the fuel. *)
Lemma read_loop_spec fuel timeout deadline now t :
  wf t → (length (polls t) + turns deadline now < fuel)%nat →
  let '(r, s') := read_loop fuel timeout deadline (now, t) in
  wf (snd s') ∧ read_frame (now, t) s' ∧
  ((∃ p, r = Ok (Some p) ∧ packet_ok p ∧ (backlog (snd s') < backlog t)%nat) ∨
   (r = Ok None ∧ (0 < timeout → deadline ≤ fst s')) ∨
   (∃ e, r = Exc e ∧ is_transport_error e = true)).
Proof.
  revert now t. induction fuel as [|fuel IH]; intros now t Hwf Hfuel; [lia|].
  cbn [read_loop]. unfold on_port, zoom, gets, sleep, modify, mret, M_ret, mbind, M_bind; cbn.
  destruct (take_packet t) as [r1 t1] eqn:E1.
  apply take_packet_cases in E1 as (Hwf1&Hp1&Hw1&Hcases); [|done]. unfold read_frame; cbn.
  destruct Hcases as [(p&->&Hp&Hlt)|[[-> ->]|(e&->&He&->)]].
  - assert (Hb : (backlog t1 < backlog t)%nat) by (unfold backlog; rewrite Hp1; lia).
    split_and!; cbn; eauto 8; lia.
  - cbn. destruct (read_pending t) as [r2 t2] eqn:E2.
    apply read_pending_cases in E2 as (Hwf2&Hw2&Hb2&Hl2&Hc2); [|done].
    destruct Hc2 as [[-> Hlt]|[->| ->]]; cbn.
    + specialize (IH now t2 Hwf2 ltac:(lia)).
      destruct (read_loop fuel timeout deadline (now, t2)) as [r s'].
      destruct IH as (?&(?&?&?)&Hres). cbn in *. split_and!; try done; try congruence; try lia.
      destruct Hres as [(p&?&?&?)|Hres]; [left; exists p; split_and!; auto; lia|by right].
    + destruct (Z.leb_spec timeout 0); cbn.
      { split_and!; auto; try lia. right; left. split; [done|lia]. }
      destruct (Z.leb_spec (deadline - now) 0); cbn.
      { split_and!; auto; try lia. right; left. split; [done|lia]. }
      pose proof (serial_turns_step deadline now ltac:(lia)).
      specialize (IH (now + Z.min 1000 (deadline - now)) t2 Hwf2 ltac:(lia)).
      destruct (read_loop fuel timeout deadline _) as [r s'].
      destruct IH as (?&(?&?&?)&Hres). cbn in *. split_and!; try done; try congruence; try lia.
      destruct Hres as [(p&?&?&?)|Hres]; [left; exists p; split_and!; auto; lia|by right].
    + split_and!; auto; try lia. right; right. eauto.
  - split_and!; cbn; auto; try lia. right; right. eauto.
Qed.

Lemma read_packet_spec timeout now t :
  wf t →
  let '(r, s') := read_packet timeout (now, t) in
  wf (snd s') ∧ read_frame (now, t) s' ∧
  ((∃ p, r = Ok (Some p) ∧ packet_ok p ∧ (backlog (snd s') < backlog t)%nat) ∨
   (r = Ok None ∧ (0 < timeout → now + timeout ≤ fst s')) ∨
   (∃ e, r = Exc e ∧ is_transport_error e = true)).
Proof.
  intros Hwf. unfold read_packet, gets, mbind, M_bind; cbn.
  set (to := Z.max 0 timeout).
  pose proof (read_loop_spec (loop_fuel to t) to (now + to) now t Hwf) as H.
  destruct (read_loop _ _ _ _) as [r s']. destruct H as (?&?&H).
  { unfold loop_fuel, turns. replace (now + to - now + 999) with (to + 999) by lia. lia. }
  split; [done|]. split; [done|].
  destruct H as [?|[[-> ?]|?]]; [by left| |by right; right].
  right; left. split; [done|]. lia.
Qed.

#[global] Instance serial_laws : TransportLaws state.
Proof.
  split; cbn.
  - intros timeout [now t] Hwf. pose proof (read_packet_spec timeout now t Hwf) as H.
    destruct (read_packet timeout (now, t)) as [r s']; cbn.
    destruct H as (?&?&Hr). split; [done|]. split; [done|]. split.
    + intros e ->. by destruct Hr as [(?&?&_)|[[? _]|(?&[= <-]&?)]].
    + destruct Hr as [(?&->&_)|[[-> _]|(?&->&_)]]; done.
  - intros timeout now t p s' Hwf E. pose proof (read_packet_spec timeout now t Hwf) as H.
    rewrite E in H. destruct H as (_&_&[(?&[= <-]&?&?)|[[? _]|(?&?&_)]]); done.
  - intros timeout now t s' Hwf Hto E. pose proof (read_packet_spec timeout now t Hwf) as H.
    rewrite E in H. destruct H as (_&_&[(?&?&?&?)|[[_ ?]|(?&?&_)]]); try done. left. lia.
  - intros [now t] Hwf. unfold has_pending_input; cbn.
    destruct (rx t); [destruct (polls t) as [|[]]|]; cbn; split_and!; auto; try apply Hwf; done.
  - intros bs t Hwf. unfold write_packet.
    destruct (write_faults t) as [|[] ?]; cbn; split_and!; auto; try apply Hwf; try done.
    by intros e [= <-].
  - intros bs t t'. unfold write_packet.
    destruct (write_faults t) as [|[] ?]; intros [= <-]; done.
  - intros bs t t' e. unfold write_packet.
    destruct (write_faults t) as [|[] ?]; intros [=]; subst; done.
Qed.

(** *** Reading a stream *)

(** [n] successive [read_packet] calls. *)
Fixpoint read_packets (n : nat) (timeout : Z)
    : M (Z * state) (list (option packet)) :=
  match n with
  | O => mret []
  | S n' =>
      p ← read_packet timeout;
      ps ← read_packets n' timeout;
      mret (p :: ps)
  end.

(** The port delivers [chunks], each in one observation. *)
Definition deliver (chunks : list bytes) : list poll :=
  map (λ c, Waiting (blen c) c) chunks.

Lemma read_loop_stream fuel timeout deadline now w f p rest :
  packet_wf p → ∀ chunks rx,
  Forall (λ c, c ≠ []) chunks → rx ++ concat chunks = H4.frame p ++ rest →
  (length chunks < fuel)%nat →
  ∃ rx' chunks', Forall (λ c, c ≠ []) chunks' ∧ rx' ++ concat chunks' = rest ∧
    read_loop fuel timeout deadline (now, Serial rx (deliver chunks) w f)
      = (Ok (Some p), (now, Serial rx' (deliver chunks') w f)).
Proof.
  intros Hp. induction fuel as [|fuel IH]; intros chunks rx Hne Heq Hfuel; [lia|].
  cbn [read_loop]. unfold on_port, zoom, mbind, M_bind; cbn.
  unfold take_packet, zoom; cbn.
  destruct (decide (length (H4.frame p) ≤ length rx)%nat) as [Hge|Hlt].
  - assert (∃ rx', rx = H4.frame p ++ rx') as [rx' ->].
    { exists (drop (length (H4.frame p)) rx).
      apply (f_equal (take (length (H4.frame p)))) in Heq as Ht.
      rewrite take_app_le, take_app_length in Ht by lia.
      by rewrite <-Ht at 1; rewrite take_drop. }
    rewrite H4.take_packet_frame by done. cbn.
    exists rx', chunks. split_and!; [done| |done].
    rewrite <-app_assoc in Heq. by apply app_inv_head in Heq.
  - rewrite (H4.take_packet_prefix rx (concat chunks) p rest) by (done || lia). cbn.
    destruct chunks as [|c chunks].
    { cbn in Heq. rewrite app_nil_r in Heq. rewrite Heq, length_app in Hlt. lia. }
    apply Forall_cons in Hne as [Hc Hne]. cbn.
    destruct c as [|b c]; [done|]. unfold blen. cbn [length].
    rewrite (proj2 (Z.leb_gt _ _)) by lia. cbn.
    apply IH; [done| |cbn in Hfuel; lia].
    cbn in Heq. by rewrite <-app_assoc.
Qed.

Lemma read_packet_eq timeout now t :
  read_packet timeout (now, t) =
  read_loop (loop_fuel (Z.max 0 timeout) t) (Z.max 0 timeout)
    (now + Z.max 0 timeout) (now, t).
Proof. done. Qed.

(** C4: however the UART or CDC driver cuts the octet stream of a sequence of
    packets into chunks, successive reads return exactly those packets, in
    order, without waiting, and leave nothing behind. *)
Theorem serial_stream_roundtrip (ps : list packet) (chunks : list bytes)
    (timeout now : Z) (w : list bytes) (f : list bool)
    (Hps : Forall packet_wf ps) (Hne : Forall (λ c, c ≠ []) chunks)
    (Heq : concat chunks = concat (map H4.frame ps)) :
  read_packets (length ps) timeout (now, Serial [] (deliver chunks) w f)
  = (Ok (map Some ps), (now, Serial [] [] w f)).
Proof.
  assert (∀ rx, rx ++ concat chunks = concat (map H4.frame ps) →
    read_packets (length ps) timeout (now, Serial rx (deliver chunks) w f)
    = (Ok (map Some ps), (now, Serial [] [] w f))) as H; [|by apply H].
  clear Heq. revert chunks Hne. induction Hps as [|p ps Hp _ IH]; intros chunks Hne rx Heq.
  - cbn in *. apply app_eq_nil in Heq as [-> Hc].
    destruct chunks as [|c chunks]; [done|].
    apply Forall_cons in Hne as [Hc0 _]. by apply app_eq_nil in Hc as [-> _].
  - cbn [read_packets length map]. cbn in Heq.
    unfold mbind, M_bind. rewrite read_packet_eq.
    destruct (read_loop_stream (loop_fuel (Z.max 0 timeout) (Serial rx (deliver chunks) w f))
       (Z.max 0 timeout) (now + Z.max 0 timeout) now w f p
       (concat (map H4.frame ps)) Hp chunks rx Hne Heq) as (rx'&chunks'&Hne'&Heq'&->).
    { unfold loop_fuel, deliver; cbn. rewrite length_map. lia. }
    by rewrite (IH chunks' Hne' rx' Heq').
Qed.
End SerialH4.

Lemma serial_stream_roundtrip_witness :
  let ps := [Pkt H4_EVENT (Some EVT_COMMAND_STATUS) [0; 1; 3; 12];
             Pkt H4_ACL None [0x40; 0; 2; 0; 7; 9]] in
  Forall packet_wf ps ∧
  SerialH4.read_packets 2 0 (5, SerialH4.Serial []
      (SerialH4.deliver [[4]; [15; 4; 0; 1; 3]; [12; 2; 0x40]; [0; 2; 0; 7; 9]]) [] [])
    = (Ok (map Some ps), (5, SerialH4.Serial [] [] [] [])).
Proof.
  cbn zeta.
  assert (Forall packet_wf [Pkt H4_EVENT (Some EVT_COMMAND_STATUS) [0; 1; 3; 12];
             Pkt H4_ACL None [0x40; 0; 2; 0; 7; 9]]) as Hps.
  { apply Forall_cons. split; [|apply Forall_cons; split; [|by constructor]].
    - left. split; [done|]. split; [by eexists|]. unfold blen; cbn; lia.
    - right; left. cbn. split_and!; [done|done|lia|done]. }
  split; [exact Hps|].
  apply (SerialH4.serial_stream_roundtrip _ _ 0 5 [] [] Hps); [|reflexivity].
  repeat constructor; discriminate.
Defined.
