(* ===== verification/Hci.v ===== *)
(** * Hci: the host engine (class Hci of hci_ble_test_impl.py, as
    hci_ble_test.py rebinds it to a packet transport)

    The engine owns the queue of deferred packets, the state events leave
    behind (long term key request, encryption, disconnection) and the ACL
    credit accounting, and it matches commands to their replies. Everything
    is generic in the transport, used through the [Transport] interface. *)

From S2P Require Export Transport.
#[local] Open Scope Z_scope.

Definition OP_DISCONNECT : Z := 0x0406.
Definition OP_RESET : Z := 0x0C03.
Definition OP_SET_EVENT_MASK : Z := 0x0C01.
Definition OP_READ_BD_ADDR : Z := 0x1009.
Definition OP_LE_SET_EVENT_MASK : Z := 0x2001.
Definition OP_LE_READ_BUFFER_SIZE : Z := 0x2002.
Definition OP_LE_SET_RANDOM_ADDRESS : Z := 0x2005.
Definition OP_VS_READ_STATIC_ADDRESSES : Z := 0xFC09.
Definition OP_VS_READ_COUNTERS : Z := 0xFFF0.

(** Seconds, in the microseconds of the clock. *)
Definition seconds (n : Z) : Z := n * 1000000.
Definition ms (n : Z) : Z := n * 1000.

(** ** State *)

Record hci (T : Type) : Type := Hci {
  transport : T;
  pending : list packet;
  ltk_request : option Z;
  encryption : option (Z * Z);
  acl_credits : Z;
  acl_advertised : Z;
  acl_completed : Z;
  link_down : option (Z * Z * Z);
  acl_size : Z;
  unsupported : list (string * string);
}.
Arguments Hci {T}.
Arguments transport {T}.
Arguments pending {T}.
Arguments ltk_request {T}.
Arguments encryption {T}.
Arguments acl_credits {T}.
Arguments acl_advertised {T}.
Arguments acl_completed {T}.
Arguments link_down {T}.
Arguments acl_size {T}.
Arguments unsupported {T}.

Section fields.
Context {T : Type}.
Implicit Types h : hci T.

(** [Hci.__init__] around an opened wire. *)
Definition init_hci (wire : T) : hci T :=
  Hci wire [] None None 0 0 0 None 27 [].

Definition set_transport (t : T) h := Hci t (pending h) (ltk_request h) (encryption h)
  (acl_credits h) (acl_advertised h) (acl_completed h) (link_down h) (acl_size h) (unsupported h).
Definition set_pending p h := Hci (transport h) p (ltk_request h) (encryption h)
  (acl_credits h) (acl_advertised h) (acl_completed h) (link_down h) (acl_size h) (unsupported h).
Definition set_ltk_request r h := Hci (transport h) (pending h) r (encryption h)
  (acl_credits h) (acl_advertised h) (acl_completed h) (link_down h) (acl_size h) (unsupported h).
Definition set_encryption e h := Hci (transport h) (pending h) (ltk_request h) e
  (acl_credits h) (acl_advertised h) (acl_completed h) (link_down h) (acl_size h) (unsupported h).
Definition set_link_down d h := Hci (transport h) (pending h) (ltk_request h) (encryption h)
  (acl_credits h) (acl_advertised h) (acl_completed h) d (acl_size h) (unsupported h).
Definition add_credits n h := Hci (transport h) (pending h) (ltk_request h) (encryption h)
  (acl_credits h + n) (acl_advertised h) (acl_completed h) (link_down h) (acl_size h) (unsupported h).
Definition add_completed n h := Hci (transport h) (pending h) (ltk_request h) (encryption h)
  (acl_credits h) (acl_advertised h) (acl_completed h + n) (link_down h) (acl_size h) (unsupported h).
Definition set_buffers size count h := Hci (transport h) (pending h) (ltk_request h) (encryption h)
  count count (acl_completed h) (link_down h) size (unsupported h).
Definition add_unsupported u h := Hci (transport h) (pending h) (ltk_request h) (encryption h)
  (acl_credits h) (acl_advertised h) (acl_completed h) (link_down h) (acl_size h)
  (unsupported h ++ [u]).
End fields.

(** ** Operations *)

Section engine.
Context {T : Type} `{!Transport T}.

(** The engine's state: the clock and the [Hci] object. *)
Definition dev : Type := Z * hci T.
Definition H (A : Type) : Type := M dev A.

Definition on_hci {A} (m : M (hci T) A) : M dev A :=
  zoom snd (λ h s, (fst s, h)) m.
Definition on_wire {A} (m : M (Z * T) A) : M dev A :=
  zoom (λ s, (fst s, transport (snd s)))
       (λ ct s, (fst ct, set_transport (snd ct) (snd s))) m.

(** [except TransportGone: raise HciGone], [except TransportError: raise
    HciError]. *)
Definition wire_error (e : exn) : exn :=
  match e with
  | TransportGone t => HciGone t
  | TransportError t | SelectionError t => HciError t
  | e => e
  end.
Definition as_hci_errors {S A} (m : M S A) : M S A :=
  try_except is_transport_error m (λ e, raise (wire_error e)).

(** [Hci.on_event]: what an event leaves behind before it is returned. *)
Definition on_event (code : option Z) (body : bytes) : M (hci T) unit :=
  let evt c := bool_decide (code = Some c) in
  when (evt EVT_DISCONNECTION_COMPLETE && (4 <=? length body)%nat) (
    status ← lift (idx body 0);
    handle ← lift (unpack_H (slice 1 3 body));
    reason ← lift (idx body 3);
    modify (set_link_down (Some (status, handle, reason)))) ;;
  when (evt EVT_LE_META && (3 <=? length body)%nat
        && bool_decide (body !! 0%nat = Some LE_LONG_TERM_KEY_REQUEST)) (
    handle ← lift (unpack_H (slice 1 3 body));
    modify (set_ltk_request (Some handle))) ;;
  when (evt EVT_ENCRYPTION_CHANGE && (4 <=? length body)%nat) (
    status ← lift (idx body 0);
    enabled ← lift (idx body 3);
    modify (set_encryption (Some (status, enabled)))) ;;
  when (evt EVT_NUM_COMPLETED_PACKETS && (1 <=? length body)%nat) (
    count ← lift (idx body 0);
    for_each (seq 0 (Z.to_nat count)) (λ i,
      let off := (1 + i * 4)%nat in
      done ← lift (unpack_H (slice (off + 2) (off + 4) body));
      modify (add_credits done) ;; modify (add_completed done))).

(** [Hci.read_wire]. *)
Definition read_wire (timeout : Z) : M dev (option packet) :=
  p ← on_wire (as_hci_errors (t_read_packet timeout));
  match p with
  | None => mret None
  | Some p =>
      when (kind p =? H4_EVENT) (on_hci (on_event (code p) (body p))) ;;
      mret (Some p)
  end.

(** [Hci.read_packet]: the deferred queue first, then the wire. *)
Definition read_packet (timeout : Z) : M dev (option packet) :=
  q ← gets (λ s : dev, pending (snd s));
  match q with
  | p :: q' => on_hci (modify (set_pending q')) ;; mret (Some p)
  | [] => read_wire timeout
  end.

(** [Hci.write_packet]. *)
Definition write_packet (data : bytes) : M dev unit :=
  on_hci (zoom transport set_transport (as_hci_errors (t_write_packet data))).

Definition has_pending_input : M dev bool :=
  on_wire (as_hci_errors t_has_pending_input).

(** *** Polling loops

    [while time.time() < deadline: packet = read_packet(wait(remaining));
    if packet is None: continue; body]. The body either goes on with a new
    accumulator or returns. *)
Section poll.
Context {D A : Type} (wait : Z → Z) (step : D → packet → M dev (D + A)).

Fixpoint poll_loop (fuel : nat) (deadline : Z) (d : D) : M dev (D + A) :=
  match fuel with
  | O => λ s, (Stuck, s)
  | S fuel' =>
      now ← gets fst;
      if deadline <=? now then mret (inl d)
      else
        p ← read_packet (wait (deadline - now));
        match p with
        | None => poll_loop fuel' deadline d
        | Some p =>
            r ← step d p;
            match r with
            | inl d' => poll_loop fuel' deadline d'
            | inr a => mret (inr a)
            end
        end
  end.

(** The packets queued and still to come, and one turn per [w] microseconds. *)
Definition poll_fuel (w timeout : Z) (s : dev) : nat :=
  (length (pending (snd s)) + t_backlog (transport (snd s))
   + Z.to_nat ((timeout + w - 1) / w) + 1)%nat.

Definition poll (w timeout : Z) (d : D) : M dev (D + A) :=
  now ← gets fst;
  fuel ← gets (poll_fuel w timeout);
  poll_loop fuel (now + timeout) d.
End poll.

(** One turn of a loop that looks for the packet [f] accepts and otherwise
    does [deferred.append(packet)]. *)
Definition defer_step {A} (f : packet → res (option A))
    (deferred : list packet) (p : packet)
    : M dev (list packet + (list packet * A)) :=
  r ← lift (f p);
  match r with
  | Some a => mret (inr (deferred, a))
  | None => mret (inl (deferred ++ [p]))
  end.

(** *** Commands *)

Inductive reply : Type :=
  | CompleteReply (status : Z) (data : bytes)
  | StatusReply (status : Z).

Definition reply_status (r : reply) : Z :=
  match r with CompleteReply s _ | StatusReply s => s end.
Definition reply_result (r : reply) : Z * bytes :=
  match r with CompleteReply s d => (s, d) | StatusReply s => (s, []) end.

(** Is this packet the answer to [opcode]? *)
Definition match_reply (opcode : Z) (p : packet) : res (option reply) :=
  cc ← (if is_event EVT_COMMAND_COMPLETE p
        then (op ← unpack_H (slice 1 3 (body p)); Ok (op =? opcode))
        else Ok false);
  if (cc : bool) then
    Ok (Some (CompleteReply (default 0 (body p !! 3%nat)) (drop 4 (body p))))
  else
    cs ← (if is_event EVT_COMMAND_STATUS p
          then (op ← unpack_H (slice 2 4 (body p)); Ok (op =? opcode))
          else Ok false);
    if (cs : bool) then (status ← idx (body p) 0; Ok (Some (StatusReply status)))
    else Ok None.

Definition extend_pending (ps : list packet) : M dev unit :=
  on_hci (modify (λ h, set_pending (pending h ++ ps) h)).

Definition command_error (opcode : Z) (r : reply) : exn :=
  match r with
  | CompleteReply s _ => HciError (Fmt "opcode 0x%04X returned 0x%02X %s"
                                     (AInt opcode :: status_text s))
  | StatusReply s => HciError (Fmt "opcode 0x%04X status 0x%02X %s"
                                 (AInt opcode :: status_text s))
  end.

(** [self.write_packet(struct.pack("<BHB", H4_COMMAND, opcode, len(payload))
    + payload)]. *)
Definition send_command (opcode : Z) (payload : bytes) : M dev unit :=
  header ← lift (pack [FB H4_COMMAND; FH opcode; FB (blen payload)]);
  write_packet (header ++ payload).

(** [Hci.command]. *)
Definition command_t (opcode : Z) (payload : bytes) (timeout : Z)
    (allow_fail : bool) : M dev (Z * bytes) :=
  send_command opcode payload ;;
  r ← poll (λ _, ms 200) (defer_step (match_reply opcode)) (ms 200) timeout [];
  match r with
  | inr (deferred, a) =>
      extend_pending deferred ;;
      if negb (reply_status a =? 0) && negb allow_fail
      then raise (command_error opcode a)
      else mret (reply_result a)
  | inl deferred =>
      extend_pending deferred ;;
      raise (HciError (Fmt "no event for opcode 0x%04X" [AInt opcode]))
  end.

Definition command (opcode : Z) (payload : bytes) (allow_fail : bool)
  : M dev (Z * bytes) := command_t opcode payload (seconds 3) allow_fail.

(** [Hci.send_acl]: one complete L2CAP message, which spends a credit. *)
Definition send_acl (handle cid : Z) (payload : bytes) : M dev unit :=
  head ← lift (pack [FH (blen payload); FH cid]);
  let l2cap := head ++ payload in
  header ← lift (pack [FH (Z.lor handle (Z.shiftl 0 12)); FH (blen l2cap)]);
  write_packet ([H4_ACL] ++ header ++ l2cap) ;;
  on_hci (modify (add_credits (-1))).

(** [Hci.read_counters]: every whole 32-bit word after the version octet. *)
Fixpoint counter_words (n : nat) (data : bytes) : list Z :=
  match n with
  | O => []
  | S n' => le_Z (take 4 data) :: counter_words n' (drop 4 data)
  end.

Definition read_counters : M dev (option (list Z)) :=
  r ← command OP_VS_READ_COUNTERS [] true;
  let '(status, data) := r in
  if negb (status =? 0) then mret None
  else match data with
       | [] => mret None
       | _ :: words => mret (Some (counter_words (length words / 4) words))
       end.

(** [Hci.setup]. *)
Definition setup : M dev unit :=
  command OP_RESET [] false ;;
  command OP_SET_EVENT_MASK [255;255;255;255;255;255;255;0x3f] false ;;
  command OP_LE_SET_EVENT_MASK [255;255;0;0;0;0;0;0] false ;;
  r ← command OP_LE_READ_BUFFER_SIZE [] false;
  let data := take 3 (snd r) in
  size ← lift (if decide (length data = 3%nat) then Ok (le_Z (take 2 data))
               else Exc StructError);
  count ← lift (idx data 2);
  when (negb (size =? 0)) (on_hci (modify (set_buffers size count))).

Inductive id_source : Type :=
  | AssignedOnCommandLine | PublicProgrammed | StaticFromController
  | StaticFromScript.

(** [Hci.identity(override)]: (address, address type, source). *)
Definition identity (override : option bytes) : M dev (bytes * Z * id_source) :=
  match override with
  | Some ((_ :: _) as addr) => mret (addr, 0x01, AssignedOnCommandLine)
  | _ =>
      r ← command OP_READ_BD_ADDR [] false;
      let data := take 6 (snd r) in
      if negb (bool_decide (data = zeros 6)) then mret (data, 0x00, PublicProgrammed)
      else
        r ← command OP_VS_READ_STATIC_ADDRESSES [] true;
        let '(status, data) := r in
        if (status =? 0) && match data with [] => false | n :: _ => negb (n =? 0) end
        then mret (slice 1 7 data, 0x01, StaticFromController)
        else
          when (status =? 0x01) (on_hci (modify
            (add_unsupported ("0xFC09", "VS Read Static Addresses")%string))) ;;
          now ← gets fst;
          seed ← lift (pack [FI (Z.land (now / 1000000) 0xFFFFFFFF)]);
          mret (seed ++ [0x5A; Z.lor 0xC0 0x2A], 0x01, StaticFromScript)
  end.
End engine.

(** ** Properties *)

Definition is_acl (pkt : bytes) : bool :=
  match pkt with k :: _ => k =? H4_ACL | [] => false end.

Section engine_laws.
Context {T : Type} `{Tr : !Transport T} `{TL : !TransportLaws T}.
Implicit Types s : dev (T:=T).

(** The engine's invariant: a well-formed wire, well-formed queued packets. *)
Definition engine_ok (s : dev (T:=T)) : Prop :=
  t_wf (transport (snd s)) ∧ Forall packet_ok (pending (snd s)).

(** What is queued or still to come. *)
Definition load (s : dev (T:=T)) : nat :=
  (length (pending (snd s)) + t_backlog (transport (snd s)))%nat.

Definition load_frame (s s' : dev (T:=T)) : Prop :=
  fst s ≤ fst s' ∧ (load s' ≤ load s)%nat.

(** ACL packets handed to the transport so far. *)
Definition acl_sent (s : dev (T:=T)) : Z :=
  Z.of_nat (length (filter (λ pkt, is_acl pkt = true) (t_sent (transport (snd s))))).

(** Credits spent and not yet counted back. *)
Definition credit_balance (s : dev (T:=T)) : Z :=
  acl_credits (snd s) - acl_completed (snd s) + acl_sent s.

Definition credit_frame (s s' : dev (T:=T)) : Prop :=
  fst s ≤ fst s' ∧ credit_balance s' = credit_balance s.

#[export] Instance load_preorder : PreOrder load_frame.
Proof.
  split; [by split|]. intros x y z [] []. unfold load_frame in *. split; lia.
Qed.

#[export] Instance credit_preorder : PreOrder credit_frame.
Proof.
  split; [by split|]. intros x y z [] []. unfold credit_frame in *. split; lia.
Qed.

(** The exceptions the engine lets through. *)
Definition engine_exn (e : exn) : Prop :=
  is_hci_error e = true ∨ e = StructError ∨ e = IndexError.

Lemma wire_error_hci e : is_transport_error e = true → is_hci_error (wire_error e) = true.
Proof. by destruct e. Qed.

Lemma as_hci_errors_runs {S A} (I : S → Prop) R `{!PreOrder R} (m : M S A) :
  runs I R (λ e, is_transport_error e = true) m →
  runs I R (λ e, is_hci_error e = true) (as_hci_errors m).
Proof.
  intros Hm. eapply runs_try_except; [done|exact Hm| |by intros ? ->].
  intros e He _. apply runs_raise; [done|]. by apply wire_error_hci.
Qed.

(** The two relations the engine's operations respect, at once. *)
Definition both_frame (s s' : dev (T:=T)) : Prop := load_frame s s' ∧ credit_frame s s'.
#[export] Instance both_preorder : PreOrder both_frame.
Proof.
  split; [by split|]. intros x y z [] []. split; by etrans.
Qed.

Lemma lift_unpack_H_runs (I : hci T → Prop) R `{!PreOrder R} bs :
  runs I R engine_exn (lift (unpack_H bs)).
Proof.
  apply runs_lift; [done|by unfold unpack_H, unpack_le; case_decide|].
  unfold unpack_H, unpack_le, engine_exn. case_decide; [done|]. intros e [= <-]. auto.
Qed.

Lemma lift_idx_runs {A S} (I : S → Prop) R `{!PreOrder R} (l : list A) i :
  runs I R engine_exn (lift (idx l i)).
Proof.
  apply runs_lift; [done|by unfold idx; case_match|].
  unfold idx, engine_exn. case_match; [done|]. intros e [= <-]. auto.
Qed.

#[local] Hint Resolve lift_unpack_H_runs lift_idx_runs : runs.

(** [on_event] leaves the queue, the wire and the credit balance alone. *)
Definition event_frame (h h' : hci T) : Prop :=
  transport h' = transport h ∧ pending h' = pending h ∧
  acl_credits h' - acl_completed h' = acl_credits h - acl_completed h.

#[export] Instance event_preorder : PreOrder event_frame.
Proof.
  split; [by repeat split|]. intros x y z (?&?&?) (?&?&?).
  unfold event_frame. split_and!; [congruence|congruence|lia].
Qed.

Lemma modify_event_runs f :
  (∀ h, event_frame h (f h)) → runs (λ _, True) event_frame engine_exn (modify f).
Proof. intros Hf. apply runs_modify. by split. Qed.

(** Adding a completed count to credits and total keeps the balance. *)
Lemma add_done_runs done :
  runs (λ _, True) event_frame engine_exn
    (modify (add_credits done) ;; modify (add_completed done)).
Proof.
  intros h _. unfold mbind, M_bind, modify; cbn. split_and!; [done| |discriminate|discriminate].
  unfold event_frame; cbn. split_and!; [done|done|lia].
Qed.

#[local] Hint Resolve add_done_runs : runs.

Lemma on_event_runs code body :
  runs (λ _, True) event_frame engine_exn (on_event (T:=T) code body).
Proof.
  unfold on_event. cbn zeta.
  runs_auto; apply modify_event_runs; done.
Qed.

(** A transport read followed by the error mapping. *)
Lemma wire_read_cases timeout s :
  engine_ok s →
  let '(r, s') := on_wire (as_hci_errors (t_read_packet timeout)) s in
  engine_ok s' ∧ both_frame s s' ∧ pending (snd s') = pending (snd s) ∧
  match r with
  | Ok (Some p) => packet_ok p ∧ (load s' < load s)%nat
  | Ok None => 0 < timeout → fst s + timeout ≤ fst s' ∨ (load s' < load s)%nat
  | Exc e => is_hci_error e = true
  | Stuck => False
  end.
Proof.
  destruct s as [now h]. intros [Hwf Hp]. unfold on_wire, zoom; cbn in *.
  pose proof (read_runs timeout (now, transport h) Hwf) as (Hwf'&(Ht&Hsent&Hb)&HE&HS).
  pose proof (λ p ct, read_some timeout now (transport h) p ct Hwf) as Hsome.
  pose proof (λ ct Hto, read_none timeout now (transport h) ct Hwf Hto) as Hnone.
  unfold as_hci_errors, try_except.
  destruct (t_read_packet timeout (now, transport h)) as [r [now' t']]; cbn in *.
  assert (Hframe : engine_ok (now', set_transport t' h) ∧
    both_frame (now, h) (now', set_transport t' h)).
  { split; [done|]. unfold both_frame, load_frame, credit_frame, load,
      credit_balance, acl_sent; cbn. rewrite Hsent. split_and!; lia. }
  destruct Hframe as [Hok Hframe]. unfold load in *; cbn in *.
  destruct r as [[p|]|e|]; cbn; [| | |done].
  - destruct (Hsome p (now', t') eq_refl). cbn in *. split_and!; try done. lia.
  - split_and!; try done. intros Hto.
    destruct (Hnone (now', t') Hto eq_refl); cbn in *; [by left|right; lia].
  - rewrite (HE e eq_refl). cbn. split_and!; try done. apply wire_error_hci. by apply HE.
Qed.

(** Recording an event changes neither the wire nor the queue. *)
Lemma on_event_dev p s :
  engine_ok s →
  let '(r, s') := when (kind p =? H4_EVENT) (on_hci (on_event (code p) (body p))) s in
  engine_ok s' ∧ both_frame s s' ∧ fst s' = fst s ∧ load s' = load s ∧
  pending (snd s') = pending (snd s) ∧
  match r with Ok _ => True | Exc e => engine_exn e | Stuck => False end.
Proof.
  destruct s as [now h]. intros [Hwf Hp]. destruct (kind p =? H4_EVENT); cbn.
  - destruct (on_event_runs (code p) (body p) h I) as (_&(Ht&Hpe&Hc)&HE&HS).
    unfold on_hci, zoom; cbn.
    destruct (on_event (code p) (body p) h) as [r h']; cbn in *.
    unfold engine_ok, both_frame, load_frame, credit_frame, load, credit_balance, acl_sent; cbn.
    rewrite Ht, Hpe. split_and!; try done; try lia. destruct r; auto.
  - split_and!; done.
Qed.

Lemma read_wire_cases timeout s :
  engine_ok s →
  let '(r, s') := read_wire timeout s in
  engine_ok s' ∧ both_frame s s' ∧ pending (snd s') = pending (snd s) ∧
  match r with
  | Ok (Some p) => packet_ok p ∧ (load s' < load s)%nat
  | Ok None => 0 < timeout → fst s + timeout ≤ fst s' ∨ (load s' < load s)%nat
  | Exc e => engine_exn e
  | Stuck => False
  end.
Proof.
  intros Hs. unfold read_wire. pose proof (wire_read_cases timeout s Hs) as Hw.
  unfold mbind at 1, M_bind at 1.
  destruct (on_wire (as_hci_errors (t_read_packet timeout)) s) as [[[p|]|e|] s1];
    destruct Hw as (Hok&Hfr&Hpe&Hr); [| | |done].
  - pose proof (on_event_dev p s1 Hok) as He. unfold mbind, M_bind.
    destruct (when (kind p =? H4_EVENT) _ s1) as [[u|e|] s2];
      destruct He as (?&?&_&Hl&Hp2&He); [| |done].
    + cbn. split_and!; [done|by etrans|congruence|apply Hr|]. rewrite Hl. apply Hr.
    + split_and!; [done|by etrans|congruence|done].
  - done.
  - split_and!; try done. by left.
Qed.

(** One read of the engine: queue first, then the wire. *)
Lemma read_packet_cases timeout s :
  engine_ok s →
  let '(r, s') := read_packet timeout s in
  engine_ok s' ∧ both_frame s s' ∧
  match r with
  | Ok (Some p) => packet_ok p ∧ (load s' < load s)%nat ∧
      (pending (snd s) = p :: pending (snd s') ∨
       pending (snd s) = [] ∧ pending (snd s') = [])
  | Ok None => (0 < timeout → fst s + timeout ≤ fst s' ∨ (load s' < load s)%nat) ∧
      pending (snd s) = [] ∧ pending (snd s') = []
  | Exc e => engine_exn e
  | Stuck => False
  end.
Proof.
  destruct s as [now h]. intros Hs. unfold read_packet, gets, mbind, M_bind; cbn.
  destruct (pending h) as [|p q] eqn:Eq.
  - pose proof (read_wire_cases timeout (now, h) Hs) as Hw.
    destruct (read_wire timeout (now, h)) as [[[p|]|e|] s'];
      destruct Hw as (?&?&Hpe&Hr); cbn in *; rewrite Eq in Hpe; split_and!; try done.
    + apply Hr.
    + apply Hr.
    + auto.
  - cbn. destruct Hs as [Hwf Hp]; cbn in *. rewrite Eq in Hp.
    apply Forall_cons in Hp as [Hp Hq].
    unfold engine_ok, both_frame, load_frame, credit_frame, load, credit_balance, acl_sent; cbn.
    rewrite Eq; cbn. split_and!; auto; lia.
Qed.

Lemma read_packet_runs timeout :
  runs engine_ok both_frame engine_exn (read_packet (T:=T) timeout).
Proof.
  intros s Hs. pose proof (read_packet_cases timeout s Hs) as H.
  destruct (read_packet timeout s) as [r s']; destruct H as (?&?&Hr); cbn.
  split_and!; try done.
  - by intros e ->.
  - by intros ->.
Qed.

(** *** Polling loops end *)

Definition turns (w d : Z) : nat := Z.to_nat ((d + w - 1) / w).

Lemma turns_mono w d d' : 0 < w → d ≤ d' → (turns w d ≤ turns w d')%nat.
Proof.
  intros. unfold turns.
  assert ((d + w - 1) / w ≤ (d' + w - 1) / w) by (apply Z.div_le_mono; lia). lia.
Qed.

Lemma turns_step w d x :
  0 < w → 0 < d → Z.min w d ≤ x → (turns w (d - x) < turns w d)%nat.
Proof.
  intros Hw Hd Hx. assert (1 ≤ (d + w - 1) / w) by (apply Z.div_le_lower_bound; lia).
  destruct (Z.min_spec w d) as [[? Hm]|[? Hm]]; rewrite Hm in Hx.
  - apply Nat.le_lt_trans with (turns w (d - w)); [apply turns_mono; lia|].
    unfold turns. replace (d - w + w - 1) with (d + w - 1 + (-1) * w) by lia.
    rewrite Z.div_add by lia. lia.
  - apply Nat.le_lt_trans with (turns w 0); [apply turns_mono; lia|].
    unfold turns. rewrite Z.div_small by lia. lia.
Qed.

Section poll_runs.
Context {D A : Type} (wait : Z → Z) (step : D → packet → M (dev (T:=T)) (D + A)).
Context (w : Z) (R : relation (dev (T:=T))) `{!PreOrder R} (E : exn → Prop).
Context (Hw : 0 < w) (Hwait : ∀ d, 0 < d → Z.min w d ≤ wait d).
Context (HR : ∀ s s', both_frame s s' → R s s') (HE : ∀ e, engine_exn e → E e).
Context (Hstep : ∀ d p, packet_ok p → runs engine_ok R E (step d p)).
Context (Hload : ∀ d p, packet_ok p → runs engine_ok load_frame E (step d p)).

Lemma poll_loop_runs fuel deadline d s :
  engine_ok s → (load s + turns w (deadline - fst s) < fuel)%nat →
  let '(r, s') := poll_loop wait step fuel deadline d s in
  engine_ok s' ∧ R s s' ∧ (∀ e, r = Exc e → E e) ∧ r ≠ Stuck.
Proof.
  revert d s. induction fuel as [|fuel IH]; intros d s Hs Hfuel; [lia|].
  cbn [poll_loop]. unfold gets. unfold mbind at 1, M_bind at 1; cbn.
  destruct (Z.leb_spec deadline (fst s)) as [|Hlt].
  { cbn. split_and!; try done. }
  unfold mbind at 1, M_bind at 1.
  pose proof (read_packet_cases (wait (deadline - fst s)) s Hs) as Hr.
  specialize (Hwait (deadline - fst s) ltac:(lia)).
  destruct (read_packet _ s) as [[[p|]|e|] s1];
    destruct Hr as (Hs1&Hfr&Hr); [| | |done].
  - destruct Hr as (Hp&Hl&_). unfold mbind at 1, M_bind at 1.
    destruct (Hstep d p Hp s1 Hs1) as (Hs2&HR2&HE2&HS2).
    destruct (Hload d p Hp s1 Hs1) as (_&[Ht2 Hl2]&_&_).
    destruct (step d p s1) as [[[d'|a]|e|] s2]; cbn in Hs2, HR2, HE2, HS2, Ht2, Hl2 |- *.
    + specialize (IH d' s2 Hs2). pose proof Hfr as [[Ht _] _].
      pose proof (turns_mono w (deadline - fst s2) (deadline - fst s) Hw ltac:(lia)).
      destruct (poll_loop wait step fuel deadline d' s2) as [r s3].
      destruct IH as (?&?&?&?); [lia|]. split_and!; try done.
      transitivity s1; [by apply HR|]. by transitivity s2.
    + split_and!; try done. transitivity s1; [by apply HR|done].
    + split_and!; try done. transitivity s1; [by apply HR|done].
    + done.
  - destruct Hr as (Hto&_). pose proof Hfr as [[Ht Hl] Hc].
    specialize (IH d s1 Hs1).
    assert (Hm : (load s1 + turns w (deadline - fst s1) < fuel)%nat).
    { assert (0 < wait (deadline - fst s)) as Hpos by lia.
      destruct (Hto Hpos) as [Ht'|Hl'].
      - pose proof (turns_step w (deadline - fst s) (fst s1 - fst s) Hw ltac:(lia) ltac:(lia)) as Hst.
        replace (deadline - fst s - (fst s1 - fst s)) with (deadline - fst s1) in Hst by lia. lia.
      - pose proof (turns_mono w (deadline - fst s1) (deadline - fst s) Hw ltac:(lia)). lia. }
    destruct (poll_loop wait step fuel deadline d s1) as [r s3].
    destruct (IH Hm) as (?&?&?&?). split_and!; try done.
    transitivity s1; [by apply HR|done].
  - split_and!; try done; [by apply HR|]. intros ? [= <-]. by apply HE.
Qed.

Lemma poll_runs timeout d : runs engine_ok R E (poll wait step w timeout d).
Proof.
  intros s Hs. unfold poll, gets, mbind, M_bind; cbn.
  pose proof (poll_loop_runs (poll_fuel w timeout s) (fst s + timeout) d s Hs) as H.
  destruct (poll_loop _ _ _ _ _ _) as [r s']. apply H.
  unfold poll_fuel, load, turns. replace (fst s + timeout - fst s) with timeout by lia. lia.
Qed.
End poll_runs.

(** A deferring turn touches nothing but its accumulator. *)
Lemma defer_step_runs {A} (f : packet → res (option A)) R `{!PreOrder R} E d p :
  f p ≠ Stuck → (∀ e, f p = Exc e → E e) →
  runs engine_ok R E (defer_step (T:=T) f d p).
Proof.
  intros HS HE. unfold defer_step. apply runs_bind; [done|by apply runs_lift|].
  intros [a|]; by apply runs_ret.
Qed.

Lemma match_reply_total opcode p : match_reply opcode p ≠ Stuck.
Proof.
  unfold match_reply, unpack_H, unpack_le, idx. cbn.
  repeat (case_match || case_decide || cbn); try done; simplify_eq.
Qed.

(** *** What a polling loop has read *)

(** [reads s ps s']: successive [read_packet] calls from [s] return the
    packets [ps], timeouts in between ignored, and leave [s']. *)
Inductive reads : dev (T:=T) → list packet → dev (T:=T) → Prop :=
  | reads_nil s : reads s [] s
  | reads_none w s s1 ps s2 :
      read_packet w s = (Ok None, s1) → reads s1 ps s2 → reads s ps s2
  | reads_some w s s1 p ps s2 :
      read_packet w s = (Ok (Some p), s1) → reads s1 ps s2 → reads s (p :: ps) s2.

(** What was read came off the front of the queue first; the wire was read
    only once the queue was empty. *)
Lemma reads_ok s ps s' :
  engine_ok s → reads s ps s' →
  engine_ok s' ∧ both_frame s s' ∧ Forall packet_ok ps ∧
  (load s' + length ps ≤ load s)%nat ∧
  (pending (snd s) = ps ++ pending (snd s') ∨
   pending (snd s') = [] ∧ ∃ wire, ps = pending (snd s) ++ wire).
Proof.
  intros Hs H. induction H as [s|w s s1 ps s2 Hr H IH|w s s1 p ps s2 Hr H IH].
  - split_and!; [done|done|done|cbn; lia|by left].
  - pose proof (read_packet_cases w s Hs) as Hc. rewrite Hr in Hc.
    destruct Hc as (Hs1&Hfr&_&Hp&Hp1). destruct (IH Hs1) as (?&?&?&Hl&Hpend).
    pose proof Hfr as [[_ Hl1] _].
    split_and!; [done|by etrans|done|lia|]. rewrite Hp1 in Hpend. rewrite Hp.
    destruct Hpend as [Hpend|[? _]]; [|right; split; [done|by exists ps]].
    left. done.
  - pose proof (read_packet_cases w s Hs) as Hc. rewrite Hr in Hc.
    destruct Hc as (Hs1&Hfr&Hp&Hl1&Hq). destruct (IH Hs1) as (?&?&?&Hl&Hpend).
    split_and!; [done|by etrans|by constructor|cbn; lia|].
    destruct Hq as [Hq|[Hq Hq1]].
    + rewrite Hq. destruct Hpend as [->|[? [wire ->]]]; [by left|].
      right. split; [done|]. by exists wire.
    + rewrite Hq. rewrite Hq1 in Hpend. right. split.
      * destruct Hpend as [Hpend|[? _]]; [|done].
        symmetry in Hpend. by apply app_eq_nil in Hpend as [_ ?].
      * by exists (p :: ps).
Qed.

Section defer.
Context {A : Type} (f : packet → res (option A)).

(** What a deferring loop returns: it stopped at the first packet [f] accepts
    and put every earlier one aside, in order. *)
Lemma poll_loop_defer wait fuel deadline d s r s' :
  poll_loop wait (defer_step f) fuel deadline d s = (r, s') →
  match r with
  | Ok (inr (d', a)) => ∃ ps p, d' = d ++ ps ∧ reads s (ps ++ [p]) s' ∧
      Forall (λ q, f q = Ok None) ps ∧ f p = Ok (Some a)
  | Ok (inl d') => ∃ ps, d' = d ++ ps ∧ reads s ps s' ∧
      Forall (λ q, f q = Ok None) ps ∧ deadline ≤ fst s'
  | _ => True
  end.
Proof.
  revert d s. induction fuel as [|fuel IH]; intros d s; [by intros [= <- <-]|].
  cbn [poll_loop]. unfold gets, defer_step, lift, mret, M_ret, mbind, M_bind; cbn.
  destruct (Z.leb_spec deadline (fst s)) as [Hd|Hd].
  { intros [= <- <-]. exists []. rewrite app_nil_r. split_and!; [done|constructor|done|done]. }
  destruct (read_packet (wait (deadline - fst s)) s) as [[[p|]|e|] s1] eqn:Er;
    [| |by intros [= <- <-]|by intros [= <- <-]].
  - destruct (f p) as [[a|]|e|] eqn:Ef; cbn; [| |by intros [= <- <-]|by intros [= <- <-]].
    + intros [= <- <-]. exists [], p. rewrite app_nil_r.
      split_and!; [done| |done|done]. eapply reads_some; [done|constructor].
    + intros Hl. specialize (IH (d ++ [p]) s1 Hl). destruct r as [[d'|[d' a]]|e|]; try done.
      * destruct IH as (ps&->&Hr&Hf&Ht). exists (p :: ps). rewrite <-app_assoc.
        split_and!; [done|by eapply reads_some|by constructor|done].
      * destruct IH as (ps&p'&->&Hr&Hf&Ha). exists (p :: ps), p'. rewrite <-app_assoc.
        split_and!; [done|by eapply reads_some|by constructor|done].
  - intros Hl. specialize (IH d s1 Hl). destruct r as [[d'|[d' a]]|e|]; try done.
    + destruct IH as (ps&->&Hr&?&?). exists ps. split_and!; try done. by eapply reads_none.
    + destruct IH as (ps&p&->&Hr&?&?). exists ps, p. split_and!; try done. by eapply reads_none.
Qed.

Context (w : Z) (wait : Z → Z).
Context (Hw : 0 < w) (Hwait : ∀ d, 0 < d → Z.min w d ≤ wait d).
Context (Hf : ∀ p, f p ≠ Stuck).
Context (HfE : ∀ p e, packet_ok p → f p = Exc e → engine_exn e).

(** A deferring loop always ends, with an answer, at its deadline or by an
    engine exception. *)
Lemma poll_defer_cases timeout s :
  engine_ok s →
  let '(r, s') := poll wait (defer_step f) w timeout [] s in
  engine_ok s' ∧ both_frame s s' ∧
  match r with
  | Ok (inr (ps, a)) => ∃ p, reads s (ps ++ [p]) s' ∧
      Forall (λ q, f q = Ok None) ps ∧ f p = Ok (Some a)
  | Ok (inl ps) => reads s ps s' ∧
      Forall (λ q, f q = Ok None) ps ∧ fst s + timeout ≤ fst s'
  | Exc e => engine_exn e
  | Stuck => False
  end.
Proof.
  intros Hs.
  pose proof (poll_runs wait (defer_step f) w both_frame engine_exn Hw Hwait
    (λ _ _ H, H) (λ _ H, H)) as Hruns.
  destruct (Hruns) with (timeout := timeout) (d := @nil packet) (s := s)
    as (Hok&Hfr&HE&HS); [| |done|].
  { intros. apply defer_step_runs; [apply _|done|by intros; eapply HfE]. }
  { intros. apply defer_step_runs; [apply _|done|by intros; eapply HfE]. }
  clear Hruns. unfold poll, gets, mbind, M_bind in *; cbn in *.
  destruct (poll_loop _ _ _ _ _ _) as [r s'] eqn:El.
  apply poll_loop_defer in El. split_and!; [done|done|]. cbn in *.
  destruct r as [[ps|[ps a]]|e|].
  - destruct El as (?&->&?). done.
  - destruct El as (?&p&->&?). by exists p.
  - by apply HE.
  - done.
Qed.
End defer.

(** *** Commands *)

(** The H:4 command packet of an opcode and its parameters. *)
Definition command_packet (opcode : Z) (payload : bytes) : bytes :=
  [H4_COMMAND] ++ le_bytes 2 opcode ++ [blen payload] ++ payload.

Lemma write_packet_cases data s :
  engine_ok s →
  let '(r, s') := write_packet data s in
  engine_ok s' ∧ load s' = load s ∧ fst s' = fst s ∧
  snd s' = set_transport (transport (snd s')) (snd s) ∧
  match r with
  | Ok _ => t_sent (transport (snd s')) = t_sent (transport (snd s)) ++ [data]
  | Exc e => is_hci_error e = true ∧
             t_sent (transport (snd s')) = t_sent (transport (snd s))
  | Stuck => False
  end.
Proof.
  destruct s as [now h]. intros [Hwf Hp]. unfold write_packet, on_hci, zoom; cbn in *.
  unfold as_hci_errors, try_except.
  pose proof (write_runs data (transport h) Hwf) as (Hwf'&Hb&HE&HS).
  pose proof (λ t', write_ok data (transport h) t') as Hok.
  pose proof (λ t' e, write_exc data (transport h) t' e) as Hex.
  destruct (t_write_packet data (transport h)) as [[[]|e|] t']; cbn in *; [| |done].
  - unfold load; cbn. split_and!; auto. split; done.
  - rewrite HE by done. unfold load; cbn. split_and!; auto; [by split| |by eapply Hex].
    apply wire_error_hci. by apply HE.
Qed.

Lemma pack_header opcode payload hdr :
  pack [FB H4_COMMAND; FH opcode; FB (blen payload)] = Ok hdr →
  hdr ++ payload = command_packet opcode payload ∧
  0 ≤ opcode < 65536 ∧ blen payload < 256.
Proof.
  unfold pack, pack_field. rewrite (pack_le_ok 1 H4_COMMAND) by (unfold H4_COMMAND; lia).
  destruct (pack_le 2 opcode) as [o|e|] eqn:Eo; [|done|done].
  destruct (pack_le 1 (blen payload)) as [l|e|] eqn:El; [|done|done].
  apply pack_le_inv in Eo as [? ->]. apply pack_le_inv in El as [Hl ->].
  intros [= <-]. split; [|cbn in *; lia].
  unfold command_packet. cbn. by rewrite (Z.mod_small (blen payload)).
Qed.

Lemma send_command_cases opcode payload s :
  engine_ok s →
  let '(r, s') := send_command opcode payload s in
  engine_ok s' ∧ load s' = load s ∧ fst s' = fst s ∧
  snd s' = set_transport (transport (snd s')) (snd s) ∧ both_frame s s' ∧
  match r with
  | Ok _ => t_sent (transport (snd s'))
              = t_sent (transport (snd s)) ++ [command_packet opcode payload]
  | Exc e => engine_exn e ∧
             t_sent (transport (snd s')) = t_sent (transport (snd s))
  | Stuck => False
  end.
Proof.
  intros Hs. unfold send_command, lift. unfold mbind at 1, M_bind at 1.
  destruct (pack _) as [hdr|e|] eqn:Ep; cbn.
  - apply pack_header in Ep as (->&_).
    pose proof (write_packet_cases (command_packet opcode payload) s Hs) as Hw.
    destruct (write_packet _ s) as [r s']. destruct Hw as (Hok&Hl&Ht&Hsame&Hr).
    split_and!; [done|done|done|done| |destruct r; [done|destruct Hr; by split; [left|]|done]].
    split; [split; lia|]. split; [lia|]. unfold credit_balance, acl_sent.
    rewrite Hsame; cbn. rewrite Hsame in Hr; cbn in Hr. 
    destruct r as [u|e|]; [|destruct Hr as [_ ->]; lia|done].
    rewrite Hr, filter_app, filter_cons_False, filter_nil, app_nil_r by done. lia.
  - destruct s as [now [? ? ? ? ? ? ? ? ? ?]]. split_and!; try done.
    right; left. by eapply pack_struct_error.
  - by apply pack_not_stuck in Ep.
Qed.

Lemma match_reply_exn opcode p e : match_reply opcode p = Exc e → engine_exn e.
Proof.
  unfold match_reply, unpack_H, unpack_le, idx, engine_exn. cbn.
  repeat (case_match || case_decide || cbn); intros; simplify_eq; auto.
Qed.

(** Putting back packets that were read keeps every frame. *)
Lemma put_back_ok s ps rest s' f :
  engine_ok s → reads s (ps ++ rest) s' →
  f = (λ q, ps ++ q) ∨ f = (λ q, q ++ ps) →
  let s'' := (fst s', set_pending (f (pending (snd s'))) (snd s')) in
  engine_ok s'' ∧ both_frame s s''.
Proof.
  intros Hs Hr Hf. apply reads_ok in Hr as ([Hwf Hp]&[[Ht _] [_ Hc]]&Hps&Hl&_); [|done].
  apply Forall_app in Hps as [Hps _]. rewrite length_app in Hl.
  unfold engine_ok, both_frame, load_frame, credit_frame, load, credit_balance, acl_sent in *.
  cbn. destruct Hf as [-> | ->]; rewrite Forall_app, length_app; split_and!; auto; lia.
Qed.

(** Every outcome of a command. *)
Lemma command_cases opcode payload timeout allow_fail s :
  engine_ok s →
  let '(r, s') := command_t opcode payload timeout allow_fail s in
  engine_ok s' ∧ both_frame s s' ∧
  match r with
  | Ok res => ∃ s1 ps p a s2,
      t_sent (transport (snd s1))
        = t_sent (transport (snd s)) ++ [command_packet opcode payload] ∧
      engine_ok s1 ∧ fst s1 = fst s ∧ pending (snd s1) = pending (snd s) ∧
      reads s1 (ps ++ [p]) s2 ∧ Forall (λ q, match_reply opcode q = Ok None) ps ∧
      match_reply opcode p = Ok (Some a) ∧ res = reply_result a ∧
      (allow_fail = false → reply_status a = 0) ∧
      s' = (fst s2, set_pending (pending (snd s2) ++ ps) (snd s2)) ∧
      (load s' < load s)%nat
  | Exc e => engine_exn e
  | Stuck => False
  end.
Proof.
  intros Hs. unfold command_t. unfold mbind at 1, M_bind at 1.
  pose proof (send_command_cases opcode payload s Hs) as Hw.
  destruct (send_command opcode payload s) as [[u|e|] s1];
    destruct Hw as (Hs1&Hl1&Ht1&Hsame&Hfr1&Hr1); [|by destruct Hr1|done].
  unfold mbind at 1, M_bind at 1.
  pose proof (poll_defer_cases (match_reply opcode) (ms 200) (λ _, ms 200)
    ltac:(done) ltac:(intros; cbn beta; lia) (match_reply_total opcode)
    (λ q e _, match_reply_exn opcode q e) timeout s1 Hs1) as Hp.
  destruct (poll _ _ _ _ _ s1) as [[[ps|[ps a]]|e|] s2];
    destruct Hp as (Hs2&Hfr2&Hr2); [| | |done].
  - destruct Hr2 as (Hr2&_&_). rewrite <-(app_nil_r ps) in Hr2.
    apply (put_back_ok s1 ps [] s2 (λ q, q ++ ps)) in Hr2 as [Hok Hfr]; auto.
    cbn. split_and!; [done|by transitivity s1|by left].
  - destruct Hr2 as (p&Hr2&Hf&Ha).
    pose proof (put_back_ok s1 ps [p] s2 (λ q, q ++ ps) Hs1 Hr2 (or_intror eq_refl)) as [Hok Hfr].
    unfold extend_pending, on_hci, zoom, modify. unfold mbind, M_bind; cbn.
    destruct (negb (reply_status a =? 0) && negb allow_fail) eqn:Est; cbn.
    + split_and!; [done|by transitivity s1|]. left. by destruct a.
    + split_and!; [done|by transitivity s1|]. exists s1, ps, p, a, s2.
      split_and!; try done; [by rewrite Hsame| |].
      * intros ->. apply andb_false_iff in Est as [Est|Est]; [|done].
        apply negb_false_iff in Est. lia.
      * apply reads_ok in Hr2 as (_&_&_&Hl2&_); [|done].
        unfold load in *; cbn. rewrite length_app in *; cbn in *. lia.
  - split_and!; [done|by transitivity s1|done].
Qed.




(** A deferring loop over a queue that holds an accepted packet never reaches
    the wire. *)
Lemma poll_loop_queue {A} (f : packet → res (option A)) wait deadline now a p after :
  now < deadline → f p = Ok (Some a) →
  ∀ before fuel d h, pending h = before ++ p :: after →
  Forall (λ q, f q = Ok None) before → (length before < fuel)%nat →
  poll_loop wait (defer_step f) fuel deadline d (now, h)
  = (Ok (inr (d ++ before, a)), (now, set_pending after h)).
Proof.
  intros Hnow Hp before. induction before as [|q before IH];
    intros fuel d h Hpend Hb Hfuel; (destruct fuel as [|fuel]; [cbn in Hfuel; lia|]);
    cbn [poll_loop]; unfold gets, defer_step, lift, mret, M_ret, mbind, M_bind; cbn;
    rewrite (proj2 (Z.leb_gt _ _)) by lia;
    unfold read_packet, gets, mbind, M_bind; cbn; rewrite Hpend; cbn.
  - rewrite Hp. by rewrite app_nil_r.
  - apply Forall_cons in Hb as [Hq Hb]. rewrite Hq.
    rewrite (cons_middle q d before), app_assoc.
    apply (IH fuel (d ++ [q]) (set_pending (before ++ p :: after) h)); [done|done|].
    cbn in Hfuel. lia.
Qed.

(** An answer to the opcode that is already queued, left over from a
    command that timed out, is taken as this command's answer without reading
    the wire, and the packets queued after it overtake the ones before it. *)
Theorem command_takes_stale_answer (opcode timeout now : Z) (payload : bytes)
    (h h1 : hci T) (before after : list packet) (p : packet) (a : reply)
    (Hpend : pending h = before ++ p :: after)
    (Hbefore : Forall (λ q, match_reply opcode q = Ok None) before)
    (Hp : match_reply opcode p = Ok (Some a)) (Htime : 0 < timeout)
    (Hok : engine_ok (now, h))
    (Hsend : send_command opcode payload (now, h) = (Ok tt, (now, h1))) :
  command_t opcode payload timeout true (now, h)
  = (Ok (reply_result a), (now, set_pending (after ++ before) h1)).
Proof.
  pose proof (send_command_cases opcode payload _ Hok) as Hc.
  unfold command_t. unfold mbind at 1, M_bind at 1. rewrite Hsend in *.
  destruct Hc as (_&_&_&Hsame&_). cbn in Hsame.
  assert (Hpend1 : pending h1 = before ++ p :: after) by (rewrite Hsame; done).
  unfold mbind at 1, M_bind at 1. unfold poll, gets. unfold mbind, M_bind; cbn.
  rewrite (poll_loop_queue (match_reply opcode) (λ _, ms 200) (now + timeout)
             now a p after ltac:(lia) Hp before _ [] h1 Hpend1 Hbefore).
  { unfold extend_pending, on_hci, zoom, modify; cbn. by rewrite andb_false_r. }
  unfold poll_fuel; cbn. rewrite Hpend1, length_app; cbn. lia.
Qed.

(** *** Credit accounting *)

Lemma send_acl_cases handle cid payload s :
  engine_ok s →
  let '(r, s') := send_acl handle cid payload s in
  engine_ok s' ∧ both_frame s s' ∧
  match r with Ok _ => True | Exc e => engine_exn e | Stuck => False end.
Proof.
  intros Hs. unfold send_acl, lift. unfold mbind at 1, M_bind at 1.
  destruct (pack [FH (blen payload); FH cid]) as [hd|e|] eqn:E1;
    [|split_and!; try done; right; left; by eapply pack_struct_error
     |by apply pack_not_stuck in E1].
  cbn zeta. unfold mbind at 1, M_bind at 1.
  destruct (pack [FH _; FH (blen (hd ++ payload))]) as [hdr|e|] eqn:E2;
    [|split_and!; try done; right; left; by eapply pack_struct_error
     |by apply pack_not_stuck in E2].
  pose proof (write_packet_cases ([H4_ACL] ++ hdr ++ hd ++ payload) s Hs) as Hw.
  unfold mbind, M_bind. destruct (write_packet _ s) as [[u|e|] s1];
    destruct Hw as (Hok&Hl&Ht&Hsame&Hr); [| |done].
  - unfold on_hci, zoom, modify; cbn. split_and!; [exact Hok| |done].
    unfold both_frame, load_frame, credit_frame, load, credit_balance, acl_sent in *.
    cbn [transport add_credits acl_credits acl_completed pending fst snd].
    rewrite Hr, filter_app, filter_cons_True, filter_nil, length_app by done.
    rewrite Hsame; cbn. rewrite Hsame in Hl; cbn in Hl. split_and!; lia.
  - split_and!; [done| |by left; destruct Hr].
    unfold both_frame, load_frame, credit_frame, load, credit_balance, acl_sent in *.
    destruct Hr as [_ ->]. rewrite Hsame; cbn. rewrite Hsame in Hl; cbn in Hl.
    split_and!; lia.
Qed.

Lemma has_pending_runs :
  runs engine_ok both_frame engine_exn (has_pending_input (T:=T)).
Proof.
  unfold has_pending_input, on_wire.
  apply (runs_zoom _ _ (λ ct, t_wf (snd ct)) read_frame).
  - eapply runs_weaken; [|apply as_hci_errors_runs; [apply _|apply pending_runs]].
    intros e He. by left.
  - by intros s [? _].
  - intros s [now t] [Hwf Hp] Hwf' (Ht&Hsent&Hb); cbn in *. split; [done|].
    unfold both_frame, load_frame, credit_frame, load, credit_balance, acl_sent; cbn.
    rewrite Hsent. split_and!; lia.
Qed.
End engine_laws.

(** The calls a test program makes on an engine once it is set up. *)
Inductive engine_call : Type :=
  | CallRead (timeout : Z)
  | CallCommand (opcode : Z) (payload : bytes) (timeout : Z) (allow_fail : bool)
  | CallSendAcl (handle cid : Z) (payload : bytes)
  | CallPending.

(** One call, its outcome dropped: [try: call() except Exception: pass]. *)
Definition run_call {T} `{Transport T} (c : engine_call) : M (dev (T:=T)) unit :=
  try_except (λ _, true)
    match c with
    | CallRead timeout => read_packet timeout ;; skip
    | CallCommand op pl timeout af => command_t op pl timeout af ;; skip
    | CallSendAcl handle cid pl => send_acl handle cid pl
    | CallPending => has_pending_input ;; skip
    end (λ _, skip).

Section credits.
Context {T : Type} `{Tr : !Transport T} `{TL : !TransportLaws T}.

Lemma command_runs opcode payload timeout allow_fail :
  runs (engine_ok (T:=T)) both_frame engine_exn
    (command_t opcode payload timeout allow_fail).
Proof.
  intros s Hs. pose proof (command_cases opcode payload timeout allow_fail s Hs) as H.
  destruct (command_t opcode payload timeout allow_fail s) as [r s'].
  destruct H as (?&?&Hr). cbn. split_and!; try done; destruct r; try done.
  by intros ? [= <-].
Qed.

Lemma send_acl_runs handle cid payload :
  runs (engine_ok (T:=T)) both_frame engine_exn (send_acl handle cid payload).
Proof.
  intros s Hs. pose proof (send_acl_cases handle cid payload s Hs) as H.
  destruct (send_acl handle cid payload s) as [r s'].
  destruct H as (?&?&Hr). cbn. split_and!; try done; destruct r; try done.
  by intros ? [= <-].
Qed.

Lemma run_call_runs c :
  runs (engine_ok (T:=T)) both_frame (λ _, False) (run_call c).
Proof.
  unfold run_call. eapply runs_try_except with (E := engine_exn); [apply _| | |done].
  - destruct c.
    + apply runs_bind; [apply _|apply read_packet_runs|intros _; apply runs_skip, _].
    + apply runs_bind; [apply _|apply command_runs|intros _; apply runs_skip, _].
    + apply send_acl_runs.
    + apply runs_bind; [apply _|apply has_pending_runs|intros _; apply runs_skip, _].
  - intros _ _ _. apply runs_skip, _.
Qed.

(** C5: whatever sequence of reads, commands, ACL sends and input probes is
    made, and whatever of them fails, the ACL credits are the starting credits
    plus the packets counted back since minus the ACL packets written since. *)
Theorem credits_conserved (calls : list engine_call) (s : dev (T:=T))
    (Hs : engine_ok s) :
  let s' := snd (for_each calls run_call s) in
  acl_credits (snd s') = acl_credits (snd s)
    + (acl_completed (snd s') - acl_completed (snd s)) - (acl_sent s' - acl_sent s).
Proof.
  destruct (runs_for_each engine_ok both_frame (λ _, False) calls run_call) with s
    as (_&[_ [_ Hc]]&_); [by intros; apply run_call_runs|done|].
  unfold credit_balance in Hc. cbn zeta. lia.
Qed.
End credits.

(** *** What events leave behind *)

Definition completed_entry (e : Z * Z) : bytes :=
  le_bytes 2 (fst e) ++ le_bytes 2 (snd e).

(** The body of Number Of Completed Packets for (handle, count) pairs. *)
Definition completed_body (es : list (Z * Z)) : bytes :=
  blen es :: concat (map completed_entry es).

Definition total (es : list (Z * Z)) : Z := foldr (λ e n, snd e + n) 0 es.

Lemma slice_cons {A} i j (x : A) l : slice (S i) (S j) (x :: l) = slice i j l.
Proof. done. Qed.

Lemma completed_slice es i e :
  es !! i = Some e →
  slice (1 + i * 4 + 2) (1 + i * 4 + 4) (completed_body es) = le_bytes 2 (snd e).
Proof.
  unfold completed_body. rewrite !Nat.add_1_l. cbn [Nat.add]. rewrite slice_cons.
  revert i. induction es as [|e0 es IH]; intros [|i] Hi; cbn in Hi; try done.
  - by injection Hi as ->.
  - cbn [map concat]. unfold completed_entry at 1. rewrite !le_bytes_2. cbn [app].
    replace (S i * 4 + 2)%nat with (S (S (S (S (i * 4 + 2))))) by lia.
    replace (S i * 4 + 4)%nat with (S (S (S (S (i * 4 + 4))))) by lia.
    rewrite !slice_cons. by apply IH.
Qed.

Lemma add_each {T} (d : nat → Z) (f : nat → res Z) m k (h : hci T) :
  (∀ i, (k ≤ i < k + m)%nat → f i = Ok (d i)) →
  for_each (seq k m) (λ i, done ← lift (f i);
    modify (add_credits done) ;; modify (add_completed done)) h
  = (Ok tt, let n := foldr (λ i n, d i + n) 0 (seq k m) in
            add_completed n (add_credits n h)).
Proof.
  revert k h. induction m as [|m IH]; intros k h Hf; cbn.
  - unfold skip, add_completed, add_credits; cbn. rewrite !Z.add_0_r. by destruct h.
  - unfold lift, modify, mbind, M_bind in *. rewrite Hf by lia. cbn.
    rewrite IH by (intros; apply Hf; lia).
    f_equal. unfold add_completed, add_credits; cbn. f_equal; lia.
Qed.

Lemma total_lookup es :
  foldr (λ i n, snd (default (0, 0) (es !! i)) + n) 0 (seq 0 (length es)) = total es.
Proof.
  induction es as [|e es IH]; [done|].
  change (total (e :: es)) with (snd e + total es). cbn -[Z.add total]. f_equal.
  rewrite <-IH, <-(fmap_S_seq 0), foldr_fmap. done.
Qed.

(** A Number Of Completed Packets event gives back exactly the credits of
    all its entries, whatever their handles, and counts them as completed. *)
Theorem on_event_completed_packets {T : Type} (es : list (Z * Z)) (h : hci T)
    (Hn : (length es < 256)%nat)
    (Hes : Forall (λ e, 0 ≤ snd e < 65536) es) :
  on_event (Some EVT_NUM_COMPLETED_PACKETS) (completed_body es) h
  = (Ok tt, add_completed (total es) (add_credits (total es) h)).
Proof.
  unfold on_event. cbn zeta.
  change (bool_decide (Some EVT_NUM_COMPLETED_PACKETS = Some EVT_DISCONNECTION_COMPLETE)) with false.
  change (bool_decide (Some EVT_NUM_COMPLETED_PACKETS = Some EVT_LE_META)) with false.
  change (bool_decide (Some EVT_NUM_COMPLETED_PACKETS = Some EVT_ENCRYPTION_CHANGE)) with false.
  change (bool_decide (Some EVT_NUM_COMPLETED_PACKETS = Some EVT_NUM_COMPLETED_PACKETS)) with true.
  change (1 <=? length (completed_body es))%nat with true.
  change (idx (completed_body es) 0) with (Ok (A:=Z) (blen es)).
  unfold blen. cbn [andb when skip]. unfold skip, mbind, M_bind.
  cbn -[seq completed_body Nat.mul Nat.add unpack_H slice]. rewrite Nat2Z.id.
  etrans; [apply (add_each (λ i, snd (default (0, 0) (es !! i)))
    (λ i, unpack_H (slice (1 + i * 4 + 2) (1 + i * 4 + 4) (completed_body es)))
    (length es) 0 h)|].
  2: { cbn zeta. by rewrite total_lookup. }
  intros i Hi. destruct (lookup_lt_is_Some_2 es i) as [e He]; [lia|].
    rewrite (completed_slice es i e He), He.
    rewrite unpack_H_ok by done. cbn [default snd]. f_equal. apply le_Z_le_bytes_small.
    by eapply Forall_lookup_1 in Hes.
Qed.

(** *** Runs on a scripted serial port *)

(** A device at time zero whose port delivers the given chunks. *)
Definition serial_dev (queue : list packet) (chunks : list bytes) : dev (T:=SerialH4.state) :=
  (0, set_pending queue (init_hci (SerialH4.Serial [] (SerialH4.deliver chunks) [] []))).

Definition serial_devb (s : dev (T:=SerialH4.state)) : bool :=
  bool_decide (SerialH4.wf (transport (snd s)) ∧ Forall packet_ok (pending (snd s))).

Lemma serial_dev_ok s : serial_devb s = true → engine_ok s.
Proof. intros H. by apply bool_decide_eq_true in H. Qed.

(** Command Complete for Reset with success, and a stray ACL packet. *)
Definition reset_complete : bytes := [4; 0x0e; 4; 1; 3; 0x0c; 0].
Definition stray_acl : bytes := [2; 0x40; 0; 2; 0; 7; 9].
Definition stray_packet : packet := Pkt H4_ACL None [0x40; 0; 2; 0; 7; 9].
Definition reset_packet : packet := Pkt H4_EVENT (Some EVT_COMMAND_COMPLETE) [1; 3; 0x0c; 0].

Definition reset_dev := serial_dev [] [stray_acl; reset_complete].
Definition reset_run := command_t OP_RESET [] (seconds 3) false reset_dev.




Lemma command_takes_stale_answer_witness :
  let h1 := snd (snd (send_command OP_RESET []
      (serial_dev [stray_packet; reset_packet; stray_packet] []))) in
  command_t OP_RESET [] (seconds 3) true
    (0, snd (serial_dev [stray_packet; reset_packet; stray_packet] []))
  = (Ok (0, []), (0, set_pending ([stray_packet] ++ [stray_packet]) h1)).
Proof.
  apply (command_takes_stale_answer OP_RESET (seconds 3) 0 [] _ _
    [stray_packet] [stray_packet] reset_packet (CompleteReply 0 [])).
  - done.
  - repeat constructor.
  - done.
  - done.
  - apply serial_dev_ok. by vm_compute.
  - by vm_compute.
Defined.

Lemma credits_conserved_witness :
  let calls := [CallRead 0; CallSendAcl 0x40 4 [2; 23; 0]; CallCommand OP_RESET [] (seconds 3) true] in
  let s' := snd (for_each calls run_call reset_dev) in
  acl_credits (snd s') = -1 ∧
  acl_credits (snd s') = acl_credits (snd reset_dev)
    + (acl_completed (snd s') - acl_completed (snd reset_dev))
    - (acl_sent s' - acl_sent reset_dev).
Proof.
  split; [by vm_compute|].
  apply (credits_conserved [CallRead 0; CallSendAcl 0x40 4 [2; 23; 0];
    CallCommand OP_RESET [] (seconds 3) true] reset_dev).
  apply serial_dev_ok. by vm_compute.
Defined.

Lemma on_event_completed_packets_witness :
  on_event (Some EVT_NUM_COMPLETED_PACKETS) (completed_body [(0x40, 3); (0x41, 2)])
    (init_hci tt)
  = (Ok tt, add_completed 5 (add_credits 5 (init_hci tt))).
Proof.
  apply (on_event_completed_packets [(0x40, 3); (0x41, 2)] (init_hci tt)).
  - cbn; lia.
  - repeat constructor; cbn; lia.
Defined.
