(* ===== verification/Trace.v ===== *)
(** * Trace: what programs over the engine write to the wire

    The test procedures are sequences of engine calls. This file gives the
    rules their proofs use: every engine operation keeps the engine's
    invariant, ends, lets only engine exceptions through, and appends to the
    packets written ([wrote]); a command appends exactly its own packet. *)

From S2P Require Export Hci.
#[local] Open Scope Z_scope.

Section trace.
Context {T : Type} `{Tr : !Transport T} `{TL : !TransportLaws T}.
Implicit Types s : dev (T:=T).

(** The packets written so far. *)
Definition sent s : list bytes := t_sent (transport (snd s)).

(** The step from [s] to [s'] only appends packets that satisfy [P]. *)
Definition wrote (P : bytes → Prop) s s' : Prop :=
  ∃ ps, sent s' = sent s ++ ps ∧ Forall P ps.

#[export] Instance wrote_preorder P : PreOrder (wrote P).
Proof.
  split.
  - intros s. exists []. by rewrite app_nil_r.
  - intros s1 s2 s3 (ps&E1&H1) (qs&E2&H2). exists (ps ++ qs).
    rewrite E2, E1, app_assoc. split; [done|]. by apply Forall_app.
Qed.

Lemma wrote_nothing P s s' : sent s' = sent s → wrote P s s'.
Proof. intros E. exists []. by rewrite app_nil_r. Qed.

Lemma wrote_one (P : bytes → Prop) s s' p : P p → sent s' = sent s ++ [p] → wrote P s s'.
Proof. intros HP E. exists [p]. by repeat constructor. Qed.

Lemma wrote_mono (P Q : bytes → Prop) s s' : (∀ p, P p → Q p) → wrote P s s' → wrote Q s s'.
Proof. intros HPQ (ps&E&H). exists ps. split; [done|]. by eapply Forall_impl. Qed.

(** The relation all operations respect: time, input and credits as in
    [both_frame], and only packets that satisfy [P] written. *)
Definition trace_frame (P : bytes → Prop) s s' : Prop := both_frame s s' ∧ wrote P s s'.

#[export] Instance trace_preorder P : PreOrder (trace_frame P).
Proof. split; [by split|]. intros x y z [] []. split; by etrans. Qed.

Lemma trace_load P s s' : trace_frame P s s' → load_frame s s'.
Proof. by intros [[] _]. Qed.

(** *** Reading writes nothing *)

Lemma read_wire_sent timeout s : engine_ok s → sent (snd (read_wire timeout s)) = sent s.
Proof.
  intros Hs. unfold read_wire, on_wire, zoom. unfold mbind at 1, M_bind at 1.
  destruct s as [now h]. destruct Hs as [Hwf _]. cbn [fst snd transport] in *.
  pose proof (as_hci_errors_runs _ _ _ (read_runs timeout) (now, transport h) Hwf)
    as (_&(_&Hsent&_)&_&_).
  destruct (as_hci_errors _ _) as [[[p|]|e|] [now' t']]; cbn in *; try done.
  destruct (kind p =? H4_EVENT); cbn; [|done].
  unfold on_hci, zoom; cbn. unfold mbind, M_bind; cbn.
  pose proof (on_event_runs (code p) (body p) (set_transport t' h) I) as (_&(Ht&_&_)&_&_).
  destruct (on_event _ _ _) as [[u|e|] h']; cbn in *; unfold sent; cbn; by rewrite Ht.
Qed.

Lemma read_packet_sent timeout s : engine_ok s → sent (snd (read_packet timeout s)) = sent s.
Proof.
  intros Hs. unfold read_packet, gets. unfold mbind at 1, M_bind at 1; cbn.
  destruct (pending (snd s)); [by apply read_wire_sent|done].
Qed.

Lemma read_packet_trace P timeout :
  runs engine_ok (trace_frame P) engine_exn (read_packet (T:=T) timeout).
Proof.
  intros s Hs. destruct (read_packet_runs timeout s Hs) as (?&?&?&?).
  split_and!; try done. split; [done|]. by apply wrote_nothing, read_packet_sent.
Qed.

(** A polling loop respects every relation its reads and turns respect. *)
#[export] Instance same_sent_preorder : PreOrder (λ a b : dev (T:=T), sent a = sent b).
Proof. split; [done|]. intros ? ? ? -> ->. done. Qed.

Lemma poll_loop_rel {D A} (R : relation (dev (T:=T))) `{!PreOrder R} wait
    (step : D → packet → M (dev (T:=T)) (D + A)) fuel deadline d s E :
  (∀ timeout s, engine_ok s → R s (snd (read_packet timeout s))) →
  (∀ d p, packet_ok p → runs engine_ok R E (step d p)) →
  engine_ok s → R s (snd (poll_loop wait step fuel deadline d s)).
Proof.
  intros HR Hstep. revert d s. induction fuel as [|fuel IH]; intros d s Hs; cbn; [done|].
  unfold gets. unfold mbind at 1, M_bind at 1; cbn.
  destruct (deadline <=? fst s); [done|]. unfold mbind at 1, M_bind at 1.
  pose proof (HR (wait (deadline - fst s)) s Hs) as HR1.
  pose proof (read_packet_cases (wait (deadline - fst s)) s Hs) as Hr.
  destruct (read_packet _ s) as [[[p|]|e|] s1]; cbn in HR1 |- *;
    destruct Hr as (Hs1&_&Hr); [| |done|done].
  - destruct Hr as (Hp&_). unfold mbind at 1, M_bind at 1.
    destruct (Hstep d p Hp s1 Hs1) as (Hs2&HR2&_&_).
    destruct (step d p s1) as [[[d'|a]|e|] s2]; cbn in *; try (by etrans).
    etrans; [exact HR1|]. etrans; [exact HR2|]. by apply IH.
  - etrans; [exact HR1|]. by apply IH.
Qed.

(** What a polling loop returns is what a turn returned for a packet. *)
Lemma poll_loop_result {D A} (Q : A → Prop) wait
    (step : D → packet → M (dev (T:=T)) (D + A)) R `{!PreOrder R} E fuel deadline d s a s' :
  (∀ d p, packet_ok p → runs engine_ok R E (step d p)) →
  (∀ d p s a s', packet_ok p → step d p s = (Ok (inr a), s') → Q a) →
  engine_ok s → poll_loop wait step fuel deadline d s = (Ok (inr a), s') → Q a.
Proof.
  intros Hstep HQ. revert d s. induction fuel as [|fuel IH]; intros d s Hs; cbn; [done|].
  unfold gets. unfold mbind at 1, M_bind at 1; cbn.
  destruct (deadline <=? fst s); [done|]. unfold mbind at 1, M_bind at 1.
  pose proof (read_packet_cases (wait (deadline - fst s)) s Hs) as Hr.
  destruct (read_packet _ s) as [[[p|]|e|] s1]; destruct Hr as (Hs1&_&Hr); [| |done|done].
  - destruct Hr as (Hp&_). unfold mbind at 1, M_bind at 1.
    destruct (Hstep d p Hp s1 Hs1) as (Hs2&_&_&_).
    destruct (step d p s1) as [[[d'|a']|e|] s2] eqn:Est; cbn in *; [| |done|done].
    + by apply IH.
    + intros [= -> ->]. by eapply HQ.
  - by apply IH.
Qed.

(** Decoding a field, in any state. *)
Lemma unpack_H_runs {S} (I : S → Prop) R `{!PreOrder R} bs :
  runs I R engine_exn (lift (unpack_H bs)).
Proof.
  unfold unpack_H, unpack_le. case_decide; [by apply (runs_lift _ _ _ (Ok _))|].
  apply runs_lift; [done|done|]. intros e [= <-]. right; by left.
Qed.

(** A polling loop whose turns change nothing but their accumulator. *)
Lemma poll_pure {D A} (Q : A → Prop) wait (step : D → packet → M (dev (T:=T)) (D + A))
    w timeout d s :
  0 < w → (∀ x, 0 < x → Z.min w x ≤ wait x) →
  (∀ (R : relation (dev (T:=T))), PreOrder R → ∀ d p, packet_ok p →
     runs engine_ok R engine_exn (step d p)) →
  (∀ d p s a s', packet_ok p → step d p s = (Ok (inr a), s') → Q a) →
  engine_ok s →
  let '(r, s') := poll wait step w timeout d s in
  engine_ok s' ∧ both_frame s s' ∧ sent s' = sent s ∧
  match r with
  | Ok (inr a) => Q a | Ok (inl _) => True | Exc e => engine_exn e | Stuck => False
  end.
Proof.
  intros Hw Hwait Hstep HQ Hs.
  destruct (poll_runs wait step w both_frame engine_exn Hw Hwait ltac:(done) ltac:(done)
    (Hstep both_frame _) (Hstep load_frame _) timeout d s Hs)
    as (Hok&Hfr&He&HS).
  assert (Hsent : sent s = sent (snd (poll wait step w timeout d s))).
  { unfold poll, gets, mbind, M_bind; cbn.
    apply (poll_loop_rel (λ a b, sent a = sent b)) with (E := engine_exn); [| |done].
    - intros. symmetry. by apply read_packet_sent.
    - exact (Hstep _ _). }
  assert (HQ' : ∀ a s', poll wait step w timeout d s = (Ok (inr a), s') → Q a).
  { intros a s'. unfold poll, gets, mbind, M_bind; cbn. intros E.
    exact (poll_loop_result Q wait step (λ _ _, True) engine_exn _ _ _ _ _ _
             (Hstep _ _) HQ Hs E). }
  destruct (poll wait step w timeout d s) as [[[d'|a]|e|] s']; cbn in *; split_and!; try done;
    [exact (HQ' a s' eq_refl)|by apply He].
Qed.

(** A loop that returns nothing has reached its deadline. *)
Lemma poll_loop_late {D A} wait (step : D → packet → M (dev (T:=T)) (D + A)) fuel deadline d s d' s' :
  poll_loop wait step fuel deadline d s = (Ok (inl d'), s') → deadline ≤ fst s'.
Proof.
  revert d s. induction fuel as [|fuel IH]; intros d s; cbn [poll_loop]; [done|].
  unfold gets. unfold mbind at 1, M_bind at 1; cbn.
  destruct (Z.leb_spec deadline (fst s)) as [Hle|Hgt]; [by intros [= _ <-]|].
  intros H. apply bind_ok_inv in H as (p&s1&_&H). destruct p as [p|]; [|by eapply IH].
  apply bind_ok_inv in H as ([d1|a]&s2&_&H); [by eapply IH|done].
Qed.

(** A loop over a queue that holds a packet it returns on, behind packets it
    passes over, comes to it without reading the wire. *)
Lemma poll_loop_found {D A} (wait : Z → Z) (step : D → packet → M (dev (T:=T)) (D + A))
    (g : D → A) deadline now p after :
  now < deadline → (∀ d s, step d p s = (Ok (inr (g d)), s)) →
  ∀ before fuel d h, pending h = before ++ p :: after →
  Forall (λ q, ∀ d s, ∃ d', step d q s = (Ok (inl d'), s)) before →
  (length before < fuel)%nat →
  ∃ d', poll_loop wait step fuel deadline d (now, h)
        = (Ok (inr (g d')), (now, set_pending after h)).
Proof.
  intros Hnow Hp before. induction before as [|q before IH];
    intros fuel d h Hpend Hb Hfuel; (destruct fuel as [|fuel]; [cbn in Hfuel; lia|]);
    cbn [poll_loop]; unfold gets, mbind, M_bind; cbn;
    rewrite (proj2 (Z.leb_gt _ _)) by lia;
    unfold read_packet, gets, mbind, M_bind; cbn; rewrite Hpend; cbn.
  - exists d. by rewrite Hp.
  - apply Forall_cons in Hb as [Hq Hb].
    destruct (Hq d (now, set_pending (before ++ p :: after) h)) as [d' ->].
    apply (IH fuel d' (set_pending (before ++ p :: after) h)); [done|done|].
    cbn in Hfuel. lia.
Qed.

(** *** Commands *)

(** A command that was sent appended its packet, whatever came of it; one
    that could not be sent raised. *)
Lemma command_sent opcode payload timeout allow_fail s :
  engine_ok s →
  let '(r, s') := command_t opcode payload timeout allow_fail s in
  sent s' = sent s ++ [command_packet opcode payload] ∨
  sent s' = sent s ∧ is_ok r = false.
Proof.
  intros Hs. unfold command_t. unfold mbind at 1, M_bind at 1.
  pose proof (send_command_cases opcode payload s Hs) as Hw.
  destruct (send_command opcode payload s) as [[u|e|] s1];
    destruct Hw as (Hs1&_&_&_&_&Hr1); [|right; by destruct Hr1|done].
  unfold mbind at 1, M_bind at 1.
  assert (Hp : sent (snd (poll (λ _, ms 200) (defer_step (match_reply opcode)) (ms 200)
                       timeout [] s1)) = sent s1).
  { unfold poll, gets, mbind, M_bind; cbn. symmetry.
    apply (poll_loop_rel (λ a b, sent a = sent b)) with (E := engine_exn); [| |done].
    - intros. symmetry. by apply read_packet_sent.
    - intros d p _. apply defer_step_runs;
        [apply _|apply match_reply_total|apply match_reply_exn]. }
  change (sent s1 = sent s ++ [command_packet opcode payload]) in Hr1.
  rewrite <- Hp in Hr1.
  destruct (poll _ _ _ _ _ s1) as [[[ps|[ps a]]|e|] s2]; cbn in Hr1; try by left.
  unfold extend_pending, on_hci, zoom, modify. unfold mbind, M_bind; cbn.
  destruct (negb _ && negb _); by left.
Qed.

(** The whole contract of a command, for symbolic execution. *)
Lemma wp_command opcode payload timeout allow_fail Q s :
  engine_ok s →
  (∀ status data s', engine_ok s' → both_frame s s' →
     sent s' = sent s ++ [command_packet opcode payload] → (load s' < load s)%nat →
     (allow_fail = false → status = 0) → Q (Ok (status, data)) s') →
  (∀ e s', engine_ok s' → both_frame s s' → engine_exn e →
     sent s' = sent s ++ [command_packet opcode payload] ∨ sent s' = sent s →
     Q (Exc e) s') →
  wp (command_t opcode payload timeout allow_fail) Q s.
Proof.
  intros Hs HO HE. unfold wp.
  pose proof (command_cases opcode payload timeout allow_fail s Hs) as Hc.
  pose proof (command_sent opcode payload timeout allow_fail s Hs) as Ht.
  destruct (command_t _ _ _ _ s) as [[[status data]|e|] s']; cbn in *;
    destruct Hc as (Hs'&Hfr&Hr); [| |done].
  - destruct Ht as [Ht|[_ [=]]]. destruct Hr as (s1&ps&p&a&s2&_&_&_&_&_&_&_&Hres&Hst&_&Hl).
    apply HO; try done.
    intros Haf. specialize (Hst Haf). destruct a; cbn in *; congruence.
  - apply HE; try done. destruct Ht as [?|[? _]]; auto.
Qed.

Lemma command_trace (P : bytes → Prop) opcode payload timeout allow_fail :
  P (command_packet opcode payload) →
  runs engine_ok (trace_frame P) engine_exn (command_t (T:=T) opcode payload timeout allow_fail).
Proof.
  intros HP s Hs.
  enough (H : wp (command_t opcode payload timeout allow_fail)
            (λ r s', engine_ok s' ∧ trace_frame P s s' ∧ (∀ e, r = Exc e → engine_exn e)
                     ∧ r ≠ Stuck) s) by exact H.
  apply wp_command; [done| |].
  - intros status data s' Hs' Hfr Hsent _ _. split_and!; try done.
    split; [done|]. by eapply wrote_one.
  - intros e s' Hs' Hfr He Hsent. split_and!; try done; [|by intros ? [= <-]].
    split; [done|]. destruct Hsent; [by eapply wrote_one|by apply wrote_nothing].
Qed.

(** Finding out the identity of the controller. *)
Lemma identity_trace (P : bytes → Prop) :
  P (command_packet OP_READ_BD_ADDR []) → P (command_packet OP_VS_READ_STATIC_ADDRESSES []) →
  runs engine_ok (trace_frame P) engine_exn (Hci.identity (T:=T) None).
Proof.
  intros HP1 HP2. unfold Hci.identity. cbn zeta.
  apply runs_bind; [apply _|by apply command_trace|intros r]. destruct (negb _); [by apply runs_ret, _|].
  apply runs_bind; [apply _|by apply command_trace|intros [st data]].
  destruct (_ && _); [by apply runs_ret, _|].
  apply runs_bind; [apply _| |intros _].
  { apply runs_when; [apply _|intros _]. intros [now h] Hd. cbn. split_and!; try done.
    split; [|by apply wrote_nothing].
    unfold both_frame, load_frame, load, credit_frame, credit_balance, acl_sent. cbn.
    split_and!; lia. }
  apply runs_bind; [apply _|by apply runs_gets, _|intros now].
  apply runs_bind; [apply _| |intros seed; by apply runs_ret, _].
  apply runs_lift; [apply _|apply pack_not_stuck|].
  intros e E. right; left. by eapply pack_struct_error.
Qed.

Lemma identity_type d addr t src d' :
  Hci.identity (T:=T) None d = (Ok (addr, t, src), d') → is_byte t.
Proof.
  unfold Hci.identity. cbn zeta. intros H. apply bind_ok_inv in H as (r&d1&_&H).
  destruct (negb _); [injection H as _ <- _ _; done|].
  apply bind_ok_inv in H as ([st data]&d2&_&H).
  destruct (_ && _); [injection H as _ <- _ _; done|].
  do 3 (apply bind_ok_inv in H as (?&?&_&H)). by injection H as _ <- _ _.
Qed.

(** *** ACL data *)

(** The H:4 packet [send_acl] writes. *)
Definition acl_packet (handle cid : Z) (payload : bytes) : bytes :=
  [H4_ACL] ++ le_bytes 2 (Z.lor handle (Z.shiftl 0 12)) ++ le_bytes 2 (blen payload + 4)
  ++ le_bytes 2 (blen payload) ++ le_bytes 2 cid ++ payload.

Lemma pack_HH a b :
  0 ≤ a < 65536 → 0 ≤ b < 65536 → pack [FH a; FH b] = Ok (le_bytes 2 a ++ le_bytes 2 b).
Proof. intros. cbn. rewrite !pack_le_ok by (cbn; lia). by rewrite app_nil_r. Qed.

Lemma send_acl_eq handle cid payload s :
  0 ≤ handle < 65536 → 0 ≤ cid < 65536 → blen payload < 65532 →
  send_acl handle cid payload s =
  (write_packet (acl_packet handle cid payload) ;; on_hci (modify (add_credits (-1)))) s.
Proof.
  intros Hh Hc Hl. pose proof (blen_nonneg payload) as Hpos.
  assert (Hlor : Z.lor handle (Z.shiftl 0 12) = handle)
    by (rewrite Z.shiftl_0_l; apply Z.lor_0_r).
  unfold send_acl, lift. rewrite pack_HH by lia. unfold mbind at 1, M_bind at 1. cbn zeta.
  rewrite Hlor, pack_HH by (rewrite ?blen_app, ?blen_le_bytes; lia).
  unfold mbind at 1, M_bind at 1.
  replace ([H4_ACL] ++ _) with (acl_packet handle cid payload); [done|].
  unfold acl_packet. rewrite Hlor, <- !app_assoc, !blen_app, !blen_le_bytes.
  do 3 f_equal. f_equal. lia.
Qed.

Lemma wp_send_acl handle cid payload Q s :
  engine_ok s → 0 ≤ handle < 65536 → 0 ≤ cid < 65536 → blen payload < 65532 →
  (∀ s', engine_ok s' → both_frame s s' → sent s' = sent s ++ [acl_packet handle cid payload] →
     Q (Ok tt) s') →
  (∀ e s', engine_ok s' → both_frame s s' → is_hci_error e = true → sent s' = sent s →
     Q (Exc e) s') →
  wp (send_acl handle cid payload) Q s.
Proof.
  intros Hs Hh Hc Hl HO HE.
  pose proof (send_acl_cases handle cid payload s Hs) as Hcases.
  unfold wp. rewrite send_acl_eq in * by done.
  pose proof (write_packet_cases (acl_packet handle cid payload) s Hs) as Hw.
  revert Hcases. unfold mbind, M_bind. destruct (write_packet _ s) as [[u|e|] s1];
    destruct Hw as (Hok&_&_&_&Hr); [| |done]; intros (?&?&_); [by apply HO|].
  destruct Hr. by apply HE.
Qed.

Lemma send_acl_trace (P : bytes → Prop) handle cid payload :
  (∀ rest, P (H4_ACL :: rest)) →
  runs engine_ok (trace_frame P) engine_exn (send_acl (T:=T) handle cid payload).
Proof.
  intros HP s Hs. pose proof (send_acl_cases handle cid payload s Hs) as Hc.
  assert (Hw : wrote P s (snd (send_acl handle cid payload s))).
  { unfold send_acl, lift. unfold mbind at 1, M_bind at 1.
    destruct (pack _) as [hd|e|]; [|done|done]. cbn zeta. unfold mbind at 1, M_bind at 1.
    destruct (pack _) as [hdr|e|]; [|done|done].
    pose proof (write_packet_cases ([H4_ACL] ++ hdr ++ hd ++ payload) s Hs) as Hw.
    unfold mbind, M_bind. destruct (write_packet _ s) as [[u|e|] s1];
      destruct Hw as (_&_&_&_&Hr); [| |done].
    - eapply wrote_one; [|exact Hr]. apply HP.
    - destruct Hr as [_ Hr]. by apply wrote_nothing. }
  destruct (send_acl handle cid payload s) as [r s']; cbn in *.
  destruct Hc as (?&?&Hr). split_and!; try done; destruct r; try done. by intros ? [= <-].
Qed.
End trace.

(** A program that keeps a state of its own beside the engine. *)
Definition on_dev {T X A} (m : M (dev (T:=T)) A) : M (dev (T:=T) * X) A :=
  zoom fst (λ d s, (d, snd s)) m.
Definition on_own {T X A} (m : M X A) : M (dev (T:=T) * X) A :=
  zoom snd (λ x s, (fst s, x)) m.

Lemma wp_on_dev {T X A} (m : M (dev (T:=T)) A) Q (s : dev (T:=T) * X) :
  wp m (λ r d, Q r (d, snd s)) (fst s) → wp (on_dev m) Q s.
Proof. apply (wp_zoom fst (λ d s, (d, snd s))). Qed.

(** The rules of [runs] for such programs: the engine's part respects
    [trace_frame], the own part keeps an invariant [J]. *)
Section both.
Context {T : Type} `{Tr : !Transport T} `{TL : !TransportLaws T} {X : Type}.
Context (J : X → Prop) (P : bytes → Prop).

Definition both_ok (s : dev (T:=T) * X) : Prop := engine_ok (fst s) ∧ J (snd s).
Definition dev_frame (s s' : dev (T:=T) * X) : Prop := trace_frame P (fst s) (fst s').

#[export] Instance dev_frame_preorder : PreOrder dev_frame.
Proof. split; [by intros ?|]. intros x y z. unfold dev_frame. by etrans. Qed.

Lemma runs_on_dev {A} E (m : M (dev (T:=T)) A) :
  runs engine_ok (trace_frame P) E m → runs both_ok dev_frame E (on_dev m).
Proof.
  intros Hm. apply (runs_zoom _ _ engine_ok (trace_frame P)); [exact Hm|by intros s []|].
  intros s t [_ HJ] Ht Hf. by split.
Qed.

Lemma runs_on_own E f : (∀ x, J x → J (f x)) → runs both_ok dev_frame E (on_own (modify f)).
Proof.
  intros Hf [d x] [Hd Hx]. cbn. split; [split; [done|by apply Hf]|]. split; [done|].
  by split.
Qed.

Lemma runs_own_bind {A} E (k : X → M (dev (T:=T) * X) A) :
  (∀ x, J x → runs both_ok dev_frame E (k x)) → runs both_ok dev_frame E (gets snd ≫= k).
Proof. intros Hk [d x] Hs. apply (Hk x (proj2 Hs) (d, x) Hs). Qed.

(** The same, remembering the state it was read from. *)
Lemma runs_self_at {A} E (k : X → M (dev (T:=T) * X) A) :
  (∀ d x, engine_ok d → J x →
     both_ok (snd (k x (d, x))) ∧ dev_frame (d, x) (snd (k x (d, x))) ∧
     (∀ e, fst (k x (d, x)) = Exc e → E e) ∧ fst (k x (d, x)) ≠ Stuck) →
  runs both_ok dev_frame E (gets snd ≫= k).
Proof. intros Hk [d x] [Hd Hx]. by apply (Hk d x). Qed.
End both.

(** Whatever the engine does, the own part stays. *)
Lemma wp_on_dev_any {T X A B} (m : M (dev (T:=T)) A) (k : A → M (dev (T:=T) * X) B) Q d x :
  (∀ a d', m d = (Ok a, d') → wp (k a) Q (d', x)) →
  (∀ e d', Q (Exc e) (d', x)) → (∀ d', Q Stuck (d', x)) →
  wp (on_dev m ≫= k) Q (d, x).
Proof.
  intros HO HE HS. apply wp_bind, wp_on_dev. unfold wp at 1. cbn [fst snd].
  destruct (m d) as [[a|e|] d'] eqn:E; cbn; [by apply HO|by apply HE|by apply HS].
Qed.

Lemma wp_modify_own {T X B} (f : X → X) (k : M (dev (T:=T) * X) B) Q d x :
  wp k Q (d, f x) → wp (on_own (modify f) ;; k) Q (d, x).
Proof. done. Qed.

(** ** Programs that write a known sequence *)

Section sends.
Context {T : Type} `{Tr : !Transport T, TL : !TransportLaws T}.

(** A program that writes some of these packets, in this order, and ends. *)
Definition sends {A} (pkts : list bytes) (m : M (dev (T:=T)) A) : Prop :=
  ∀ s, engine_ok s →
    engine_ok (snd (m s)) ∧ fst (m s) ≠ Stuck ∧
    ∃ ps, sent (snd (m s)) = sent s ++ ps ∧ ps `sublist_of` pkts.

Lemma sends_bind {A B} p1 p2 (m : M (dev (T:=T)) A) (f : A → M (dev (T:=T)) B) :
  sends p1 m → (∀ a, sends p2 (f a)) → sends (p1 ++ p2) (m ≫= f).
Proof.
  intros Hm Hf s Hs. destruct (Hm s Hs) as (Hs1&Hst&ps&E&Hp). unfold mbind, M_bind.
  destruct (m s) as [[a|e|] s1]; cbn in *; [| |done].
  - destruct (Hf a s1 Hs1) as (?&?&qs&E'&Hq). split_and!; [done|done|].
    exists (ps ++ qs). rewrite E', E, <- app_assoc. split; [done|by apply sublist_app].
  - split_and!; [done|done|]. exists ps. split; [done|]. by apply sublist_inserts_r.
Qed.

Lemma sends_none {A} (m : M (dev (T:=T)) A) :
  (∀ s, snd (m s) = s ∧ fst (m s) ≠ Stuck) → sends [] m.
Proof.
  intros Hm s Hs. destruct (Hm s) as [-> ?]. split_and!; [done|done|].
  exists []. by rewrite app_nil_r.
Qed.

Lemma sends_command op payload af :
  sends [command_packet op payload] (Hci.command (T:=T) op payload af).
Proof.
  intros s Hs. pose proof (command_sent op payload (seconds 3) af s Hs) as H.
  destruct (command_trace (λ _, True) op payload (seconds 3) af I s Hs) as (?&_&_&?).
  unfold Hci.command. destruct (command_t _ _ _ _ s) as [r s']. cbn in *. split_and!; [done|done|].
  destruct H as [->|[-> _]]; [by exists [command_packet op payload]|].
  exists []. rewrite app_nil_r. split; [done|apply sublist_nil_l].
Qed.

Lemma sends_try {A} catches pkts (m : M (dev (T:=T)) A) h :
  sends pkts m → (∀ e, sends [] (h e)) → sends pkts (try_except catches m h).
Proof.
  intros Hm Hh s Hs. destruct (Hm s Hs) as (Hs1&Hst&ps&E&Hp). unfold try_except.
  destruct (m s) as [[a|e|] s1]; cbn in *; [eauto| |done].
  destruct (catches e); [|eauto]. destruct (Hh e s1 Hs1) as (?&?&qs&E'&Hq).
  apply sublist_nil_r in Hq as ->. rewrite app_nil_r in E'. rewrite E'. eauto.
Qed.

Lemma sends_skip {A} (m : M (dev (T:=T)) A) pkts : sends pkts m → sends pkts (m ;; skip).
Proof.
  intros Hm. rewrite <- (app_nil_r pkts). apply sends_bind; [done|intros _]. by apply sends_none.
Qed.

(** A program that writes nothing. *)
Lemma sends_silent {A} E (m : M (dev (T:=T)) A) :
  runs engine_ok (trace_frame (λ _, False)) E m → sends [] m.
Proof.
  intros Hm s Hs. destruct (Hm s Hs) as (?&(_&ps&E1&Hps)&_&?). split_and!; [done|done|].
  exists []. split; [|done]. destruct ps as [|p ps]; [done|]. by inversion Hps.
Qed.

Lemma sends_more {A} p1 p2 (m : M (dev (T:=T)) A) :
  p1 `sublist_of` p2 → sends p1 m → sends p2 m.
Proof.
  intros Hp Hm s Hs. destruct (Hm s Hs) as (?&?&ps&?&?). split_and!; [done|done|].
  exists ps. split; [done|by etrans].
Qed.
End sends.
