(* ===== verification/Results.v ===== *)
(** * Results: the accounting of release results (results.py)

    A [ResultBook] is the list of what was recorded; the verdict of a release
    and the printed report are functions of it. *)

From stdpp Require Import gmap.
From S2P Require Export Prelude.
#[local] Open Scope Z_scope.

Inductive status : Type := PASS | FAIL | NA | INCOMPLETE.

#[export] Instance status_eq_dec : EqDecision status.
Proof. solve_decision. Defined.

Record result : Type := Result {
  r_group : string; r_name : string; r_status : status; r_detail : text }.

Abbreviation book := (list result).

Definition add (g n : string) (st : status) (d : text) (b : book) : book := b ++ [Result g n st d].
Definition passed (g n : string) (d : text) : book → book := add g n PASS d.
Definition failed (g n : string) (d : text) : book → book := add g n FAIL d.
Definition not_applicable (g n : string) (d : text) : book → book := add g n NA d.
Definition incomplete (g n : string) (d : text) : book → book := add g n INCOMPLETE d.

Definition has_status (st : status) (b : book) : bool :=
  existsb (λ r, bool_decide (r_status r = st)) b.
Definition has_failures : book → bool := has_status FAIL.
Definition has_incomplete : book → bool := has_status INCOMPLETE.

Definition release_passed (b : book) : bool :=
  negb (bool_decide (b = [])) && negb (has_failures b) && negb (has_incomplete b).

Definition exit_code (b : book) : Z := if release_passed b then 0 else 1.

(** The lines of the report: group headers, one line per result, the summary
    counts and the verdict. *)
Inductive line : Type :=
  | Blank | GroupLine (g : string) | ResultLine (n : string) (st : status) (d : text)
  | SummaryLine (n_pass n_fail n_na n_incomplete : nat) | VerdictLine (st : status).

Fixpoint result_lines (current : option string) (b : book) : list line :=
  match b with
  | [] => []
  | r :: b' =>
      (if bool_decide (current = Some (r_group r)) then [] else [Blank; GroupLine (r_group r)])
      ++ ResultLine (r_name r) (r_status r) (r_detail r) :: result_lines (Some (r_group r)) b'
  end.

(** [counts.get(status, 0)]. *)
Definition count (st : status) (b : book) : nat :=
  length (filter (λ r, r_status r = st) b).

Definition print_report (b : book) : list line :=
  result_lines None b
  ++ [Blank; SummaryLine (count PASS b) (count FAIL b) (count NA b) (count INCOMPLETE b);
      VerdictLine (if release_passed b then PASS else FAIL)].

(** ** The verdict *)

Lemma has_status_spec st b : has_status st b = true ↔ ∃ r, r ∈ b ∧ r_status r = st.
Proof.
  unfold has_status. rewrite existsb_exists.
  split; intros (r&Hin&H); exists r; (split; [by apply list_elem_of_In|]); by apply bool_decide_eq_true in H || apply bool_decide_eq_true.
Qed.

Definition acceptable (r : result) : Prop := r_status r = PASS ∨ r_status r = NA.

Lemma release_passed_spec b : release_passed b = true ↔ b ≠ [] ∧ Forall acceptable b.
Proof.
  unfold release_passed, has_failures, has_incomplete.
  rewrite !andb_true_iff, !negb_true_iff, bool_decide_eq_false, Forall_forall.
  split.
  - intros [[Hne Hf] Hi]. split; [done|]. intros r Hr. unfold acceptable.
    destruct (r_status r) eqn:E; [by left| |by right|].
    + assert (has_status FAIL b = true) by (apply has_status_spec; eauto). congruence.
    + assert (has_status INCOMPLETE b = true) by (apply has_status_spec; eauto). congruence.
  - intros [Hne Ha].
    assert (Hno : ∀ st, st = FAIL ∨ st = INCOMPLETE → has_status st b = false).
    { intros st Hst. apply not_true_is_false. intros (r&Hr&E)%has_status_spec.
      destruct (Ha r Hr) as [Hp|Hp]; destruct Hst; congruence. }
    split_and!; auto.
Qed.

Lemma counts_total b :
  (count PASS b + count FAIL b + count NA b + count INCOMPLETE b)%nat = length b.
Proof.
  unfold count. induction b as [|r b IH]; [done|]. cbn [length].
  rewrite !filter_cons. destruct (r_status r); repeat case_decide; try done; cbn [length]; lia.
Qed.


