(* ===== verification/Pair.v ===== *)
(** * Pair: preparing controllers and connecting two of them (hci_pair.py)

    The commands that prepare a controller, advertise and connect, and the
    waits that run over two controllers at once. A pair is two engines under
    one clock; each call works on one of them. Finding serial ports is not
    here. *)

From S2P Require Export Trace.
#[local] Open Scope Z_scope.

Definition OP_LE_SET_ADV_PARAMS : Z := 0x2006.
Definition OP_LE_SET_ADV_DATA : Z := 0x2008.
Definition OP_LE_SET_SCAN_RSP_DATA : Z := 0x2009.
Definition OP_LE_SET_ADV_ENABLE : Z := 0x200A.
Definition OP_LE_CREATE_CONNECTION : Z := 0x200D.
Definition DEFAULT_LE_EVENT_MASK : bytes := [0xff; 0xff; 0xff; 0xff; 0xff; 0xff; 0xff; 0x1f].
Definition DISCONNECT_REASON : Z := 0x13.

Section single.
Context {T : Type} `{!Transport T}.
Abbreviation D := (M (dev (T:=T))).

Definition prepare_controller (event_mask : bytes) : D (bytes * Z * id_source) :=
  setup ;;
  Hci.command OP_LE_SET_EVENT_MASK event_mask false ;;
  id ← Hci.identity None;
  let '(identity, addr_type, source) := (id : bytes * Z * id_source) in
  when (addr_type =? 0x01) (Hci.command OP_LE_SET_RANDOM_ADDRESS identity false ;; skip) ;;
  mret (identity, addr_type, source).

Definition start_legacy_advertising (identity : bytes) (addr_type : Z) (connectable : bool)
  : D unit :=
  let adv_type := if connectable then 0x00 else 0x03 in
  p ← lift (pack [FH 0x00A0; FH 0x00A0]);
  t ← lift (mkbytes [adv_type; addr_type; 0x00]);
  Hci.command OP_LE_SET_ADV_PARAMS (p ++ t ++ zeros 6 ++ [0x07; 0x00]) false ;;
  let adv := [2; 0x01; 0x06] in
  Hci.command OP_LE_SET_ADV_DATA ([blen adv] ++ adv ++ zeros (31 - length adv)) false ;;
  Hci.command OP_LE_SET_SCAN_RSP_DATA (zeros 32) false ;;
  Hci.command OP_LE_SET_ADV_ENABLE [0x01] false ;; skip.

Definition start_legacy_connection (central_type : Z) (peer_addr : bytes) (peer_type : Z) : D unit :=
  p ← lift (pack [FH 0x0060; FH 0x0030]);
  t ← lift (mkbytes [0x00; peer_type]);
  o ← lift (mkbytes [central_type]);
  i ← lift (pack [FH 0x0018; FH 0x0028]);
  l ← lift (pack [FH 0; FH 400]);
  e ← lift (pack [FH 0; FH 0]);
  r ← Hci.command OP_LE_CREATE_CONNECTION (p ++ t ++ peer_addr ++ o ++ i ++ l ++ e) true;
  when (negb (fst r =? 0))
    (raise (HciError (Fmt "LE Create Connection returned 0x%02X" [AInt (fst r)]))).

(** The disconnection of [handle]. Everything else that is read is dropped. *)
Definition disconnected_step (handle : Z) (_ : unit) (p : packet) : D (unit + unit) :=
  if negb (is_event EVT_DISCONNECTION_COMPLETE p) || (length (body p) <? 3)%nat then mret (inl tt)
  else
    got ← lift (unpack_H (slice 1 3 (body p)));
    mret (if mask12 got =? handle then inr tt else inl tt).

Definition wait_disconnected (handle timeout : Z) : D bool :=
  r ← poll (λ _, ms 100) (disconnected_step handle) (ms 100) timeout tt;
  mret (match r with inr _ => true | inl _ => false end).
End single.

(** ** Two controllers *)

Section pair.
Context {T1 T2 : Type} `{!Transport T1, !Transport T2}.

(** The clock, the central and the peripheral. *)
Definition pair : Type := Z * (hci T1 * hci T2).
Abbreviation M2 := (M pair).

Definition on_central {A} (m : M (dev (T:=T1)) A) : M2 A :=
  zoom (λ s, (fst s, fst (snd s))) (λ d s, (fst d, (snd d, snd (snd s)))) m.
Definition on_peripheral {A} (m : M (dev (T:=T2)) A) : M2 A :=
  zoom (λ s, (fst s, snd (snd s))) (λ d s, (fst d, (fst (snd s), snd d))) m.

(** One side's look at a packet: the handle of the connection it reports. *)
Definition acl_event (label : string) (expected_role : Z) (p : option packet)
  : res (option Z) :=
  match p with
  | None => Ok None
  | Some p =>
      if negb (is_event EVT_LE_META p) then Ok None
      else
        info ← parse_connection (body p);
        match info with
        | None => Ok None
        | Some c =>
            if negb (ci_status c =? 0)
            then Exc (HciError (Fmt "%s connection failed: 0x%02X" [AStr label; AInt (ci_status c)]))
            else if negb (ci_role c =? expected_role)
            then Exc (HciError (Fmt "%s reported role %u, expected %u"
                        [AStr label; AInt (ci_role c); AInt expected_role]))
            else Ok (Some (ci_handle c))
        end
  end.

Definition update_handle (old new : option Z) : option Z :=
  match new with Some h => Some h | None => old end.

(** [while time.time() < deadline and None in handles.values()]: one turn
    reads each side once. [event] is a side's look at a packet, of which the
    callers have two that differ in their texts. *)
Fixpoint acl_pair_loop (event : string → Z → option packet → res (option Z))
    (fuel : nat) (deadline : Z) (c p : option Z) : M2 (option Z * option Z) :=
  match fuel with
  | O => λ s, (Stuck, s)
  | S fuel' =>
      now ← gets fst;
      match c, p with
      | Some _, Some _ => mret (c, p)
      | _, _ =>
          if deadline <=? now then mret (c, p)
          else
            pc ← on_central (read_packet (ms 100));
            hc ← lift (event "central" 0 pc);
            pp ← on_peripheral (read_packet (ms 100));
            hp ← lift (event "peripheral" 1 pp);
            acl_pair_loop event fuel' deadline (update_handle c hc) (update_handle p hp)
      end
  end.

Definition pair_fuel (timeout : Z) (s : pair) : nat :=
  (length (pending (fst (snd s))) + t_backlog (transport (fst (snd s)))
   + (length (pending (snd (snd s))) + t_backlog (transport (snd (snd s))))
   + turns (ms 100) timeout + 1)%nat.

Definition wait_acl_pair_by (event : string → Z → option packet → res (option Z))
    (timeout : Z) : M2 (Z * Z) :=
  now ← gets fst;
  fuel ← gets (pair_fuel timeout);
  r ← acl_pair_loop event fuel (now + timeout) None None;
  match r with
  | (Some c, Some p) => mret (c, p)
  | _ => raise (HciError (Lit "timed out waiting for both ACL connection events"))
  end.

Definition wait_acl_pair : Z → M2 (Z * Z) := wait_acl_pair_by acl_event.

Record acl_pair : Type := AclPair {
  central_identity : bytes; central_identity_source : id_source;
  peripheral_identity : bytes; peripheral_identity_source : id_source;
  central_handle : Z; peripheral_handle : Z }.

Definition establish_legacy_acl_pair : M2 acl_pair :=
  p ← on_peripheral (prepare_controller DEFAULT_LE_EVENT_MASK);
  let '(peripheral_id, peripheral_type, peripheral_source) := (p : bytes * Z * id_source) in
  c ← on_central (prepare_controller DEFAULT_LE_EVENT_MASK);
  let '(central_id, central_type, central_source) := (c : bytes * Z * id_source) in
  on_peripheral (start_legacy_advertising peripheral_id peripheral_type true) ;;
  on_central (start_legacy_connection central_type peripheral_id peripheral_type) ;;
  h ← wait_acl_pair (seconds 10);
  mret (AclPair central_id central_source peripheral_id peripheral_source (fst h) (snd h)).

(** A step whose engine errors are swallowed. *)
Definition quietly {S} (m : M S unit) : M S unit := try_except is_hci_error m (λ _, skip).

Definition disconnect_acl_pair (c_handle p_handle : option Z) : M2 unit :=
  match c_handle with
  | Some h =>
      quietly (on_central (payload ← lift (pack [FH h; FB DISCONNECT_REASON]);
                           Hci.command OP_DISCONNECT payload true ;; skip))
  | None => skip
  end ;;
  match c_handle with
  | Some h => quietly (on_central (wait_disconnected h (seconds 3) ;; skip))
  | None => skip
  end ;;
  match p_handle with
  | Some h => quietly (on_peripheral (wait_disconnected h (seconds 3) ;; skip))
  | None => skip
  end ;;
  quietly (on_peripheral (Hci.command OP_LE_SET_ADV_ENABLE [0x00] true ;; skip)).
End pair.
