(* ===== verification/PairLaws.v ===== *)
(** * PairLaws: bringing two controllers together

    Waiting for the connection events of both sides ends, writes nothing, and
    pairs only events each side reported itself, in its own role. *)

From S2P Require Export Pair.
#[local] Open Scope Z_scope.

(** The packet by which a side in [role] reports connection [h]. *)
Definition reports_connection (role h : Z) (p : packet) : Prop :=
  is_event EVT_LE_META p = true ∧
  ∃ info, parse_connection (body p) = Ok (Some info) ∧
    ci_status info = 0 ∧ ci_role info = role ∧ ci_handle info = h.

(** A look that finds a handle has seen its connection reported. *)
Definition sees_reports (event : string → Z → option packet → res (option Z)) : Prop :=
  ∀ label role p, match event label role p with
  | Ok (Some h) => ∃ q, p = Some q ∧ reports_connection role h q
  | Ok None => True
  | Exc e => is_hci_error e = true
  | Stuck => False
  end.

Lemma acl_event_cases : sees_reports acl_event.
Proof.
  intros label role p. unfold acl_event. destruct p as [p|]; [|done].
  destruct (is_event EVT_LE_META p) eqn:He; [|done]. cbn [negb].
  destruct (parse_connection_total (body p)) as [[c|] E]; rewrite E; cbn [mbind res_bind]; [|done].
  destruct (Z.eqb_spec (ci_status c) 0); cbn [negb]; [|done].
  destruct (Z.eqb_spec (ci_role c) role); cbn [negb]; [|done].
  exists p. split; [done|]. split; [done|]. by exists c.
Qed.

Section pair.
Context {T1 T2 : Type} `{Tr1 : !Transport T1, Tr2 : !Transport T2}.
Context `{TL1 : !TransportLaws T1, TL2 : !TransportLaws T2}.
Implicit Types s : pair (T1:=T1) (T2:=T2).

(** The two devices of a pair; they share the clock. *)
Definition central_of s : dev (T:=T1) := (fst s, fst (snd s)).
Definition peripheral_of s : dev (T:=T2) := (fst s, snd (snd s)).

Definition pair_ok s : Prop := engine_ok (central_of s) ∧ engine_ok (peripheral_of s).

(** What reading on both sides preserves. *)
Definition pair_frame s s' : Prop :=
  both_frame (central_of s) (central_of s') ∧ both_frame (peripheral_of s) (peripheral_of s') ∧
  sent (central_of s') = sent (central_of s) ∧ sent (peripheral_of s') = sent (peripheral_of s).

#[export] Instance pair_frame_preorder : PreOrder pair_frame.
Proof.
  split.
  - intros s. by split_and!.
  - intros x y z (?&?&?&?) (?&?&?&?). split_and!; try (by etrans); congruence.
Qed.

(** Time passing leaves a device as it is. *)
Lemma both_frame_later {T} `{!Transport T} t t' (h : hci T) :
  t ≤ t' → both_frame (t, h) (t', h).
Proof. intros Ht. unfold both_frame, load_frame, credit_frame, load, credit_balance, acl_sent. cbn. lia. Qed.

Lemma pair_read_central w s :
  pair_ok s →
  let '(r, s') := on_central (read_packet w) s in
  let '(r1, d') := read_packet w (central_of s) in
  r = r1 ∧ central_of s' = d' ∧ snd (snd s') = snd (snd s) ∧ pair_ok s' ∧ pair_frame s s'.
Proof.
  intros [Hc Hp]. unfold on_central, zoom. fold (central_of s).
  pose proof (read_packet_cases w (central_of s) Hc) as H.
  pose proof (read_packet_sent w (central_of s) Hc) as Hsent.
  destruct (read_packet w (central_of s)) as [r [t' h']]. destruct H as (Hok&Hfr&_).
  pose proof Hfr as [[Ht _] _]. cbn [fst snd] in *.
  split_and!; try done; by apply both_frame_later.
Qed.

Lemma pair_read_peripheral w s :
  pair_ok s →
  let '(r, s') := on_peripheral (read_packet w) s in
  let '(r1, d') := read_packet w (peripheral_of s) in
  r = r1 ∧ peripheral_of s' = d' ∧ fst (snd s') = fst (snd s) ∧ pair_ok s' ∧ pair_frame s s'.
Proof.
  intros [Hc Hp]. unfold on_peripheral, zoom. fold (peripheral_of s).
  pose proof (read_packet_cases w (peripheral_of s) Hp) as H.
  pose proof (read_packet_sent w (peripheral_of s) Hp) as Hsent.
  destruct (read_packet w (peripheral_of s)) as [r [t' h']]. destruct H as (Hok&Hfr&_).
  pose proof Hfr as [[Ht _] _]. cbn [fst snd] in *.
  split_and!; try done; by apply both_frame_later.
Qed.

(** Since [s0], a device read the packet by which it reports [h]. *)
Definition saw {T} `{!Transport T} (role : Z) (d0 : dev (T:=T)) (h : option Z) : Prop :=
  ∀ x, h = Some x → ∃ d p d', both_frame d0 d ∧ read_packet (ms 100) d = (Ok (Some p), d') ∧
    reports_connection role x p.

Lemma saw_update {T} `{!Transport T} event role (d0 d d' : dev (T:=T)) label old p new :
  sees_reports event → saw role d0 old → both_frame d0 d → read_packet (ms 100) d = (Ok p, d') →
  event label role p = Ok new → saw role d0 (update_handle old new).
Proof.
  intros Hev Hold Hfr Hr He. pose proof (Hev label role p) as H. rewrite He in H.
  destruct new as [h|]; [|exact Hold]. destruct H as (q&->&Hq). intros x [= <-].
  by exists d, q, d'.
Qed.

(** Packets on the way and turns left. *)
Definition pair_measure (deadline : Z) s : nat :=
  (load (central_of s) + load (peripheral_of s) + turns (ms 100) (deadline - fst s))%nat.

Lemma acl_pair_loop_cases event s0 fuel deadline c p s :
  sees_reports event → pair_ok s → pair_frame s0 s → (pair_measure deadline s < fuel)%nat →
  saw 0 (central_of s0) c → saw 1 (peripheral_of s0) p →
  let '(r, s') := acl_pair_loop event fuel deadline c p s in
  pair_ok s' ∧ pair_frame s0 s' ∧
  match r with
  | Ok (c', p') => saw 0 (central_of s0) c' ∧ saw 1 (peripheral_of s0) p' ∧
      ((is_Some c' ∧ is_Some p') ∨ deadline ≤ fst s')
  | Exc e => engine_exn e
  | Stuck => False
  end.
Proof.
  intros Hev. revert c p s. induction fuel as [|fuel IH]; intros c p s Hs Hf Hm Hc Hp; [lia|].
  cbn [acl_pair_loop]. unfold gets. unfold mbind at 1, M_bind at 1. cbn [fst snd].
  set (body := if deadline <=? fst s then _ else _).
  enough (Hbody : let '(r, s') := body s in pair_ok s' ∧ pair_frame s0 s' ∧
    match r with
    | Ok (c', p') => saw 0 (central_of s0) c' ∧ saw 1 (peripheral_of s0) p' ∧
        ((is_Some c' ∧ is_Some p') ∨ deadline ≤ fst s')
    | Exc e => engine_exn e | Stuck => False end).
  { destruct c as [c|], p as [p|]; [|exact Hbody..]. cbn. split_and!; try done. left. split; by eexists. }
  subst body. destruct (Z.leb_spec deadline (fst s)) as [Hlate|Hlt]; [cbn; split_and!; auto|].
  unfold mbind at 1, M_bind at 1. pose proof (pair_read_central (ms 100) s Hs) as Hrc.
  pose proof (read_packet_cases (ms 100) (central_of s) (proj1 Hs)) as Hcc.
  destruct (on_central (read_packet (ms 100)) s) as [rc s1].
  destruct (read_packet (ms 100) (central_of s)) as [rc' dc] eqn:Erc.
  destruct Hrc as (->&Edc&Hper&Hs1&Hf1).
  assert (Hf1' : pair_frame s0 s1) by by etrans.
  assert (Hdec : (∃ p, rc' = Ok p) → (pair_measure deadline s1 < pair_measure deadline s)%nat).
  { intros [po ->]. destruct Hcc as (_&[[Ht Hl] _]&Hr). rewrite <- Edc in Ht, Hl, Hr.
    assert (Hlp : load (peripheral_of s1) = load (peripheral_of s))
      by (unfold load, peripheral_of; cbn [snd]; by rewrite Hper).
    cbn [central_of fst] in Ht. unfold pair_measure. rewrite Hlp.
    pose proof (turns_mono (ms 100) (deadline - fst s1) (deadline - fst s) ltac:(done) ltac:(lia)).
    destruct po as [q|]; [destruct Hr as (_&?&_); lia|].
    destruct Hr as (Hto&_). destruct (Hto ltac:(done)) as [Ht'|Hl']; [|lia].
    cbn [central_of fst] in Ht'.
    pose proof (turns_step (ms 100) (deadline - fst s) (fst s1 - fst s) ltac:(done) ltac:(lia) ltac:(lia)) as Hst.
    replace (deadline - fst s - (fst s1 - fst s)) with (deadline - fst s1) in Hst by lia. lia. }
  destruct rc' as [po|e|]; [|cbn; by destruct Hcc as (_&_&?)|by destruct Hcc as (_&_&?)].
  specialize (Hdec (ex_intro _ po eq_refl)).
  unfold lift. unfold mbind at 1, M_bind at 1.
  pose proof (Hev "central"%string 0 po) as Hec.
  destruct (event "central"%string 0 po) as [hc|e|] eqn:Ehc; [|cbn; split_and!; [done|done|by left]|done].
  assert (Hc1 : saw 0 (central_of s0) (update_handle c hc))
    by (eapply saw_update; [exact Hev|exact Hc|apply Hf|exact Erc|exact Ehc]).
  unfold mbind at 1, M_bind at 1. pose proof (pair_read_peripheral (ms 100) s1 Hs1) as Hrp.
  pose proof (read_packet_cases (ms 100) (peripheral_of s1) (proj2 Hs1)) as Hpc.
  destruct (on_peripheral (read_packet (ms 100)) s1) as [rp s2].
  destruct (read_packet (ms 100) (peripheral_of s1)) as [rp' dp] eqn:Erp.
  destruct Hrp as (->&Edp&Hcen&Hs2&Hf2).
  assert (Hf2' : pair_frame s0 s2) by by etrans.
  destruct rp' as [pp|e|]; [|cbn; by destruct Hpc as (_&_&?)|by destruct Hpc as (_&_&?)].
  unfold mbind at 1, M_bind at 1.
  pose proof (Hev "peripheral"%string 1 pp) as Hep.
  destruct (event "peripheral"%string 1 pp) as [hp|e|] eqn:Ehp; [|cbn; split_and!; [done|done|by left]|done].
  apply IH; [done|done| |done|].
  - destruct Hf2 as ([[Ht2 Hl2] _]&[[_ Hl2'] _]&_). unfold pair_measure in *.
    cbn [central_of peripheral_of fst] in Ht2.
    pose proof (turns_mono (ms 100) (deadline - fst s2) (deadline - fst s1) ltac:(done) ltac:(lia)). lia.
  - eapply saw_update; [exact Hev|exact Hp|apply Hf1'|exact Erp|exact Ehp].
Qed.

Lemma wait_acl_pair_cases event timeout s :
  sees_reports event → pair_ok s →
  let '(r, s') := wait_acl_pair_by event timeout s in
  pair_ok s' ∧ pair_frame s s' ∧
  match r with
  | Ok (c, p) => saw 0 (central_of s) (Some c) ∧ saw 1 (peripheral_of s) (Some p)
  | Exc e => engine_exn e
  | Stuck => False
  end.
Proof.
  intros Hev Hs. unfold wait_acl_pair_by, gets, mbind, M_bind. cbn [fst snd].
  pose proof (acl_pair_loop_cases event s (pair_fuel timeout s) (fst s + timeout) None None s Hev Hs
    ltac:(done)) as H.
  destruct (acl_pair_loop _ _ _ _ _ s) as [r s'].
  destruct H as (?&?&Hr); [|by intros ?|by intros ?|].
  { unfold pair_measure, pair_fuel, load, central_of, peripheral_of. cbn [fst snd].
    replace (fst s + timeout - fst s) with timeout by lia. lia. }
  destruct r as [[[c|] [p|]]|e|]; cbn; (split; [done|]; split; [done|]); try done; try (by left).
  by destruct Hr as (?&?&_).
Qed.

(** Waiting for a pair of controllers to connect ends, writes nothing on
    either side and keeps both engines intact. The handles it returns are
    those each side reported itself, the central in role 0 and the peripheral
    in role 1, with success; a failed connection or a wrong role is an
    HciError, and so is the deadline. *)
Theorem acl_pair_connected (timeout : Z) s :
  pair_ok s →
  let '(r, s') := wait_acl_pair timeout s in
  pair_ok s' ∧ pair_frame s s' ∧
  match r with
  | Ok (c, p) => saw 0 (central_of s) (Some c) ∧ saw 1 (peripheral_of s) (Some p)
  | Exc e => engine_exn e
  | Stuck => False
  end.
Proof. apply wait_acl_pair_cases, acl_event_cases. Qed.
End pair.

(** ** A concrete pair *)

Definition connection_event (handle role : Z) : packet :=
  Pkt H4_EVENT (Some EVT_LE_META)
    (legacy_connection 0 handle role 0 [1; 2; 3; 4; 5; 6] 24 0 400 []).

Definition demo_pair : pair (T1:=SerialH4.state) (T2:=SerialH4.state) :=
  (0, (snd (serial_dev [reset_packet; connection_event 0x40 0] []),
       snd (serial_dev [connection_event 0x41 1] []))).

Lemma acl_pair_connected_witness :
  let '(r, _) := wait_acl_pair (seconds 10) demo_pair in
  r = Ok (0x40, 0x41) ∧ saw 0 (central_of demo_pair) (Some 0x40) ∧
  saw 1 (peripheral_of demo_pair) (Some 0x41).
Proof.
  pose proof (acl_pair_connected (seconds 10) demo_pair) as H.
  assert (Hok : pair_ok demo_pair) by (split; apply serial_dev_ok; vm_compute; reflexivity).
  specialize (H Hok).
  assert (E : fst (wait_acl_pair (seconds 10) demo_pair) = Ok (0x40, 0x41)) by by vm_compute.
  destruct (wait_acl_pair _ _) as [r s']. cbn [fst] in E. subst r.
  destruct H as (_&_&Hc&Hp). split; [done|]. split; [exact Hc|exact Hp].
Defined.
