(* ===== verification/Iso.v ===== *)
(** * Iso: isochronous data over HCI (hci_iso.py)

    Sending an SDU, decoding an ISO data packet, setting a data path up,
    reading the buffer sizes, and waiting for a marker SDU. The printed
    summary of a wait is its result here: the packet that carried the marker
    and how many packets of each doubtful status came before it. *)

From stdpp Require Import gmap.
From S2P Require Export Trace.
#[local] Open Scope Z_scope.

Definition OP_LE_READ_BUFFER_SIZE_V2 : Z := 0x2060.
Definition OP_LE_SETUP_ISO_DATA_PATH : Z := 0x206E.
Definition ISO_PB_FIRST : Z := 0x00.
Definition ISO_PB_COMPLETE : Z := 0x02.
Definition ISO_DIRECTION_INPUT : Z := 0x00.
Definition ISO_DIRECTION_OUTPUT : Z := 0x01.
Definition ISO_DATA_PATH_HCI : Z := 0x00.
Definition CODING_FORMAT_TRANSPARENT : Z := 0x03.

(** The dictionary [parse_iso] returns. *)
Record iso_packet : Type := IsoPacket {
  i_handle : Z; i_pb : Z; i_timestamp : option Z; i_sequence : option Z;
  i_sdu_len : option Z; i_status : option Z; i_fragment : bytes }.

Definition parse_iso (packet : bytes) : res iso_packet :=
  if (length packet <? 8)%nat then
    Exc (HciError (Fmt "short HCI ISO packet (%d bytes)" [AInt (blen packet)]))
  else
    hf_total ← unpack_HH (slice 0 4 packet);
    let '(handle_flags, total) := (hf_total : Z * Z) in
    let total := mask14 total in
    if negb (total =? blen packet - 4) then
      Exc (HciError (Fmt "HCI ISO length says %d, received %d"
                       [AInt total; AInt (blen packet - 4)]))
    else
      let handle := mask12 handle_flags in
      let pb := Z.land (Z.shiftr handle_flags 12) 0x03 in
      let ts := Z.land (Z.shiftr handle_flags 14) 0x01 in
      if (pb =? ISO_PB_FIRST) || (pb =? ISO_PB_COMPLETE) then
        stamp ← (if negb (ts =? 0) then
                   if (length packet <? 8)%nat
                   then Exc (HciError (Lit "ISO packet has TS flag without timestamp"))
                   else t ← unpack_I (slice 4 8 packet); Ok (Some t, 8%nat)
                 else Ok (None, 4%nat));
        let '(timestamp, at_) := (stamp : option Z * nat) in
        if (length packet <? at_ + 4)%nat
        then Exc (HciError (Lit "ISO packet has no sequence/SDU length fields"))
        else
          sequence ← unpack_H (slice at_ (at_ + 2) packet);
          field ← unpack_H (slice (at_ + 2) (at_ + 4) packet);
          Ok (IsoPacket handle pb timestamp (Some sequence) (Some (mask12 field))
                (Some (Z.land (Z.shiftr field 14) 0x03)) (drop (at_ + 4) packet))
      else Ok (IsoPacket handle pb None None None None (drop 4 packet)).

Section iso.
Context {T : Type} `{!Transport T}.

(** [IsoHci.send_iso]. *)
Definition send_iso (handle sequence : Z) (sdu : bytes) : M (dev (T:=T)) unit :=
  if 0x0FFF <? blen sdu
  then raise (HciError (Lit "ISO SDU exceeds the HCI ISO_SDU_Length field"))
  else
    let handle_flags := Z.lor (Z.land handle 0x0FFF) (Z.shiftl ISO_PB_COMPLETE 12) in
    head ← lift (pack [FH (Z.land sequence 0xFFFF); FH (Z.land (blen sdu) 0x0FFF)]);
    let load := head ++ sdu in
    header ← lift (pack [FH handle_flags; FH (blen load)]);
    write_packet ([H4_ISO] ++ header ++ load).

Definition setup_iso_path (iso_handle direction : Z) : M (dev (T:=T)) unit :=
  h ← lift (pack [FH iso_handle]);
  d ← lift (mkbytes [direction; ISO_DATA_PATH_HCI]);
  r ← Hci.command OP_LE_SETUP_ISO_DATA_PATH
        (h ++ d ++ [CODING_FORMAT_TRANSPARENT] ++ zeros 4 ++ zeros 3 ++ [0]) true;
  when (negb (fst r =? 0))
    (raise (HciError (Fmt "LE Setup ISO Data Path %s returned %s"
       (AStr (if direction =? ISO_DIRECTION_INPUT then "input" else "output")
        :: status_text (fst r))))).

Definition read_iso_buffers (label : string) : M (dev (T:=T)) Z :=
  r ← Hci.command OP_LE_READ_BUFFER_SIZE_V2 [] true;
  let '(status, data) := (r : Z * bytes) in
  if negb (status =? 0) then
    raise (HciError (Fmt "%s LE Read Buffer Size v2 returned %s"
                       (AStr label :: status_text status)))
  else if (length data <? 6)%nat then
    raise (HciError (Fmt "%s LE Read Buffer Size v2 returned %d bytes"
                       [AStr label; AInt (blen data)]))
  else
    sizes ← lift (unpack_HBHB (take 6 data));
    let '(_, _, iso_len, iso_count) := (sizes : Z * Z * Z * Z) in
    if (iso_len =? 0) || (iso_count =? 0)
    then raise (HciError (Fmt "%s controller advertises no HCI ISO buffers" [AStr label]))
    else mret iso_len.

(** What the wait does with a packet. [nonvalid] counts the packets of the
    awaited handle that came with a status other than valid. *)
Definition wait_iso_step (label : string) (expected_handle : Z) (expected_sdu : bytes)
    (nonvalid : gmap Z Z) (p : packet)
  : M (dev (T:=T)) (gmap Z Z + (iso_packet * gmap Z Z)) :=
  if kind p =? H4_ISO then
    iso ← lift (parse_iso (body p));
    if negb (i_handle iso =? expected_handle) then mret (inl nonvalid)
    else if bool_decide (i_status iso ≠ None ∧ i_status iso ≠ Some 0) then
      let status := default 0 (i_status iso) in
      mret (inl (<[status := default 0 (nonvalid !! status) + 1]> nonvalid))
    else if negb (i_pb iso =? ISO_PB_COMPLETE) then
      raise (HciError (Fmt "%s received fragmented small ISO SDU" [AStr label]))
    else if negb (bool_decide (i_sdu_len iso = Some (blen expected_sdu))) then mret (inl nonvalid)
    else if negb (bool_decide (i_sdu_len iso = Some (blen (i_fragment iso)))) then
      raise (HciError (Fmt "%s HCI ISO fragment has %d bytes for declared SDU length %d"
        [AStr label; AInt (blen (i_fragment iso)); AInt (default 0 (i_sdu_len iso))]))
    else if negb (bool_decide (i_fragment iso = expected_sdu)) then mret (inl nonvalid)
    else mret (inr (iso, nonvalid))
  else if is_event EVT_DISCONNECTION_COMPLETE p then
    handle ← lift (unpack_H (slice 1 3 (body p)));
    reason ← (if (4 <=? length (body p))%nat then lift (idx (body p) 3) else mret 0);
    raise (HciError (Fmt "%s disconnected 0x%04X while waiting for ISO, reason %s"
      (AStr label :: AInt (mask12 handle) :: status_text reason)))
  else mret (inl nonvalid).

Definition wait_iso (label : string) (expected_handle : Z) (expected_sdu : bytes) (timeout : Z)
  : M (dev (T:=T)) (iso_packet * gmap Z Z) :=
  r ← poll (λ _, ms 100) (wait_iso_step label expected_handle expected_sdu) (ms 100) timeout ∅;
  match r with
  | inr found => mret found
  | inl _ => raise (HciError (Fmt "timed out waiting for ISO marker at %s" [AStr label]))
  end.
End iso.

(** ** The layout of an ISO data packet (Vol 4 Part E 5.4.5) *)

Definition iso_load (i : iso_packet) : bytes :=
  match i_timestamp i with Some t => le_bytes 4 t | None => [] end
  ++ match i_sequence i with Some s => le_bytes 2 s | None => [] end
  ++ match i_sdu_len i, i_status i with
     | Some n, Some st => le_bytes 2 (n + 16384 * st) | _, _ => [] end
  ++ i_fragment i.

Definition iso_body (i : iso_packet) : bytes :=
  le_bytes 2 (i_handle i + 4096 * i_pb i
              + 16384 * match i_timestamp i with Some _ => 1 | None => 0 end)
  ++ le_bytes 2 (blen (iso_load i)) ++ iso_load i.

(** Field widths; the first and the complete fragment carry a sequence number,
    an SDU length and a status, the others none of them. *)
Definition iso_ok (i : iso_packet) : Prop :=
  0 ≤ i_handle i < 4096 ∧ 4 ≤ blen (iso_load i) < 16384 ∧
  if (i_pb i =? ISO_PB_FIRST) || (i_pb i =? ISO_PB_COMPLETE)
  then match i_timestamp i with Some t => 0 ≤ t < 4294967296 | None => True end ∧
       (∃ s n st, i_sequence i = Some s ∧ i_sdu_len i = Some n ∧ i_status i = Some st ∧
          0 ≤ s < 65536 ∧ 0 ≤ n < 4096 ∧ 0 ≤ st < 4)
  else 0 ≤ i_pb i < 4 ∧
       i_timestamp i = None ∧ i_sequence i = None ∧ i_sdu_len i = None ∧ i_status i = None.

Lemma land_3 v : Z.land v 0x03 = v mod 4.
Proof. change 0x03 with (Z.ones 2). by rewrite Z.land_ones. Qed.

Lemma land_1 v : Z.land v 0x01 = v mod 2.
Proof. change 0x01 with (Z.ones 1). by rewrite Z.land_ones. Qed.

Lemma unpack_HH_app a b rest :
  0 ≤ a < 65536 → 0 ≤ b < 65536 →
  unpack_HH (slice 0 4 (le_bytes 2 a ++ le_bytes 2 b ++ rest)) = Ok (a, b).
Proof.
  intros Ha Hb. change (slice 0 4 _) with (le_bytes 2 a ++ le_bytes 2 b). unfold unpack_HH.
  rewrite decide_True by done. change (take 2 _) with (le_bytes 2 a).
  change (drop 2 _) with (le_bytes 2 b). by rewrite !le_Z_le_bytes_small.
Qed.

Lemma unpack_slice k n (b : bytes) : (n + k <= length b)%nat → is_ok (unpack_le k (slice n (n + k) b)) = true.
Proof.
  intros Hl. unfold unpack_le. by rewrite decide_True by (rewrite slice_length; lia).
Qed.

(** Every way decoding can end: a value, or an [HciError]; no [struct.error]. *)
Lemma parse_iso_cases body :
  match parse_iso body with
  | Ok i => (4 <= length body)%nat ∧ ∃ n, i_fragment i = drop n body
  | Exc e => is_hci_error e = true
  | Stuck => False
  end.
Proof.
  unfold parse_iso. destruct (Nat.ltb_spec (length body) 8) as [|Hl]; [done|].
  unfold unpack_HH. rewrite decide_True by (rewrite slice_length; lia). cbn [mbind res_bind].
  destruct (negb _); [done|]. destruct (_ || _); [|split; [lia|by eexists]].
  pose proof (unpack_slice 4 4 body Hl) as H4.
  assert (Hgo : ∀ stamp : option Z * nat,
    match (let '(timestamp, at_) := stamp in
      if (length body <? at_ + 4)%nat
      then Exc (HciError (Lit "ISO packet has no sequence/SDU length fields"))
      else
        sequence ← unpack_H (slice at_ (at_ + 2) body);
        field ← unpack_H (slice (at_ + 2) (at_ + 4) body);
        Ok (IsoPacket (mask12 (le_Z (take 2 (slice 0 4 body))))
              (Z.land (Z.shiftr (le_Z (take 2 (slice 0 4 body))) 12) 0x03)
              timestamp (Some sequence) (Some (mask12 field))
              (Some (Z.land (Z.shiftr field 14) 0x03)) (drop (at_ + 4) body))) with
    | Ok i => (4 <= length body)%nat ∧ ∃ n, i_fragment i = drop n body
    | Exc e => is_hci_error e = true
    | Stuck => False
    end).
  { intros [timestamp at_]. destruct (Nat.ltb_spec (length body) (at_ + 4)) as [|Hat]; [done|].
    pose proof (unpack_slice 2 at_ body ltac:(lia)) as H1.
    pose proof (unpack_slice 2 (at_ + 2) body ltac:(lia)) as H2.
    replace (at_ + 2 + 2)%nat with (at_ + 4)%nat in H2 by lia. unfold unpack_H.
    destruct (unpack_le 2 _) as [sequence| |]; [|done|done]. cbn [mbind res_bind].
    destruct (unpack_le 2 _) as [field| |]; [|done|done]. cbn. split; [lia|by eexists]. }
  unfold unpack_I. destruct (unpack_le 4 _) as [t| |]; [|done|done].
  destruct (negb _); [exact (Hgo (Some t, 8%nat))|exact (Hgo (None, 4%nat))].
Qed.

(** Fields that do not overlap. *)
Lemma lor_shiftl k a b : 0 ≤ k → 0 ≤ b → Z.lor (a mod 2 ^ k) (Z.shiftl b k) = a mod 2 ^ k + 2 ^ k * b.
Proof.
  intros Hk Hb. assert (E : Z.land (a mod 2 ^ k) (Z.shiftl b k) = 0).
  { apply Z.bits_inj'. intros n Hn. rewrite Z.land_spec, Z.bits_0, Z.shiftl_spec by done.
    destruct (Z.lt_ge_cases n k) as [Hlt|Hge].
    - by rewrite (Z.testbit_neg_r b), andb_false_r by lia.
    - by rewrite Z.mod_pow2_bits_high by lia. }
  rewrite <- Z.lxor_lor, <- Z.add_nocarry_lxor, Z.shiftl_mul_pow2 by done. lia.
Qed.

(** Reading a field back behind [n] octets. *)
Lemma unpack_at n pre v rest k j :
  n = length pre → j = (n + k)%nat → 0 ≤ v < 256 ^ Z.of_nat k →
  unpack_le k (slice n j (pre ++ le_bytes k v ++ rest)) = Ok v.
Proof.
  intros -> -> Hv. rewrite slice_app_mid by (by rewrite ?length_le_bytes).
  unfold unpack_le. rewrite decide_True by apply length_le_bytes.
  by rewrite le_Z_le_bytes_small.
Qed.

(** An ISO data packet decodes to the fields it was built from: every
    fragment kind, with and without a time stamp. *)
Theorem parse_iso_body (i : iso_packet) : iso_ok i → parse_iso (iso_body i) = Ok i.
Proof.
  destruct i as [handle pb timestamp sequence sdu_len status fragment].
  unfold iso_ok. cbn [i_handle i_pb i_timestamp i_sequence i_sdu_len i_status i_fragment].
  set (i := IsoPacket _ _ _ _ _ _ _). intros (Hh&Hl&Hf).
  set (ts := match timestamp with Some _ => 1 | None => 0 end).
  assert (Hts : 0 ≤ ts < 2) by (subst ts; by destruct timestamp).
  assert (Hpb : 0 ≤ pb < 4).
  { destruct (Z.eqb_spec pb ISO_PB_FIRST) as [->|]; [done|].
    destruct (Z.eqb_spec pb ISO_PB_COMPLETE) as [->|]; [done|]. cbn in Hf. lia. }
  set (hf := handle + 4096 * pb + 16384 * ts).
  assert (Hbody : iso_body i = le_bytes 2 hf ++ le_bytes 2 (blen (iso_load i)) ++ iso_load i)
    by done.
  assert (Hlen : blen (iso_body i) = 4 + blen (iso_load i))
    by (rewrite Hbody, !blen_app, !blen_le_bytes; lia).
  unfold parse_iso. rewrite (proj2 (Nat.ltb_ge _ _)) by (unfold blen in *; lia).
  rewrite Hbody at 1. rewrite unpack_HH_app by (subst hf; lia). cbn [mbind res_bind].
  rewrite mask14_spec, Z.mod_small, Hlen by lia.
  replace (blen (iso_load i) =? _) with true by (symmetry; apply Z.eqb_eq; lia). cbn [negb].
  rewrite mask12_spec, land_3, land_1, !Z.shiftr_div_pow2 by lia.
  replace (hf mod 4096) with handle by (subst hf; Z.to_euclidean_division_equations; lia).
  replace ((hf / 2 ^ 12) mod 4) with pb by (subst hf; Z.to_euclidean_division_equations; lia).
  replace ((hf / 2 ^ 14) mod 2) with ts by (subst hf; Z.to_euclidean_division_equations; lia).
  set (hdr := le_bytes 2 hf ++ le_bytes 2 (blen (iso_load i))) in *.
  assert (Hhdr : length hdr = 4%nat) by done.
  rewrite app_assoc in Hbody. fold hdr in Hbody.
  destruct (_ || _).
  - destruct Hf as [Ht (s&n&st&->&->&->&Hs&Hn&Hst)].
    assert (Hload : iso_load i = match timestamp with Some t => le_bytes 4 t | None => [] end
      ++ le_bytes 2 s ++ le_bytes 2 (n + 16384 * st) ++ fragment) by done.
    set (pre := hdr ++ match timestamp with Some t => le_bytes 4 t | None => [] end).
    assert (Hat : iso_body i = pre ++ le_bytes 2 s ++ le_bytes 2 (n + 16384 * st) ++ fragment)
      by (by rewrite Hbody, Hload; subst pre; rewrite <- !app_assoc).
    assert (Hstamp : (if negb (ts =? 0) then
        t ← unpack_I (slice 4 8 (iso_body i)); Ok (Some t, 8%nat)
      else Ok (None, 4%nat)) = Ok (timestamp, length pre)).
    { subst pre ts. destruct timestamp as [t|]; [|by rewrite length_app, Hhdr].
      cbn [Z.eqb negb]. rewrite Hbody, Hload. unfold unpack_I.
      rewrite (unpack_at 4 hdr t _ 4 8) by (done || (cbn; lia)). cbn [mbind res_bind].
      by rewrite length_app, length_le_bytes, Hhdr. }
    rewrite Hstamp. cbn [mbind res_bind].
    assert (Hpre : (length pre + 4 <= length (iso_body i))%nat)
      by (rewrite Hat, !length_app, !length_le_bytes; lia).
    rewrite (proj2 (Nat.ltb_ge _ _)) by lia. rewrite Hat. unfold unpack_H.
    rewrite (unpack_at _ pre s _ 2 _ eq_refl) by (lia || (cbn; lia)). cbn [mbind res_bind].
    rewrite app_assoc.
    rewrite (unpack_at _ (pre ++ le_bytes 2 s) (n + 16384 * st) fragment 2)
      by (rewrite ?length_app, ?length_le_bytes; cbn; lia). cbn [mbind res_bind].
    rewrite mask12_spec, land_3, Z.shiftr_div_pow2 by lia.
    replace ((n + 16384 * st) mod 4096) with n by (Z.to_euclidean_division_equations; lia).
    replace ((n + 16384 * st) / 2 ^ 14) with st by (Z.to_euclidean_division_equations; lia).
    rewrite (Z.mod_small st) by lia.
    rewrite app_assoc, drop_app_length' by (rewrite !length_app, !length_le_bytes; cbn; lia).
    reflexivity.
  - destruct Hf as (_&->&->&->&->). reflexivity.
Qed.

Lemma iso_body_packet i :
  iso_ok i → bytes_ok (i_fragment i) → packet_ok (Pkt H4_ISO None (iso_body i)).
Proof.
  intros (Hh&Hl&_) Hf. unfold packet_ok, packet_wf. cbn [kind code body].
  assert (Hload : bytes_ok (iso_load i)).
  { unfold iso_load. rewrite !bytes_ok_app.
    split_and!; repeat case_match; try apply le_bytes_ok; try done; constructor. }
  split.
  - right; right. unfold iso_body. rewrite !blen_app, !blen_le_bytes.
    change (slice 2 4 _) with (le_bytes 2 (blen (iso_load i))).
    rewrite le_Z_le_bytes_small, mask14_spec, Z.mod_small by (cbn; lia).
    rewrite !length_app, !length_le_bytes. split_and!; try done; lia.
  - unfold iso_body. rewrite !bytes_ok_app. split_and!; [apply le_bytes_ok..|done].
Qed.

(** ** The operations on the engine *)

Section iso_laws.
Context {T : Type} `{Tr : !Transport T} `{TL : !TransportLaws T}.
Implicit Types s : dev (T:=T).

(** What [send_iso] writes, in the fields of the layout. *)
Definition sent_iso (handle sequence : Z) (sdu : bytes) : iso_packet :=
  IsoPacket (handle mod 4096) ISO_PB_COMPLETE None (Some (sequence mod 65536))
    (Some (blen sdu)) (Some 0) sdu.

Lemma sent_iso_load handle sequence sdu :
  iso_load (sent_iso handle sequence sdu) =
  le_bytes 2 (sequence mod 65536) ++ le_bytes 2 (blen sdu) ++ sdu.
Proof. unfold iso_load, sent_iso. cbn [i_timestamp i_sequence i_sdu_len i_status i_fragment app].
  by rewrite Z.mul_0_r, Z.add_0_r. Qed.

Lemma sent_iso_ok handle sequence sdu :
  blen sdu ≤ 0x0FFF → iso_ok (sent_iso handle sequence sdu).
Proof.
  intros Hl. pose proof (blen_nonneg sdu). unfold iso_ok.
  rewrite sent_iso_load, !blen_app, !blen_le_bytes.
  split; [apply Z.mod_pos_bound; lia|]. split; [lia|]. cbn. split; [done|].
  do 3 eexists. split_and!; try reflexivity; try lia; apply Z.mod_pos_bound; lia.
Qed.

Lemma send_iso_eq handle sequence sdu s :
  blen sdu ≤ 0x0FFF →
  send_iso handle sequence sdu s =
  write_packet (H4_ISO :: iso_body (sent_iso handle sequence sdu)) s.
Proof.
  intros Hl. pose proof (blen_nonneg sdu) as Hpos. unfold send_iso.
  rewrite (proj2 (Z.ltb_ge _ _)) by done.
  change 0xFFFF with (Z.ones 16). change 0x0FFF with (Z.ones 12).
  rewrite !Z.land_ones by lia. change (2 ^ 16) with 65536. change (2 ^ 12) with 4096.
  rewrite (Z.mod_small (blen sdu)) by lia.
  pose proof (Z.mod_pos_bound sequence 65536). pose proof (Z.mod_pos_bound handle 4096).
  unfold lift. rewrite pack_HH by lia. unfold mbind at 1, M_bind at 1. cbn zeta.
  assert (Hflags : Z.lor (handle mod 4096) (Z.shiftl ISO_PB_COMPLETE 12)
                   = handle mod 4096 + 4096 * ISO_PB_COMPLETE)
    by (exact (lor_shiftl 12 handle ISO_PB_COMPLETE ltac:(done) ltac:(done))).
  rewrite Hflags, pack_HH by (rewrite ?blen_app, ?blen_le_bytes; unfold ISO_PB_COMPLETE; lia).
  unfold mbind, M_bind, iso_body. rewrite sent_iso_load. cbn [i_handle i_pb i_timestamp sent_iso].
  rewrite Z.mul_0_r, Z.add_0_r. f_equal.
Qed.

(** What [send_iso] writes is one well-formed ISO packet that decodes to the
    handle and sequence number it was given, to their width, and to the SDU; an
    SDU too long for its length field is refused and nothing is written; ACL
    credits are not touched. *)
Theorem send_iso_decodes (handle sequence : Z) (sdu : bytes) s :
  engine_ok s → bytes_ok sdu →
  let '(r, s') := send_iso handle sequence sdu s in
  let i := sent_iso handle sequence sdu in
  if 0x0FFF <? blen sdu then is_ok r = false ∧ s' = s
  else
    acl_credits (snd s') = acl_credits (snd s) ∧
    packet_ok (Pkt H4_ISO None (iso_body i)) ∧ parse_iso (iso_body i) = Ok i ∧
    match r with
    | Ok _ => sent s' = sent s ++ [H4_ISO :: iso_body i]
    | Exc e => is_hci_error e = true ∧ sent s' = sent s
    | Stuck => False
    end.
Proof.
  intros Hs Hb. destruct (Z.ltb_spec 0x0FFF (blen sdu)) as [Hlt|Hle].
  { unfold send_iso. by rewrite (proj2 (Z.ltb_lt _ _)). }
  rewrite send_iso_eq by done. cbn zeta. set (i := sent_iso _ _ _).
  pose proof (sent_iso_ok handle sequence sdu Hle) as Hi.
  pose proof (write_packet_cases (H4_ISO :: iso_body i) s Hs) as Hw.
  destruct (write_packet _ s) as [r s']. destruct Hw as (_&_&_&Hst&Hr).
  split_and!; [by rewrite Hst|by apply iso_body_packet|by apply parse_iso_body|].
  destruct r; [done|exact Hr|done].
Qed.

(** *** Waiting for a marker *)

Lemma wait_iso_step_runs R `{!PreOrder R} label handle sdu nonvalid p :
  runs engine_ok R engine_exn (wait_iso_step (T:=T) label handle sdu nonvalid p).
Proof.
  unfold wait_iso_step. destruct (kind p =? H4_ISO).
  - apply runs_bind; [done| |intros iso].
    + pose proof (parse_iso_cases (body p)) as H.
      apply runs_lift; [done|by intros E; rewrite E in H|].
      intros e E. rewrite E in H. by left.
    + repeat case_match; try (by apply runs_ret); by apply runs_raise; [done|left].
  - destruct (is_event _ p); [|by apply runs_ret].
    apply runs_bind; [done|by apply unpack_H_runs|intros raw].
    apply runs_bind; [done| |intros reason; by apply runs_raise; [done|left]].
    destruct (_ <=? _)%nat; [by apply lift_idx_runs|by apply runs_ret].
Qed.

(** The packet the wait returns on. *)
Definition is_marker (handle : Z) (sdu : bytes) (i : iso_packet) : Prop :=
  i_handle i = handle ∧ i_pb i = ISO_PB_COMPLETE ∧ i_sdu_len i = Some (blen sdu) ∧
  i_fragment i = sdu ∧ (i_status i = None ∨ i_status i = Some 0).

Lemma wait_iso_step_found label handle sdu nonvalid p s i nv s' :
  wait_iso_step (T:=T) label handle sdu nonvalid p s = (Ok (inr (i, nv)), s') →
  kind p = H4_ISO ∧ parse_iso (body p) = Ok i ∧ is_marker handle sdu i.
Proof.
  unfold wait_iso_step. destruct (Z.eqb_spec (kind p) H4_ISO) as [Hk|]; intros H.
  - apply bind_ok_inv in H as (iso&s1&E&H). injection E as E <-.
    destruct (Z.eqb_spec (i_handle iso) handle) as [Hh|]; [|done]. cbn [negb] in H.
    destruct (bool_decide (i_status iso ≠ _ ∧ _)) eqn:Hst; [done|].
    destruct (Z.eqb_spec (i_pb iso) ISO_PB_COMPLETE) as [Hpb|]; [|done]. cbn [negb] in H.
    do 3 (case_bool_decide; [|done]; cbn [negb] in H). injection H as -> _ _.
    apply bool_decide_eq_false in Hst. split; [done|split; [done|]]. unfold is_marker. split_and!; try done.
    destruct (i_status i) as [st|]; [|by left]. right. f_equal.
    destruct (decide (st = 0)); [done|]. exfalso. apply Hst. split; congruence.
  - destruct (is_event _ p); [|done]. apply bind_ok_inv in H as (?&?&_&H).
    by apply bind_ok_inv in H as (?&?&_&H).
Qed.

(** Waiting for a marker ends, writes nothing, and returns only on a valid,
    unfragmented packet of the awaited handle that carries exactly the SDU. *)
Theorem wait_iso_marker (label : string) (handle timeout : Z) (sdu : bytes) s :
  engine_ok s →
  let '(r, s') := wait_iso label handle sdu timeout s in
  engine_ok s' ∧ sent s' = sent s ∧ both_frame s s' ∧
  match r with
  | Ok (i, _) => is_marker handle sdu i
  | Exc e => engine_exn e
  | Stuck => False
  end.
Proof.
  intros Hs. unfold wait_iso.
  pose proof (poll_pure (λ a : iso_packet * gmap Z Z, is_marker handle sdu (fst a)) (λ _, ms 100)
    (wait_iso_step label handle sdu) (ms 100) timeout ∅ s) as Hp.
  unfold mbind, M_bind. destruct (poll _ _ _ _ _ s) as [r s'].
  destruct Hp as (?&?&?&Hr); [done|intros; unfold ms; lia| | |done|].
  - intros R ? d p _. by apply wait_iso_step_runs.
  - intros d p s1 [i nv] s2 _ E. by apply wait_iso_step_found in E as (_&_&?).
  - destruct r as [[?|[i nv]]|e|]; cbn; split_and!; try done. by left.
Qed.

(** A marker that has arrived is found: with packets of other handles,
    doubtful packets and other events queued before it, the wait returns it
    without reading the wire. *)
Theorem wait_iso_finds (label : string) (handle sequence timeout now : Z) (sdu : bytes)
    (h : hci T) (before after : list packet) :
  let i := sent_iso handle sequence sdu in
  0 < timeout → blen sdu ≤ 0x0FFF → 0 ≤ handle < 4096 →
  pending h = before ++ Pkt H4_ISO None (iso_body i) :: after →
  Forall (λ p, if kind p =? H4_ISO
               then ∃ j, parse_iso (body p) = Ok j ∧
                    (i_handle j ≠ handle ∨ i_status j ≠ None ∧ i_status j ≠ Some 0)
               else is_event EVT_DISCONNECTION_COMPLETE p = false) before →
  ∃ nonvalid, wait_iso label handle sdu timeout (now, h) = (Ok (i, nonvalid), (now, set_pending after h)).
Proof.
  intros i Hto Hl Hh Hp Hb. unfold wait_iso, poll, gets, mbind, M_bind. cbn [fst snd].
  assert (Hi : parse_iso (iso_body i) = Ok i) by by apply parse_iso_body, sent_iso_ok.
  assert (Hm : i_handle i = handle) by by apply Z.mod_small.
  destruct (poll_loop_found (λ _, ms 100) (wait_iso_step label handle sdu) (λ nv, (i, nv))
    (now + timeout) now (Pkt H4_ISO None (iso_body i)) after ltac:(lia)) with
    (before := before) (fuel := poll_fuel (ms 100) timeout (now, h)) (d := (∅ : gmap Z Z)) (h := h)
    as [nv E]; [|done| | |exists nv; by rewrite E].
  - intros d s. unfold wait_iso_step, lift, mbind, M_bind. cbn [kind body Z.eqb].
    change (H4_ISO =? H4_ISO) with true. cbv beta iota. rewrite Hi. cbv beta iota.
    rewrite Hm, Z.eqb_refl. cbn [negb].
    change (i_status i) with (Some 0). change (i_pb i) with ISO_PB_COMPLETE.
    change (i_sdu_len i) with (Some (blen sdu)). change (i_fragment i) with sdu.
    rewrite Z.eqb_refl, bool_decide_eq_false_2 by (by intros []). cbn [negb].
    by rewrite !bool_decide_eq_true_2.
  - apply (Forall_impl _ _ _ Hb). intros p Hp' d s. unfold wait_iso_step.
    destruct (kind p =? H4_ISO); [|rewrite Hp'; by eexists].
    destruct Hp' as (j&E&Hj). unfold lift, mbind, M_bind. rewrite E.
    destruct (Z.eqb_spec (i_handle j) handle) as [Heq|]; [|by eexists]. cbn [negb].
    rewrite bool_decide_eq_true_2 by (by destruct Hj). by eexists.
  - unfold poll_fuel. cbn [snd]. rewrite Hp, length_app. lia.
Qed.
End iso_laws.

(** ** Concrete packets *)

Definition demo_iso : iso_packet :=
  IsoPacket 0x123 ISO_PB_FIRST (Some 0x01020304) (Some 7) (Some 3) (Some 2) [1; 2; 3].

Lemma parse_iso_body_witness :
  iso_ok demo_iso ∧ parse_iso (iso_body demo_iso) = Ok demo_iso.
Proof.
  assert (H : iso_ok demo_iso).
  { unfold iso_ok, demo_iso. cbn. split; [lia|]. split; [unfold blen; cbn; lia|].
    split; [lia|]. do 3 eexists. split_and!; try reflexivity; lia. }
  split; [exact H|]. by apply parse_iso_body.
Defined.

Lemma send_iso_decodes_witness :
  let '(r, s') := send_iso 0x20 5 [1; 2; 3] (serial_dev [] []) in
  r = Ok tt ∧ sent s' = [H4_ISO :: iso_body (sent_iso 0x20 5 [1; 2; 3])] ∧
  parse_iso (iso_body (sent_iso 0x20 5 [1; 2; 3])) = Ok (sent_iso 0x20 5 [1; 2; 3]).
Proof.
  pose proof (send_iso_decodes 0x20 5 [1; 2; 3] (serial_dev [] []) (serial_dev_ok (serial_dev [] []) eq_refl)
    ltac:(by apply (bool_decide_unpack _))) as H.
  assert (E : fst (send_iso 0x20 5 [1; 2; 3] (serial_dev [] [])) = Ok tt) by by vm_compute.
  destruct (send_iso _ _ _ _) as [r s']. cbn in E. subst r. destruct H as (_&_&Hp&Hs).
  split; [done|]. split; [exact Hs|exact Hp].
Defined.

(** A marker behind a packet of another handle and a lost one. *)
Definition marker_packet (handle : Z) : packet :=
  Pkt H4_ISO None (iso_body (sent_iso handle 5 [1; 2; 3])).
Definition lost_packet : packet :=
  Pkt H4_ISO None (iso_body (IsoPacket 0x20 ISO_PB_COMPLETE None (Some 4) (Some 0) (Some 2) [])).
Definition marker_dev : dev (T:=SerialH4.state) :=
  serial_dev [marker_packet 0x21; lost_packet; marker_packet 0x20; reset_packet] [].

Lemma wait_iso_finds_witness :
  ∃ nonvalid, wait_iso "source" 0x20 [1; 2; 3] (seconds 5) marker_dev
    = (Ok (sent_iso 0x20 5 [1; 2; 3], nonvalid), (0, set_pending [reset_packet] (snd marker_dev))).
Proof.
  apply (wait_iso_finds "source" 0x20 5 (seconds 5) 0 [1; 2; 3] (snd marker_dev)
    [marker_packet 0x21; lost_packet] [reset_packet]).
  - by vm_compute.
  - by vm_compute.
  - lia.
  - reflexivity.
  - repeat constructor.
    + exists (sent_iso 0x21 5 [1; 2; 3]). split; [by vm_compute|left; by vm_compute].
    + eexists. split; [vm_compute; reflexivity|right; by split].
Defined.

Lemma wait_iso_marker_witness :
  let '(r, s') := wait_iso "source" 0x20 [1; 2; 3] (seconds 5) marker_dev in
  is_ok r = true ∧ sent s' = [] ∧ match r with Ok (i, _) => is_marker 0x20 [1; 2; 3] i | _ => False end.
Proof.
  pose proof (wait_iso_marker "source" 0x20 (seconds 5) [1; 2; 3] marker_dev
    (serial_dev_ok marker_dev eq_refl)) as H.
  assert (E : is_ok (fst (wait_iso "source" 0x20 [1; 2; 3] (seconds 5) marker_dev)) = true)
    by by vm_compute.
  destruct (wait_iso _ _ _ _ _) as [[[i nv]|e|] s']; [|done|done]. by destruct H as (_&?&_&?).
Defined.
