(* ===== verification/Connected.v ===== *)
(** * Connected: waiting for events, and the procedures on a live link
    (connected_features.py, single-controller part)

    [wait_le_subevent] and [wait_acl_marker] look for one packet and put every
    other one they read back in front of the queue. The procedures send a
    command, wait for its completion event and check what it reports. *)

From S2P Require Export Trace.
#[local] Open Scope Z_scope.

Definition OP_READ_RSSI : Z := 0x1405.
Definition OP_LE_READ_REMOTE_FEATURES : Z := 0x2016.
Definition OP_LE_SET_DATA_LENGTH : Z := 0x2022.
Definition OP_LE_READ_PHY : Z := 0x2030.
Definition OP_LE_SET_PHY : Z := 0x2032.
Definition OP_LE_REQUEST_PEER_SCA : Z := 0x206D.
Definition OP_LE_ENHANCED_READ_TX_POWER : Z := 0x2076.
Definition OP_LE_READ_REMOTE_TX_POWER : Z := 0x2077.
Definition OP_LE_SET_PATH_LOSS_PARAMS : Z := 0x2078.
Definition OP_LE_SET_PATH_LOSS_ENABLE : Z := 0x2079.
Definition OP_LE_SET_TX_POWER_REPORT_ENABLE : Z := 0x207A.
Definition LE_REQUEST_PEER_SCA_COMPLETE : Z := 0x1F.
Definition LE_PATH_LOSS_THRESHOLD : Z := 0x20.
Definition LE_TRANSMIT_POWER_REPORTING : Z := 0x21.
Definition PHY_1M : Z := 0x01.

(** The LE Meta event looked for; [predicate] sees the whole body. *)
Definition match_subevent (subevent : Z) (handle : option Z) (handle_offset : option nat)
    (predicate : bytes → bool) (p : packet) : res (option bytes) :=
  if is_event EVT_LE_META p && bool_decide (head (body p) = Some subevent) then
    matches ← match handle, handle_offset with
              | None, _ => Ok true
              | Some _, None => Ok false
              | Some h, Some off =>
                  if (length (body p) <? off + 2)%nat then Ok false
                  else got ← unpack_H (slice off (off + 2) (body p)); Ok (mask12 got =? h)
              end;
    Ok (if (matches : bool) && predicate (body p) then Some (body p) else None)
  else Ok None.

(** The ACL packet [wait_acl_marker] looks for. *)
Definition match_acl (expected_handle expected_cid : Z) (expected_payload : bytes) (p : packet)
  : res (option unit) :=
  if negb (kind p =? H4_ACL) || (length (body p) <? 8)%nat then Ok None
  else
    flags_total ← unpack_HH (take 4 (body p));
    if negb (snd flags_total =? blen (body p) - 4)
       || negb (mask12 (fst flags_total) =? expected_handle) then Ok None
    else
      len_cid ← unpack_HH (slice 4 8 (body p));
      Ok (if (snd len_cid =? expected_cid)
             && bool_decide (slice 8 (8 + Z.to_nat (fst len_cid)) (body p) = expected_payload)
          then Some tt else None).

Section connected.
Context {T : Type} `{!Transport T}.

(** [_restore]. *)
Definition restore (packets : list packet) : M (dev (T:=T)) unit :=
  on_hci (modify (λ h, set_pending (packets ++ pending h) h)).

(** [hci.read_packet(min(0.2, max(0.0, deadline - time.time())))]. *)
Definition short_wait (remaining : Z) : Z := Z.min (ms 200) (Z.max 0 remaining).

(** The loop both waiters run around what they look for. *)
Definition wait_for {A} (f : packet → res (option A)) (timeout : Z)
  : M (dev (T:=T)) (option A) :=
  r ← poll short_wait (defer_step f) (ms 200) timeout [];
  match r with
  | inr (deferred, a) => restore deferred ;; mret (Some a)
  | inl deferred => restore deferred ;; mret None
  end.

Definition wait_le_subevent (subevent : Z) (handle : option Z) (handle_offset : option nat)
    (predicate : bytes → bool) (timeout : Z) : M (dev (T:=T)) (option bytes) :=
  wait_for (match_subevent subevent handle handle_offset predicate) timeout.

Definition wait_acl_marker (expected_handle expected_cid : Z) (expected_payload : bytes)
    (timeout : Z) : M (dev (T:=T)) bool :=
  r ← wait_for (match_acl expected_handle expected_cid expected_payload) timeout;
  mret (match r with Some _ => true | None => false end).

(** [if status != 0: raise HciError("%s returned %s" ...)]. *)
Definition check_status (name : string) (status : Z) : M (dev (T:=T)) unit :=
  when (negb (status =? 0))
    (raise (HciError (Fmt "%s returned %s" (AStr name :: status_text status)))).

(** [if body is None: raise HciError(message)]. *)
Definition need_event (message : string) (body : option bytes) : M (dev (T:=T)) bytes :=
  match body with Some b => mret b | None => raise (HciError (Lit message)) end.

Definition tell (opcode : Z) (fields : list field) : M (dev (T:=T)) (Z * bytes) :=
  payload ← lift (pack fields); Hci.command opcode payload true.

Definition read_rssi (handle : Z) : M (dev (T:=T)) Z :=
  r ← tell OP_READ_RSSI [FH handle];
  let '(status, data) := (r : Z * bytes) in
  if negb (status =? 0) || (length data <? 3)%nat
  then raise (HciError (Fmt "Read RSSI returned %s" (status_text status)))
  else
    raw ← lift (unpack_H (take 2 data));
    if negb (mask12 raw =? handle)
    then raise (HciError (Fmt "Read RSSI returned handle 0x%04X, expected 0x%04X"
                            [AInt (mask12 raw); AInt handle]))
    else lift (unpack_b (slice 2 3 data)).

Definition read_remote_features (handle : Z) : M (dev (T:=T)) bytes :=
  r ← tell OP_LE_READ_REMOTE_FEATURES [FH handle];
  check_status "LE Read Remote Features" (fst r) ;;
  b ← wait_le_subevent LE_READ_REMOTE_FEATURES_COMPLETE (Some handle) (Some 2%nat)
        (λ e, 4 <=? length e)%nat (seconds 5);
  body ← need_event "no LE Read Remote Features Complete event" b;
  status ← lift (idx body 1);
  check_status "LE Read Remote Features Complete" status ;;
  if (length body <? 12)%nat
  then raise (HciError (Fmt
    "LE Read Remote Features Complete returned %d bytes, expected at least 12"
    [AInt (blen body)]))
  else mret (slice 4 12 body).

Definition set_data_length (handle : Z) : M (dev (T:=T)) (Z * Z) :=
  r ← tell OP_LE_SET_DATA_LENGTH [FH handle; FH 251; FH 2120];
  check_status "LE Set Data Length" (fst r) ;;
  b ← wait_le_subevent LE_DATA_LENGTH_CHANGE (Some handle) (Some 1%nat)
        (λ e, 11 <=? length e)%nat (seconds 5);
  body ← need_event "no LE Data Length Change event" b;
  tx_octets ← lift (unpack_H (slice 3 5 body));
  rx_octets ← lift (unpack_H (slice 7 9 body));
  mret (tx_octets, rx_octets).

(** The PHY update that reports success and the PHY asked for, both ways. *)
Definition phy_expected (phy : Z) (event : bytes) : bool :=
  (6 <=? length event)%nat && bool_decide (event !! 1%nat = Some 0)
  && bool_decide (event !! 4%nat = Some phy) && bool_decide (event !! 5%nat = Some phy).

Definition set_phy (handle phy : Z) : M (dev (T:=T)) unit :=
  r ← tell OP_LE_SET_PHY [FH handle; FB 0; FB phy; FB phy; FH 0];
  check_status "LE Set PHY" (fst r) ;;
  b ← wait_le_subevent LE_PHY_UPDATE_COMPLETE (Some handle) (Some 2%nat) (phy_expected phy)
        (seconds 5);
  match b with
  | None => raise (HciError (Fmt "no successful PHY Update Complete to PHY %u" [AInt phy]))
  | Some _ =>
      r ← tell OP_LE_READ_PHY [FH handle];
      let '(status, data) := (r : Z * bytes) in
      if negb (status =? 0) || (length data <? 4)%nat
      then raise (HciError (Lit "LE Read PHY failed after PHY update"))
      else
        tx ← lift (idx data 2);
        rx ← lift (idx data 3);
        when (negb (tx =? phy) || negb (rx =? phy))
          (raise (HciError (Fmt "LE Read PHY reports tx %u rx %u, expected %u"
                              [AInt tx; AInt rx; AInt phy])))
  end.

Definition succeeded (n : nat) (event : bytes) : bool :=
  (n <=? length event)%nat && bool_decide (event !! 1%nat = Some 0).

Definition request_peer_sca (handle : Z) : M (dev (T:=T)) Z :=
  r ← tell OP_LE_REQUEST_PEER_SCA [FH handle];
  check_status "LE Request Peer SCA" (fst r) ;;
  b ← wait_le_subevent LE_REQUEST_PEER_SCA_COMPLETE (Some handle) (Some 2%nat) (succeeded 5)
        (seconds 5);
  body ← need_event "no successful LE Request Peer SCA Complete event" b;
  lift (idx body 4).

Definition power_control (handle : Z) : M (dev (T:=T)) unit :=
  r ← tell OP_LE_ENHANCED_READ_TX_POWER [FH handle; FB PHY_1M];
  when (negb (fst r =? 0) || (length (snd r) <? 5)%nat)
    (raise (HciError (Fmt "LE Enhanced Read Transmit Power Level returned %s"
                        (status_text (fst r))))) ;;
  r ← tell OP_LE_SET_TX_POWER_REPORT_ENABLE [FH handle; FB 1; FB 1];
  check_status "LE Set Transmit Power Reporting Enable" (fst r) ;;
  r ← tell OP_LE_READ_REMOTE_TX_POWER [FH handle; FB PHY_1M];
  check_status "LE Read Remote Transmit Power Level" (fst r) ;;
  b ← wait_le_subevent LE_TRANSMIT_POWER_REPORTING (Some handle) (Some 2%nat) (succeeded 8)
        (seconds 5);
  need_event "no successful LE Transmit Power Reporting event" b ;; skip.

Definition path_loss_monitor (handle timeout : Z) : M (dev (T:=T)) bool :=
  r ← tell OP_LE_SET_PATH_LOSS_PARAMS [FH handle; FB 70; FB 10; FB 50; FB 10; FH 5];
  check_status "LE Set Path Loss Reporting Parameters" (fst r) ;;
  r ← tell OP_LE_SET_PATH_LOSS_ENABLE [FH handle; FB 1];
  check_status "LE Set Path Loss Reporting Enable" (fst r) ;;
  b ← wait_le_subevent LE_PATH_LOSS_THRESHOLD (Some handle) (Some 1%nat)
        (λ e, 5 <=? length e)%nat timeout;
  tell OP_LE_SET_PATH_LOSS_ENABLE [FH handle; FB 0] ;;
  mret (match b with Some _ => true | None => false end).
End connected.

(** ** Waiting *)

Section waiting.
Context {T : Type} `{Tr : !Transport T} `{TL : !TransportLaws T}.
Implicit Types s : dev (T:=T).

(** What a wait leaves: [before] is the queue it found followed by what it
    read from the wire, [after] the queue it leaves. *)
Definition kept {A} (f : packet → res (option A)) (found : option A) (before after : list packet)
  : Prop :=
  match found with
  | Some a => ∃ ps p rest, before = ps ++ p :: rest ∧ after = ps ++ rest ∧
      Forall (λ q, f q = Ok None) ps ∧ f p = Ok (Some a)
  | None => after = before
  end.

(** Putting back what was read. *)
Lemma restore_ok s ps rest s1 :
  engine_ok s → reads s ps s1 → sent s1 = sent s → (∃ last, ps = rest ++ last) →
  let s2 := snd (restore rest s1) in
  engine_ok s2 ∧ both_frame s s2 ∧ sent s2 = sent s ∧
  ∃ wire, pending (snd s) ++ wire = ps ++ pending (snd s1) ∧
          pending (snd s2) = rest ++ pending (snd s1).
Proof.
  intros Hs Hr Hsent [last Hps].
  destruct (reads_ok s ps s1 Hs Hr) as ([Hwf Hpe]&[[Ht Hl] [_ Hcr]]&Hok&Hle&Hq).
  assert (Hlen : (length rest <= length ps)%nat) by (rewrite Hps, length_app; lia).
  split_and!.
  - split; [exact Hwf|]. cbn. apply Forall_app. split; [|done].
    rewrite Hps in Hok. by apply Forall_app in Hok as [? _].
  - unfold both_frame, load_frame, credit_frame, load, credit_balance, acl_sent in *. cbn.
    rewrite length_app. split_and!; try done; lia.
  - exact Hsent.
  - destruct Hq as [Hq|[Hq [wire Hw]]].
    + exists []. by rewrite app_nil_r.
    + exists wire. split; [by rewrite Hq, app_nil_r, Hw|done].
Qed.

Lemma wait_for_cases {A} (f : packet → res (option A)) timeout s :
  (∀ p, f p ≠ Stuck) → (∀ p e, packet_ok p → f p = Exc e → engine_exn e) → engine_ok s →
  let '(r, s') := wait_for f timeout s in
  engine_ok s' ∧ both_frame s s' ∧ sent s' = sent s ∧
  match r with
  | Ok found => ∃ wire, kept f found (pending (snd s) ++ wire) (pending (snd s'))
  | Exc e => engine_exn e
  | Stuck => False
  end.
Proof.
  intros Ht HE Hs. unfold wait_for.
  assert (Hw : ∀ x, 0 < x → Z.min (ms 200) x ≤ short_wait x) by (unfold short_wait, ms; lia).
  pose proof (poll_defer_cases f (ms 200) short_wait ltac:(done) Hw Ht HE timeout s Hs) as Hc.
  pose proof (poll_pure (λ _ : list packet * A, True) short_wait (defer_step f) (ms 200) timeout [] s
    ltac:(done) Hw) as Hp.
  unfold mbind, M_bind. destruct (poll _ _ _ _ _ s) as [r s1].
  destruct Hp as (_&_&Hsent&_); [|done|done|].
  { intros R ? d p Hp. by apply defer_step_runs; [|apply Ht|intros; eapply HE]. }
  destruct Hc as (Hok&Hfr&Hc). destruct r as [[ps|[ps a]]|e|]; [| |done|done].
  - destruct Hc as (Hr&_&_).
    destruct (restore_ok s ps ps s1 Hs Hr Hsent (ex_intro _ [] (eq_sym (app_nil_r ps))))
      as (?&?&?&wire&E&Hp). split_and!; [done..|]. exists wire. cbn. by rewrite E.
  - destruct Hc as (p&Hr&Hf&Hp).
    destruct (restore_ok s (ps ++ [p]) ps s1 Hs Hr Hsent (ex_intro _ [p] eq_refl))
      as (?&?&?&wire&E&Hp'). split_and!; [done..|]. exists wire. cbn.
    exists ps, p, (pending (snd s1)). by rewrite E, <- app_assoc.
Qed.

Lemma match_subevent_ok subevent handle off predicate p :
  ∃ r, match_subevent subevent handle off predicate p = Ok r ∧
    ∀ b, r = Some b → b = body p ∧ is_event EVT_LE_META p = true ∧
      head b = Some subevent ∧ predicate b = true.
Proof.
  unfold match_subevent. destruct (is_event EVT_LE_META p) eqn:He; [|by exists None].
  case_bool_decide as Hsub; [|by exists None]. cbn [andb].
  assert (Hres : ∀ m : bool, ∃ r, Ok (if m && predicate (body p) then Some (body p) else None) = Ok r ∧
    ∀ b, r = Some b → b = body p ∧ true = true ∧ head b = Some subevent ∧ predicate b = true).
  { intros m. eexists. split; [done|]. intros b. destruct m, (predicate (body p)) eqn:Hp; try done.
    by intros [= <-]. }
  destruct handle as [h|]; [|apply (Hres true)]. destruct off as [off|]; [|apply (Hres false)].
  destruct (Nat.ltb_spec (length (body p)) (off + 2)); [apply (Hres false)|].
  rewrite unpack_H_ok by (rewrite slice_length; lia). apply Hres.
Qed.

(** Waiting for an LE event loses and reorders nothing: what was queued and
    what was read stays queued in its order, less exactly the first packet that
    carries the event when one is returned; nothing is written. *)
Theorem wait_le_subevent_keeps_order (subevent : Z) (handle : option Z) (off : option nat)
    (predicate : bytes → bool) (timeout : Z) s :
  engine_ok s →
  let '(r, s') := wait_le_subevent subevent handle off predicate timeout s in
  engine_ok s' ∧ sent s' = sent s ∧
  match r with
  | Ok (Some b) => ∃ wire ps p rest,
      pending (snd s) ++ wire = ps ++ p :: rest ∧ pending (snd s') = ps ++ rest ∧
      b = body p ∧ is_event EVT_LE_META p = true ∧ head b = Some subevent ∧ predicate b = true ∧
      Forall (λ q, match_subevent subevent handle off predicate q = Ok None) ps
  | Ok None => ∃ wire, pending (snd s') = pending (snd s) ++ wire
  | Exc e => engine_exn e
  | Stuck => False
  end.
Proof.
  intros Hs. unfold wait_le_subevent. set (f := match_subevent _ _ _ _).
  pose proof (wait_for_cases f timeout s) as Hw. destruct (wait_for f timeout s) as [r s'].
  assert (Hf : ∀ p, ∃ r, f p = Ok r) by (intros p; destruct (match_subevent_ok subevent handle off predicate p) as (x&?&_); eauto).
  destruct Hw as (Hok&_&Hsent&Hr).
  - intros p. by destruct (Hf p) as [x ->].
  - intros p e _. by destruct (Hf p) as [x ->].
  - done.
  - split_and!; [done|done|]. destruct r as [[b|]|e|]; [| |done|done].
    + destruct Hr as (wire&ps&p&rest&E&E'&Hps&Hp). exists wire, ps, p, rest.
      destruct (match_subevent_ok subevent handle off predicate p) as (x&Ex&Hx).
      subst f. rewrite Ex in Hp. injection Hp as ->. destruct (Hx b eq_refl) as (?&?&?&?).
      by split_and!.
    + exact Hr.
Qed.
End waiting.

(** ** The procedures *)

(** The procedures on a connection, with the opcodes each may send. *)
Inductive procedure : Type :=
  | ReadRssi | ReadRemoteFeatures | SetDataLength | SetPhy (phy : Z) | RequestPeerSca
  | PowerControl | PathLossMonitor (timeout : Z).

Definition procedure_ops (p : procedure) : list Z :=
  match p with
  | ReadRssi => [OP_READ_RSSI]
  | ReadRemoteFeatures => [OP_LE_READ_REMOTE_FEATURES]
  | SetDataLength => [OP_LE_SET_DATA_LENGTH]
  | SetPhy _ => [OP_LE_SET_PHY; OP_LE_READ_PHY]
  | RequestPeerSca => [OP_LE_REQUEST_PEER_SCA]
  | PowerControl => [OP_LE_ENHANCED_READ_TX_POWER; OP_LE_SET_TX_POWER_REPORT_ENABLE;
                     OP_LE_READ_REMOTE_TX_POWER]
  | PathLossMonitor _ => [OP_LE_SET_PATH_LOSS_PARAMS; OP_LE_SET_PATH_LOSS_ENABLE]
  end.

Section procedures.
Context {T : Type} `{Tr : !Transport T} `{TL : !TransportLaws T}.

Definition run_procedure (p : procedure) (handle : Z) : M (dev (T:=T)) unit :=
  match p with
  | ReadRssi => read_rssi handle ;; skip
  | ReadRemoteFeatures => read_remote_features handle ;; skip
  | SetDataLength => set_data_length handle ;; skip
  | SetPhy phy => set_phy handle phy
  | RequestPeerSca => request_peer_sca handle ;; skip
  | PowerControl => power_control handle
  | PathLossMonitor timeout => path_loss_monitor handle timeout ;; skip
  end.

Definition only (ops : list Z) (pkt : bytes) : Prop :=
  ∃ op payload, op ∈ ops ∧ pkt = command_packet op payload.

Section contained.
Context (ops : list Z).
Abbreviation safe := (runs engine_ok (trace_frame (T:=T) (only ops)) engine_exn).

Lemma lift_within {A} (r : res A) :
  r ≠ Stuck → (∀ e, r = Exc e → e = StructError ∨ e = IndexError) → safe (lift r).
Proof.
  intros Hs He. apply runs_lift; [apply _|done|]. intros e E. right. by apply He.
Qed.

Lemma lift_idx_safe (l : bytes) i : safe (lift (idx l i)).
Proof. apply lift_idx_runs, _. Qed.

Lemma lift_unpack_b_safe bs : safe (lift (unpack_b bs)).
Proof.
  unfold unpack_b. apply lift_within; repeat case_match; try done; intros e [= <-]; by left.
Qed.

Lemma tell_safe op fields : op ∈ ops → safe (tell op fields).
Proof.
  intros Hop. unfold tell. apply runs_bind; [apply _| |intros payload].
  - apply lift_within; [apply pack_not_stuck|]. intros e E. left. by eapply pack_struct_error.
  - apply command_trace. by exists op, payload.
Qed.

Lemma wait_safe subevent handle off predicate timeout :
  safe (wait_le_subevent subevent handle off predicate timeout).
Proof.
  intros s Hs. pose proof (wait_for_cases (match_subevent subevent handle off predicate) timeout s) as H.
  unfold wait_le_subevent. destruct (wait_for _ timeout s) as [r s'].
  assert (Hf : ∀ p, ∃ r, match_subevent subevent handle off predicate p = Ok r)
    by (intros p; destruct (match_subevent_ok subevent handle off predicate p) as (x&?&_); eauto).
  destruct H as (?&?&?&Hr); [intros p; by destruct (Hf p) as [x ->]
    |intros p e _; by destruct (Hf p) as [x ->]|done|].
  cbn. split_and!; try done.
  - split; [done|by apply wrote_nothing].
  - by intros e ->.
  - by intros ->.
Qed.

Ltac step :=
  lazymatch goal with
  | |- runs _ _ _ (tell _ _) => apply tell_safe
  | |- runs _ _ _ (wait_le_subevent _ _ _ _ _) => apply wait_safe
  | |- runs _ _ _ (check_status _ _) => unfold check_status
  | |- runs _ _ _ (need_event _ _) => unfold need_event
  | |- runs _ _ _ (lift (unpack_H _)) => apply unpack_H_runs, _
  | |- runs _ _ _ (lift (unpack_b _)) => apply lift_unpack_b_safe
  | |- runs _ _ _ (lift (idx _ _)) => apply lift_idx_safe
  | |- runs _ _ _ (raise _) => apply runs_raise; [apply _|by left]
  | |- runs _ _ _ (mret _) => apply runs_ret, _
  | |- runs _ _ _ skip => apply runs_skip, _
  | |- runs _ _ _ (mbind _ _) => apply runs_bind; [apply _| |intros ?]
  | |- runs _ _ _ (when _ _) => apply runs_when; [apply _|intros ?]
  | |- runs _ _ _ (if ?b then _ else _) => destruct b
  | |- runs _ _ _ (match ?x with _ => _ end) => destruct x
  end.

Lemma run_procedure_safe p handle :
  (∀ op, op ∈ procedure_ops p → op ∈ ops) → safe (run_procedure p handle).
Proof.
  intros Hops. destruct p; cbn [run_procedure procedure_ops] in *;
    unfold read_rssi, read_remote_features, set_data_length, set_phy, request_peer_sca,
      power_control, path_loss_monitor; repeat step;
    apply Hops, list_elem_of_In; cbn [In]; auto.
Qed.
End contained.

(** Every procedure on a connection ends whatever the controller answers,
    raises nothing but the engine's exceptions, and writes no command but its
    own. *)
Theorem procedures_contained (p : procedure) (handle : Z) (s : dev (T:=T)) :
  engine_ok s →
  let '(r, s') := run_procedure p handle s in
  engine_ok s' ∧ r ≠ Stuck ∧ (∀ e, r = Exc e → engine_exn e) ∧
  ∃ ps, sent s' = sent s ++ ps ∧
    Forall (λ pkt, ∃ op payload, op ∈ procedure_ops p ∧ pkt = command_packet op payload) ps.
Proof.
  intros Hs. destruct (run_procedure_safe (procedure_ops p) p handle (λ _ H, H) s Hs)
    as (Hok&[_ Hw]&He&Hst).
  destruct (run_procedure p handle s) as [r s']. by split_and!.
Qed.

(** A procedure that returned has seen what it reports. *)
Lemma wait_found subevent handle off predicate timeout s b s' :
  engine_ok s →
  wait_le_subevent (T:=T) subevent (Some handle) (Some off) predicate timeout s = (Ok (Some b), s') →
  engine_ok s' ∧ sent s' = sent s ∧ head b = Some subevent ∧ predicate b = true.
Proof.
  intros Hs E.
  pose proof (wait_for_cases (match_subevent subevent (Some handle) (Some off) predicate) timeout s) as H.
  unfold wait_le_subevent in E. rewrite E in H.
  assert (Hf : ∀ p, ∃ r, match_subevent subevent (Some handle) (Some off) predicate p = Ok r)
    by (intros p; destruct (match_subevent_ok subevent (Some handle) (Some off) predicate p) as (x&?&_); eauto).
  destruct H as (?&_&?&wire&Hk); [intros p; by destruct (Hf p) as [x ->]
    |intros p e _; by destruct (Hf p) as [x ->]|done|].
  destruct Hk as (ps&p&rest&_&_&_&Hp).
  destruct (match_subevent_ok subevent (Some handle) (Some off) predicate p) as (x&Ex&Hx).
  rewrite Ex in Hp. injection Hp as ->. destruct (Hx b eq_refl) as (?&?&?&?). by split_and!.
Qed.
End procedures.

(** ** Concrete runs *)

(** A PHY update among other events, behind an unrelated packet. *)
Definition phy_event (phy : Z) : packet :=
  Pkt H4_EVENT (Some EVT_LE_META) [LE_PHY_UPDATE_COMPLETE; 0; 0x40; 0; phy; phy].
Definition phy_dev : dev (T:=SerialH4.state) :=
  serial_dev [reset_packet; phy_event 1; phy_event 2; stray_packet] [].

Lemma wait_le_subevent_keeps_order_witness :
  let '(r, s') := wait_le_subevent LE_PHY_UPDATE_COMPLETE (Some 0x40) (Some 2%nat)
                    (phy_expected 2) (seconds 5) phy_dev in
  r = Ok (Some (body (phy_event 2))) ∧ sent s' = [] ∧
  pending (snd s') = [reset_packet; phy_event 1; stray_packet].
Proof.
  pose proof (wait_le_subevent_keeps_order LE_PHY_UPDATE_COMPLETE (Some 0x40) (Some 2%nat)
    (phy_expected 2) (seconds 5) phy_dev (serial_dev_ok phy_dev eq_refl)) as H.
  assert (E : let '(r, s') := wait_le_subevent LE_PHY_UPDATE_COMPLETE (Some 0x40) (Some 2%nat)
                    (phy_expected 2) (seconds 5) phy_dev in
    r = Ok (Some (body (phy_event 2))) ∧ pending (snd s') = [reset_packet; phy_event 1; stray_packet])
    by (vm_compute; by split).
  destruct (wait_le_subevent _ _ _ _ _ _) as [r s']. destruct E as [-> E].
  destruct H as (_&Hs&_). split; [done|]. split; [exact Hs|exact E].
Defined.

Lemma procedures_contained_witness :
  let '(r, s') := run_procedure (SetPhy 2) 0x40 phy_dev in
  r ≠ Stuck ∧ ∃ ps, sent s' = ps ∧
    Forall (λ pkt, ∃ op payload, op ∈ [OP_LE_SET_PHY; OP_LE_READ_PHY] ∧
                     pkt = command_packet op payload) ps.
Proof.
  pose proof (procedures_contained (SetPhy 2) 0x40 phy_dev (serial_dev_ok phy_dev eq_refl)) as H.
  destruct (run_procedure _ _ _). destruct H as (_&?&_&?). by split.
Defined.
