(* ===== verification/Periodic.v ===== *)
(** * Periodic: periodic advertising, synchronization and responses
    (periodic_features.py, the procedures on one controller)

    Setting an extended advertising set and its periodic train up and taking
    them down, finding the advertiser in the scanner's reports, creating a
    sync and waiting for its events, and the subevent and response commands of
    PAwR. The service thread of PAwR and the two-controller phases are not
    here. Where a waiting loop acts and returns on a packet, the loop returns
    what it found and the action follows it. *)

From S2P Require Export Connected.
#[local] Open Scope Z_scope.

Definition OP_LE_SET_ADV_SET_RANDOM_ADDRESS : Z := 0x2035.
Definition OP_LE_SET_EXT_ADV_PARAMS : Z := 0x2036.
Definition OP_LE_SET_EXT_ADV_DATA : Z := 0x2037.
Definition OP_LE_SET_EXT_ADV_ENABLE : Z := 0x2039.
Definition OP_LE_SET_PERIODIC_ADV_PARAMS : Z := 0x203E.
Definition OP_LE_SET_PERIODIC_ADV_DATA : Z := 0x203F.
Definition OP_LE_SET_PERIODIC_ADV_ENABLE : Z := 0x2040.
Definition OP_LE_SET_EXT_SCAN_PARAMS : Z := 0x2041.
Definition OP_LE_SET_EXT_SCAN_ENABLE : Z := 0x2042.
Definition OP_LE_EXT_CREATE_CONNECTION : Z := 0x2043.
Definition OP_LE_PERIODIC_CREATE_SYNC : Z := 0x2044.
Definition OP_LE_PERIODIC_CREATE_SYNC_CANCEL : Z := 0x2045.
Definition OP_LE_PERIODIC_TERMINATE_SYNC : Z := 0x2046.
Definition OP_LE_SET_PERIODIC_ADV_SUBEVENT_DATA : Z := 0x2082.
Definition OP_LE_SET_PERIODIC_ADV_RESPONSE_DATA : Z := 0x2083.
Definition OP_LE_SET_PERIODIC_SYNC_SUBEVENT : Z := 0x2084.
Definition OP_LE_SET_PERIODIC_ADV_PARAMS_V2 : Z := 0x2086.

Definition LE_PERIODIC_SYNC_ESTABLISHED : Z := 0x0E.
Definition LE_PERIODIC_ADV_REPORT : Z := 0x0F.
Definition LE_PAST_RECEIVED : Z := 0x18.
Definition LE_PERIODIC_SYNC_ESTABLISHED_V2 : Z := 0x24.
Definition LE_PERIODIC_ADV_REPORT_V2 : Z := 0x25.
Definition LE_PAST_RECEIVED_V2 : Z := 0x26.
Definition LE_PERIODIC_ADV_SUBEVENT_DATA_REQUEST : Z := 0x27.
Definition LE_PERIODIC_ADV_RESPONSE_REPORT : Z := 0x28.

Definition ADV_HANDLE_PERIODIC : Z := 0.
Definition ADV_SID_PERIODIC : Z := 0.
(** b"HCI periodic OTA", b"HCI periodic source". *)
Definition PERIODIC_MARKER : bytes :=
  [72; 67; 73; 32; 112; 101; 114; 105; 111; 100; 105; 99; 32; 79; 84; 65].
Definition EXT_ADV_DISCOVERY_MARKER : bytes :=
  [72; 67; 73; 32; 112; 101; 114; 105; 111; 100; 105; 99; 32; 115; 111; 117; 114; 99; 101].
Definition EXT_ADV_DISCOVERY_DATA : bytes :=
  [0x02; 0x01; 0x06] ++ [blen EXT_ADV_DISCOVERY_MARKER + 1; 0x09] ++ EXT_ADV_DISCOVERY_MARKER.
Definition PAWR_NUM_SUBEVENTS : Z := 2.
Definition PAWR_INTERVAL_UNITS : Z := 0x00FF.
(** b"HCI PAwR subevent", b"HCI PAwR response". *)
Definition PAWR_SUBEVENT_MARKER : bytes :=
  [72; 67; 73; 32; 80; 65; 119; 82; 32; 115; 117; 98; 101; 118; 101; 110; 116].
Definition PAWR_RESPONSE_MARKER : bytes :=
  [72; 67; 73; 32; 80; 65; 119; 82; 32; 114; 101; 115; 112; 111; 110; 115; 101].

(** [marker in data], for bytes. *)
Fixpoint contains (marker data : bytes) : bool :=
  bool_decide (take (length marker) data = marker)
  || match data with [] => false | _ :: data' => contains marker data' end.

Definition u24 (value : Z) : bytes :=
  [Z.land value 0xFF; Z.land (Z.shiftr value 8) 0xFF; Z.land (Z.shiftr value 16) 0xFF].

(** One extended advertising report: address type, address, SID, periodic
    interval, data. *)
Record report : Type := Report {
  r_addr_type : Z; r_addr : bytes; r_sid : Z; r_interval : Z; r_data : bytes }.

Fixpoint reports_from (n : nat) (body : bytes) (at_ : nat) : res (list report) :=
  match n with
  | O => Ok []
  | S n' =>
      if (length body <? at_ + 24)%nat then Ok []
      else
        addr_type ← idx body (at_ + 2);
        sid ← idx body (at_ + 11);
        interval ← unpack_H (slice (at_ + 14) (at_ + 16) body);
        data_len ← idx body (at_ + 23);
        let next := (at_ + 24 + Z.to_nat data_len)%nat in
        if (length body <? next)%nat then Ok []
        else
          rest ← reports_from n' body next;
          Ok (Report addr_type (slice (at_ + 3) (at_ + 9) body) sid interval
                (slice (at_ + 24) next body) :: rest)
  end.

Definition extended_reports (body : bytes) : res (list report) :=
  match body with
  | sub :: n :: _ =>
      if negb (sub =? LE_EXTENDED_ADVERTISING_REPORT) then Ok []
      else reports_from (Z.to_nat n) body 2
  | _ => Ok []
  end.

Definition periodic_source_matches (r : report) (addr : bytes) (addr_type sid : Z) : bool :=
  (r_addr_type r =? addr_type) && bool_decide (r_addr r = addr) && (r_sid r =? sid)
  && negb (r_interval r =? 0) && contains EXT_ADV_DISCOVERY_MARKER (r_data r).

Definition is_sync_subevent (body : bytes) : bool :=
  match body with
  | sub :: _ => (sub =? LE_PERIODIC_SYNC_ESTABLISHED) || (sub =? LE_PERIODIC_SYNC_ESTABLISHED_V2)
  | [] => false
  end.

Definition is_sync_established_packet (p : packet) : bool :=
  is_event EVT_LE_META p && is_sync_subevent (body p).

(** (address type, address, SID). *)
Definition sync_established_source (body : bytes) : res (option (Z * bytes * Z)) :=
  if (length body <? 12)%nat || negb (is_sync_subevent body) then Ok None
  else
    addr_type ← idx body 5; sid ← idx body 4;
    Ok (Some (addr_type, slice 6 12 body, sid)).

(** (sync handle, event counter, subevent, data); the legacy report carries no
    counter and no subevent. *)
Definition periodic_report_data (body : bytes) : res (option (Z * option Z * option Z * bytes)) :=
  match body with
  | [] => Ok None
  | sub :: _ =>
      if sub =? LE_PERIODIC_ADV_REPORT then
        if (length body <? 8)%nat then Ok None
        else
          raw ← unpack_H (slice 1 3 body);
          len ← idx body 7;
          let next := (8 + Z.to_nat len)%nat in
          if (length body <? next)%nat then Ok None
          else Ok (Some (mask12 raw, None, None, slice 8 next body))
      else if sub =? LE_PERIODIC_ADV_REPORT_V2 then
        if (length body <? 11)%nat then Ok None
        else
          raw ← unpack_H (slice 1 3 body);
          counter ← unpack_H (slice 6 8 body);
          subevent ← idx body 8;
          len ← idx body 10;
          let next := (11 + Z.to_nat len)%nat in
          if (length body <? next)%nat then Ok None
          else Ok (Some (mask12 raw, Some counter, Some subevent, slice 11 next body))
      else Ok None
  end.

(** The responses of a response report, in turn, until one holds the marker;
    [false] when they run out or are cut short. *)
Fixpoint response_scan (n : nat) (body : bytes) (at_ : nat) (marker : bytes) : res bool :=
  match n with
  | O => Ok false
  | S n' =>
      if (length body <? at_ + 6)%nat then Ok false
      else
        data_len ← idx body (at_ + 5);
        let next := (at_ + 6 + Z.to_nat data_len)%nat in
        if (length body <? next)%nat then Ok false
        else if contains marker (slice (at_ + 6) next body) then Ok true
        else response_scan n' body next marker
  end.

Definition is_response_report (body : bytes) : bool :=
  (5 <=? length body)%nat && bool_decide (head body = Some LE_PERIODIC_ADV_RESPONSE_REPORT).

Definition pawr_response_has_marker (body marker : bytes) : res bool :=
  if negb (is_response_report body) || negb (bool_decide (body !! 1%nat = Some ADV_HANDLE_PERIODIC))
  then Ok false
  else n ← idx body 4; response_scan (Z.to_nat n) body 5 marker.

Section periodic.
Context {T : Type} `{!Transport T}.
Abbreviation D := (M (dev (T:=T))).

Definition command_ok (opcode : Z) (payload : bytes) (name : string) : D bytes :=
  r ← Hci.command opcode payload true;
  check_status name (fst r) ;;
  mret (snd r).

(** A clean-up command: [try: hci.command(..., allow_fail=True) except
    (HciError, HciGone): pass]. *)
Definition try_command (opcode : Z) (payload : bytes) : D unit :=
  try_except is_hci_error (Hci.command opcode payload true ;; skip) (λ _, skip).

Definition pawr_diag_counters : D (option (list Z)) :=
  r ← Hci.command OP_VS_READ_COUNTERS [] true;
  let '(status, data) := (r : Z * bytes) in
  if negb (status =? 0) || (length data <? 1 + 38 * 4)%nat
     || bool_decide (default 0 (head data) < 5) then mret None
  else
    let word i := unpack_I (slice (1 + i * 4) (1 + i * 4 + 4) data) in
    a ← lift (word 34%nat); b ← lift (word 35%nat);
    c ← lift (word 36%nat); d ← lift (word 37%nat);
    mret (Some [a; b; c; d]).

Definition ext_adv_params (handle own_addr_type properties sid : Z) : res bytes :=
  h ← mkbytes [handle];
  p ← pack [FH properties];
  t ← mkbytes [0x07; own_addr_type; 0x00];
  s ← mkbytes [0x00; 0x7F; 0x01; 0x00; 0x01; sid; 0x00];
  let payload := h ++ p ++ u24 0x00A0 ++ u24 0x00A0 ++ t ++ zeros 6 ++ s in
  if negb (length payload =? 25)%nat
  then Exc (AssertionError (Lit "extended advertising parameter length"))
  else Ok payload.

Definition configure_ext_set (handle own_addr_type properties sid : Z) (data : bytes) : D unit :=
  params ← lift (ext_adv_params handle own_addr_type properties sid);
  command_ok OP_LE_SET_EXT_ADV_PARAMS params "LE Set Extended Advertising Parameters" ;;
  when (own_addr_type =? 0x01)
    (id ← Hci.identity None;
     let '(own_addr, identity_type, _) := (id : bytes * Z * id_source) in
     if negb (identity_type =? 0x01) || negb (length own_addr =? 6)%nat
     then raise (HciError (Lit "no usable random identity for extended advertising set"))
     else
       h ← lift (mkbytes [handle]);
       command_ok OP_LE_SET_ADV_SET_RANDOM_ADDRESS (h ++ own_addr)
         "LE Set Advertising Set Random Address" ;; skip) ;;
  match data with
  | [] => skip
  | _ =>
      if (251 <? length data)%nat
      then raise (HciError (Lit "extended advertising marker too large"))
      else
        h ← lift (mkbytes [handle; 0x03; 0x01; blen data]);
        command_ok OP_LE_SET_EXT_ADV_DATA (h ++ data) "LE Set Extended Advertising Data" ;; skip
  end.

Definition ext_adv_enable (handle : Z) (enable : bool) : D unit :=
  payload ← lift (if enable
                  then h ← mkbytes [1; 1; handle]; d ← pack [FH 0]; Ok (h ++ d ++ [0])
                  else Ok [0; 0]);
  command_ok OP_LE_SET_EXT_ADV_ENABLE payload "LE Set Extended Advertising Enable" ;; skip.

Definition configure_periodic (own_addr_type : Z) (marker : bytes) : D unit :=
  configure_ext_set ADV_HANDLE_PERIODIC own_addr_type 0x0000 ADV_SID_PERIODIC
    EXT_ADV_DISCOVERY_DATA ;;
  params ← lift (pack [FB ADV_HANDLE_PERIODIC; FH 0x0060; FH 0x0060; FH 0]);
  command_ok OP_LE_SET_PERIODIC_ADV_PARAMS params "LE Set Periodic Advertising Parameters" ;;
  head ← lift (mkbytes [ADV_HANDLE_PERIODIC; 0x03; blen marker]);
  command_ok OP_LE_SET_PERIODIC_ADV_DATA (head ++ marker) "LE Set Periodic Advertising Data" ;;
  skip.

Definition start_periodic : D unit :=
  ext_adv_enable ADV_HANDLE_PERIODIC true ;;
  command_ok OP_LE_SET_PERIODIC_ADV_ENABLE [1; ADV_HANDLE_PERIODIC]
    "LE Set Periodic Advertising Enable" ;; skip.

Definition stop_periodic : D unit :=
  try_command OP_LE_SET_PERIODIC_ADV_ENABLE [0; ADV_HANDLE_PERIODIC] ;;
  try_command OP_LE_SET_EXT_ADV_ENABLE [0; 0].

Definition set_sync_scan (enable allow_fail : bool) : D unit :=
  tail ← lift (pack [FH 0; FH 0]);
  let payload := [if enable then 0x01 else 0x00; 0x00] ++ tail in
  if allow_fail then try_command OP_LE_SET_EXT_SCAN_ENABLE payload
  else command_ok OP_LE_SET_EXT_SCAN_ENABLE payload "LE Set Extended Scan Enable" ;; skip.

Definition cancel_pending_periodic_sync : D unit :=
  try_command OP_LE_PERIODIC_CREATE_SYNC_CANCEL [].

Definition start_periodic_source_scan : D unit :=
  id ← Hci.identity None;
  let '(_, own_addr_type, _) := (id : bytes * Z * id_source) in
  h ← lift (mkbytes [own_addr_type; 0x00; 0x01; 0x00]);
  t ← lift (pack [FH 0x0060; FH 0x0030]);
  command_ok OP_LE_SET_EXT_SCAN_PARAMS (h ++ t) "LE Set Extended Scan Parameters" ;;
  set_sync_scan true false.

(** One turn of a loop that keeps some packets for later ([deferred.append]),
    drops others ([continue]) and ends on one. *)
Inductive verdict (A : Type) : Type := Keep | Drop | Take (a : A).
#[global] Arguments Keep {A}.
#[global] Arguments Drop {A}.
#[global] Arguments Take {A} a.

Definition sift_step {A} (f : packet → res (verdict A)) (deferred : list packet) (p : packet)
  : D (list packet + (list packet * A)) :=
  v ← lift (f p);
  mret match v with
       | Keep => inl (deferred ++ [p])
       | Drop => inl deferred
       | Take a => inr (deferred, a)
       end.

(** The first report of an event that names the awaited source. *)
Definition observe_step (addr : bytes) (addr_type sid : Z) (_ : unit) (p : packet)
  : D (unit + report) :=
  if negb (is_event EVT_LE_META p) then mret (inl tt)
  else
    reports ← lift (extended_reports (body p));
    match List.find (λ r, periodic_source_matches r addr addr_type sid) reports with
    | Some r => mret (inr r)
    | None => mret (inl tt)
    end.

Definition observe_periodic_advertiser (addr : bytes) (addr_type sid timeout : Z)
    (scan_started : bool) : D report :=
  when (negb scan_started) start_periodic_source_scan ;;
  r ← poll short_wait (observe_step addr addr_type sid) (ms 200) timeout tt;
  match r with
  | inr rep => mret rep
  | inl _ =>
      set_sync_scan false true ;;
      raise (HciError (Lit "expected periodic source extended advertisement with SyncInfo was not observed"))
  end.

(** [_discard_pre_create_sync_events]. *)
Definition discard_pre_create_sync_events : D unit :=
  on_hci (modify (λ h, set_pending
    (filter (λ p, is_sync_established_packet p = false) (pending h)) h)).

Definition create_periodic_sync (addr : bytes) (addr_type sid : Z) (scan_started : bool)
  : D (Z * bytes * Z) :=
  rep ← observe_periodic_advertiser addr addr_type sid (seconds 5) scan_started;
  h ← lift (mkbytes [0; r_sid rep; r_addr_type rep]);
  t ← lift (pack [FH 0; FH 0x0200; FB 0]);
  r ← Hci.command OP_LE_PERIODIC_CREATE_SYNC (h ++ r_addr rep ++ t) true;
  discard_pre_create_sync_events ;;
  if negb (fst r =? 0) then
    set_sync_scan false true ;;
    raise (HciError (Fmt "LE Periodic Advertising Create Sync returned %s" (status_text (fst r))))
  else mret (r_addr_type rep, r_addr rep, r_sid rep).

(** How the wait for a sync ends on a packet. *)
Inductive sync_outcome : Type :=
  | SyncMalformed | SyncRefused (status : Z) | SyncEstablished (handle : Z) (body : bytes).

(** The sync events of other advertisers, and of the older layout where the
    newer is required, are dropped. *)
Definition sync_verdict (expected_source : option (Z * bytes * Z)) (require_v2 : bool)
    (p : packet) : res (verdict sync_outcome) :=
  if negb (is_sync_established_packet p) then Ok Keep
  else
    source ← sync_established_source (body p);
    match source with
    | None => Ok (Take SyncMalformed)
    | Some source =>
        if bool_decide (expected_source ≠ None ∧ expected_source ≠ Some source) then Ok Drop
        else if require_v2 && negb (bool_decide (head (body p) = Some LE_PERIODIC_SYNC_ESTABLISHED_V2))
        then Ok Drop
        else
          status ← idx (body p) 1;
          if negb (status =? 0) then Ok (Take (SyncRefused status))
          else
            raw ← unpack_H (slice 2 4 (body p));
            Ok (Take (SyncEstablished (mask12 raw) (body p)))
    end.

Definition wait_sync_established (expected_source : option (Z * bytes * Z)) (timeout : Z)
    (require_v2 keep_scan : bool) : D (Z * bytes) :=
  r ← poll short_wait (sift_step (sync_verdict expected_source require_v2)) (ms 200) timeout [];
  match r with
  | inr (deferred, SyncMalformed) =>
      restore deferred ;; raise (HciError (Lit "malformed Periodic Sync Established event"))
  | inr (deferred, SyncRefused status) =>
      set_sync_scan false true ;; restore deferred ;;
      raise (HciError (Fmt "Periodic Sync Established returned %s" (status_text status)))
  | inr (deferred, SyncEstablished handle b) =>
      when (negb keep_scan) (set_sync_scan false true) ;;
      restore deferred ;; mret (handle, b)
  | inl deferred =>
      cancel_pending_periodic_sync ;; set_sync_scan false true ;; restore deferred ;;
      raise (HciError (Lit "timed out waiting for Periodic Advertising Sync Established"))
  end.

(** The periodic report of [sync_handle] that holds the marker. *)
Definition match_report (sync_handle : Z) (marker : bytes) (require_v2 : bool) (p : packet)
  : res (option (Z * option Z * option Z * bytes)) :=
  if negb (is_event EVT_LE_META p) then Ok None
  else
    parsed ← periodic_report_data (body p);
    Ok match parsed with
       | Some (handle, counter, subevent, data) =>
           if negb (handle =? sync_handle) then None
           else if require_v2 && negb (bool_decide (head (body p) = Some LE_PERIODIC_ADV_REPORT_V2))
           then None
           else if contains marker data then parsed else None
       | None => None
       end.

Definition wait_periodic_report (sync_handle : Z) (marker : bytes) (timeout : Z) (require_v2 : bool)
  : D (Z * option Z * option Z * bytes) :=
  r ← wait_for (match_report sync_handle marker require_v2) timeout;
  match r with
  | Some parsed => mret parsed
  | None => raise (HciError (Lit "timed out waiting for periodic advertising marker"))
  end.

Definition terminate_sync (handle : Z) : D unit :=
  try_except is_hci_error
    (payload ← lift (pack [FH handle]);
     Hci.command OP_LE_PERIODIC_TERMINATE_SYNC payload true ;; skip)
    (λ _, skip).

Definition start_extended_connection (central_type : Z) (peer_addr : bytes) (peer_type : Z) : D unit :=
  h ← lift (mkbytes [0; central_type; peer_type]);
  t ← lift (pack [FH 0x0060; FH 0x0030; FH 0x0018; FH 0x0028; FH 0; FH 400; FH 0; FH 0]);
  let payload := h ++ peer_addr ++ [0x01] ++ t in
  if negb (length payload =? 26)%nat
  then raise (AssertionError (Lit "extended create connection parameter length"))
  else
    r ← Hci.command OP_LE_EXT_CREATE_CONNECTION payload true;
    check_status "LE Extended Create Connection" (fst r).

(** The transfer event of the connection and service data: (status, sync
    handle). *)
Definition match_past (conn_handle service_data : Z) (p : packet) : res (option (Z * Z)) :=
  let is_past := match body p with
                 | sub :: _ => (sub =? LE_PAST_RECEIVED) || (sub =? LE_PAST_RECEIVED_V2)
                 | [] => false
                 end in
  if is_event EVT_LE_META p && (8 <=? length (body p))%nat && is_past then
    status ← idx (body p) 1;
    got_conn ← unpack_H (slice 2 4 (body p));
    got_service ← unpack_H (slice 4 6 (body p));
    sync_handle ← unpack_H (slice 6 8 (body p));
    Ok (if (mask12 got_conn =? conn_handle) && (got_service =? service_data)
        then Some (status, mask12 sync_handle) else None)
  else Ok None.

Definition wait_past_received (conn_handle service_data timeout : Z) : D Z :=
  r ← wait_for (match_past conn_handle service_data) timeout;
  match r with
  | Some (status, sync_handle) => check_status "PAST Received" status ;; mret sync_handle
  | None => raise (HciError
      (Lit "timed out waiting for LE Periodic Advertising Sync Transfer Received"))
  end.

(** *** PAwR *)

Definition configure_pawr (own_addr_type : Z) : D unit :=
  configure_ext_set ADV_HANDLE_PERIODIC own_addr_type 0x0000 ADV_SID_PERIODIC
    EXT_ADV_DISCOVERY_DATA ;;
  payload ← lift (pack [FB ADV_HANDLE_PERIODIC; FH PAWR_INTERVAL_UNITS; FH PAWR_INTERVAL_UNITS;
    FH 0; FB PAWR_NUM_SUBEVENTS; FB 0x60; FB 0x40; FB 0x50; FB 1]);
  command_ok OP_LE_SET_PERIODIC_ADV_PARAMS_V2 payload
    "LE Set Periodic Advertising Parameters v2" ;; skip.

Definition is_data_request (event : bytes) : bool :=
  (4 <=? length event)%nat && bool_decide (event !! 1%nat = Some ADV_HANDLE_PERIODIC)
  && (0 <? default 0 (event !! 3%nat)).

Definition wait_pawr_data_request (timeout : Z) : D (Z * Z) :=
  b ← wait_le_subevent LE_PERIODIC_ADV_SUBEVENT_DATA_REQUEST None None is_data_request timeout;
  body ← need_event "no LE Periodic Advertising Subevent Data Request event" b;
  start ← lift (idx body 2);
  count ← lift (idx body 3);
  mret (start, count).

(** The subevents a request for [count] from [start] on names, wrapping. *)
Definition requested_subevents (start count : Z) : list Z :=
  (λ offset, (start + Z.of_nat offset) mod PAWR_NUM_SUBEVENTS) <$> seq 0 (Z.to_nat count).

Definition subevent_element (subevent : Z) : bytes :=
  [subevent; 0; 1; blen PAWR_SUBEVENT_MARKER] ++ PAWR_SUBEVENT_MARKER.

Definition set_requested_pawr_subevent_data (start count : Z) : D Z :=
  if PAWR_NUM_SUBEVENTS <=? start
  then raise (HciError (Lit "PAwR data request start exceeds configured subevents"))
  else if (count <=? 0) || (PAWR_NUM_SUBEVENTS <? count)
  then raise (HciError (Lit "PAwR data request count exceeds configured subevents"))
  else
    h ← lift (mkbytes [ADV_HANDLE_PERIODIC; count]);
    let payload := h ++ concat (subevent_element <$> requested_subevents start count) in
    if 0xFF <? blen payload
    then raise (HciError (Lit "PAwR subevent data does not fit one HCI command"))
    else
      command_ok OP_LE_SET_PERIODIC_ADV_SUBEVENT_DATA payload
        "LE Set Periodic Advertising Subevent Data" ;;
      mret start.

(** [_discard_pre_pawr_sync_reports]. *)
Definition is_report_of (sync_handle : Z) (p : packet) : bool :=
  is_event EVT_LE_META p &&
  match periodic_report_data (body p) with
  | Ok (Some (handle, _, _, _)) => handle =? sync_handle
  | _ => false
  end.

Definition discard_pre_pawr_sync_reports (sync_handle : Z) : D unit :=
  on_hci (modify (λ h, set_pending
    (filter (λ p, is_report_of sync_handle p = false) (pending h)) h)).

Definition set_pawr_sync_subevent (sync_handle subevent : Z) : D unit :=
  h ← lift (pack [FH sync_handle; FH 0; FB 1]);
  t ← lift (mkbytes [subevent]);
  command_ok OP_LE_SET_PERIODIC_SYNC_SUBEVENT (h ++ t) "LE Set Periodic Sync Subevent" ;;
  discard_pre_pawr_sync_reports sync_handle.

(** Reports of the sync that are not the awaited one are dropped. *)
Definition pawr_report_verdict (sync_handle subevent : Z) (marker : bytes) (p : packet)
  : res (verdict (Z * option Z * option Z * bytes)) :=
  parsed ← (if is_event EVT_LE_META p then periodic_report_data (body p) else Ok None);
  Ok match parsed with
     | Some (handle, counter, got, data) =>
         if negb (handle =? sync_handle) then Keep
         else if negb (bool_decide (head (body p) = Some LE_PERIODIC_ADV_REPORT_V2))
                 || negb (bool_decide (got = Some subevent)) || negb (contains marker data)
         then Drop
         else Take (handle, counter, got, data)
     | None => Keep
     end.

Definition wait_pawr_periodic_report (sync_handle subevent : Z) (marker : bytes) (timeout : Z)
  : D (Z * option Z * option Z * bytes) :=
  r ← poll short_wait (sift_step (pawr_report_verdict sync_handle subevent marker)) (ms 200) timeout [];
  match r with
  | inr (deferred, parsed) => restore deferred ;; mret parsed
  | inl deferred =>
      restore deferred ;;
      raise (HciError (Lit "timed out waiting for selected PAwR periodic advertising marker"))
  end.

Definition set_pawr_response (sync_handle event_counter request_subevent response_subevent : Z)
  : D unit :=
  h ← lift (pack [FH sync_handle; FH event_counter; FB request_subevent; FB response_subevent;
                  FB 0; FB (blen PAWR_RESPONSE_MARKER)]);
  command_ok OP_LE_SET_PERIODIC_ADV_RESPONSE_DATA (h ++ PAWR_RESPONSE_MARKER)
    "LE Set Periodic Advertising Response Data" ;; skip.

Definition match_response (marker : bytes) (p : packet) : res (option unit) :=
  if is_event EVT_LE_META p && is_response_report (body p) then
    found ← pawr_response_has_marker (body p) marker;
    Ok (if (found : bool) then Some tt else None)
  else Ok None.

Definition wait_pawr_response_report (marker : bytes) (timeout : Z) : D unit :=
  r ← wait_for (match_response marker) timeout;
  match r with
  | Some _ => skip
  | None => raise (HciError (Lit "no PAwR response report containing the response marker"))
  end.

(** [_is_command_complete_for]. *)
Definition is_command_complete_for (opcode : Z) (p : packet) : bool :=
  is_event EVT_COMMAND_COMPLETE p && (3 <=? length (body p))%nat
  && (le_Z (slice 1 3 (body p)) =? opcode).

(** [(after[i] - before[i]) & 0xFFFFFFFF for i in range(4)]. *)
Definition counters_delta (before after : list Z) : list Z :=
  zip_with (λ b a, Z.land (a - b) 0xFFFFFFFF) before after.

(** [_verify_pawr_response_completion]. *)
Definition verify_pawr_response_completion (before after : option (list Z)) (expected_count : Z)
  : D unit :=
  let dup p := is_command_complete_for OP_LE_SET_PERIODIC_ADV_RESPONSE_DATA p in
  h ← gets snd;
  let duplicates := filter (λ p, dup p = true) (pending h) in
  on_hci (modify (λ h, set_pending (filter (λ p, dup p = false) (pending h)) h)) ;;
  let delta := match before, after with
               | Some b, Some a => Some (counters_delta b a) | _, _ => None end in
  match duplicates with
  | _ :: _ =>
      let extra := AInt (Z.of_nat (length duplicates)) in
      raise (HciError match delta with
        | None => Fmt "duplicate Command Complete for opcode 0x2083 (%u extra)" [extra]
        | Some d => Fmt "duplicate Command Complete for opcode 0x2083 (%u extra); PAwR counters candidate=%u handler=%u suppressed=%u sdc_complete=%u" (extra :: (AInt <$> d))
        end)
  | [] =>
      match delta with
      | Some d =>
          if negb (bool_decide (d = replicate 4 expected_count))
             && negb (bool_decide (d = replicate 4 0))
          then raise (HciError (Fmt "PAwR completion path mismatch after %u response command(s): candidate=%u handler=%u suppressed=%u sdc_complete=%u"
                 (AInt expected_count :: (AInt <$> d))))
          else skip
      | None => skip
      end
  end.
End periodic.
