(* ===== verification/PeriodicLaws.v ===== *)
(** * PeriodicLaws: what the periodic procedures guarantee

    The scanner's reports decode to what they encode; and a sync that is
    reported established is the one that was asked for: its event arrived
    after Create Sync was sent, names the requested advertiser, and carries
    success. *)

From stdpp Require Import sets.
From S2P Require Export Periodic.
#[local] Open Scope Z_scope.

(** ** Extended advertising reports *)

(** The report the scanner sends (Vol 4 Part E 7.7.65.13); [other] are the
    fields the harness does not read: event type, PHYs, TX power and RSSI,
    direct address. *)
Record other_fields : Type := Other {
  event_type : Z * Z; phys : Z * Z; power : Z * Z; direct : bytes }.

Definition encode_report (o : other_fields) (r : report) : bytes :=
  [fst (event_type o); snd (event_type o); r_addr_type r] ++ r_addr r
  ++ [fst (phys o); snd (phys o); r_sid r; fst (power o); snd (power o)]
  ++ le_bytes 2 (r_interval r) ++ direct o ++ [blen (r_data r)] ++ r_data r.

Definition report_ok (x : other_fields * report) : Prop :=
  length (r_addr (snd x)) = 6%nat ∧ length (direct (fst x)) = 7%nat ∧
  0 ≤ r_interval (snd x) < 65536.

Definition report_event (rs : list (other_fields * report)) : bytes :=
  [LE_EXTENDED_ADVERTISING_REPORT; Z.of_nat (length rs)]
  ++ concat ((λ x, encode_report (fst x) (snd x)) <$> rs).

Lemma idx_app {A} (pre post : list A) x n : n = length pre → idx (pre ++ x :: post) n = Ok x.
Proof. intros ->. unfold idx. by rewrite list_lookup_middle. Qed.

Lemma encode_report_eq o r :
  length (r_addr r) = 6%nat → length (direct o) = 7%nat →
  ∃ a0 a1 a2 a3 a4 a5 b0 b1 b2 b3 b4 b5 b6,
    r_addr r = [a0; a1; a2; a3; a4; a5] ∧
    encode_report o r =
      [fst (event_type o); snd (event_type o); r_addr_type r; a0; a1; a2; a3; a4; a5;
       fst (phys o); snd (phys o); r_sid r; fst (power o); snd (power o);
       r_interval r mod 256; (r_interval r / 256) mod 256; b0; b1; b2; b3; b4; b5; b6;
       blen (r_data r)] ++ r_data r.
Proof.
  intros Ha Hd. unfold encode_report. destruct r as [ty addr sid iv data], o as [et ph pw di].
  cbn [r_addr r_sid r_addr_type r_interval r_data event_type phys power direct] in *.
  repeat (destruct addr as [|? addr]; [done|]). destruct addr; [|done].
  repeat (destruct di as [|? di]; [done|]). destruct di; [|done].
  do 13 eexists. split; reflexivity.
Qed.

Lemma reports_from_encode rs pre rest n :
  Forall report_ok rs → n = length pre →
  reports_from (length rs) (pre ++ concat ((λ x, encode_report (fst x) (snd x)) <$> rs) ++ rest) n
  = Ok (snd <$> rs).
Proof.
  intros Hrs. revert pre n. induction Hrs as [|[o r] rs (Ha&Hd&Hi) _ IH]; intros pre n ->; [done|].
  cbn [fst snd] in Ha, Hd, Hi. cbn [fmap list_fmap concat length reports_from fst snd].
  destruct (encode_report_eq o r Ha Hd)
    as (a0&a1&a2&a3&a4&a5&b0&b1&b2&b3&b4&b5&b6&Haddr&->).
  set (tail := concat _). set (hdr := [fst (event_type o); _; _; _; _; _; _; _; _; _; _; _; _; _; _; _; _; _; _; _; _; _; _; _]).
  assert (Hbody : pre ++ ((hdr ++ r_data r) ++ tail) ++ rest
                  = (pre ++ hdr ++ r_data r) ++ tail ++ rest) by (by rewrite <- !app_assoc).
  rewrite Hbody. set (b := (pre ++ hdr ++ r_data r) ++ tail ++ rest).
  assert (Hlen : length b = (length pre + 24 + length (r_data r) + length (tail ++ rest))%nat)
    by (subst b; rewrite !length_app; cbn; lia).
  assert (Hat : ∀ k, (k < 24)%nat → b !! (length pre + k)%nat = hdr !! k).
  { intros k Hk. subst b. rewrite <- !app_assoc, lookup_app_r by lia.
    replace (length pre + k - length pre)%nat with k by lia. by rewrite lookup_app_l. }
  rewrite (proj2 (Nat.ltb_ge _ _)) by lia.
  unfold idx. rewrite !Hat by lia. cbn [lookup list_lookup hdr mbind res_bind].
  assert (Hsl : ∀ i j, (i ≤ j)%nat → (j ≤ 24)%nat →
    slice (length pre + i) (length pre + j) b = slice i j hdr).
  { intros i j Hij Hj. subst b. rewrite <- !app_assoc. unfold slice.
    rewrite drop_app_ge by lia. replace (length pre + i - length pre)%nat with i by lia.
    rewrite drop_app_le by (cbn; lia). replace (length pre + j - (length pre + i))%nat with (j - i)%nat by lia.
    apply take_app_le. rewrite length_drop. cbn. lia. }
  rewrite !Hsl by lia. change (slice 14 16 hdr) with (le_bytes 2 (r_interval r)).
  rewrite unpack_H_ok by done. cbn [mbind res_bind]. unfold blen. rewrite Nat2Z.id.
  rewrite (proj2 (Nat.ltb_ge _ _)) by lia.
  assert (Hdata : slice (length pre + 24) (length pre + 24 + length (r_data r)) b = r_data r).
  { subst b. rewrite app_assoc. unfold slice. rewrite <- !app_assoc, app_assoc.
    rewrite drop_app_length' by (rewrite length_app; cbn; lia).
    replace (_ - _)%nat with (length (r_data r)) by lia. apply take_app_length. }
  rewrite Hdata. subst b. rewrite (IH (pre ++ hdr ++ r_data r)) by (rewrite !length_app; cbn; lia).
  cbn [mbind res_bind]. do 2 f_equal. change (slice 3 9 hdr) with [a0; a1; a2; a3; a4; a5].
  rewrite <- Haddr, le_Z_le_bytes_small by (cbn; lia). by destruct r.
Qed.

Lemma reports_from_total n body at_ : ∃ rs, reports_from n body at_ = Ok rs ∧ (length rs <= n)%nat.
Proof.
  revert at_. induction n as [|n IH]; intros at_; cbn [reports_from]; [by exists []|].
  destruct (Nat.ltb_spec (length body) (at_ + 24)) as [|Hl]; [exists []; cbn; split; [done|lia]|].
  assert (Hidx : ∀ k, (k < 24)%nat → ∃ x, idx body (at_ + k) = Ok x).
  { intros k Hk. unfold idx. destruct (lookup_lt_is_Some_2 body (at_ + k)) as [x ->]; [lia|eauto]. }
  destruct (Hidx 2%nat) as [x2 ->]; [lia|]. destruct (Hidx 11%nat) as [x11 ->]; [lia|].
  cbn [mbind res_bind]. rewrite unpack_H_ok by (rewrite slice_length; lia). cbn [mbind res_bind].
  destruct (Hidx 23%nat) as [x23 ->]; [lia|]. cbn [mbind res_bind].
  destruct (_ <? _)%nat; [exists []; cbn; split; [done|lia]|].
  destruct (IH (at_ + 24 + Z.to_nat x23)%nat) as (rs&->&?). cbn [mbind res_bind].
  eexists. split; [done|]. cbn. lia.
Qed.

(** An Extended Advertising Report event decodes to the reports it carries,
    each with its address, SID, interval and data, octets behind them ignored;
    and no event body, however malformed, makes the decoder raise or report
    more than its count says. *)
Theorem extended_reports_roundtrip (rs : list (other_fields * report)) (rest body : bytes) :
  Forall report_ok rs →
  extended_reports (report_event rs ++ rest) = Ok (snd <$> rs) ∧
  ∃ got, extended_reports body = Ok got ∧
    (length got <= Z.to_nat (default 0%Z (body !! 1%nat)))%nat.
Proof.
  intros Hrs. split.
  - unfold extended_reports, report_event. rewrite <- app_assoc. cbn [app].
    rewrite Z.eqb_refl. cbn [negb]. rewrite Nat2Z.id.
    exact (reports_from_encode rs [LE_EXTENDED_ADVERTISING_REPORT; _] rest 2 Hrs eq_refl).
  - unfold extended_reports. destruct body as [|sub [|n body]]; [exists []; cbn; split; [done|lia]..|].
    destruct (negb _); [exists []; split; [done|cbn; lia]|]. cbn [lookup list_lookup default].
    apply reports_from_total.
Qed.

(** ** Sifting what is read *)

Definition is_keep {A} (v : res (verdict A)) : bool :=
  match v with Ok Keep => true | _ => false end.
Definition is_take {A} (v : res (verdict A)) : bool :=
  match v with Ok (Take _) => true | _ => false end.
Definition kept_of {A} (f : packet → res (verdict A)) (ps : list packet) : list packet :=
  filter (λ p, is_keep (f p) = true) ps.

Section sync.
Context {T : Type} `{Tr : !Transport T} `{TL : !TransportLaws T}.
Implicit Types s : dev (T:=T).

(** A sifting loop stops at the first packet its verdict takes, with the kept
    ones before it in order. *)
Lemma poll_loop_sift {A} (f : packet → res (verdict A)) wait fuel deadline d s r s' :
  poll_loop wait (sift_step (T:=T) f) fuel deadline d s = (r, s') →
  match r with
  | Ok (inr (d', a)) => ∃ ps p, d' = d ++ kept_of f ps ∧ reads s (ps ++ [p]) s' ∧
      Forall (λ q, is_take (f q) = false) ps ∧ f p = Ok (Take a)
  | Ok (inl d') => ∃ ps, d' = d ++ kept_of f ps ∧ reads s ps s'
  | _ => True
  end.
Proof.
  revert d s. induction fuel as [|fuel IH]; intros d s; [by intros [= <- <-]|].
  cbn [poll_loop]. unfold gets, sift_step, lift, mret, M_ret, mbind, M_bind; cbn.
  destruct (Z.leb_spec deadline (fst s)) as [Hd|Hd].
  { intros [= <- <-]. exists []. rewrite app_nil_r. split; [done|constructor]. }
  destruct (read_packet (wait (deadline - fst s)) s) as [[[p|]|e|] s1] eqn:Er;
    [| |by intros [= <- <-]|by intros [= <- <-]].
  - destruct (f p) as [v|e|] eqn:Ef; cbn; [|by intros [= <- <-]|by intros [= <- <-]].
    assert (Hnext : ∀ d1, is_take (f p) = false → d1 = d ++ kept_of f [p] →
      poll_loop wait (sift_step (T:=T) f) fuel deadline d1 s1 = (r, s') →
      match r with
      | Ok (inr (d', a)) => ∃ ps p, d' = d ++ kept_of f ps ∧ reads s (ps ++ [p]) s' ∧
          Forall (λ q, is_take (f q) = false) ps ∧ f p = Ok (Take a)
      | Ok (inl d') => ∃ ps, d' = d ++ kept_of f ps ∧ reads s ps s'
      | _ => True
      end).
    { intros d1 Ht -> Hl. specialize (IH _ s1 Hl).
      assert (Hcat : ∀ ps, (d ++ kept_of f [p]) ++ kept_of f ps = d ++ kept_of f (p :: ps))
        by (intros ps; rewrite <- app_assoc; unfold kept_of; by rewrite <- filter_app).
      destruct r as [[d'|[d' a]]|e|]; try done.
      - destruct IH as (ps&->&Hr). exists (p :: ps). rewrite Hcat. split; [done|by eapply reads_some].
      - destruct IH as (ps&q&->&Hr&Hf&Ha). exists (p :: ps), q. rewrite Hcat.
        split_and!; [done|by eapply reads_some|by constructor|done]. }
    destruct v as [| |a].
    + apply Hnext; [by rewrite Ef|]. unfold kept_of. by rewrite filter_cons_True by (by rewrite Ef).
    + apply Hnext; [by rewrite Ef|]. unfold kept_of.
      rewrite filter_cons_False by (by rewrite Ef). by rewrite app_nil_r.
    + intros [= <- <-]. exists [], p. rewrite app_nil_r.
      split_and!; [done| |done|done]. eapply reads_some; [done|constructor].
  - intros Hl. specialize (IH d s1 Hl). destruct r as [[d'|[d' a]]|e|]; try done.
    + destruct IH as (ps&->&Hr). exists ps. split; [done|by eapply reads_none].
    + destruct IH as (ps&p&->&Hr&?&?). exists ps, p. split_and!; try done. by eapply reads_none.
Qed.

(** *** What a Sync Established event says *)

Lemma sync_source_ok b : ∃ r, sync_established_source b = Ok r ∧
  ∀ src, r = Some src → (12 <= length b)%nat ∧ is_sync_subevent b = true.
Proof.
  unfold sync_established_source.
  destruct (Nat.ltb_spec (length b) 12) as [|Hl]; [by exists None|]. cbn [orb].
  destruct (is_sync_subevent b) eqn:Hsub; cbn [negb]; [|by exists None].
  unfold idx. destruct (lookup_lt_is_Some_2 b 5) as [x ->]; [lia|].
  destruct (lookup_lt_is_Some_2 b 4) as [y ->]; [lia|]. cbn. eexists. split; [done|]. by intros.
Qed.

Lemma sync_verdict_ok expected v2 p : ∃ v, sync_verdict expected v2 p = Ok v.
Proof.
  unfold sync_verdict. destruct (is_sync_established_packet p); cbn [negb]; [|eauto].
  destruct (sync_source_ok (body p)) as (r&->&Hr). cbn [mbind res_bind].
  destruct r as [src|]; [|eauto]. destruct (Hr src eq_refl) as [Hl _].
  case_bool_decide; [eauto|]. destruct (_ && _); [eauto|].
  unfold idx. destruct (lookup_lt_is_Some_2 (body p) 1) as [x ->]; [lia|]. cbn [mbind res_bind].
  destruct (negb _); [eauto|]. rewrite unpack_H_ok by (rewrite slice_length; lia). cbn. eauto.
Qed.

(** The packet a sync is established by. *)
Definition establishes (src : Z * bytes * Z) (v2 : bool) (handle : Z) (p : packet) : Prop :=
  is_sync_established_packet p = true ∧ sync_established_source (body p) = Ok (Some src) ∧
  body p !! 1%nat = Some 0 ∧ 0 ≤ handle < 4096 ∧
  (v2 = true → head (body p) = Some LE_PERIODIC_SYNC_ESTABLISHED_V2).

Lemma sync_verdict_established src v2 p handle b :
  sync_verdict (Some src) v2 p = Ok (Take (SyncEstablished handle b)) →
  b = body p ∧ establishes src v2 handle p.
Proof.
  unfold sync_verdict, establishes. destruct (is_sync_established_packet p); cbn [negb]; [|done].
  destruct (sync_source_ok (body p)) as (r&->&Hr). cbn [mbind res_bind].
  destruct r as [src'|]; [|done]. destruct (Hr src' eq_refl) as [Hl _].
  case_bool_decide as Hsrc; [done|].
  destruct v2; cbn [andb].
  1: case_bool_decide as Hv2; cbn [negb]; [|done].
  all: unfold idx; destruct (lookup_lt_is_Some_2 (body p) 1) as [x Ex]; [lia|]; rewrite Ex;
    cbn [mbind res_bind]; destruct (Z.eqb_spec x 0) as [->|]; cbn [negb]; [|done];
    rewrite unpack_H_ok by (rewrite slice_length; lia); cbn [mbind res_bind];
    intros [= <- <-]; (split; [done|]); split_and!; try done;
    try (rewrite mask12_spec; apply Z.mod_pos_bound; lia);
    destruct (decide (src' = src)) as [->|Hne]; try done;
    exfalso; apply Hsrc; by (split; [|intros [=]]).
Qed.

(** *** Containment *)

Definition sync_ops : list Z :=
  [OP_READ_BD_ADDR; OP_VS_READ_STATIC_ADDRESSES; OP_LE_SET_EXT_SCAN_PARAMS;
   OP_LE_SET_EXT_SCAN_ENABLE; OP_LE_PERIODIC_CREATE_SYNC; OP_LE_PERIODIC_CREATE_SYNC_CANCEL].

(** Ends in a well-formed state, with the exceptions of the engine, having
    written only commands of a sync. *)
Abbreviation contained := (runs engine_ok (wrote (T:=T) (only sync_ops)) engine_exn).

Lemma contained_trace {A} (m : M (dev (T:=T)) A) :
  runs engine_ok (trace_frame (only sync_ops)) engine_exn m → contained m.
Proof. intros Hm s Hs. destruct (Hm s Hs) as (?&[_ ?]&?&?). by split_and!. Qed.

Ltac base := apply list_elem_of_In; vm_compute; tauto.

Lemma contained_command op payload af : op ∈ sync_ops → contained (Hci.command op payload af).
Proof. intros Hop. apply contained_trace, command_trace. by exists op, payload. Qed.

Lemma contained_identity : contained (Hci.identity None).
Proof.
  apply contained_trace, identity_trace; [exists OP_READ_BD_ADDR, []|exists OP_VS_READ_STATIC_ADDRESSES, []];
    (split; [base|done]).
Qed.

Lemma contained_status name st : contained (check_status (T:=T) name st).
Proof.
  unfold check_status. apply runs_when; [apply _|intros _]. by apply runs_raise; [apply _|left].
Qed.

Lemma contained_command_ok op payload name :
  op ∈ sync_ops → contained (command_ok op payload name).
Proof.
  intros Hop. unfold command_ok. apply runs_bind; [apply _|by apply contained_command|intros r].
  apply runs_bind; [apply _|apply contained_status|intros _; by apply runs_ret, _].
Qed.

Lemma contained_try op payload : op ∈ sync_ops → contained (try_command op payload).
Proof.
  intros Hop. unfold try_command. apply runs_try_except with engine_exn; [apply _| | |].
  - apply runs_bind; [apply _|by apply contained_command|intros _; by apply runs_skip, _].
  - intros e _ _. by apply runs_skip, _.
  - by intros e.
Qed.

Lemma contained_scan enable af : contained (set_sync_scan enable af).
Proof.
  unfold set_sync_scan. apply runs_bind; [apply _| |intros tail].
  - apply runs_lift; [apply _|apply pack_not_stuck|].
    intros e E. right; left. by eapply pack_struct_error.
  - destruct af; [by apply contained_try; base|].
    apply runs_bind; [apply _|by apply contained_command_ok; base|intros _; by apply runs_skip, _].
Qed.

Lemma contained_source_scan : contained start_periodic_source_scan.
Proof.
  unfold start_periodic_source_scan.
  apply runs_bind_at; [apply _|apply contained_identity|intros [[addr ty] src] s s1 _ Hty%identity_type].
  eapply runs_lift_ok; [apply mkbytes_ok; repeat (apply Forall_cons_2; [done|]); by constructor|].
  eapply runs_lift_ok; [reflexivity|].
  apply runs_bind; [apply _|by apply contained_command_ok; base|intros _; apply contained_scan].
Qed.

(** *** Finding the advertiser *)

Lemma observe_step_runs R `{!PreOrder R} addr ty sid d p :
  runs engine_ok R engine_exn (observe_step (T:=T) addr ty sid d p).
Proof.
  unfold observe_step. destruct (negb _); [by apply runs_ret, _|].
  assert (H : ∃ rs, extended_reports (body p) = Ok rs).
  { unfold extended_reports. destruct (body p) as [|sub [|n b]]; [by eexists..|].
    destruct (negb _); [by eexists|]. destruct (reports_from_total (Z.to_nat n) (sub :: n :: b) 2) as (rs&->&_).
    by eexists. }
  destruct H as [rs E]. eapply runs_lift_ok; [exact E|].
  destruct (List.find _ rs); by apply runs_ret, _.
Qed.

Lemma observe_contained addr ty sid timeout started :
  contained (observe_periodic_advertiser addr ty sid timeout started) ∧
  ∀ s rep s', engine_ok s →
    observe_periodic_advertiser addr ty sid timeout started s = (Ok rep, s') →
    periodic_source_matches rep addr ty sid = true.
Proof.
  set (Q := λ r, periodic_source_matches r addr ty sid = true).
  assert (Hpoll : ∀ s, engine_ok s →
    let '(r, s') := poll short_wait (observe_step (T:=T) addr ty sid) (ms 200) timeout tt s in
    engine_ok s' ∧ both_frame s s' ∧ sent s' = sent s ∧
    match r with Ok (inr a) => Q a | Ok (inl _) => True | Exc e => engine_exn e | Stuck => False end).
  { intros s Hs. apply poll_pure; [done|unfold short_wait, ms; lia| | |done].
    - intros R ? d p _. apply observe_step_runs, _.
    - intros d p s1 a s2 _. unfold observe_step. destruct (negb _); [done|].
      unfold lift, mbind, M_bind. destruct (extended_reports (body p)) as [rs|e|]; [|done|done].
      destruct (List.find _ rs) as [r|] eqn:E; [|done]. intros [= <- _].
      by apply List.find_some in E as [_ ?]. }
  unfold observe_periodic_advertiser. split.
  - apply runs_bind; [apply _| |intros _].
    { apply runs_when; [apply _|intros _]. apply contained_source_scan. }
    apply runs_bind; [apply _| |intros [u|rep]].
    + intros s Hs. specialize (Hpoll s Hs). destruct (poll _ _ _ _ _ s) as [r s'].
      destruct Hpoll as (?&_&?&Hr). cbn. split_and!; [done|by apply wrote_nothing| |];
        [by intros e ->|by intros ->].
    + apply runs_bind; [apply _|apply contained_scan|intros _; by apply runs_raise; [apply _|left]].
    + by apply runs_ret, _.
  - intros s rep s' Hs H. apply bind_ok_inv in H as (u&s1&E1&H).
    assert (Hs1 : engine_ok s1).
    { destruct (runs_when engine_ok _ engine_exn (negb started) start_periodic_source_scan
        (λ _, contained_source_scan) s Hs) as (Hok&_). by rewrite E1 in Hok. }
    apply bind_ok_inv in H as (r&s2&E2&H). specialize (Hpoll s1 Hs1). rewrite E2 in Hpoll.
    destruct r as [u'|rep']; [by apply bind_ok_inv in H as (?&?&_&?)|].
    injection H as <- _. by destruct Hpoll as (_&_&_&?).
Qed.

Lemma matches_eq rep addr ty sid :
  periodic_source_matches rep addr ty sid = true →
  r_addr_type rep = ty ∧ r_addr rep = addr ∧ r_sid rep = sid.
Proof.
  unfold periodic_source_matches. rewrite !andb_true_iff, !Z.eqb_eq, bool_decide_eq_true.
  by intros ((((?&?)&?)&_)&_).
Qed.

(** *** Create Sync *)

Definition create_sync_packet (addr : bytes) (addr_type sid : Z) : bytes :=
  command_packet OP_LE_PERIODIC_CREATE_SYNC ([0; sid; addr_type] ++ addr ++ [0; 0; 0; 2; 0]).

(** The command and what follows it, the advertiser having been found. *)
Definition request_sync (addr : bytes) (addr_type sid : Z) : M (dev (T:=T)) (Z * bytes * Z) :=
  r ← Hci.command OP_LE_PERIODIC_CREATE_SYNC ([0; sid; addr_type] ++ addr ++ [0; 0; 0; 2; 0]) true;
  discard_pre_create_sync_events ;;
  if negb (fst r =? 0) then
    set_sync_scan false true ;;
    raise (HciError (Fmt "LE Periodic Advertising Create Sync returned %s" (status_text (fst r))))
  else mret (addr_type, addr, sid).

Lemma discard_contained : contained (discard_pre_create_sync_events (T:=T)).
Proof.
  intros [now h] [Hwf Hp]. cbn. split_and!; [|by apply wrote_nothing|done|done].
  split; [exact Hwf|]. cbn. rewrite Forall_forall in *. intros p Hin.
  apply list_elem_of_filter in Hin as [_ Hin]. by apply Hp.
Qed.

Lemma request_sync_contained addr ty sid : contained (request_sync addr ty sid).
Proof.
  unfold request_sync. apply runs_bind; [apply _|by apply contained_command; base|intros r].
  apply runs_bind; [apply _|apply discard_contained|intros _].
  destruct (negb _); [|by apply runs_ret, _].
  apply runs_bind; [apply _|apply contained_scan|intros _; by apply runs_raise; [apply _|left]].
Qed.

Definition not_sync (p : packet) : Prop := is_sync_established_packet p = false.

Lemma request_sync_post addr ty sid s src s1 :
  engine_ok s → request_sync addr ty sid s = (Ok src, s1) →
  src = (ty, addr, sid) ∧ last (sent s1) = Some (create_sync_packet addr ty sid) ∧
  Forall not_sync (pending (snd s1)).
Proof.
  intros Hs H. apply bind_ok_inv in H as (r&s2&E&H). apply bind_ok_inv in H as (u&s3&E'&H).
  destruct (negb _); [by apply bind_ok_inv in H as (?&?&_&?)|]. injection H as <- <-.
  injection E' as _ <-. split; [done|].
  pose proof (command_sent OP_LE_PERIODIC_CREATE_SYNC ([0; sid; ty] ++ addr ++ [0; 0; 0; 2; 0])
    (seconds 3) true s Hs) as Hc. unfold Hci.command in E. rewrite E in Hc.
  destruct Hc as [Hc|[_ ?]]; [|done]. split.
  - change (last (sent s2) = Some (create_sync_packet addr ty sid)). by rewrite Hc, last_snoc.
  - apply Forall_forall. intros p Hp. by apply list_elem_of_filter in Hp as [? _].
Qed.

Lemma create_sync_contained addr ty sid started :
  is_byte ty → is_byte sid → contained (create_periodic_sync addr ty sid started) ∧
  ∀ s src s1, engine_ok s → create_periodic_sync addr ty sid started s = (Ok src, s1) →
    src = (ty, addr, sid) ∧ last (sent s1) = Some (create_sync_packet addr ty sid) ∧
    Forall not_sync (pending (snd s1)).
Proof.
  intros Hty Hsid. destruct (observe_contained addr ty sid (seconds 5) started) as [Hobs Hpost].
  assert (Hk : ∀ rep, periodic_source_matches rep addr ty sid = true → ∀ s,
    (h ← lift (mkbytes [0; r_sid rep; r_addr_type rep]);
     t ← lift (pack [FH 0; FH 0x0200; FB 0]);
     r ← Hci.command OP_LE_PERIODIC_CREATE_SYNC (h ++ r_addr rep ++ t) true;
     discard_pre_create_sync_events ;;
     if negb (fst r =? 0) then
       set_sync_scan false true ;;
       raise (HciError (Fmt "LE Periodic Advertising Create Sync returned %s" (status_text (fst r))))
     else mret (r_addr_type rep, r_addr rep, r_sid rep)) s = request_sync addr ty sid s).
  { intros rep Hrep s. apply matches_eq in Hrep as (->&->&->).
    rewrite mkbytes_ok by (repeat (apply Forall_cons_2; [done|]); by constructor). reflexivity. }
  unfold create_periodic_sync. split.
  - apply runs_bind_post; [apply _|exact Hobs|]. intros rep s s1 Hs Hs1 E.
    rewrite !(Hk rep (Hpost s rep s1 Hs E)).
    by apply request_sync_contained.
  - intros s src s1 Hs H. apply bind_ok_inv in H as (rep&s2&E&H).
    destruct (Hobs s Hs) as (Hs2&_). rewrite E in Hs2. rewrite (Hk rep (Hpost s rep s2 Hs E)) in H.
    by eapply request_sync_post.
Qed.

(** *** Waiting for the sync *)

Lemma sift_step_runs {A} (f : packet → res (verdict A)) R `{!PreOrder R} d p :
  (∃ v, f p = Ok v) → runs engine_ok R engine_exn (sift_step (T:=T) f d p).
Proof.
  intros [v E]. unfold sift_step. eapply runs_lift_ok; [exact E|]. by apply runs_ret.
Qed.

Lemma poll_sift_cases {A} (f : packet → res (verdict A)) timeout s :
  (∀ p, ∃ v, f p = Ok v) → engine_ok s →
  let '(r, s') := poll short_wait (sift_step (T:=T) f) (ms 200) timeout [] s in
  engine_ok s' ∧ sent s' = sent s ∧
  match r with
  | Ok (inr (d, a)) => Forall packet_ok d ∧ ∃ ps p, d = kept_of f ps ∧ reads s (ps ++ [p]) s' ∧
      Forall (λ q, is_take (f q) = false) ps ∧ f p = Ok (Take a)
  | Ok (inl d) => Forall packet_ok d
  | Exc e => engine_exn e
  | Stuck => False
  end.
Proof.
  intros Hf Hs.
  pose proof (poll_pure (λ _ : list packet * A, True) short_wait (sift_step f) (ms 200) timeout [] s
    ltac:(done) ltac:(unfold short_wait, ms; lia)) as Hp.
  assert (Hsift : ∀ r s', poll short_wait (sift_step (T:=T) f) (ms 200) timeout [] s = (r, s') →
    match r with
    | Ok (inr (d', a)) => ∃ ps p, d' = [] ++ kept_of f ps ∧ reads s (ps ++ [p]) s' ∧
        Forall (λ q, is_take (f q) = false) ps ∧ f p = Ok (Take a)
    | Ok (inl d') => ∃ ps, d' = [] ++ kept_of f ps ∧ reads s ps s'
    | _ => True
    end).
  { intros r s'. unfold poll, gets, mbind, M_bind; cbn [fst snd]. apply poll_loop_sift. }
  destruct (poll _ _ _ _ _ s) as [r s']. specialize (Hsift r s' eq_refl).
  destruct Hp as (Hok&_&Hsent&Hr); [|done|done|].
  { intros R ? d p _. by apply sift_step_runs. }
  assert (Hkept : ∀ ps, Forall packet_ok ps → Forall packet_ok (kept_of f ps)).
  { intros ps H. rewrite Forall_forall in *. intros p Hin.
    apply list_elem_of_filter in Hin as [_ ?]. by apply H. }
  split_and!; [done|done|]. destruct r as [[d|[d a]]|e|]; [| |done|done].
  - destruct Hsift as (ps&->&Hps). apply reads_ok in Hps as (_&_&?&_); [by apply Hkept|done].
  - destruct Hsift as (ps&p&->&Hps&?&?). split; [|by exists ps, p].
    apply reads_ok in Hps as (_&_&Hp&_); [|done]. apply Forall_app in Hp as [? _]. by apply Hkept.
Qed.

Lemma restore_contained ps : Forall packet_ok ps → contained (restore (T:=T) ps).
Proof.
  intros Hps [now h] [Hwf Hp]. cbn. split_and!; [|by apply wrote_nothing|done|done].
  split; [exact Hwf|]. cbn. by apply Forall_app.
Qed.

Lemma wait_sync_contained expected timeout v2 keep :
  contained (wait_sync_established expected timeout v2 keep).
Proof.
  pose proof (λ s, poll_sift_cases (sync_verdict expected v2) timeout s (sync_verdict_ok expected v2)) as Hp.
  unfold wait_sync_established. apply runs_bind_post; [apply _| |].
  { intros s Hs. specialize (Hp s Hs). destruct (poll _ _ _ _ _ s) as [r s1].
    destruct Hp as (?&?&Hr). cbn. split_and!; [done|by apply wrote_nothing|by intros e ->|by intros ->]. }
  intros r s s1 Hs Hs1 E. specialize (Hp s Hs). rewrite E in Hp. destruct Hp as (_&_&Hr).
  destruct r as [d|[d o]]; [|destruct Hr as [Hr _]; destruct o as [|st|handle b]];
    refine ((_ : contained _) s1 Hs1).
  - apply runs_bind; [apply _|by apply contained_try; base|intros _].
    apply runs_bind; [apply _|apply contained_scan|intros _].
    apply runs_bind; [apply _|by apply restore_contained|intros _; by apply runs_raise; [apply _|left]].
  - apply runs_bind; [apply _|by apply restore_contained|intros _; by apply runs_raise; [apply _|left]].
  - apply runs_bind; [apply _|apply contained_scan|intros _].
    apply runs_bind; [apply _|by apply restore_contained|intros _; by apply runs_raise; [apply _|left]].
  - apply runs_bind; [apply _|apply runs_when; [apply _|intros _; apply contained_scan]|intros _].
    apply runs_bind; [apply _|by apply restore_contained|intros _; by apply runs_ret, _].
Qed.

Lemma wait_sync_post src timeout v2 keep s handle b s' :
  engine_ok s → Forall not_sync (pending (snd s)) →
  wait_sync_established (T:=T) (Some src) timeout v2 keep s = (Ok (handle, b), s') →
  ∃ wire p s1, reads s (pending (snd s) ++ wire ++ [p]) s1 ∧ b = body p ∧ establishes src v2 handle p.
Proof.
  intros Hs Hq H. apply bind_ok_inv in H as (r&s1&E&H).
  pose proof (poll_sift_cases (sync_verdict (Some src) v2) timeout s (sync_verdict_ok (Some src) v2) Hs) as Hp.
  rewrite E in Hp. destruct Hp as (_&_&Hp).
  destruct r as [d|[d [|st|h b']]];
    try (repeat (apply bind_ok_inv in H as (?&?&_&H)); done).
  apply bind_ok_inv in H as (?&?&_&H). apply bind_ok_inv in H as (?&?&_&H). injection H as <- <- _.
  destruct Hp as (_&ps&p&_&Hr&_&Hv). apply sync_verdict_established in Hv as [-> Hv].
  assert (Hnot : p ∉ pending (snd s)).
  { intros Hin. rewrite Forall_forall in Hq. specialize (Hq p Hin). destruct Hv as [Hv _].
    unfold not_sync in Hq. congruence. }
  pose proof Hr as Hr'. apply reads_ok in Hr' as (_&_&_&_&[Hpend|[_ [wire Hw]]]); [| |done].
  - exfalso. apply Hnot. rewrite Hpend. set_solver.
  - destruct wire as [|w wire _] using rev_ind.
    + exfalso. apply Hnot. rewrite app_nil_r in Hw. rewrite <- Hw. set_solver.
    + rewrite app_assoc in Hw. apply app_inj_tail in Hw as [-> ->].
      exists wire, w, s1. rewrite <- app_assoc in Hr. by split_and!.
Qed.

(** The two steps of a sync, one after the other. *)
Definition sync_to (addr : bytes) (addr_type sid timeout : Z)
    (scan_started require_v2 keep_scan : bool) : M (dev (T:=T)) (Z * bytes) :=
  src ← create_periodic_sync addr addr_type sid scan_started;
  wait_sync_established (Some src) timeout require_v2 keep_scan.

(** C19: a sync that is reported established is the one that was asked for: its
    event was read from the wire after Create Sync had been sent and behind
    everything queued until then, names exactly the requested address, type
    and SID, and carries success (and the newer layout, where asked for).
    However the controller answers, the procedure ends, raises only the
    engine's exceptions and sends only the commands of a sync. *)
Theorem sync_is_fresh (addr : bytes) (addr_type sid timeout : Z)
    (scan_started require_v2 keep_scan : bool) s :
  engine_ok s → is_byte addr_type → is_byte sid →
  let '(r, s2) := sync_to addr addr_type sid timeout scan_started require_v2 keep_scan s in
  engine_ok s2 ∧ r ≠ Stuck ∧ (∀ e, r = Exc e → engine_exn e) ∧
  (∃ ps, sent s2 = sent s ++ ps ∧ Forall (only sync_ops) ps) ∧
  ∀ handle b, r = Ok (handle, b) → ∃ s1 wire p s',
    create_periodic_sync addr addr_type sid scan_started s = (Ok (addr_type, addr, sid), s1) ∧
    last (sent s1) = Some (create_sync_packet addr addr_type sid) ∧
    reads s1 (pending (snd s1) ++ wire ++ [p]) s' ∧ b = body p ∧
    establishes (addr_type, addr, sid) require_v2 handle p.
Proof.
  intros Hs Hty Hsid.
  destruct (create_sync_contained addr addr_type sid scan_started Hty Hsid) as [Hc Hpost].
  assert (Hall : contained (sync_to addr addr_type sid timeout scan_started require_v2 keep_scan)).
  { apply runs_bind; [apply _|exact Hc|intros src; apply wait_sync_contained]. }
  destruct (Hall s Hs) as (Hok&Hw&He&Hst).
  destruct (sync_to _ _ _ _ _ _ _ s) as [r s2] eqn:E. cbn [fst snd] in *. split_and!; try done.
  intros handle b ->. unfold sync_to in E. apply bind_ok_inv in E as (src&s1&E1&E).
  destruct (Hpost s src s1 Hs E1) as (->&Hlast&Hq).
  destruct (Hc s Hs) as (Hs1&_). rewrite E1 in Hs1.
  destruct (wait_sync_post _ _ _ _ _ _ _ _ Hs1 Hq E) as (wire&p&s'&?&?&?).
  by exists s1, wire, p, s'.
Qed.
End sync.

(** ** Concrete runs *)

Definition demo_report : other_fields * report :=
  (Other (0x13, 0) (1, 1) (0x7F, 0xC8) (zeros 7),
   Report 0 [1; 2; 3; 4; 5; 6] 0 0x60 EXT_ADV_DISCOVERY_DATA).

Lemma extended_reports_roundtrip_witness :
  extended_reports (report_event [demo_report; demo_report] ++ [9; 9])
    = Ok [snd demo_report; snd demo_report] ∧
  ∃ got, extended_reports [LE_EXTENDED_ADVERTISING_REPORT; 200; 1; 2; 3] = Ok got.
Proof.
  destruct (extended_reports_roundtrip [demo_report; demo_report] [9; 9]
    [LE_EXTENDED_ADVERTISING_REPORT; 200; 1; 2; 3]) as [H (got&E&_)].
  { repeat constructor; cbn; lia. }
  split; [exact H|]. exists got. exact E.
Defined.

(** A Sync Established event left over from before, the advertiser's report,
    the status of Create Sync, and the event of the new sync. *)
Definition sync_event (handle : Z) (addr : bytes) : bytes :=
  [LE_PERIODIC_SYNC_ESTABLISHED; 0; handle; 0; 0; 0] ++ addr ++ [1; 0x60; 0; 0].
Definition le_meta (b : bytes) : bytes := [H4_EVENT; EVT_LE_META; blen b] ++ b.
Definition status_event (op : Z) : bytes :=
  [H4_EVENT; EVT_COMMAND_STATUS; 4; 0; 1; op mod 256; op / 256].
Definition sync_dev : dev (T:=SerialH4.state) :=
  serial_dev [Pkt H4_EVENT (Some EVT_LE_META) (sync_event 7 [1; 2; 3; 4; 5; 6]);
              Pkt H4_EVENT (Some EVT_LE_META) (report_event [demo_report])]
    [status_event OP_LE_PERIODIC_CREATE_SYNC; le_meta (sync_event 8 [9; 9; 9; 9; 9; 9]);
     le_meta (sync_event 9 [1; 2; 3; 4; 5; 6])].

Lemma sync_is_fresh_witness :
  let '(r, s2) := sync_to [1; 2; 3; 4; 5; 6] 0 0 (seconds 10) true false true sync_dev in
  r = Ok (9, sync_event 9 [1; 2; 3; 4; 5; 6]) ∧
  ∃ p, establishes (0, [1; 2; 3; 4; 5; 6], 0) false 9 p ∧ body p = sync_event 9 [1; 2; 3; 4; 5; 6].
Proof.
  pose proof (sync_is_fresh [1; 2; 3; 4; 5; 6] 0 0 (seconds 10) true false true sync_dev
    (serial_dev_ok sync_dev eq_refl) ltac:(done) ltac:(done)) as H.
  assert (E : fst (sync_to [1; 2; 3; 4; 5; 6] 0 0 (seconds 10) true false true sync_dev)
    = Ok (9, sync_event 9 [1; 2; 3; 4; 5; 6])) by by vm_compute.
  destruct (sync_to _ _ _ _ _ _ _ _) as [r s2]. cbn [fst] in E. subst r.
  destruct H as (_&_&_&_&Hok). destruct (Hok _ _ eq_refl) as (s1&wire&p&s'&_&_&_&Hb&Hp).
  split; [done|]. exists p. split; [exact Hp|done].
Defined.
