(* ===== verification/Bis.v ===== *)
(** * Bis: broadcast isochronous streams (bis_features.py, the procedures on
    one controller)

    Creating and terminating a BIG at the source, synchronizing to it at the
    sink, and removing ISO data paths. *)

From S2P Require Export Iso Periodic.
#[local] Open Scope Z_scope.

Definition OP_LE_CREATE_BIG : Z := 0x2068.
Definition OP_LE_TERMINATE_BIG : Z := 0x206A.
Definition OP_LE_BIG_CREATE_SYNC : Z := 0x206B.
Definition OP_LE_BIG_TERMINATE_SYNC : Z := 0x206C.
Definition OP_LE_REMOVE_ISO_DATA_PATH : Z := 0x206F.
Definition LE_BIG_COMPLETE : Z := 0x1B.
Definition LE_TERMINATE_BIG_COMPLETE : Z := 0x1C.
Definition LE_BIG_SYNC_ESTABLISHED : Z := 0x1D.
Definition LE_BIGINFO_ADV_REPORT : Z := 0x22.
Definition SOURCE_BIG_HANDLE : Z := 0.
Definition SINK_BIG_HANDLE : Z := 1.
Definition BIS_INDEX : Z := 1.
Definition BIG_TERMINATE_REASON : Z := 0x16.
(** b"BIS source->sink". *)
Definition BIS_MARKER : bytes :=
  [66; 73; 83; 32; 115; 111; 117; 114; 99; 101; 45; 62; 115; 105; 110; 107].

(** [event[i] == x], for an event known to be long enough. *)
Definition octet_is (i : nat) (x : Z) (event : bytes) : bool :=
  bool_decide (event !! i = Some x).

Definition is_biginfo (event : bytes) : bool :=
  (4 <=? length event)%nat && (1 <=? default 0 (event !! 3%nat)).

Definition is_big_created (event : bytes) : bool :=
  (21 <=? length event)%nat && octet_is 1 0 event && octet_is 2 SOURCE_BIG_HANDLE event
  && octet_is 18 1 event.

Definition is_big_synced (event : bytes) : bool :=
  (17 <=? length event)%nat && octet_is 1 0 event && octet_is 2 SINK_BIG_HANDLE event
  && octet_is 14 1 event.

Definition is_big_terminated (event : bytes) : bool :=
  (3 <=? length event)%nat && octet_is 1 SOURCE_BIG_HANDLE event.

(** [counter_delta] of the CIS pair test. *)
Definition counter_delta (before after : option (list Z)) (index : nat) : option Z :=
  match before, after with
  | Some b, Some a =>
      match b !! index, a !! index with Some x, Some y => Some (y - x) | _, _ => None end
  | _, _ => None
  end.

Section bis.
Context {T : Type} `{!Transport T}.
Abbreviation D := (M (dev (T:=T))).

Definition wait_biginfo (sync_handle timeout : Z) : D unit :=
  b ← wait_le_subevent LE_BIGINFO_ADV_REPORT (Some sync_handle) (Some 1%nat) is_biginfo timeout;
  need_event "no LE BIGInfo Advertising Report for periodic sync" b ;; skip.

Definition create_big : D Z :=
  h ← lift (mkbytes [SOURCE_BIG_HANDLE; ADV_HANDLE_PERIODIC; 1]);
  s ← lift (pack [FH 40; FH 20]);
  t ← lift (mkbytes [2; 1; 0; 0; 0]);
  let payload := h ++ [0x10; 0x27; 0x00] ++ s ++ t ++ zeros 16 in
  if negb (length payload =? 31)%nat
  then raise (AssertionError (Lit "LE Create BIG payload length"))
  else
    r ← Hci.command OP_LE_CREATE_BIG payload true;
    check_status "LE Create BIG" (fst r) ;;
    b ← wait_le_subevent LE_BIG_COMPLETE None None is_big_created (seconds 10);
    body ← need_event "no successful LE Create BIG Complete event" b;
    raw ← lift (unpack_H (slice 19 21 body));
    mret (mask12 raw).

Definition create_big_sync (periodic_sync : Z) : D Z :=
  h ← lift (mkbytes [SINK_BIG_HANDLE]);
  p ← lift (pack [FH periodic_sync]);
  t ← lift (pack [FH 0x0200]);
  n ← lift (mkbytes [1; BIS_INDEX]);
  r ← Hci.command OP_LE_BIG_CREATE_SYNC (h ++ p ++ [0] ++ zeros 16 ++ [0] ++ t ++ n) true;
  check_status "LE BIG Create Sync" (fst r) ;;
  b ← wait_le_subevent LE_BIG_SYNC_ESTABLISHED None None is_big_synced (seconds 10);
  body ← need_event "no successful LE BIG Sync Established event" b;
  raw ← lift (unpack_H (slice 15 17 body));
  mret (mask12 raw).

Definition wait_big_terminated (timeout : Z) : D unit :=
  b ← wait_le_subevent LE_TERMINATE_BIG_COMPLETE None None is_big_terminated timeout;
  body ← need_event "no LE Terminate BIG Complete event" b;
  reason ← lift (idx body 2);
  when (negb (reason =? BIG_TERMINATE_REASON))
    (raise (HciError (Fmt "LE Terminate BIG Complete reason 0x%02X, expected 0x%02X"
                        [AInt reason; AInt BIG_TERMINATE_REASON]))).

Definition terminate_big : D unit :=
  r ← Hci.command OP_LE_TERMINATE_BIG [SOURCE_BIG_HANDLE; BIG_TERMINATE_REASON] true;
  check_status "LE Terminate BIG" (fst r) ;;
  wait_big_terminated (seconds 8).

Definition terminate_big_sync : D unit :=
  r ← Hci.command OP_LE_BIG_TERMINATE_SYNC [SINK_BIG_HANDLE] true;
  check_status "LE BIG Terminate Sync" (fst r).

(** [_remove_iso_path]. *)
Definition remove_iso_path (handle direction_mask : Z) : D unit :=
  try_except is_hci_error
    (payload ← lift (pack [FH handle; FB direction_mask]);
     Hci.command OP_LE_REMOVE_ISO_DATA_PATH payload true ;; skip)
    (λ _, skip).
End bis.
