(* ===== verification/Ends.v ===== *)
(** * Ends: device programs that end

    [ends E m]: from any well-formed device, [m] returns or raises an exception
    of [E] and leaves the device well formed. The lemmas cover the procedures
    the phases are made of; [ends] decomposes a program into them. *)

From S2P Require Export PairLaws PeriodicLaws Bis.
#[local] Open Scope Z_scope.

Create HintDb ends.

(** The relation that constrains nothing. *)
Definition anything {S} (_ _ : S) : Prop := True.
#[export] Instance anything_preorder {S} : PreOrder (@anything S).
Proof. by split. Qed.

(** Decoding what was received raises what [engine_exn] allows. *)
Lemma decodes_runs {S A} (I : S → Prop) R `{!PreOrder R} (r : res A) :
  decodes r → runs I R engine_exn (lift r).
Proof. intros [Hs He]. apply runs_lift; [done|done|]. intros e ->. right. by apply He. Qed.

Section ends.
Context {T : Type} `{Tr : !Transport T, TL : !TransportLaws T}.

Definition ends {A} (E : exn → Prop) (m : M (dev (T:=T)) A) : Prop :=
  runs engine_ok anything E m.

(** Any exception. *)
Definition any_exn (_ : exn) : Prop := True.
Abbreviation some := (ends any_exn).

Lemma ends_runs {A} R E (m : M (dev (T:=T)) A) : runs engine_ok R E m → some m.
Proof. intros Hm s Hs. by destruct (Hm s Hs) as (?&?&?&?). Qed.

Lemma ends_lift {A} (r : res A) : r ≠ Stuck → some (lift r).
Proof. intros Hr. by apply runs_lift; [apply _|done|]. Qed.

Lemma ends_command op payload t af : some (command_t op payload t af).
Proof. by eapply ends_runs, (command_trace (λ _, True)). Qed.

Lemma ends_identity : some (Hci.identity None).
Proof. by eapply ends_runs, (identity_trace (λ _, True)). Qed.

Lemma ends_own f : (∀ d, engine_ok d → engine_ok (f d)) → some (modify f).
Proof. intros Hf. apply runs_modify. intros s Hs. split; [by apply Hf|done]. Qed.

(** Swallowing the engine's errors leaves none. *)
Lemma ends_quiet {A} (m : M (dev (T:=T)) A) (h : exn → M (dev (T:=T)) A) :
  some m → (∀ e, ends (λ e, is_hci_error e = false) (h e)) →
  ends (λ e, is_hci_error e = false) (try_except is_hci_error m h).
Proof. intros Hm Hh. eapply runs_try_except; [apply _|exact Hm|intros e _ _; apply Hh|by intros e]. Qed.

Lemma ends_try {A} c (m : M (dev (T:=T)) A) h :
  some m → (∀ e, some (h e)) → some (try_except c m h).
Proof. intros Hm Hh. eapply runs_try_except; [apply _|exact Hm|intros e _ _; apply Hh|done]. Qed.

(** Waits. *)
Lemma ends_wait_for {A} (f : packet → res (option A)) timeout :
  (∀ p, decodes (f p)) → some (wait_for f timeout).
Proof.
  intros Hf s Hs. pose proof (wait_for_cases f timeout s) as H.
  destruct (wait_for f timeout s) as [r s']. destruct H as (?&_&_&Hr); [| |done|].
  - intros p. apply Hf.
  - intros p e _ E. right. by apply Hf in E.
  - cbn. split_and!; [done..|by intros ->].
Qed.

Lemma ends_poll {D A} wait (step : D → packet → M (dev (T:=T)) (D + A)) w timeout d :
  0 < w → (∀ x, 0 < x → Z.min w x ≤ wait x) →
  (∀ (R : relation (dev (T:=T))), PreOrder R → ∀ d p, packet_ok p →
     runs engine_ok R engine_exn (step d p)) →
  some (poll wait step w timeout d).
Proof.
  intros Hw Hwait Hstep s Hs.
  pose proof (poll_pure (λ _, True) wait step w timeout d s Hw Hwait Hstep ltac:(done) Hs) as H.
  destruct (poll wait step w timeout d s) as [r s']. destruct H as (?&_&_&Hr).
  cbn. split_and!; try done. by intros ->.
Qed.

Lemma ends_restore ps : Forall packet_ok ps → some (restore (T:=T) ps).
Proof. intros Hps. by eapply ends_runs, restore_contained. Qed.

Lemma ends_sift {A} (f : packet → res (verdict A)) timeout (k : _ → M (dev (T:=T)) A) :
  (∀ p, ∃ v, f p = Ok v) →
  (∀ ps, Forall packet_ok ps → some (k (inl ps))) →
  (∀ ps a, Forall packet_ok ps → some (k (inr (ps, a)))) →
  some (poll short_wait (sift_step (T:=T) f) (ms 200) timeout [] ≫= k).
Proof.
  intros Hf Hl Hr. pose proof (λ s, poll_sift_cases f timeout s Hf) as Hp.
  apply runs_bind_post; [apply _| |].
  { intros s Hs. specialize (Hp s Hs). destruct (poll _ _ _ _ _ s) as [r s'].
    destruct Hp as (?&_&Hx). cbn. split_and!; try done. by intros ->. }
  intros r s s1 Hs Hs1 E. specialize (Hp s Hs). rewrite E in Hp. destruct Hp as (_&_&Hx).
  destruct r as [ps|[ps a]]; [by apply Hl|by apply Hr; destruct Hx].
Qed.

Lemma ends_subevent subevent handle off predicate timeout :
  some (wait_le_subevent (T:=T) subevent handle off predicate timeout).
Proof. by eapply ends_runs, (wait_safe []). Qed.

Lemma ends_write pkt : some (write_packet (T:=T) pkt).
Proof.
  intros s Hs. pose proof (write_packet_cases pkt s Hs) as H.
  destruct (write_packet pkt s) as [[[]|e|] s']; destruct H as (?&_&_&_&?); by split_and!.
Qed.

Lemma ends_send_acl handle cid payload : some (send_acl (T:=T) handle cid payload).
Proof. eapply ends_runs, (send_acl_trace (λ _, True)). by intros. Qed.

Lemma ends_iso label handle sdu timeout : some (wait_iso (T:=T) label handle sdu timeout).
Proof.
  intros s Hs. pose proof (wait_iso_marker label handle timeout sdu s Hs) as H.
  destruct (wait_iso _ _ _ _ s) as [r s']. destruct H as (?&_&_&Hr).
  cbn. split_and!; try done. by intros ->.
Qed.
End ends.

#[export] Hint Resolve ends_command ends_identity ends_subevent ends_write ends_send_acl
  ends_iso : ends.

(** One step of a program that ends. *)
Ltac ends_step :=
  lazymatch goal with
  | |- ends _ _ => unfold ends
  | |- runs _ _ _ (mbind _ _) => apply runs_bind; [apply _| |intros ?]
  | |- runs _ _ _ (mret _) => apply runs_ret, _
  | |- runs _ _ _ skip => apply runs_skip, _
  | |- runs _ _ _ (raise _) => apply runs_raise; [apply _|done]
  | |- runs _ _ _ (gets _) => apply runs_gets, _
  | |- runs _ _ _ (lift _) => apply ends_lift; total
  | |- runs _ _ _ (when _ _) => apply runs_when; [apply _|intros ?]
  | |- runs _ _ _ (for_each _ _) => apply runs_for_each; [apply _|intros ? ?]
  | |- runs _ _ _ (try_except _ _ _) => apply ends_try; [|intros ?]
  | |- runs _ _ _ (Hci.command _ _ _) => apply ends_command
  | |- runs _ _ _ (if ?b then _ else _) => destruct b
  | |- runs _ _ _ (match ?x with _ => _ end) => destruct x
  | |- runs _ _ ?E ?m => change (ends E m); solve [auto with ends]
  end.
Ltac ends_auto := repeat ends_step.

(** ** The procedures of one controller *)

Section procedures.
Context {T : Type} `{Tr : !Transport T, TL : !TransportLaws T}.
Abbreviation some := (ends (T:=T) any_exn).
Abbreviation quiet := (ends (T:=T) (λ e, is_hci_error e = false)).

Lemma ends_setup : some setup.
Proof.
  unfold setup. ends_auto. intros [now h] [Hwf Hp]. by cbn.
Qed.
Hint Resolve ends_setup : ends.

Lemma ends_prepare mask : some (prepare_controller mask).
Proof. unfold prepare_controller. ends_auto. Qed.

Lemma ends_advertising id ty c : some (start_legacy_advertising id ty c).
Proof. unfold start_legacy_advertising. ends_auto. Qed.

Lemma ends_connection ty addr pty : some (start_legacy_connection ty addr pty).
Proof. unfold start_legacy_connection. ends_auto. Qed.

Lemma ends_disconnected handle timeout : some (wait_disconnected handle timeout).
Proof.
  unfold wait_disconnected. apply runs_bind; [apply _| |intros ?; ends_auto].
  apply ends_poll; [done|unfold ms; lia|]. intros R ? d p Hp. unfold disconnected_step.
  destruct (_ || _); [by apply runs_ret, _|].
  apply runs_bind; [apply _|apply decodes_runs; [apply _|decode]|intros ?; by apply runs_ret, _].
Qed.

Lemma ends_check name st : some (check_status (T:=T) name st).
Proof. unfold check_status. ends_auto. Qed.

Lemma ends_need name b : some (need_event (T:=T) name b).
Proof. unfold need_event. ends_auto. Qed.

Lemma ends_tell op fields : some (tell (T:=T) op fields).
Proof. unfold tell. ends_auto. Qed.
Hint Resolve ends_check ends_need ends_tell : ends.

Lemma ends_rssi h : some (read_rssi h).
Proof. unfold read_rssi. ends_auto. Qed.
Lemma ends_features h : some (read_remote_features h).
Proof. unfold read_remote_features. ends_auto. Qed.
Lemma ends_data_length h : some (set_data_length h).
Proof. unfold set_data_length. ends_auto. Qed.
Lemma ends_phy h phy : some (set_phy h phy).
Proof. unfold set_phy. ends_auto. Qed.
Lemma ends_sca h : some (request_peer_sca h).
Proof. unfold request_peer_sca. ends_auto. Qed.
Lemma ends_power h : some (power_control h).
Proof. unfold power_control. ends_auto. Qed.
Lemma ends_path_loss h t : some (path_loss_monitor h t).
Proof. unfold path_loss_monitor. ends_auto. Qed.

Lemma ends_acl_marker h cid payload t : some (wait_acl_marker h cid payload t).
Proof.
  unfold wait_acl_marker. apply runs_bind; [apply _| |intros ?; ends_auto].
  apply ends_wait_for. intros p. unfold match_acl. decode.
Qed.

Hint Resolve ends_prepare ends_advertising ends_connection ends_acl_marker : ends.

Lemma ends_restored {A} ps (m : M (dev (T:=T)) A) :
  Forall packet_ok ps → some m → some (restore ps ;; m).
Proof. intros Hps Hm. apply runs_bind; [apply _|by apply ends_restore|by intros []]. Qed.

(** *** Periodic advertising *)

Lemma ends_command_ok op payload name : some (command_ok (T:=T) op payload name).
Proof. unfold command_ok. ends_auto. Qed.
Hint Resolve ends_command_ok : ends.

Lemma ends_ext_set h ty props sid data : some (configure_ext_set h ty props sid data).
Proof. unfold configure_ext_set, ext_adv_params. ends_auto. Qed.

Lemma ends_ext_enable h b : some (ext_adv_enable h b).
Proof. unfold ext_adv_enable. ends_auto. Qed.
Hint Resolve ends_ext_set ends_ext_enable : ends.

Lemma ends_configure ty marker : some (configure_periodic ty marker).
Proof. unfold configure_periodic. ends_auto. Qed.

Lemma ends_start : some start_periodic.
Proof. unfold start_periodic. ends_auto. Qed.

Lemma quiet_try op payload : quiet (try_command op payload).
Proof. unfold try_command. apply ends_quiet; [ends_auto|intros _; apply runs_skip, _]. Qed.

Lemma quiet_stop : quiet stop_periodic.
Proof. unfold stop_periodic. apply runs_bind; [apply _|apply quiet_try|intros _; apply quiet_try]. Qed.

Lemma quiet_some {A} (m : M (dev (T:=T)) A) : quiet m → some m.
Proof. intros Hm. by apply ends_runs in Hm. Qed.

Lemma ends_scan b af : some (set_sync_scan b af).
Proof. by eapply ends_runs, contained_scan. Qed.

Lemma ends_source_scan : some start_periodic_source_scan.
Proof. by eapply ends_runs, contained_source_scan. Qed.

Lemma ends_observe addr ty sid t started : some (observe_periodic_advertiser addr ty sid t started).
Proof. by eapply ends_runs, observe_contained. Qed.

Lemma ends_discard : some (discard_pre_create_sync_events (T:=T)).
Proof. by eapply ends_runs, discard_contained. Qed.
Hint Resolve ends_scan ends_observe ends_discard : ends.

Lemma ends_create_sync addr ty sid started : some (create_periodic_sync addr ty sid started).
Proof. unfold create_periodic_sync. ends_auto. Qed.

Lemma ends_wait_sync src t v2 keep : some (wait_sync_established src t v2 keep).
Proof. by eapply ends_runs, wait_sync_contained. Qed.

Lemma decodes_report body : decodes (periodic_report_data body).
Proof. unfold periodic_report_data. decode. Qed.

Lemma ends_report h marker t v2 : some (wait_periodic_report h marker t v2).
Proof.
  unfold wait_periodic_report. apply runs_bind; [apply _| |intros ?; ends_auto].
  apply ends_wait_for. intros p. unfold match_report. pose proof (decodes_report (body p)). decode.
Qed.

Lemma quiet_terminate h : quiet (terminate_sync h).
Proof. unfold terminate_sync. apply ends_quiet; [ends_auto|intros _; apply runs_skip, _]. Qed.

Lemma ends_ext_connection ty addr pty : some (start_extended_connection ty addr pty).
Proof. unfold start_extended_connection. ends_auto. Qed.

Lemma ends_past h data t : some (wait_past_received h data t).
Proof.
  unfold wait_past_received. apply runs_bind; [apply _| |intros ?; ends_auto].
  apply ends_wait_for. intros p. unfold match_past. decode.
Qed.

(** *** Broadcast isochronous streams *)

Lemma ends_path h dir : some (setup_iso_path h dir).
Proof. unfold setup_iso_path. ends_auto. Qed.

Lemma ends_buffers label : some (read_iso_buffers label).
Proof. unfold read_iso_buffers. ends_auto. Qed.

Lemma ends_counters : some read_counters.
Proof. unfold read_counters. ends_auto. Qed.

Lemma ends_send_iso h seq sdu : some (send_iso h seq sdu).
Proof. unfold send_iso. ends_auto. Qed.

Lemma ends_biginfo h t : some (wait_biginfo h t).
Proof. unfold wait_biginfo. ends_auto. Qed.

Lemma ends_create_big : some create_big.
Proof. unfold create_big. ends_auto. Qed.

Lemma ends_big_sync h : some (create_big_sync h).
Proof. unfold create_big_sync. ends_auto. Qed.

Lemma ends_terminate_big : some terminate_big.
Proof. unfold terminate_big, wait_big_terminated. ends_auto. Qed.

Lemma ends_terminate_big_sync : some terminate_big_sync.
Proof. unfold terminate_big_sync. ends_auto. Qed.

Lemma quiet_remove h dir : quiet (remove_iso_path h dir).
Proof. unfold remove_iso_path. apply ends_quiet; [ends_auto|intros _; apply runs_skip, _]. Qed.
End procedures.

#[export] Hint Resolve ends_prepare ends_advertising ends_connection ends_acl_marker
  ends_disconnected ends_check ends_need ends_tell ends_rssi ends_features ends_data_length
  ends_phy ends_sca ends_power ends_path_loss ends_command_ok ends_ext_set ends_ext_enable
  ends_configure ends_start ends_create_sync ends_wait_sync ends_report ends_ext_connection
  ends_past ends_path ends_buffers ends_counters ends_send_iso ends_biginfo ends_create_big
  ends_big_sync ends_terminate_big ends_terminate_big_sync : ends.
#[export] Hint Resolve ends_setup ends_scan ends_observe ends_discard ends_source_scan : ends.
#[export] Hint Resolve quiet_try quiet_stop quiet_terminate quiet_remove : ends.
#[export] Hint Extern 2 (ends any_exn (try_command _ _)) => apply quiet_some : ends.
#[export] Hint Extern 2 (ends any_exn stop_periodic) => apply quiet_some : ends.
#[export] Hint Extern 2 (ends any_exn (terminate_sync _)) => apply quiet_some : ends.
#[export] Hint Extern 2 (ends any_exn (remove_iso_path _ _)) => apply quiet_some : ends.
