(* ===== verification/Reassembly.v ===== *)
(** * Reassembly: waiting for an L2CAP frame that arrives in fragments
    (wait_acl_marker of connected_features_pair.py)

    The controller may cut an L2CAP frame into several ACL packets. The wait
    collects the fragments of one frame at a time, compares the complete frame
    with the awaited one, and puts back whatever is not part of it. *)

From Stdlib Require Import Permutation.
From S2P Require Export Ends.
#[local] Open Scope Z_scope.

Definition ACL_PB_CONTINUING : Z := 0x01.
Definition ACL_PB_FIRST_AUTO_FLUSHABLE : Z := 0x02.
Definition ACL_PB_COMPLETE : Z := 0x03.

(** The frame being collected. *)
Record partial_frame : Type := Partial {
  expected_total : Z; p_data : bytes; p_packets : list packet }.

(** What the diagnostics line reports. *)
Record observed : Type := Observed {
  o_acl : Z; o_other_handle : Z; o_malformed : Z; o_other_marker : Z;
  o_unmatched : Z; recent : list text }.

Record acl_wait : Type := AclWait {
  deferred : list packet; partial : option partial_frame; seen : observed }.

Definition defer (ps : list packet) (w : acl_wait) : acl_wait :=
  AclWait (deferred w ++ ps) (partial w) (seen w).
Definition set_partial (x : option partial_frame) (w : acl_wait) : acl_wait :=
  AclWait (deferred w) x (seen w).
Definition observe (f : observed → observed) (w : acl_wait) : acl_wait :=
  AclWait (deferred w) (partial w) (f (seen w)).

Definition count_acl o := Observed (o_acl o + 1) (o_other_handle o) (o_malformed o)
  (o_other_marker o) (o_unmatched o) (recent o).
Definition count_other_handle o := Observed (o_acl o) (o_other_handle o + 1) (o_malformed o)
  (o_other_marker o) (o_unmatched o) (recent o).
Definition count_malformed o := Observed (o_acl o) (o_other_handle o) (o_malformed o + 1)
  (o_other_marker o) (o_unmatched o) (recent o).
Definition count_other_marker o := Observed (o_acl o) (o_other_handle o) (o_malformed o)
  (o_other_marker o + 1) (o_unmatched o) (recent o).
Definition count_unmatched o := Observed (o_acl o) (o_other_handle o) (o_malformed o)
  (o_other_marker o) (o_unmatched o + 1) (recent o).
(** [if len(recent) < 8: recent.append(...)]. *)
Definition remember t o := Observed (o_acl o) (o_other_handle o) (o_malformed o)
  (o_other_marker o) (o_unmatched o)
  (if (length (recent o) <? 8)%nat then recent o ++ [t] else recent o).

(** [finish_partial]: [None] while the frame is incomplete, [Some true] when it
    is the awaited one, [Some false] when it is another. A complete frame holds
    its own header, which [expected_total] counts. *)
Definition finish_partial (expected_cid : Z) (expected_payload : bytes) (w : acl_wait)
  : res (option bool * acl_wait) :=
  match partial w with
  | None => Ok (None, w)
  | Some p =>
      if blen (p_data p) <? expected_total p then Ok (None, w)
      else
        let complete := take (Z.to_nat (expected_total p)) (p_data p) in
        let w := set_partial None w in
        header ← unpack_HH (take 4 complete);
        let '(l2cap_len, cid) := (header : Z * Z) in
        let payload := slice 4 (4 + Z.to_nat l2cap_len) complete in
        if (cid =? expected_cid) && bool_decide (payload = expected_payload)
        then Ok (Some true, w)
        else Ok (Some false, defer (p_packets p)
               (observe (λ o, remember (Fmt "cid=0x%04X payload=%s"
                  [AInt cid; ABytes (take 12 payload)]) (count_other_marker o)) w))
  end.

(** [if finish_partial() is True: ... return True], else the next turn. *)
Definition after_fragment (expected_cid : Z) (expected_payload : bytes) (w : acl_wait)
  : res (acl_wait + acl_wait) :=
  r ← finish_partial expected_cid expected_payload w;
  Ok (if bool_decide (fst r = Some true) then inr (snd r) else inl (snd r)).

(** A fragment of the expected handle: a first one drops the frame collected so
    far, a continuing one extends it. *)
Definition on_fragment (expected_cid : Z) (expected_payload : bytes) (pb packet_len : Z)
    (fragment : bytes) (w : acl_wait) (p : packet) : res (acl_wait + acl_wait) :=
  if (pb =? 0x00) || (pb =? ACL_PB_FIRST_AUTO_FLUSHABLE) || (pb =? ACL_PB_COMPLETE) then
    let w := match partial w with
             | Some old => set_partial None (defer (p_packets old) w)
             | None => w
             end in
    if (length fragment <? 4)%nat then Ok (inl (defer [p] w))
    else
      l2cap ← unpack_HH (take 4 fragment);
      after_fragment expected_cid expected_payload
        (set_partial (Some (Partial (4 + fst l2cap) fragment [p])) w)
  else
    let unmatched := Ok (inl (defer [p] (observe (λ o, remember (Fmt "unmatched pb=%u len=%u"
      [AInt pb; AInt packet_len]) (count_unmatched o)) w))) in
    match partial w with
    | Some old =>
        if pb =? ACL_PB_CONTINUING then
          after_fragment expected_cid expected_payload
            (set_partial (Some (Partial (expected_total old) (p_data old ++ fragment)
                                  (p_packets old ++ [p]))) w)
        else unmatched
    | None => unmatched
    end.

(** One packet. [inr] is the frame found, with what is to be put back. *)
Definition marker_step (expected_handle expected_cid : Z) (expected_payload : bytes)
    (w : acl_wait) (p : packet) : res (acl_wait + acl_wait) :=
  if negb (kind p =? H4_ACL) then Ok (inl (defer [p] w))
  else
    let w := observe count_acl w in
    if (length (body p) <? 4)%nat then Ok (inl (defer [p] (observe count_malformed w)))
    else
      header ← unpack_HH (take 4 (body p));
      let '(handle_flags, packet_len) := (header : Z * Z) in
      let handle := mask12 handle_flags in
      let pb := Z.land (Z.shiftr handle_flags 12) 0x03 in
      let fragment := slice 4 (4 + Z.to_nat packet_len) (body p) in
      if negb (handle =? expected_handle) || negb (packet_len =? blen (body p) - 4) then
        let w := observe (if negb (handle =? expected_handle) then count_other_handle
                          else count_malformed) w in
        Ok (inl (defer [p] (observe (remember (Fmt "handle=0x%04X pb=%u len=%u actual=%u"
          [AInt handle; AInt pb; AInt packet_len; AInt (blen (body p) - 4)])) w)))
      else on_fragment expected_cid expected_payload pb packet_len fragment w p.

(** The line appended to [diagnostics] when the wait gives up. *)
Definition diagnostics_line (w : acl_wait) (n_pending : Z) : text :=
  let o := seen w in
  Fmt "ACL packets=%u other_handle=%u malformed=%u other_marker=%u unmatched_fragment=%u pending=%u partial=%s recent=%s"
    ([AInt (o_acl o); AInt (o_other_handle o); AInt (o_malformed o); AInt (o_other_marker o);
      AInt (o_unmatched o); AInt n_pending]
     ++ match partial w with
        | Some p => [AInt (blen (p_data p)); AInt (expected_total p)]
        | None => [AStr "none"]
        end
     ++ match recent o with
        | [] => [AStr "none"]
        | ts => concat ((λ t, AStr (fmt t) :: fargs t) <$> ts)
        end).

Definition start_wait : acl_wait := AclWait [] None (Observed 0 0 0 0 0 []).

Section wait.
Context {T : Type} `{!Transport T}.

(** What is put back when the wait ends without the frame. *)
Definition leftovers (w : acl_wait) : list packet :=
  deferred w ++ match partial w with Some p => p_packets p | None => [] end.

(** Found or not, and the diagnostics line of a wait that gave up. *)
Definition wait_acl_marker (expected_handle expected_cid : Z) (expected_payload : bytes)
    (timeout : Z) : M (dev (T:=T)) (bool * option text) :=
  r ← poll short_wait (λ w p, lift (marker_step expected_handle expected_cid expected_payload w p))
        (ms 200) timeout start_wait;
  match r with
  | inr w => restore (deferred w) ;; mret (true, None)
  | inl w =>
      n ← gets (λ s, blen (pending (snd s)));
      restore (leftovers w) ;;
      mret (false, Some (diagnostics_line w n))
  end.
End wait.

(** ** Folding over what is read *)

Fixpoint fold_read {D A} (f : D → packet → res (D + A)) (d : D) (ps : list packet) : res (D + A) :=
  match ps with
  | [] => Ok (inl d)
  | p :: ps =>
      r ← f d p;
      match r with inl d' => fold_read f d' ps | inr a => Ok (inr a) end
  end.

Section folding.
Context {T : Type} `{Tr : !Transport T, TL : !TransportLaws T}.
Context {D A : Type} (f : D → packet → res (D + A)) (wait : Z → Z).
Implicit Types s : dev (T:=T).

(** What a loop of folding turns returns is the fold over what it read. *)
Lemma poll_loop_fold fuel deadline d s r s' :
  poll_loop wait (λ d p, lift (f d p)) fuel deadline d s = (r, s') →
  match r with
  | Ok (inl d') => ∃ ps, fold_read f d ps = Ok (inl d') ∧ reads s ps s'
  | Ok (inr a) => ∃ ps p d', fold_read f d ps = Ok (inl d') ∧ f d' p = Ok (inr a) ∧
      reads s (ps ++ [p]) s'
  | _ => True
  end.
Proof.
  revert d s. induction fuel as [|fuel IH]; intros d s; [by intros [= <- <-]|].
  cbn [poll_loop]. unfold gets, lift, mret, M_ret, mbind, M_bind; cbn.
  destruct (Z.leb_spec deadline (fst s)) as [Hd|Hd].
  { intros [= <- <-]. exists []. split; [done|constructor]. }
  destruct (read_packet (wait (deadline - fst s)) s) as [[[p|]|e|] s1] eqn:Er;
    [| |by intros [= <- <-]|by intros [= <- <-]].
  - destruct (f d p) as [[d1|a]|e|] eqn:Ef; cbn; [| |by intros [= <- <-]|by intros [= <- <-]].
    + intros Hl. specialize (IH d1 s1 Hl). destruct r as [[d'|a]|e|]; try done.
      * destruct IH as (ps&Hf&Hr). exists (p :: ps). cbn. rewrite Ef. cbn.
        split; [done|by eapply reads_some].
      * destruct IH as (ps&q&d'&Hf&Ha&Hr). exists (p :: ps), q, d'. cbn. rewrite Ef. cbn.
        split_and!; [done|done|by eapply reads_some].
    + intros [= <- <-]. exists [], p, d. split_and!; [done|done|].
      eapply reads_some; [done|constructor].
  - intros Hl. specialize (IH d s1 Hl). destruct r as [[d'|a]|e|]; try done.
    + destruct IH as (ps&Hf&Hr). exists ps. split; [done|by eapply reads_none].
    + destruct IH as (ps&q&d'&Hf&Ha&Hr). exists ps, q, d'. split_and!; [done|done|by eapply reads_none].
Qed.

(** A loop over a queue that holds what it looks for comes to it without
    reading the wire. *)
Lemma poll_loop_fold_queue deadline now d1 p a after :
  now < deadline → f d1 p = Ok (inr a) →
  ∀ ps fuel d h, fold_read f d ps = Ok (inl d1) → pending h = ps ++ p :: after →
  (length ps < fuel)%nat →
  poll_loop (T:=T) wait (λ d p, lift (f d p)) fuel deadline d (now, h)
    = (Ok (inr a), (now, set_pending after h)).
Proof.
  intros Hnow Hp ps. induction ps as [|q ps IH]; intros fuel d h Hf Hpend Hfuel;
    (destruct fuel as [|fuel]; [cbn in Hfuel; lia|]); cbn [poll_loop];
    unfold gets, lift, mbind, M_bind; cbn; rewrite (proj2 (Z.leb_gt _ _)) by lia;
    unfold read_packet, gets, mbind, M_bind; cbn; rewrite Hpend; cbn.
  - injection Hf as ->. by rewrite Hp.
  - cbn in Hf. destruct (f d q) as [[d2|a']|e|]; try done. cbn in Hf.
    apply (IH fuel d2 (set_pending (ps ++ p :: after) h)); [done|done|]. cbn in Hfuel. lia.
Qed.

Context (w : Z) (Hw : 0 < w) (Hwait : ∀ x, 0 < x → Z.min w x ≤ wait x).
Context (Hf : ∀ d p, decodes (f d p)).

Lemma poll_fold_cases timeout d s :
  engine_ok s →
  let '(r, s') := poll wait (λ d p, lift (f d p)) w timeout d s in
  engine_ok s' ∧ both_frame s s' ∧ sent s' = sent s ∧
  match r with
  | Ok (inl d') => ∃ ps, fold_read f d ps = Ok (inl d') ∧ reads s ps s'
  | Ok (inr a) => ∃ ps p d', fold_read f d ps = Ok (inl d') ∧ f d' p = Ok (inr a) ∧
      reads s (ps ++ [p]) s'
  | Exc e => engine_exn e
  | Stuck => False
  end.
Proof.
  intros Hs. pose proof (poll_pure (λ _ : A, True) wait (λ d p, lift (f d p)) w timeout d s Hw Hwait) as Hp.
  assert (Hloop : ∀ r s', poll wait (λ d p, lift (f d p)) w timeout d s = (r, s') →
    match r with
    | Ok (inl d') => ∃ ps, fold_read f d ps = Ok (inl d') ∧ reads s ps s'
    | Ok (inr a) => ∃ ps p d', fold_read f d ps = Ok (inl d') ∧ f d' p = Ok (inr a) ∧
        reads s (ps ++ [p]) s'
    | _ => True
    end).
  { intros r s'. unfold poll, gets, mbind, M_bind; cbn [fst snd]. apply poll_loop_fold. }
  destruct (poll _ _ _ _ _ s) as [r s']. specialize (Hloop r s' eq_refl).
  destruct Hp as (?&?&?&Hr); [|done|done|].
  { intros R ? d0 p _. apply decodes_runs, Hf; apply _. }
  split_and!; [done..|]. by destruct r as [[?|?]|?|].
Qed.
End folding.

(** ** What the wait does with each packet *)

(** The packet-boundary flag and data of an ACL packet of the handle. *)
Definition fragment (handle : Z) (p : packet) : option (Z * bytes) :=
  if (kind p =? H4_ACL) && (4 <=? length (body p))%nat
     && (mask12 (le_Z (take 2 (body p))) =? handle)
     && (le_Z (slice 2 4 (body p)) =? blen (body p) - 4)
  then Some (Z.land (Z.shiftr (le_Z (take 2 (body p))) 12) 0x03, drop 4 (body p))
  else None.

Definition fragment_data (handle : Z) (p : packet) : bytes :=
  match fragment handle p with Some x => snd x | None => [] end.

(** The octets start with the L2CAP frame of a channel and payload. *)
Definition carries (cid : Z) (payload data : bytes) : Prop :=
  ∃ rest, data = take 4 data ++ payload ++ rest ∧
    unpack_HH (take 4 data) = Ok (blen payload, cid).

(** What holds of the frame being collected. *)
Definition collecting (handle : Z) (p : partial_frame) : Prop :=
  Forall (λ q, is_Some (fragment handle q)) (p_packets p) ∧
  p_data p = concat (fragment_data handle <$> p_packets p) ∧
  bytes_ok (p_data p) ∧ (4 <= length (p_data p))%nat ∧ expected_total p = 4 + le_Z (take 2 (p_data p)).

Definition waiting (handle : Z) (w : acl_wait) : Prop :=
  ∀ p, partial w = Some p → collecting handle p.

(** A frame was found: what is put back is what was there less the fragments
    of the frame. *)
Definition found (handle cid : Z) (payload : bytes) (had : list packet) (w : acl_wait) : Prop :=
  ∃ frags, had ≡ₚ deferred w ++ frags ∧ Forall (λ q, is_Some (fragment handle q)) frags ∧
    carries cid payload (concat (fragment_data handle <$> frags)).

Definition step_ok (handle cid : Z) (payload : bytes) (had : list packet)
    (r : res (acl_wait + acl_wait)) : Prop :=
  match r with
  | Ok (inl w) => waiting handle w ∧ had ≡ₚ leftovers w
  | Ok (inr w) => found handle cid payload had w
  | _ => False
  end.

Lemma unpack_HH_4 bs :
  length bs = 4%nat → unpack_HH bs = Ok (le_Z (take 2 bs), le_Z (drop 2 bs)).
Proof. intros H. unfold unpack_HH. by rewrite decide_True. Qed.

Lemma after_fragment_ok handle cid payload w p :
  collecting handle p → partial w = Some p →
  step_ok handle cid payload (deferred w ++ p_packets p) (after_fragment cid payload w).
Proof.
  intros Hc Hp. pose proof Hc as (Hfr&Hd&Hbytes&Hl&Htot).
  pose proof (le_Z_bound (take 2 (p_data p)) ltac:(by apply bytes_ok_take)) as Hb.
  unfold after_fragment, finish_partial. rewrite Hp.
  destruct (Z.ltb_spec (blen (p_data p)) (expected_total p)) as [|Hge].
  { cbn. split; [|unfold leftovers; by rewrite Hp].
    intros p' Hp'. rewrite Hp in Hp'. by injection Hp' as <-. }
  set (len := le_Z (take 2 (p_data p))) in *.
  assert (E4 : take 4 (take (Z.to_nat (expected_total p)) (p_data p)) = take 4 (p_data p)).
  { rewrite take_take. f_equal. lia. }
  rewrite E4, unpack_HH_4 by (rewrite length_take; lia). cbn [mbind res_bind].
  rewrite take_take. change (2 `min` 4)%nat with 2%nat. fold len.
  set (pl := slice 4 _ _).
  assert (Hpl : pl = take (Z.to_nat len) (drop 4 (p_data p))).
  { subst pl. unfold slice. rewrite Htot, skipn_firstn_comm, take_take. f_equal. lia. }
  destruct (Z.eqb_spec (le_Z (drop 2 (take 4 (p_data p)))) cid) as [Hcid|].
  2: { cbn. split; [done|]. unfold leftovers. cbn. by rewrite app_nil_r. }
  case_bool_decide as Hpay; cbn; [|split; [done|]; unfold leftovers; cbn; by rewrite app_nil_r].
  exists (p_packets p). split_and!; [done|done|]. rewrite <- Hd.
  assert (Hlen : len = blen payload).
  { rewrite <- Hpay, Hpl. unfold blen in *. rewrite length_take, length_drop. lia. }
  exists (drop (Z.to_nat len) (drop 4 (p_data p))). split.
  - by rewrite <- Hpay, Hpl, !take_drop.
  - rewrite unpack_HH_4 by (rewrite length_take; lia). rewrite take_take.
    change (2 `min` 4)%nat with 2%nat. fold len. by rewrite Hcid, Hlen.
Qed.


Lemma step_ok_perm handle cid payload had had' r :
  had ≡ₚ had' → step_ok handle cid payload had r → step_ok handle cid payload had' r.
Proof.
  intros Hp. destruct r as [[w|w]|e|]; cbn; [| |done|done].
  - intros [? Hh]. split; [done|]. by rewrite <- Hp.
  - intros (frags&Hh&?&?). exists frags. split_and!; [|done|done]. by rewrite <- Hp.
Qed.

(** A packet that is no fragment of the handle is put aside. *)
Lemma marker_step_noise handle cid payload w p :
  fragment handle p = None →
  ∃ o, marker_step handle cid payload w p = Ok (inl (AclWait (deferred w ++ [p]) (partial w) o)).
Proof.
  unfold fragment, marker_step. destruct (kind p =? H4_ACL); cbn [andb negb]; [|by eexists].
  destruct (Nat.leb_spec 4 (length (body p))) as [Hl|Hl]; cbn [andb].
  2: { rewrite (proj2 (Nat.ltb_lt _ _)) by lia. by eexists. }
  rewrite (proj2 (Nat.ltb_ge _ _)) by lia.
  rewrite unpack_HH_4 by (rewrite length_take; lia). cbn [mbind res_bind].
  rewrite take_take. change (2 `min` 4)%nat with 2%nat.
  assert (E : drop 2 (take 4 (body p)) = slice 2 4 (body p)) by (unfold slice; by rewrite skipn_firstn_comm).
  rewrite E. destruct (mask12 _ =? handle), (le_Z (slice 2 4 (body p)) =? _); cbn [negb andb orb];
    try done; by eexists.
Qed.

Lemma marker_step_fragment handle cid payload w p pb data :
  fragment handle p = Some (pb, data) →
  ∃ o, marker_step handle cid payload w p
    = on_fragment cid payload pb (blen data) data (AclWait (deferred w) (partial w) o) p.
Proof.
  unfold fragment, marker_step. destruct (kind p =? H4_ACL); cbn [andb negb]; [|done].
  destruct (Nat.leb_spec 4 (length (body p))) as [Hl|Hl]; cbn [andb]; [|done].
  rewrite (proj2 (Nat.ltb_ge _ _)) by lia.
  rewrite unpack_HH_4 by (rewrite length_take; lia). cbn [mbind res_bind].
  rewrite take_take. change (2 `min` 4)%nat with 2%nat.
  assert (E : drop 2 (take 4 (body p)) = slice 2 4 (body p)) by (unfold slice; by rewrite skipn_firstn_comm).
  rewrite E. destruct (Z.eqb_spec (mask12 (le_Z (take 2 (body p)))) handle); cbn [negb andb orb]; [|done].
  destruct (Z.eqb_spec (le_Z (slice 2 4 (body p))) (blen (body p) - 4)) as [El|]; cbn [negb]; [|done].
  intros [= <- <-]. eexists. rewrite El.
  assert (Ed : slice 4 (4 + Z.to_nat (blen (body p) - 4)) (body p) = drop 4 (body p)).
  { unfold slice, blen. apply take_ge. rewrite length_drop. lia. }
  rewrite Ed. assert (blen (drop 4 (body p)) = blen (body p) - 4) as ->
    by (unfold blen; rewrite length_drop; lia).
  reflexivity.
Qed.

Lemma marker_step_ok handle cid payload w p :
  packet_ok p → waiting handle w →
  step_ok handle cid payload (leftovers w ++ [p]) (marker_step handle cid payload w p).
Proof.
  intros [_ Hb] Hw. destruct (fragment handle p) as [[pb data]|] eqn:Hf.
  2: { destruct (marker_step_noise handle cid payload w p Hf) as [o ->]. cbn. split; [exact Hw|].
       unfold leftovers. cbn. rewrite <- !app_assoc. f_equiv. by rewrite Permutation_app_comm. }
  destruct (marker_step_fragment handle cid payload w p pb data Hf) as [o ->].
  assert (Hd : fragment_data handle p = data) by (unfold fragment_data; by rewrite Hf).
  assert (Hdb : bytes_ok data).
  { revert Hf. unfold fragment. case_match; [|done]. intros [= _ <-]. by apply bytes_ok_drop. }
  unfold on_fragment. cbn [partial]. destruct (_ || _).
  - set (w1 := match partial w with Some _ => _ | None => _ end).
    assert (H1 : deferred w1 = leftovers w ∧ partial w1 = None).
    { subst w1. unfold leftovers. destruct (partial w) eqn:E; cbn; [done|].
      by rewrite app_nil_r. }
    destruct H1 as [H1 H1']. destruct (Nat.ltb_spec (length data) 4) as [|Hl].
    { cbn. unfold leftovers, waiting. cbn. rewrite H1, H1'. split; [done|]. by rewrite app_nil_r. }
    rewrite unpack_HH_4 by (rewrite length_take; lia). cbn [mbind res_bind fst].
    eapply step_ok_perm; [|eapply after_fragment_ok; [|reflexivity]].
    + cbn. by rewrite H1.
    + split_and!; cbn; [by repeat constructor; eexists|by rewrite Hd, app_nil_r|done|done|].
      by rewrite take_take.
  - destruct (partial w) as [old|] eqn:E.
    + destruct (Hw old E) as (Hfr&Hdat&Hbo&Hl&Htot). destruct (pb =? _).
      * eapply step_ok_perm; [|apply after_fragment_ok with
          (p := Partial (expected_total old) (p_data old ++ data) (p_packets old ++ [p])); [|reflexivity]].
        { cbn. unfold leftovers. rewrite E. by rewrite app_assoc. }
        split_and!; cbn.
        -- apply Forall_app. split; [done|]. by repeat constructor; eexists.
        -- by rewrite fmap_app, concat_app, Hdat, <- Hd; cbn; rewrite app_nil_r.
        -- by apply bytes_ok_app.
        -- rewrite length_app. lia.
        -- rewrite take_app_le by lia. done.
      * cbn. split; [by intros q [= <-]|]. unfold leftovers. rewrite E. cbn.
        rewrite <- !app_assoc. f_equiv. by rewrite Permutation_app_comm.
    + cbn. split; [done|]. unfold leftovers. rewrite E. cbn. by rewrite !app_nil_r.
Qed.

(** Over everything that was read: nothing is lost. *)
Lemma fold_marker_ok handle cid payload ps w w' :
  Forall packet_ok ps → waiting handle w →
  fold_read (marker_step handle cid payload) w ps = Ok (inl w') →
  waiting handle w' ∧ leftovers w ++ ps ≡ₚ leftovers w'.
Proof.
  revert w. induction ps as [|p ps IH]; intros w Hps Hw.
  { intros [= <-]. by rewrite app_nil_r. }
  apply Forall_cons in Hps as [Hp Hps]. cbn.
  pose proof (marker_step_ok handle cid payload w p Hp Hw) as Hs.
  destruct (marker_step handle cid payload w p) as [[w1|w1]|e|]; cbn; [|done..].
  destruct Hs as [Hw1 Hperm]. intros Hf. destruct (IH w1 Hps Hw1 Hf) as [? Hperm'].
  split; [done|]. by rewrite <- Hperm', <- Hperm, <- app_assoc.
Qed.

Lemma marker_step_decodes handle cid payload w p : decodes (marker_step handle cid payload w p).
Proof.
  unfold marker_step, on_fragment, after_fragment, finish_partial. decode.
Qed.

Section laws.
Context {T : Type} `{Tr : !Transport T, TL : !TransportLaws T}.
Implicit Types s : dev (T:=T).

(** How the wait's loop ends, before anything is put back. *)
Lemma marker_poll_cases handle cid payload timeout s :
  engine_ok s →
  let '(r, s') := poll short_wait (λ w p, lift (marker_step handle cid payload w p)) (ms 200)
                    timeout start_wait s in
  engine_ok s' ∧ sent s' = sent s ∧
  match r with
  | Ok (inl w) => ∃ ps, reads s ps s' ∧ Forall packet_ok ps ∧ ps ≡ₚ leftovers w
  | Ok (inr w) => ∃ ps frags, reads s ps s' ∧ Forall packet_ok ps ∧ ps ≡ₚ frags ++ deferred w ∧
      Forall (λ q, is_Some (fragment handle q)) frags ∧
      carries cid payload (concat (fragment_data handle <$> frags))
  | Exc e => engine_exn e
  | Stuck => False
  end.
Proof.
  intros Hs.
  pose proof (poll_fold_cases (marker_step handle cid payload) short_wait (ms 200) ltac:(done)
    ltac:(unfold short_wait, ms; lia) (marker_step_decodes handle cid payload) timeout start_wait s Hs) as H.
  destruct (poll _ _ _ _ _ s) as [r s1]. destruct H as (Hs1&_&Hsent&H).
  assert (Hw0 : waiting handle start_wait) by by intros ?.
  split; [done|]. split; [done|]. destruct r as [[w|w]|e|]; [| |done|done].
  - destruct H as (ps&Hf&Hr). destruct (reads_ok s ps s1 Hs Hr) as (_&_&Hps&_&_).
    destruct (fold_marker_ok _ _ _ _ _ _ Hps Hw0 Hf) as [_ Hperm]. by exists ps.
  - destruct H as (ps&p&w1&Hf&Hp&Hr). destruct (reads_ok s _ s1 Hs Hr) as (_&_&Hps&_&_).
    pose proof Hps as Hall. apply Forall_app in Hps as [Hps Hp1]. apply Forall_cons in Hp1 as [Hp1 _].
    destruct (fold_marker_ok _ _ _ _ _ _ Hps Hw0 Hf) as [Hw1 Hperm]. cbn in Hperm.
    pose proof (marker_step_ok handle cid payload w1 p Hp1 Hw1) as Hst. rewrite Hp in Hst.
    destruct Hst as (frags&Hfr&?&?). exists (ps ++ [p]), frags. split_and!; try done.
    by rewrite Hperm, Hfr, Permutation_app_comm.
Qed.

(** Putting packets back. *)
Lemma restore_run (ps : list packet) s :
  restore ps s = (Ok tt, (fst s, set_pending (ps ++ pending (snd s)) (snd s))).
Proof. by destruct s. Qed.

Lemma restored_ok (ps : list packet) s :
  engine_ok s → Forall packet_ok ps → engine_ok (fst s, set_pending (ps ++ pending (snd s)) (snd s)).
Proof. intros [? ?] Hps. split; [done|]. cbn. by apply Forall_app. Qed.

(** What was queued and read, and what is queued once part of it is put back. *)
Lemma restored_perm s ps s' frags back :
  engine_ok s → reads s ps s' → ps ≡ₚ frags ++ back →
  ∃ wire, pending (snd s) ++ wire ≡ₚ frags ++ back ++ pending (snd s').
Proof.
  intros Hs Hr Hperm. destruct (reads_ok s ps s' Hs Hr) as (_&_&_&_&[->|[-> [wire Hq]]]).
  - exists []. by rewrite app_nil_r, Hperm, app_assoc.
  - exists wire. by rewrite <- Hq, app_nil_r.
Qed.

End laws.

(** ** A frame that has arrived is found *)

(** How a controller hands over an L2CAP frame cut into chunks (Vol 4 Part E
    5.4.2): a first packet, and continuing ones. *)
Definition acl_fragment (handle pb : Z) (data : bytes) : packet :=
  Pkt H4_ACL None (le_bytes 2 (handle + 4096 * pb) ++ le_bytes 2 (blen data) ++ data).

Definition l2cap_frame (cid : Z) (payload : bytes) : bytes :=
  le_bytes 2 (blen payload) ++ le_bytes 2 cid ++ payload.
Arguments l2cap_frame cid payload : simpl never.

Definition cut (handle pb : Z) (chunks : list bytes) : list packet :=
  match chunks with
  | [] => []
  | c :: cs => acl_fragment handle pb c :: (acl_fragment handle ACL_PB_CONTINUING <$> cs)
  end.

Definition first_pb (pb : Z) : Prop :=
  pb = 0x00 ∨ pb = ACL_PB_FIRST_AUTO_FLUSHABLE ∨ pb = ACL_PB_COMPLETE.

Lemma fragment_acl handle pb data :
  0 ≤ handle < 4096 → 0 ≤ pb < 4 → blen data < 65536 →
  fragment handle (acl_fragment handle pb data) = Some (pb, data).
Proof.
  intros Hh Hpb Hd. unfold fragment, acl_fragment. cbn [kind body].
  assert (Hl : length (le_bytes 2 (handle + 4096 * pb) ++ le_bytes 2 (blen data) ++ data)
               = (4 + length data)%nat) by (rewrite !length_app, !length_le_bytes; lia).
  rewrite Z.eqb_refl, Hl. cbn [andb].
  rewrite (proj2 (Nat.leb_le 4 _)) by lia. cbn [andb].
  assert (E1 : take 2 (le_bytes 2 (handle + 4096 * pb) ++ le_bytes 2 (blen data) ++ data)
               = le_bytes 2 (handle + 4096 * pb)) by done.
  assert (E2 : slice 2 4 (le_bytes 2 (handle + 4096 * pb) ++ le_bytes 2 (blen data) ++ data)
               = le_bytes 2 (blen data)) by done.
  assert (E3 : drop 4 (le_bytes 2 (handle + 4096 * pb) ++ le_bytes 2 (blen data) ++ data) = data) by done.
  pose proof (blen_nonneg data).
  rewrite E1, E2, E3, !le_Z_le_bytes_small by lia. rewrite mask12_spec.
  replace ((handle + 4096 * pb) mod 4096) with handle
    by (rewrite Z.mul_comm, Z.mod_add, Z.mod_small; lia).
  rewrite Z.eqb_refl. cbn [andb].
  replace (blen (le_bytes 2 (handle + 4096 * pb) ++ le_bytes 2 (blen data) ++ data) - 4)
    with (blen data) by (unfold blen in *; rewrite Hl; lia).
  rewrite Z.eqb_refl. do 2 f_equal. change 0x03 with (Z.ones 2).
  rewrite Z.land_ones, Z.shiftr_div_pow2 by lia. change (2 ^ 12) with 4096. change (2 ^ 2) with 4.
  rewrite Z.mul_comm, Z.div_add by lia. rewrite (Z.div_small handle) by lia.
  rewrite Z.add_0_l. by apply Z.mod_small.
Qed.

(** The packets of a wait that are not fragments of the handle. *)
Definition others (handle : Z) (ps : list packet) : list packet :=
  filter (λ q, fragment handle q = None) ps.
Definition fragments_of (handle : Z) (ps : list packet) : list packet :=
  filter (λ q, fragment handle q ≠ None) ps.

Section found.
Context (handle cid : Z) (payload : bytes).
Hypothesis (Hh : 0 ≤ handle < 4096) (Hcid : 0 ≤ cid < 65536) (Hpl : blen payload < 65536).
Abbreviation f := (marker_step handle cid payload).
Abbreviation total := (4 + blen payload).

Lemma frame_length : blen (l2cap_frame cid payload) = total.
Proof. unfold l2cap_frame. rewrite !blen_app. unfold blen. rewrite !length_le_bytes. lia. Qed.

(** A frame still incomplete, and the complete one. *)
Lemma after_fragment_short w data pk :
  partial w = Some (Partial total data pk) → blen data < total →
  after_fragment cid payload w = Ok (inl w).
Proof.
  intros Hp Hl. unfold after_fragment, finish_partial. rewrite Hp. cbn.
  by rewrite (proj2 (Z.ltb_lt _ _)).
Qed.

Lemma after_fragment_frame w pk :
  partial w = Some (Partial total (l2cap_frame cid payload) pk) →
  after_fragment cid payload w = Ok (inr (set_partial None w)).
Proof.
  intros Hp. unfold after_fragment, finish_partial. rewrite Hp. cbn [p_data Reassembly.expected_total].
  pose proof (blen_nonneg payload). pose proof frame_length as Hfl.
  rewrite (proj2 (Z.ltb_ge _ _)) by lia.
  rewrite take_ge by (unfold blen in *; lia).
  change (take 4 (l2cap_frame cid payload)) with (le_bytes 2 (blen payload) ++ le_bytes 2 cid).
  unfold l2cap_frame at 1. rewrite unpack_HH_4 by done.
  change (take 2 (le_bytes 2 (blen payload) ++ le_bytes 2 cid)) with (le_bytes 2 (blen payload)).
  change (drop 2 (le_bytes 2 (blen payload) ++ le_bytes 2 cid)) with (le_bytes 2 cid).
  rewrite !le_Z_le_bytes_small by lia. cbn [mbind res_bind]. rewrite Z.eqb_refl. cbn [andb].
  rewrite bool_decide_eq_true_2; [done|].
  unfold slice, blen. replace (4 + Z.to_nat (Z.of_nat (length payload)) - 4)%nat with (length payload) by lia.
  apply take_ge. done.
Qed.
Lemma on_continuing n c w p old :
  partial w = Some old →
  on_fragment cid payload ACL_PB_CONTINUING n c w p
  = after_fragment cid payload
      (set_partial (Some (Partial (Reassembly.expected_total old) (p_data old ++ c)
                            (p_packets old ++ [p]))) w).
Proof. intros H. unfold on_fragment. by rewrite H. Qed.

(** Continuing fragments complete the frame, whatever comes in between. *)
Lemma fold_rest data cs : data ++ concat cs = l2cap_frame cid payload →
  Forall (λ c, c ≠ [] ∧ blen c < 65536) cs →
  ∀ ps w p pk, fragments_of handle (ps ++ [p]) = acl_fragment handle ACL_PB_CONTINUING <$> cs →
  fragment handle p ≠ None → partial w = Some (Partial total data pk) →
  ∃ w1 w2, fold_read f w ps = Ok (inl w1) ∧ f w1 p = Ok (inr w2) ∧
    deferred w2 = deferred w ++ others handle ps.
Proof.
  intros Hcs Hne ps. revert data cs Hcs Hne.
  induction ps as [|q ps IH]; intros data cs Hcs Hne w p pk Hfr Hp Hw.
  - unfold fragments_of in Hfr. cbn [app] in Hfr. rewrite filter_cons_True in Hfr by done. cbn in Hfr.
    destruct cs as [|c [|c' cs]]; [done| |done]. injection Hfr as ->. cbn in Hcs. rewrite app_nil_r in Hcs.
    apply Forall_cons in Hne as [[_ Hc] _].
    destruct (marker_step_fragment handle cid payload w _ _ _ (fragment_acl handle ACL_PB_CONTINUING c Hh ltac:(done) Hc))
      as [o E]. exists w. eexists. split; [done|]. rewrite E, (on_continuing _ _ (AclWait (deferred w) (partial w) o) _ _ Hw).
    cbn [Reassembly.expected_total p_data p_packets]. rewrite Hcs. erewrite after_fragment_frame by reflexivity. cbn. split; [done|]. by rewrite app_nil_r.
  - unfold fragments_of in Hfr. cbn [app] in Hfr. unfold others.
    destruct (fragment handle q) as [[pb d]|] eqn:Eq.
    + rewrite filter_cons_True in Hfr by (by rewrite Eq). rewrite filter_cons_False by (by rewrite Eq).
      destruct cs as [|c cs]; [done|]. injection Hfr as -> Hfr.
      apply Forall_cons in Hne as [[Hc0 Hc] Hne].
      destruct (marker_step_fragment handle cid payload w _ _ _ (fragment_acl handle ACL_PB_CONTINUING c Hh ltac:(done) Hc))
        as [o E]. cbn [fold_read]. rewrite E, (on_continuing _ _ (AclWait (deferred w) (partial w) o) _ _ Hw).
      cbn [Reassembly.expected_total p_data p_packets].
      assert (Hshort : blen (data ++ c) < total).
      { rewrite <- frame_length, <- Hcs. cbn [concat]. rewrite app_assoc, (blen_app (data ++ c)).
        destruct cs as [|c' cs].
        - exfalso. cbn in Hfr. apply (f_equal length) in Hfr. rewrite filter_app, length_app in Hfr.
          rewrite (filter_cons_True _ p []) in Hfr by done. cbn in Hfr. lia.
        - apply Forall_cons in Hne as [[Hc'0 _] _]. destruct c'; [done|]. unfold blen. cbn.
          rewrite ?length_app. cbn. lia. }
      erewrite after_fragment_short by (reflexivity || exact Hshort). cbn [mbind res_bind].
      match goal with |- ∃ _ _, fold_read _ ?w0 _ = _ ∧ _ =>
        destruct (IH (data ++ c) cs ltac:(by rewrite <- app_assoc) Hne w0 p _ Hfr Hp eq_refl)
          as (w1&w2&?&?&Hd) end.
      by exists w1, w2.
    + rewrite filter_cons_False in Hfr by (by rewrite Eq; intros []). rewrite filter_cons_True by done.
      destruct (marker_step_noise handle cid payload w q Eq) as [o E]. cbn [fold_read].
      rewrite E. cbn [mbind res_bind].
      destruct (IH data cs Hcs Hne (AclWait (deferred w ++ [q]) (partial w) o) p pk Hfr Hp Hw)
        as (w1&w2&?&?&Hd). exists w1, w2. split_and!; [done|done|]. rewrite Hd. cbn. by rewrite <- app_assoc.
Qed.

(** The whole frame. *)
Lemma fold_frame pb chunks : first_pb pb → concat chunks = l2cap_frame cid payload →
  (4 <= length (default [] (head chunks)))%nat → Forall (λ c, c ≠ [] ∧ blen c < 65536) chunks →
  ∀ ps w p, fragments_of handle (ps ++ [p]) = cut handle pb chunks →
  fragment handle p ≠ None → partial w = None →
  ∃ w1 w2, fold_read f w ps = Ok (inl w1) ∧ f w1 p = Ok (inr w2) ∧
    deferred w2 = deferred w ++ others handle ps.
Proof.
  intros Hpb Hcs H4 Hne. destruct chunks as [|c cs]; [cbn in H4; lia|]. cbn in H4.
  apply Forall_cons in Hne as [[_ Hc] Hne]. cbn [concat] in Hcs.
  assert (Hr : 0 ≤ pb < 4) by (by destruct Hpb as [->|[->| ->]]).
  assert (Htot : 4 + le_Z (take 2 c) = total).
  { assert (E : take 2 c = le_bytes 2 (blen payload)).
    { change (le_bytes 2 (blen payload)) with (take 2 (l2cap_frame cid payload)).
      rewrite <- Hcs. by rewrite take_app_le by lia. }
    pose proof (blen_nonneg payload). rewrite E, le_Z_le_bytes_small by lia. lia. }
  assert (Hstep : ∀ w q, q = acl_fragment handle pb c → partial w = None → ∃ o,
    f w q = after_fragment cid payload
      (AclWait (deferred w) (Some (Partial total c [q])) o)).
  { intros w q -> Hw. destruct (marker_step_fragment handle cid payload w _ _ _ (fragment_acl handle pb c Hh Hr Hc))
      as [o E]. exists o. rewrite E. unfold on_fragment. cbn [partial]. rewrite Hw.
    assert (Hb : (pb =? 0x00) || (pb =? ACL_PB_FIRST_AUTO_FLUSHABLE) || (pb =? ACL_PB_COMPLETE) = true)
      by (by destruct Hpb as [->|[->| ->]]).
    rewrite Hb, (proj2 (Nat.ltb_ge _ _)) by done.
    rewrite unpack_HH_4 by (rewrite length_take; lia). cbn [mbind res_bind fst].
    rewrite take_take. change (2 `min` 4)%nat with 2%nat. by rewrite Htot. }
  intros ps. induction ps as [|q ps IH]; intros w p Hfr Hp Hw; unfold fragments_of in Hfr; cbn [app cut] in Hfr.
  - rewrite filter_cons_True in Hfr by done. injection Hfr as Hq Hfr. destruct cs; [|done].
    destruct (Hstep w p Hq Hw) as [o E]. exists w. eexists. split; [done|]. rewrite E.
    cbn in Hcs. rewrite app_nil_r in Hcs. rewrite Hcs. erewrite after_fragment_frame by reflexivity. cbn.
    split; [done|]. by rewrite app_nil_r.
  - unfold others. destruct (fragment handle q) as [x|] eqn:Eq.
    + rewrite filter_cons_True in Hfr by (by rewrite Eq). rewrite filter_cons_False by (by rewrite Eq).
      injection Hfr as Hq Hfr. destruct (Hstep w q Hq Hw) as [o E]. cbn [fold_read]. rewrite E.
      assert (Hshort : blen c < total).
      { rewrite <- frame_length, <- Hcs, blen_app. destruct cs as [|c' cs].
        - exfalso. cbn in Hfr. apply (f_equal length) in Hfr. rewrite filter_app, length_app in Hfr.
          rewrite (filter_cons_True _ p []) in Hfr by done. cbn in Hfr. lia.
        - apply Forall_cons in Hne as [[Hc'0 _] _]. destruct c'; [done|]. unfold blen. cbn. lia. }
      erewrite after_fragment_short by (reflexivity || exact Hshort). cbn [mbind res_bind].
      match goal with |- ∃ _ _, fold_read _ ?w0 _ = _ ∧ _ =>
        destruct (fold_rest c cs Hcs Hne ps w0 p _ Hfr Hp eq_refl) as (w1&w2&?&?&Hd) end.
      by exists w1, w2.
    + rewrite filter_cons_False in Hfr by (by rewrite Eq; intros []). rewrite filter_cons_True by done.
      destruct (marker_step_noise handle cid payload w q Eq) as [o E]. cbn [fold_read].
      rewrite E. cbn [mbind res_bind].
      destruct (IH (AclWait (deferred w ++ [q]) (partial w) o) p Hfr Hp Hw) as (w1&w2&?&?&Hd).
      exists w1, w2. split_and!; [done|done|]. rewrite Hd. cbn. by rewrite <- app_assoc.
Qed.
End found.

(** C23: a frame that has arrived is found, however the controller cut it and
    whatever packets of other connections and events lie between its fragments:
    the wait returns without reading the wire, and leaves the other packets
    queued in their order. *)
Theorem acl_marker_found {T} `{!Transport T} (handle cid pb timeout now : Z) (payload : bytes)
    (chunks : list bytes) (ps after : list packet) (p : packet) (h : hci T) :
  0 ≤ handle < 4096 → 0 ≤ cid < 65536 → blen payload < 65536 → first_pb pb → 0 < timeout →
  concat chunks = l2cap_frame cid payload → (4 <= length (default [] (head chunks)))%nat →
  Forall (λ c, c ≠ [] ∧ blen c < 65536) chunks →
  pending h = ps ++ p :: after → fragment handle p ≠ None →
  fragments_of handle (ps ++ [p]) = cut handle pb chunks →
  wait_acl_marker handle cid payload timeout (now, h)
  = (Ok (true, None), (now, set_pending (others handle ps ++ after) h)).
Proof.
  intros Hh Hcid Hpl Hpb Ht Hcs H4 Hne Hq Hp Hfr.
  destruct (fold_frame handle cid payload Hh Hcid Hpl pb chunks Hpb Hcs H4 Hne ps start_wait p Hfr Hp eq_refl)
    as (w1&w2&Hf&Hs&Hd).
  unfold wait_acl_marker, poll, gets. unfold mbind, M_bind. cbn [fst snd].
  rewrite (poll_loop_fold_queue (marker_step handle cid payload) short_wait (now + timeout) now w1 p w2 after
    ltac:(lia) Hs ps _ start_wait h Hf Hq).
  - unfold restore, on_hci, zoom, modify. cbn. by rewrite Hd.
  - unfold poll_fuel. cbn. rewrite Hq, length_app. cbn. lia.
Qed.

(** ** A concrete wait: a frame in three fragments, an event and data of another
    connection between them. *)

Definition demo_payload : bytes := [104; 101; 108; 108; 111].
Definition demo_chunks : list bytes :=
  [take 5 (l2cap_frame 0x40 demo_payload); slice 5 7 (l2cap_frame 0x40 demo_payload);
   drop 7 (l2cap_frame 0x40 demo_payload)].
Definition demo_fragments : list packet := cut 0x40 ACL_PB_FIRST_AUTO_FLUSHABLE demo_chunks.
Definition demo_queue : list packet :=
  [reset_packet] ++ take 2 demo_fragments ++ [acl_fragment 0x41 2 [1; 2; 3; 4]].
Definition demo_wait_dev : dev (T:=SerialH4.state) :=
  serial_dev (demo_queue ++ drop 2 demo_fragments ++ [stray_packet]) [].

Lemma acl_marker_found_witness :
  wait_acl_marker 0x40 0x40 demo_payload (seconds 5) demo_wait_dev
  = (Ok (true, None),
     (0, set_pending ([reset_packet; acl_fragment 0x41 2 [1; 2; 3; 4]] ++ [stray_packet])
           (snd demo_wait_dev))).
Proof.
  apply (acl_marker_found 0x40 0x40 ACL_PB_FIRST_AUTO_FLUSHABLE (seconds 5) 0 demo_payload demo_chunks
    demo_queue [stray_packet] (acl_fragment 0x40 1 (drop 7 (l2cap_frame 0x40 demo_payload)))
    (snd demo_wait_dev)); first [done | by vm_compute | by right; left
    | by repeat constructor; vm_compute].
Defined.

