(* ===== verification/Phases.v ===== *)
(** * Phases: the release phases over two controllers
    (run_*_phase of connected_features.py, periodic_features.py and
    bis_features.py)

    A phase prepares two controllers, runs its procedures and records results
    in a book; engine errors become FAIL results, and the clean-up runs on
    every way out. The central, scanner or sink is the first device of a pair,
    the peripheral, advertiser or source the second. What a phase remembers
    for its clean-up is the local part of its state. Opening and closing the
    ports of the BIS phase is left to its caller, and the PAwR phase, whose
    service is a thread, is not here. *)

From S2P Require Export Results PairLaws PeriodicLaws Bis.
#[local] Open Scope Z_scope.

Definition OP_LE_SET_HOST_FEATURE : Z := 0x2074.
Definition OP_LE_SUBRATE_REQUEST : Z := 0x207E.
Definition OP_LE_SET_PAST_PARAMS : Z := 0x205C.
Definition OP_LE_PERIODIC_SET_INFO_TRANSFER : Z := 0x205B.
Definition LE_SUBRATE_CHANGE : Z := 0x23.
Definition PHY_2M : Z := 0x02.
Definition TEST_CID : Z := 0x0040.
Definition SUBRATING_HOST_SUPPORT_BIT : Z := 38.
Definition ADV_HANDLE_CONNECTABLE : Z := 1.
Definition ADV_SID_CONNECTABLE : Z := 1.
Definition PAST_SERVICE_DATA : Z := 0x4843.

(** [except HciError]: a vanished port is not caught. *)
Definition is_HciError (e : exn) : bool := match e with HciError _ => true | _ => false end.

(** [s.encode("ascii")]; UnicodeEncodeError is a ValueError. *)
Definition encode_ascii (s : string) : res bytes :=
  let bs := (λ a, Z.of_nat (Ascii.nat_of_ascii a)) <$> String.list_ascii_of_string s in
  if forallb (λ b, b <? 128) bs then Ok bs
  else Exc (ValueError (Lit "ordinal not in range(128)")).

Section phases.
Context {T1 T2 : Type} `{!Transport T1, !Transport T2}.

(** The devices and the book, and a phase's state: these and its locals. *)
Abbreviation bench := (pair (T1:=T1) (T2:=T2) * book)%type.
Abbreviation P L X := (M (bench * L) X).

Definition on_pair {L X} (m : M (pair (T1:=T1) (T2:=T2)) X) : P L X :=
  zoom (λ s, fst (fst s)) (λ d s, ((d, snd (fst s)), snd s)) m.
Definition first {L X} (m : M (dev (T:=T1)) X) : P L X := on_pair (on_central m).
Definition second {L X} (m : M (dev (T:=T2)) X) : P L X := on_pair (on_peripheral m).
Definition record {L} (f : book → book) : P L unit :=
  modify (λ s, ((fst (fst s), f (snd (fst s))), snd s)).
Definition locals {L} : P L L := gets snd.
Definition note {L} (f : L → L) : P L unit := modify (λ s, (fst s, f (snd s))).

(** A phase: its body, what an engine error becomes, its clean-up. *)
Definition phase_with {L} (init : L) (body : P L unit) (handler : exn → P L unit)
    (cleanup : P L unit) : M bench unit := λ s,
  let '(r, (s', _)) := try_finally (try_except is_hci_error body handler) cleanup (s, init) in
  (r, s').

(** The usual one: an engine error becomes a FAIL result. *)
Definition phase {L} (init : L) (body : P L unit) (g n : string) (cleanup : P L unit)
  : M bench unit :=
  phase_with init body (λ e, record (failed g n (str e))) cleanup.

(** A phase with nothing to remember and nothing to catch. *)
Definition plain (body : P unit unit) : M bench unit := λ s,
  let '(r, (s', _)) := body (s, tt) in (r, s').

(** [except Exception]. *)
Definition any_error (_ : exn) : bool := true.

(** [if x is not None: ...]. *)
Definition if_some {L X} (x : option X) (m : X → P L unit) : P L unit :=
  match x with Some v => m v | None => skip end.

(** *** Periodic sync *)

Definition run_periodic_sync_phase (label : string) : M bench unit :=
  phase (L := option Z) None
    (a ← second (prepare_controller DEFAULT_LE_EVENT_MASK);
     let '(adv_id, adv_type, _) := (a : bytes * Z * id_source) in
     first (prepare_controller DEFAULT_LE_EVENT_MASK) ;;
     second (configure_periodic adv_type PERIODIC_MARKER) ;;
     second start_periodic ;;
     sync_source ← first (create_periodic_sync adv_id adv_type ADV_SID_PERIODIC false);
     s ← first (wait_sync_established (Some sync_source) (seconds 10) false false);
     note (λ _, Some (fst s)) ;;
     first (wait_periodic_report (fst s) PERIODIC_MARKER (seconds 8) false) ;;
     record (passed "Periodic advertising" "Advertiser -> periodic sync"
       (Fmt "%s sync 0x%04X + OTA marker" [AStr label; AInt (fst s)])))
    "Periodic advertising" "Advertiser -> periodic sync"
    (sync_handle ← locals;
     if_some sync_handle (λ h, first (terminate_sync h)) ;;
     second stop_periodic).

(** *** Periodic advertising sync transfer *)

(** What the transfer phase remembers: the two connection handles, and the
    transferred sync. *)
Definition past_locals : Type := option (Z * Z) * option Z.

Definition run_past_phase (label : string) : M bench unit :=
  phase (L := past_locals) (None, None)
    (a ← second (prepare_controller DEFAULT_LE_EVENT_MASK);
     let '(adv_id, adv_type, _) := (a : bytes * Z * id_source) in
     r ← first (prepare_controller DEFAULT_LE_EVENT_MASK);
     let '(_, receiver_type, _) := (r : bytes * Z * id_source) in
     second (configure_periodic adv_type PERIODIC_MARKER) ;;
     second (configure_ext_set ADV_HANDLE_CONNECTABLE adv_type 0x0001 ADV_SID_CONNECTABLE
               [0x02; 0x01; 0x06]) ;;
     second start_periodic ;;
     second (ext_adv_enable ADV_HANDLE_CONNECTABLE true) ;;
     first (start_extended_connection receiver_type adv_id adv_type) ;;
     h ← on_pair (wait_acl_pair (seconds 10));
     let '(receiver_handle, advertiser_handle) := (h : Z * Z) in
     note (λ l, (Some (receiver_handle, advertiser_handle), snd l)) ;;
     past_params ← lift (pack [FH receiver_handle; FB 0x02; FH 0; FH 0x0200; FB 0]);
     first (command_ok OP_LE_SET_PAST_PARAMS past_params
              "LE Set Periodic Advertising Sync Transfer Parameters") ;;
     features ← second (read_remote_features advertiser_handle);
     when (negb (Z.testbit (le_Z features) 25))
       (raise (HciError (Lit "peer does not advertise PAST Recipient"))) ;;
     transfer ← lift (pack [FH advertiser_handle; FH PAST_SERVICE_DATA; FB ADV_HANDLE_PERIODIC]);
     second (command_ok OP_LE_PERIODIC_SET_INFO_TRANSFER transfer
               "LE Periodic Advertising Set Info Transfer") ;;
     sync ← first (wait_past_received receiver_handle PAST_SERVICE_DATA (seconds 8));
     note (λ l, (fst l, Some sync)) ;;
     first (wait_periodic_report sync PERIODIC_MARKER (seconds 10) false) ;;
     record (passed "PAST" "sender and receiver"
       (Fmt "%s set-info transfer -> sync 0x%04X + OTA marker" [AStr label; AInt sync])))
    "PAST" "sender and receiver"
    (l ← locals;
     if_some (snd l) (λ h, first (terminate_sync h)) ;;
     if_some (fst l) (λ h, on_pair (disconnect_acl_pair (Some (fst h)) (Some (snd h)))) ;;
     second (quietly (ext_adv_enable ADV_HANDLE_CONNECTABLE false)) ;;
     second stop_periodic).

(** *** Procedures on a live connection *)

(** [try: x = m; book.passed(...) except HciError as err: book.failed(...)]. *)
Definition row {L X} (g n : string) (m : P L X) (detail : X → text) : P L unit :=
  try_except is_HciError (x ← m; record (passed g n (detail x)))
    (λ e, record (failed g n (str e))).

(** One direction of ACL data: what was sent is waited for at the other end. *)
Definition acl_data {L} (n : string) (sent : P L unit) (arrived : P L bool) : P L unit :=
  sent ;;
  got ← arrived;
  record (if (got : bool) then passed "ACL data" n (Lit "")
          else failed "ACL data" n (Lit "marker not received")).

Section side.
Context {L T : Type} `{!Transport T} (on : ∀ X, M (dev (T:=T)) X → P L X).

(** The rows both sides of a connection get, in their two loops. *)
Definition link_rows (label side : string) (handle : Z) : P L unit :=
  row "Connection" (label ++ " " ++ side ++ " RSSI") (on _ (read_rssi handle))
    (λ rssi, Fmt "%d dBm" [AInt rssi]) ;;
  row "Connection" (label ++ " " ++ side ++ " remote features") (on _ (read_remote_features handle))
    (λ features, Fmt "%s" [ABytes features]).

Definition power_rows (label side : string) (handle : Z) : P L unit :=
  row "SCA" (label ++ " " ++ side ++ " request") (on _ (request_peer_sca handle))
    (λ sca, Fmt "peer SCA code %u" [AInt sca]) ;;
  row "Power control" (label ++ " " ++ side) (on _ (power_control handle)) (λ _, Lit "").
End side.

Definition set_both_phys {L} (label : string) (central_handle peripheral_handle : Z) : P L unit :=
  try_except is_HciError
    (first (set_phy central_handle PHY_2M) ;;
     record (passed "PHY" (label ++ " 2M") (Lit "")) ;;
     second (set_phy peripheral_handle PHY_1M) ;;
     record (passed "PHY" (label ++ " return to 1M") (Lit "")))
    (λ e, record (failed "PHY" label (str e))).

Definition path_loss_row {L} (label : string) (central_handle : Z) : P L unit :=
  try_except is_HciError
    (crossed ← first (path_loss_monitor central_handle (seconds 3));
     record (if (crossed : bool) then passed "Path loss" (label ++ " threshold event") (Lit "")
             else incomplete "Path loss" (label ++ " threshold event")
                    (Lit "configuration accepted but no threshold crossing observed")))
    (λ e, record (failed "Path loss" label (str e))).

(** Preparing, advertising and connecting; the handles are noted as soon as
    both sides reported them. *)
Definition connect_pair {L} (notes : Z * Z → L → L) : P L (Z * Z) :=
  p ← second (prepare_controller DEFAULT_LE_EVENT_MASK);
  let '(peripheral_id, peripheral_type, _) := (p : bytes * Z * id_source) in
  c ← first (prepare_controller DEFAULT_LE_EVENT_MASK);
  let '(_, central_type, _) := (c : bytes * Z * id_source) in
  second (start_legacy_advertising peripheral_id peripheral_type true) ;;
  first (start_legacy_connection central_type peripheral_id peripheral_type) ;;
  h ← on_pair (wait_acl_pair (seconds 10));
  note (notes h) ;;
  mret h.

Definition run_connected_feature_phase (label : string) : M bench unit :=
  phase (L := option (Z * Z)) None
    (h ← connect_pair (λ h _, Some h);
     let '(central_handle, peripheral_handle) := (h : Z * Z) in
     record (passed "ACL roles" label (Fmt "central 0x%04X / peripheral 0x%04X"
       [AInt central_handle; AInt peripheral_handle])) ;;
     marker ← lift (encode_ascii (label ++ " central->peripheral"));
     acl_data (label ++ " central -> peripheral")
       (first (send_acl central_handle TEST_CID marker))
       (second (wait_acl_marker peripheral_handle TEST_CID marker (seconds 5))) ;;
     marker ← lift (encode_ascii (label ++ " peripheral->central"));
     acl_data (label ++ " peripheral -> central")
       (second (send_acl peripheral_handle TEST_CID marker))
       (first (wait_acl_marker central_handle TEST_CID marker (seconds 5))) ;;
     link_rows (@first _) label "Central" central_handle ;;
     link_rows (@second _) label "Peripheral" peripheral_handle ;;
     row "DLE" label (first (set_data_length central_handle))
       (λ o, Fmt "tx %u / rx %u octets" [AInt (fst o); AInt (snd o)]) ;;
     set_both_phys label central_handle peripheral_handle ;;
     power_rows (@first _) label "Central" central_handle ;;
     power_rows (@second _) label "Peripheral" peripheral_handle ;;
     path_loss_row label central_handle)
    "Connection" (label ++ " setup")
    (handles ← locals;
     if_some handles (λ h, on_pair (disconnect_acl_pair (Some (fst h)) (Some (snd h))))).

(** *** Connection subrating *)

(** The handles, and which sides have the host feature set. *)
Record subrate_locals : Type := Subrate {
  sub_handles : option (Z * Z); sub_first : bool; sub_second : bool }.

Definition set_host_feature {T} `{!Transport T} (side : string) : M (dev (T:=T)) unit :=
  payload ← lift (mkbytes [SUBRATING_HOST_SUPPORT_BIT; 1]);
  r ← Hci.command OP_LE_SET_HOST_FEATURE payload true;
  when (negb (fst r =? 0))
    (raise (HciError (Fmt "%s LE Set Host Feature returned %s" (AStr side :: status_text (fst r))))).

Definition clear_host_feature {T} `{!Transport T} : M (dev (T:=T)) unit :=
  try_command OP_LE_SET_HOST_FEATURE [SUBRATING_HOST_SUPPORT_BIT; 0].

Definition run_subrate_phase (label : string) : M bench unit :=
  phase (Subrate None false false)
    (p ← second (prepare_controller DEFAULT_LE_EVENT_MASK);
     let '(peripheral_id, peripheral_type, _) := (p : bytes * Z * id_source) in
     c ← first (prepare_controller DEFAULT_LE_EVENT_MASK);
     let '(_, central_type, _) := (c : bytes * Z * id_source) in
     first (set_host_feature "central") ;;
     note (λ l, Subrate (sub_handles l) true (sub_second l)) ;;
     second (set_host_feature "peripheral") ;;
     note (λ l, Subrate (sub_handles l) (sub_first l) true) ;;
     second (start_legacy_advertising peripheral_id peripheral_type true) ;;
     first (start_legacy_connection central_type peripheral_id peripheral_type) ;;
     h ← on_pair (wait_acl_pair (seconds 10));
     note (λ l, Subrate (Some h) (sub_first l) (sub_second l)) ;;
     payload ← lift (pack [FH (fst h); FH 1; FH 1; FH 0; FH 0; FH 300]);
     r ← first (Hci.command OP_LE_SUBRATE_REQUEST payload true);
     when (negb (fst r =? 0))
       (raise (HciError (Fmt "LE Subrate Request returned %s" (status_text (fst r))))) ;;
     b ← first (wait_le_subevent LE_SUBRATE_CHANGE (Some (fst h)) (Some 2%nat) (succeeded 12)
                  (seconds 5));
     body ← first (need_event "no successful LE Subrate Change event" b);
     factor ← lift (unpack_H (slice 4 6 body));
     record (passed "Connection subrating" label (Fmt "factor %u" [AInt factor])))
    "Connection subrating" label
    (l ← locals;
     if_some (sub_handles l) (λ h, on_pair (disconnect_acl_pair (Some (fst h)) (Some (snd h)))) ;;
     when (sub_first l) (first clear_host_feature) ;;
     when (sub_second l) (second clear_host_feature)).

(** *** Broadcast isochronous streams *)

Record bis_locals : Type := BisLocals {
  periodic_sync : option Z; source_bis : option Z; sink_bis : option Z;
  big_created : bool; big_synced : bool }.

Definition set_sync v l := BisLocals v (source_bis l) (sink_bis l) (big_created l) (big_synced l).
Definition set_source_bis v l := BisLocals (periodic_sync l) v (sink_bis l) (big_created l) (big_synced l).
Definition set_sink_bis v l := BisLocals (periodic_sync l) (source_bis l) v (big_created l) (big_synced l).
Definition set_created v l := BisLocals (periodic_sync l) (source_bis l) (sink_bis l) v (big_synced l).
Definition set_synced v l := BisLocals (periodic_sync l) (source_bis l) (sink_bis l) (big_created l) v.

(** A sync to the source's train, and its marker. *)
Definition bis_sync (source_id : bytes) (source_type : Z) : P bis_locals Z :=
  first (create_periodic_sync source_id source_type ADV_SID_PERIODIC false) ;;
  s ← first (wait_sync_established None (seconds 10) false false);
  note (set_sync (Some (fst s))) ;;
  first (wait_periodic_report (fst s) PERIODIC_MARKER (seconds 8) false) ;;
  mret (fst s).

(** The stream: the BIG, the sync to it, the data paths and one SDU. *)
Definition bis_data (sync : Z) : P bis_locals (Z * Z) :=
  bis1 ← second create_big;
  note (λ l, set_created true (set_source_bis (Some bis1) l)) ;;
  first (wait_biginfo sync (seconds 8)) ;;
  bis2 ← first (create_big_sync sync);
  note (λ l, set_synced true (set_sink_bis (Some bis2) l)) ;;
  second (setup_iso_path bis1 ISO_DIRECTION_INPUT) ;;
  first (setup_iso_path bis2 ISO_DIRECTION_OUTPUT) ;;
  source_iso ← second (read_iso_buffers "BIS source");
  sink_iso ← first (read_iso_buffers "BIS sink");
  when (Z.min source_iso sink_iso <? blen BIS_MARKER + 4)
    (raise (HciError (Lit "HCI ISO buffer is too small for BIS marker"))) ;;
  before ← second read_counters;
  second (send_iso bis1 0 BIS_MARKER) ;;
  first (wait_iso "BIS sink" bis2 BIS_MARKER (seconds 8)) ;;
  after ← second read_counters;
  when (match counter_delta before after 14 with Some d => negb (d =? 0) | None => false end)
    (raise (HciError (Lit "routing layer dropped BIS source ISO data"))) ;;
  when (match counter_delta before after 17 with Some n => n <? 1 | None => false end)
    (raise (HciError (Lit "BIS source ISO packet never reached SDC"))) ;;
  mret (bis1, bis2).

Definition run_bis_phase (label : string) : M bench unit :=
  phase (BisLocals None None None false false)
    (a ← second (prepare_controller DEFAULT_LE_EVENT_MASK);
     let '(source_id, source_type, _) := (a : bytes * Z * id_source) in
     first (prepare_controller DEFAULT_LE_EVENT_MASK) ;;
     second (configure_periodic source_type PERIODIC_MARKER) ;;
     second start_periodic ;;
     sync ← bis_sync source_id source_type;
     b ← bis_data sync;
     second (remove_iso_path (fst b) 0x01) ;;
     note (set_source_bis None) ;;
     first (remove_iso_path (snd b) 0x02) ;;
     note (set_sink_bis None) ;;
     first terminate_big_sync ;;
     note (set_synced false) ;;
     second terminate_big ;;
     note (set_created false) ;;
     first (terminate_sync sync) ;;
     note (set_sync None) ;;
     again ← bis_sync source_id source_type;
     first (terminate_sync again) ;;
     note (set_sync None) ;;
     second stop_periodic ;;
     record (passed "ISO" "BIS Source -> Sink"
       (Fmt "%s unencrypted BIG, OTA SDU + synchronous BIG teardown + sink resync" [AStr label])))
    "ISO" "BIS Source -> Sink"
    (l ← locals;
     if_some (source_bis l) (λ h, second (remove_iso_path h 0x01)) ;;
     if_some (sink_bis l) (λ h, first (remove_iso_path h 0x02)) ;;
     when (big_synced l) (first (try_command OP_LE_BIG_TERMINATE_SYNC [SINK_BIG_HANDLE])) ;;
     when (big_created l)
       (second (try_command OP_LE_TERMINATE_BIG [SOURCE_BIG_HANDLE; BIG_TERMINATE_REASON])) ;;
     if_some (periodic_sync l) (λ h, first (terminate_sync h)) ;;
     second stop_periodic).
End phases.
