(* ===== verification/Logs.v ===== *)
(** * Logs: proof rules for programs over two controllers and a book

    [logs Φ E ns m]: from locals that satisfy [Φ], [m] ends, keeps both engines
    intact and [Φ] true, and only appends to the book; when it returns, what it
    appended holds a failure or is one result for each row of [ns], in order;
    when it raises, the exception is one of [E]. The rule for sequences makes
    the rows of a phase the concatenation of the rows of its steps. *)

From S2P Require Export Ends Phases.
#[local] Open Scope Z_scope.

(** A row of the book: its group and its name. *)
Abbreviation row_id := (string * string)%type.
Definition row_of (r : result) : row_id := (r_group r, r_name r).

(** Results that hold a failure, or are those of the rows [ns], none of them
    set aside as not applicable. *)
Definition covers (ns : list row_id) (rs : book) : Prop :=
  has_failures rs = true ∨ (row_of <$> rs = ns ∧ Forall (λ r, r_status r ≠ NA) rs).

Lemma has_failures_app rs rs' : has_failures (rs ++ rs') = has_failures rs || has_failures rs'.
Proof. apply existsb_app. Qed.

Lemma covers_app ns ns' rs rs' : covers ns rs → covers ns' rs' → covers (ns ++ ns') (rs ++ rs').
Proof.
  unfold covers. rewrite has_failures_app, orb_true_iff. intros [?|[<- ?]] [?|[<- ?]]; auto.
  right. by rewrite fmap_app, Forall_app.
Qed.

Lemma covers_nil : covers [] [].
Proof. right. by split. Qed.

(** A passed release has every row, and each passed. *)
Lemma covers_passed ns b rs :
  covers ns rs → exit_code (b ++ rs) = 0 →
  (λ r, (row_of r, r_status r)) <$> rs = (λ n, (n, PASS)) <$> ns.
Proof.
  unfold exit_code. intros Hc Hx.
  assert (Ha : Forall acceptable rs).
  { destruct (release_passed (b ++ rs)) eqn:E; [|done].
    apply release_passed_spec in E as [_ Ha]. by apply Forall_app in Ha as [_ ?]. }
  destruct Hc as [(r&Hr&Hf)%has_status_spec|[<- Hna]].
  - rewrite Forall_forall in Ha. destruct (Ha r Hr); congruence.
  - rewrite <- list_fmap_compose. apply list_fmap_ext. intros i r Hr. unfold compose. f_equal.
    rewrite Forall_lookup in Ha, Hna. destruct (Ha i r Hr) as [|Hn]; [done|]. by destruct (Hna i r Hr).
Qed.

Definition not_hci (e : exn) : Prop := is_hci_error e = false.

Section logs.
Context {T1 T2 : Type} `{Tr1 : !Transport T1, Tr2 : !Transport T2}.
Context `{TL1 : !TransportLaws T1, TL2 : !TransportLaws T2}.
Abbreviation P L X := (M (pair (T1:=T1) (T2:=T2) * book * L) X).

Definition logs {L X} (Φ : L → Prop) (E : exn → Prop) (ns : list row_id) (m : P L X) : Prop :=
  ∀ s, pair_ok (fst (fst s)) → Φ (snd s) → let '(r, s') := m s in
    pair_ok (fst (fst s')) ∧ Φ (snd s') ∧ ∃ rs, snd (fst s') = snd (fst s) ++ rs ∧
    match r with Ok _ => covers ns rs | Exc e => E e | Stuck => False end.

Section rules.
Context {L : Type} (Φ : L → Prop).

(** *** Sequences *)

Lemma logs_bind {X Y} E ns ns' (m : P L X) (f : X → P L Y) :
  logs Φ E ns m → (∀ x, logs Φ E ns' (f x)) → logs Φ E (ns ++ ns') (m ≫= f).
Proof.
  intros Hm Hf s Hs HΦ. specialize (Hm s Hs HΦ). unfold mbind, M_bind.
  destruct (m s) as [r s1]. destruct Hm as (Hs1&HΦ1&rs&E1&Hr).
  destruct r as [x|e|]; [|by eauto|done].
  specialize (Hf x s1 Hs1 HΦ1). destruct (f x s1) as [r s2]. destruct Hf as (Hs2&HΦ2&rs'&E2&Hr').
  split; [done|]. split; [done|]. exists (rs ++ rs'). split; [by rewrite E2, E1, app_assoc|].
  destruct r; [by apply covers_app|done|done].
Qed.

(** A step that records nothing. *)
Lemma logs_then {X Y} E ns (m : P L X) (f : X → P L Y) :
  logs Φ E [] m → (∀ x, logs Φ E ns (f x)) → logs Φ E ns (m ≫= f).
Proof. apply (logs_bind E [] ns). Qed.

Lemma logs_pure {X} E (m : P L X) :
  (∀ s, fst (m s).2 = fst s ∧ (Φ (snd s) → Φ (snd (m s).2)) ∧
        match (m s).1 with Ok _ => True | Exc e => E e | Stuck => False end) →
  logs Φ E [] m.
Proof.
  intros Hm s Hs HΦ. specialize (Hm s). destruct (m s) as [r s']. cbn in Hm.
  destruct Hm as (->&HΦ'&Hr).
  split; [done|]. split; [by apply HΦ'|]. exists []. rewrite app_nil_r. split; [done|].
  destruct r; [apply covers_nil|done|done].
Qed.

Lemma logs_ret {X} E (x : X) : logs Φ E [] (mret x).
Proof. by apply logs_pure. Qed.
Lemma logs_skip E : logs Φ E [] skip.
Proof. by apply logs_pure. Qed.
Lemma logs_note E f : (∀ l, Φ l → Φ (f l)) → logs Φ E [] (note f).
Proof. intros Hf. apply logs_pure. intros s. cbn. auto. Qed.
Lemma logs_locals E : logs Φ E [] locals.
Proof. by apply logs_pure. Qed.
Lemma logs_raise {X} E ns e : E e → logs (X:=X) Φ E ns (raise e).
Proof. intros He s Hs HΦ. cbn. split; [done|]. split; [done|]. exists []. by rewrite app_nil_r. Qed.
Lemma logs_lift {X} (r : res X) : r ≠ Stuck → logs Φ any_exn [] (lift r).
Proof. intros Hr. apply logs_pure. intros s. cbn. split_and!; try done. by destruct r. Qed.

Lemma logs_when E c (m : P L unit) : logs Φ E [] m → logs Φ E [] (when c m).
Proof. destruct c; [done|intros _; apply logs_skip]. Qed.

Lemma logs_if_some {X} E (x : option X) (m : X → P L unit) :
  (∀ v, logs Φ E [] (m v)) → logs Φ E [] (if_some x m).
Proof. intros Hm. destruct x; [apply Hm|apply logs_skip]. Qed.

Lemma logs_for_each {X} E (g : X → list row_id) (xs : list X) (f : X → P L unit) :
  (∀ x, x ∈ xs → logs Φ E (g x) (f x)) → logs Φ E (concat (g <$> xs)) (for_each xs f).
Proof.
  induction xs as [|x xs IH]; intros Hf; cbn; [apply logs_skip|].
  apply logs_bind; [apply Hf; by left|intros _]. apply IH. intros y Hy. apply Hf. by right.
Qed.

(** *** Recording *)

Lemma logs_add E g n st d : st ≠ NA → logs Φ E [(g, n)] (record (add g n st d)).
Proof.
  intros Hst s Hs HΦ. cbn. split; [done|]. split; [done|]. eexists. split; [done|].
  right. split; [done|]. by constructor.
Qed.

Lemma logs_failed E ns g n d : logs Φ E ns (record (failed g n d)).
Proof. intros s Hs HΦ. cbn. split; [done|]. split; [done|]. eexists. split; [done|]. by left. Qed.

(** A handler that returns has recorded a failure. *)
Definition fails E (m : P L unit) : Prop := ∀ ns, logs Φ E ns m.

Lemma fails_record E g n d : fails E (record (failed g n d)).
Proof. intros ns. apply logs_failed. Qed.

Lemma fails_then {X} E (m : P L X) (f : X → P L unit) :
  logs Φ E [] m → (∀ x, fails E (f x)) → fails E (m ≫= f).
Proof. intros Hm Hf ns. apply logs_then; [done|intros x; apply Hf]. Qed.

Lemma fails_before E (m : P L unit) (k : unit → P L unit) ns' :
  fails E m → (∀ x, logs Φ E ns' (k x)) → fails E (m ≫= k).
Proof.
  intros Hm Hk ns s Hs HΦ.
  (* two different row lists cannot both be covered but by a failure *)
  pose proof (logs_bind E [] ns' m k (Hm []) Hk s Hs HΦ) as H1.
  pose proof (logs_bind E [("", "")%string] ns' m k (Hm _) Hk s Hs HΦ) as H2.
  destruct ((m ≫= k) s) as [r s']. destruct H1 as (?&?&rs&E1&H1). destruct H2 as (_&_&rs'&E2&H2).
  split; [done|]. split; [done|]. exists rs. split; [done|]. destruct r; [|done|done].
  rewrite E1 in E2. apply app_inv_head in E2 as <-.
  destruct H1 as [?|[H1 _]]; [by left|]. destruct H2 as [?|[H2 _]]; [by left|].
  exfalso. rewrite H1 in H2. apply (f_equal length) in H2. rewrite !length_app in H2. cbn in H2. lia.
Qed.

Lemma logs_catch E E' ns c (m : P L unit) (h : exn → P L unit) :
  logs Φ E ns m → (∀ e, E e → c e = false → E' e) → (∀ e, fails E' (h e)) →
  logs Φ E' ns (try_except c m h).
Proof.
  intros Hm HE Hh s Hs HΦ. specialize (Hm s Hs HΦ). unfold try_except.
  destruct (m s) as [r s1]. destruct Hm as (Hs1&HΦ1&rs&E1&Hr).
  destruct r as [x|e|]; [by eauto 6| |done].
  destruct (c e) eqn:Ec; [|by eauto 6].
  pose proof (Hh e [] s1 Hs1 HΦ1) as H1. pose proof (Hh e [("", "")%string] s1 Hs1 HΦ1) as H2.
  destruct (h e s1) as [r' s2]. destruct H1 as (?&?&rs1&E2&H1). destruct H2 as (_&_&rs2&E3&H2).
  split; [done|]. split; [done|]. exists (rs ++ rs1). split; [by rewrite E2, E1, app_assoc|].
  destruct r'; [|done|done]. rewrite E2 in E3. apply app_inv_head in E3 as <-.
  left. rewrite has_failures_app, orb_true_iff. right.
  destruct H1 as [?|[H1 _]]; [done|]. destruct H2 as [?|[H2 _]]; [done|].
  by rewrite H1 in H2.
Qed.

(** [try: ... except ...: book.failed(...)]. *)
Lemma logs_except E E' ns c (m : P L unit) g n f :
  logs Φ E ns m → (∀ e, E e → c e = false → E' e) →
  logs Φ E' ns (try_except c m (λ e, record (failed g n (f e)))).
Proof. intros Hm HE. apply logs_catch with E; [done|done|intros e; apply fails_record]. Qed.

Lemma logs_finally E ns (m c : P L unit) :
  logs Φ E ns m → logs Φ E [] c → logs Φ E ns (try_finally m c).
Proof.
  intros Hm Hc s Hs HΦ. specialize (Hm s Hs HΦ). unfold try_finally.
  destruct (m s) as [r s1]. destruct Hm as (Hs1&HΦ1&rs&E1&Hr).
  specialize (Hc s1 Hs1 HΦ1). destruct (c s1) as [rc s2]. destruct Hc as (Hs2&HΦ2&rs'&E2&Hc).
  assert (E' : snd (fst s2) = snd (fst s) ++ (rs ++ rs')) by (by rewrite E2, E1, app_assoc).
  destruct rc as [u|e|]; [|by eauto 6|done]. split; [done|]. split; [done|].
  exists (rs ++ rs'). split; [done|]. destruct r; [|done|done].
  rewrite <- (app_nil_r ns). by apply covers_app.
Qed.

Lemma logs_row {X} g n (m : P L X) detail :
  logs Φ any_exn [] m → logs Φ any_exn [(g, n)] (row g n m detail).
Proof.
  intros Hm. unfold row. apply logs_except with any_exn; [|done].
  apply logs_then; [exact Hm|intros x; by apply logs_add].
Qed.

(** *** Working on the devices *)

Lemma logs_first {X} E (m : M (dev (T:=T1)) X) : ends E m → logs Φ E [] (first m).
Proof.
  intros Hm [[[t [h1 h2]] b] l] [H1 H2] HΦ. specialize (Hm (t, h1) H1).
  unfold first, on_pair, on_central, zoom. cbn. destruct (m (t, h1)) as [r [t' h']].
  destruct Hm as (Hok&_&He&Hst). split; [by split|]. split; [done|].
  exists []. rewrite app_nil_r. split; [done|].
  destruct r; [apply covers_nil|by apply He|done].
Qed.

Lemma logs_second {X} E (m : M (dev (T:=T2)) X) : ends E m → logs Φ E [] (second m).
Proof.
  intros Hm [[[t [h1 h2]] b] l] [H1 H2] HΦ. specialize (Hm (t, h2) H2).
  unfold second, on_pair, on_peripheral, zoom. cbn. destruct (m (t, h2)) as [r [t' h']].
  destruct Hm as (Hok&_&He&Hst). split; [by split|]. split; [done|].
  exists []. rewrite app_nil_r. split; [done|].
  destruct r; [apply covers_nil|by apply He|done].
Qed.

(** Swallowing an error of a step on one device: as the device's own. *)
Lemma logs_quietly_first (m : M (dev (T:=T1)) unit) :
  ends any_exn m → logs Φ not_hci [] (quietly (first m)).
Proof.
  intros Hm s Hs HΦ.
  assert (E : quietly (first m) s = first (L:=L) (T2:=T2) (quietly m) s).
  { destruct s as [[[t [h1 h2]] b] l]. unfold quietly, first, on_pair, on_central, zoom, try_except.
    cbn. destruct (m (t, h1)) as [[?|e|] [t' h']]; cbn; [done| |done]. by destruct (is_hci_error e). }
  rewrite E. apply logs_first; [|done|done]. apply ends_quiet; [done|intros _; apply runs_skip, _].
Qed.

Lemma logs_quietly_second (m : M (dev (T:=T2)) unit) :
  ends any_exn m → logs Φ not_hci [] (quietly (second m)).
Proof.
  intros Hm s Hs HΦ.
  assert (E : quietly (second m) s = second (L:=L) (T1:=T1) (quietly m) s).
  { destruct s as [[[t [h1 h2]] b] l]. unfold quietly, second, on_pair, on_peripheral, zoom, try_except.
    cbn. destruct (m (t, h2)) as [[?|e|] [t' h']]; cbn; [done| |done]. by destruct (is_hci_error e). }
  rewrite E. apply logs_second; [|done|done]. apply ends_quiet; [done|intros _; apply runs_skip, _].
Qed.

Lemma logs_on_pair {X} E (m : M (pair (T1:=T1) (T2:=T2)) X) :
  runs pair_ok anything E m → logs Φ E [] (on_pair m).
Proof.
  intros Hm [[d b] l] Hs HΦ. specialize (Hm d Hs). unfold on_pair, zoom. cbn.
  destruct (m d) as [r d']. destruct Hm as (Hok&_&He&Hst). split; [done|]. split; [done|].
  exists []. rewrite app_nil_r. split; [done|]. destruct r; [apply covers_nil|by apply He|done].
Qed.
End rules.

Lemma on_central_runs {X} E (m : M (dev (T:=T1)) X) :
  ends E m → runs (pair_ok (T2:=T2)) anything E (on_central m).
Proof.
  intros Hm. eapply runs_zoom; [exact Hm|by intros s []|].
  intros [t [h1 h2]] [t' h'] [_ H2] H1 _. by split.
Qed.

Lemma on_peripheral_runs {X} E (m : M (dev (T:=T2)) X) :
  ends E m → runs (pair_ok (T1:=T1)) anything E (on_peripheral m).
Proof.
  intros Hm. eapply runs_zoom; [exact Hm|by intros s []|].
  intros [t [h1 h2]] [t' h'] [H1 _] H2 _. by split.
Qed.

Lemma quietly_runs (m : M (pair (T1:=T1) (T2:=T2)) unit) :
  runs pair_ok anything any_exn m → runs pair_ok anything not_hci (quietly m).
Proof.
  intros Hm. unfold quietly. eapply runs_try_except; [apply _|exact Hm| |by intros e].
  intros e _ _. by apply runs_skip, _.
Qed.

Lemma acl_pair_by_ends event timeout :
  sees_reports event →
  runs (pair_ok (T1:=T1) (T2:=T2)) anything any_exn (wait_acl_pair_by event timeout).
Proof.
  intros Hev s Hs. pose proof (wait_acl_pair_cases event timeout s Hev Hs) as H.
  destruct (wait_acl_pair_by event timeout s) as [r s']. destruct H as (?&_&Hr). by destruct r.
Qed.

Lemma acl_pair_ends timeout :
  runs (pair_ok (T1:=T1) (T2:=T2)) anything any_exn (wait_acl_pair timeout).
Proof. apply acl_pair_by_ends, acl_event_cases. Qed.

Lemma disconnect_ends c p :
  runs (pair_ok (T1:=T1) (T2:=T2)) anything not_hci (disconnect_acl_pair c p).
Proof.
  unfold disconnect_acl_pair.
  repeat first [ apply runs_bind; [apply _| |intros _]
               | apply quietly_runs, on_central_runs; ends_auto
               | apply quietly_runs, on_peripheral_runs; ends_auto
               | case_match | by apply runs_skip, _ ].
Qed.

(** *** A phase *)

(** A body whose exceptions leave locals that satisfy [Φ]. *)
Definition narration {L} (Φ : L → Prop) (ns : list row_id) (m : P L unit) : Prop :=
  ∀ s, pair_ok (fst (fst s)) → Φ (snd s) → let '(r, s') := m s in
    pair_ok (fst (fst s')) ∧ ∃ rs, snd (fst s') = snd (fst s) ++ rs ∧
    match r with Ok _ => covers ns rs | Exc e => Φ (snd s') | Stuck => False end.

Lemma logs_narration {L} (Φ : L → Prop) ns m : logs Φ any_exn ns m → narration Φ ns m.
Proof.
  intros Hm s Hs HΦ. specialize (Hm s Hs HΦ). destruct (m s) as [r s'].
  destruct Hm as (?&?&rs&?&Hr). split; [done|]. exists rs. split; [done|]. by destruct r.
Qed.

Lemma narration_then {L X} (Φ : L → Prop) ns ns' (m : P L X) (k : X → P L unit) :
  logs Φ any_exn ns m → (∀ x, narration Φ ns' (k x)) → narration Φ (ns ++ ns') (m ≫= k).
Proof.
  intros Hm Hk s Hs HΦ. specialize (Hm s Hs HΦ). unfold mbind, M_bind.
  destruct (m s) as [r s1]. destruct Hm as (Hs1&HΦ1&rs&E1&Hr). destruct r as [x|e|]; [|by eauto|done].
  specialize (Hk x s1 Hs1 HΦ1). destruct (k x s1) as [r s2]. destruct Hk as (Hs2&rs'&E2&Hr').
  split; [done|]. exists (rs ++ rs'). split; [by rewrite E2, E1, app_assoc|].
  destruct r; [by apply covers_app|done|done].
Qed.

(** A last step that does not raise need not keep [Φ]. *)
Lemma narration_last {L X} (Φ : L → Prop) ns ns' (m : P L X) (k : X → P L unit) :
  logs Φ any_exn ns m → (∀ x, logs (λ _, True) (λ _, False) ns' (k x)) →
  narration Φ (ns ++ ns') (m ≫= k).
Proof.
  intros Hm Hk s Hs HΦ. specialize (Hm s Hs HΦ). unfold mbind, M_bind.
  destruct (m s) as [r s1]. destruct Hm as (Hs1&HΦ1&rs&E1&Hr).
  destruct r as [x|e|]; [|by eauto|done].
  specialize (Hk x s1 Hs1 I). destruct (k x s1) as [r s2]. destruct Hk as (Hs2&_&rs'&E2&Hr').
  split; [done|]. exists (rs ++ rs'). split; [by rewrite E2, E1, app_assoc|].
  destruct r; [by apply covers_app|done|done].
Qed.

Definition phase_ok (ns : list row_id) (m : M (pair (T1:=T1) (T2:=T2) * book) unit) : Prop :=
  ∀ s, pair_ok (fst s) → let '(r, s') := m s in
    pair_ok (fst s') ∧ ∃ rs, snd s' = snd s ++ rs ∧
    match r with Ok _ => covers ns rs | Exc e => not_hci e | Stuck => False end.

Lemma phase_with_ok {L} (Φ : L → Prop) ns (init : L) body handler cleanup :
  Φ init → narration Φ ns body → (∀ e, fails Φ not_hci (handler e)) →
  logs (λ _, True) not_hci [] cleanup → phase_ok ns (phase_with init body handler cleanup).
Proof.
  intros Hi Hb Hh Hc s Hs. unfold phase_with, try_finally, try_except.
  specialize (Hb (s, init) Hs Hi). destruct (body (s, init)) as [r [s1 l1]]. cbn in Hb.
  destruct Hb as (Hs1&rs&E1&Hr).
  set (mid := match r with Exc e => _ | _ => _ end).
  assert (Hmid : ∃ r2 s2 l2 rs2, mid = (r2, (s2, l2)) ∧ pair_ok (fst s2) ∧
    snd s2 = snd s ++ rs2 ∧
    match r2 with Ok _ => covers ns rs2 | Exc e => not_hci e | Stuck => False end).
  { subst mid. destruct r as [u|e|]; [by eauto 10| |done].
    destruct (is_hci_error e) eqn:Ee; [|by eauto 10].
    pose proof (Hh e [] (s1, l1) Hs1 Hr) as H1.
    pose proof (Hh e [("", "")%string] (s1, l1) Hs1 Hr) as H2.
    destruct (handler e (s1, l1)) as [r2 [s2 l2]]. cbn in H1, H2.
    destruct H1 as (?&_&rs1&E2&H1). destruct H2 as (_&_&rs2&E3&H2).
    exists r2, s2, l2, (rs ++ rs1). split_and!; [done|done|by rewrite E2, E1, app_assoc|].
    destruct r2; [|done|done]. rewrite E2 in E3. apply app_inv_head in E3 as <-.
    left. rewrite has_failures_app, orb_true_iff. right.
    destruct H1 as [?|[H1 _]]; [done|]. destruct H2 as [?|[H2 _]]; [done|]. by rewrite H1 in H2. }
  destruct Hmid as (r2&s2&l2&rs2&->&Hs2&E2&Hr2).
  specialize (Hc (s2, l2) Hs2 I). destruct (cleanup (s2, l2)) as [c [s3 l3]]. cbn in Hc.
  destruct Hc as (Hs3&_&rs'&E3&Hc).
  assert (E : snd s3 = snd s ++ (rs2 ++ rs')) by (by rewrite E3, E2, app_assoc).
  destruct c as [u|e|]; [|by eauto|done]. split; [done|]. exists (rs2 ++ rs'). split; [done|].
  destruct r2; [|done|done]. rewrite <- (app_nil_r ns). by apply covers_app.
Qed.

Lemma phase_is_ok {L} ns (init : L) body g n cleanup :
  logs (λ _, True) any_exn ns body → logs (λ _, True) not_hci [] cleanup →
  phase_ok ns (phase init body g n cleanup).
Proof.
  intros Hb Hc. apply (phase_with_ok (λ _, True)); [done|by apply logs_narration| |done].
  intros e. apply fails_record.
Qed.

Lemma plain_ok ns body : logs (λ _, True) not_hci ns body → phase_ok ns (plain body).
Proof.
  intros Hb s Hs. unfold plain. specialize (Hb (s, tt) Hs I). destruct (body (s, tt)) as [r [s' []]].
  destruct Hb as (?&_&?). by split.
Qed.
End logs.

Lemma quiet_quietly {T} `{Tr : !Transport T, TL : !TransportLaws T} (m : M (dev (T:=T)) unit) :
  ends any_exn m → ends not_hci (quietly m).
Proof. intros Hm. apply ends_quiet; [exact Hm|intros _; apply runs_skip, _]. Qed.
#[export] Hint Resolve quiet_quietly : ends.

Lemma ends_host_feature {T} `{Tr : !Transport T, TL : !TransportLaws T} side :
  ends any_exn (set_host_feature (T:=T) side).
Proof. unfold set_host_feature. ends_auto. Qed.

Lemma quiet_clear_feature {T} `{Tr : !Transport T, TL : !TransportLaws T} :
  ends not_hci (clear_host_feature (T:=T)).
Proof. apply quiet_try. Qed.
#[export] Hint Resolve ends_host_feature quiet_clear_feature : ends.

Lemma encode_ascii_total s : encode_ascii s ≠ Stuck.
Proof. unfold encode_ascii. by case_match. Qed.

(** A step that records nothing: by the lemmas of [ends] on either device. *)
Ltac silent :=
  lazymatch goal with
  | |- logs _ _ _ (mbind _ _) => apply logs_then; [silent|intros ?; silent]
  | |- logs _ _ _ (first _) => apply logs_first; solve [ends_auto | auto with ends]
  | |- logs _ _ _ (second _) => apply logs_second; solve [ends_auto | auto with ends]
  | |- logs _ _ _ (on_pair (wait_acl_pair _)) => apply logs_on_pair, acl_pair_ends
  | |- logs _ _ _ (on_pair (disconnect_acl_pair _ _)) => apply logs_on_pair, disconnect_ends
  | |- logs _ _ _ (lift (encode_ascii _)) => apply logs_lift, encode_ascii_total
  | |- logs _ _ _ (lift _) => apply logs_lift; total
  | |- logs _ _ _ (note _) => apply logs_note; solve [done | auto | intros [] ?; cbn in *; lia]
  | |- logs _ _ _ locals => apply logs_locals
  | |- logs _ _ _ (mret _) => apply logs_ret
  | |- logs _ _ _ skip => apply logs_skip
  | |- logs _ _ _ (raise _) => by apply logs_raise
  | |- logs _ _ _ (quietly (first _)) => apply logs_quietly_first; auto with ends
  | |- logs _ _ _ (quietly (second _)) => apply logs_quietly_second; auto with ends
  | |- logs _ _ _ (when _ _) => apply logs_when; silent
  | |- logs _ _ _ (if_some _ _) => apply logs_if_some; intros ?; silent
  | |- logs _ _ _ (match ?x with _ => _ end) => destruct x; silent
  | |- logs _ _ _ _ => progress cbv zeta; silent
  end.

(** The steps of a phase, its rows in the order they are recorded; [rows] holds
    the lemmas of the steps that record one. *)
Create HintDb rows.
Ltac narrate :=
  lazymatch goal with
  | |- logs _ _ _ (mbind _ _) =>
      first [ apply logs_then; [solve [silent]|intros ?]
            | eapply (logs_bind _ _ [_]); [solve [by apply logs_add | auto with rows | narrate]|intros ?] ];
      narrate
  | |- logs _ _ _ (let '(_, _) := ?x in _) => destruct x; narrate
  | |- logs _ _ _ (record _) => solve [by apply logs_add | by apply logs_failed]
  | |- logs _ _ _ (row _ _ _ _) => apply logs_row; silent
  | |- _ => first [solve [silent | auto with rows] | idtac]
  end.
