(* ===== verification/ConnectedPair.v ===== *)
(** * ConnectedPair: connected features with PHY and power sequencing
    (connected_features_pair.py)

    The procedures that need both ends of a link in step: PHY updates observed
    at the peer and proved by data over the air, power control that retries a
    busy controller, and the phase that runs them. *)

From S2P Require Export Reassembly Phases.
#[local] Open Scope Z_scope.

Definition STATUS_CONTROLLER_BUSY : Z := 0x3A.
Definition PHY_CODED_MASK : Z := 0x04.
Definition PHY_CODED : Z := 0x03.
Definition PHY_ALL : Z := Z.lor (Z.lor PHY_1M PHY_2M) PHY_CODED_MASK.
Definition PHY_OPTION_NO_PREFERENCE : Z := 0x0000.
Definition PHY_OPTION_CODED_S2 : Z := 0x0001.
Definition PHY_OPTION_CODED_S8 : Z := 0x0002.

Section single.
Context {T : Type} `{!Transport T}.
Abbreviation D := (M (dev (T:=T))).

(** [time.sleep]. *)
Definition pause (us : Z) : D unit := modify (λ s, (fst s + us, snd s)).

(** Only Controller Busy is retried, [retries] times. *)
Fixpoint command_status_retry (opcode : Z) (payload : bytes) (retries : nat) : D (Z * bytes) :=
  r ← Hci.command opcode payload true;
  if negb (fst r =? STATUS_CONTROLLER_BUSY) then mret r
  else match retries with
       | O => mret r
       | S n => pause (ms 100) ;; command_status_retry opcode payload n
       end.

(** [_power_control]. *)
Definition sequenced_power_control (handle : Z) : D unit :=
  r ← tell OP_LE_ENHANCED_READ_TX_POWER [FH handle; FB PHY_1M];
  when (negb (fst r =? 0) || (length (snd r) <? 5)%nat)
    (raise (HciError (Fmt "LE Enhanced Read Transmit Power Level returned %s"
                        (status_text (fst r))))) ;;
  payload ← lift (pack [FH handle; FB PHY_1M]);
  r ← command_status_retry OP_LE_READ_REMOTE_TX_POWER payload 10;
  check_status "LE Read Remote Transmit Power Level" (fst r) ;;
  b ← wait_le_subevent LE_TRANSMIT_POWER_REPORTING (Some handle) (Some 2%nat) (succeeded 8)
        (seconds 5);
  need_event "no successful LE Transmit Power Reporting event" b ;;
  r ← tell OP_LE_SET_TX_POWER_REPORT_ENABLE [FH handle; FB 1; FB 1];
  check_status "LE Set Transmit Power Reporting Enable" (fst r) ;;
  tell OP_LE_SET_TX_POWER_REPORT_ENABLE [FH handle; FB 0; FB 0] ;; skip.

Definition request_phy (handle phy : Z) (expected_phy : option Z) (phy_options : Z) : D (Z * Z) :=
  payload ← lift (pack [FH handle; FB 0; FB phy; FB phy; FH phy_options]);
  r ← command_status_retry OP_LE_SET_PHY payload 10;
  check_status "LE Set PHY" (fst r) ;;
  b ← wait_le_subevent LE_PHY_UPDATE_COMPLETE (Some handle) (Some 2%nat) (succeeded 6) (seconds 5);
  body ← need_event "no successful PHY Update Complete event" b;
  tx_phy ← lift (idx body 4);
  rx_phy ← lift (idx body 5);
  match expected_phy with
  | Some x =>
      if negb (tx_phy =? x) || negb (rx_phy =? x)
      then raise (HciError (Fmt "PHY Update Complete reports tx %u rx %u, expected %u"
                              [AInt tx_phy; AInt rx_phy; AInt x]))
      else mret (tx_phy, rx_phy)
  | None => mret (tx_phy, rx_phy)
  end.

Definition wait_peer_phy (handle phy timeout : Z) : D unit :=
  b ← wait_le_subevent LE_PHY_UPDATE_COMPLETE (Some handle) (Some 2%nat) (phy_expected phy) timeout;
  match b with
  | None => raise (HciError (Fmt "peer did not report PHY %u update" [AInt phy]))
  | Some _ => skip
  end.

Definition read_phy_exact (handle phy : Z) : D unit :=
  r ← tell OP_LE_READ_PHY [FH handle];
  let '(status, data) := (r : Z * bytes) in
  if negb (status =? 0) || (length data <? 4)%nat then raise (HciError (Lit "LE Read PHY failed"))
  else
    tx ← lift (idx data 2);
    rx ← lift (idx data 3);
    when (negb (tx =? phy) || negb (rx =? phy))
      (raise (HciError (Fmt "LE Read PHY reports tx %u rx %u, expected %u"
                          [AInt tx; AInt rx; AInt phy]))).

(** [wait_acl_marker] where the caller wants no diagnostics. *)
Definition marker_received (handle cid : Z) (payload : bytes) (timeout : Z) : D bool :=
  r ← Reassembly.wait_acl_marker handle cid payload timeout;
  mret (fst r).
End single.

(** ** The phase *)

Section phase.
Context {T1 T2 : Type} `{!Transport T1, !Transport T2}.
Context {L : Type}.
Abbreviation P X := (M (pair (T1:=T1) (T2:=T2) * book * L) X).

(** ACL data both ways while the PHY is active. *)
Definition verify_acl_on_phy (central_handle peripheral_handle : Z) (marker_name : string) : P unit :=
  marker ← lift (encode_ascii (marker_name ++ " central->peripheral"));
  first (send_acl central_handle TEST_CID marker) ;;
  got ← second (marker_received peripheral_handle TEST_CID marker (seconds 5));
  when (negb got)
    (raise (HciError (Fmt "%s central -> peripheral ACL marker not received" [AStr marker_name]))) ;;
  marker ← lift (encode_ascii (marker_name ++ " peripheral->central"));
  second (send_acl peripheral_handle TEST_CID marker) ;;
  got ← first (marker_received central_handle TEST_CID marker (seconds 5));
  when (negb got)
    (raise (HciError (Fmt "%s peripheral -> central ACL marker not received" [AStr marker_name]))).

Definition run_coded_phy (label : string) (central_handle peripheral_handle phy_options : Z)
    (option_name : string) : P unit :=
  first (request_phy central_handle PHY_CODED_MASK (Some PHY_CODED) phy_options) ;;
  second (wait_peer_phy peripheral_handle PHY_CODED (seconds 5)) ;;
  first (read_phy_exact central_handle PHY_CODED) ;;
  second (read_phy_exact peripheral_handle PHY_CODED) ;;
  let marker_name := (label ++ " Coded " ++ option_name)%string in
  verify_acl_on_phy central_handle peripheral_handle marker_name ;;
  record (passed "PHY" marker_name (Lit "both controllers report Coded + bidirectional ACL")) ;;
  first (request_phy central_handle PHY_1M (Some PHY_1M) PHY_OPTION_NO_PREFERENCE) ;;
  second (wait_peer_phy peripheral_handle PHY_1M (seconds 5)) ;;
  first (read_phy_exact central_handle PHY_1M) ;;
  second (read_phy_exact peripheral_handle PHY_1M).

Definition run_phy_round_trip (label : string) (central_handle peripheral_handle : Z) : P unit :=
  second (request_phy peripheral_handle PHY_2M (Some PHY_2M) PHY_OPTION_NO_PREFERENCE) ;;
  first (wait_peer_phy central_handle PHY_2M (seconds 5)) ;;
  record (passed "PHY" (label ++ " peripheral request 2M") (Lit "")) ;;
  first (request_phy central_handle PHY_1M None PHY_OPTION_NO_PREFERENCE) ;;
  second (request_phy peripheral_handle PHY_ALL (Some PHY_1M) PHY_OPTION_NO_PREFERENCE) ;;
  first (wait_peer_phy central_handle PHY_1M (seconds 5)) ;;
  first (read_phy_exact central_handle PHY_1M) ;;
  second (read_phy_exact peripheral_handle PHY_1M) ;;
  record (passed "PHY" (label ++ " return to 1M") (Lit "")) ;;
  run_coded_phy label central_handle peripheral_handle PHY_OPTION_CODED_S2 "S=2 preference" ;;
  run_coded_phy label central_handle peripheral_handle PHY_OPTION_CODED_S8 "S=8 preference".

(** The path loss rows: the configuration and the threshold event. *)
Definition path_loss_rows (label : string) (central_handle : Z) : P unit :=
  try_except is_HciError
    (crossed ← first (path_loss_monitor central_handle (seconds 3));
     record (passed "Path loss" (label ++ " configuration") (Lit "")) ;;
     record (if (crossed : bool) then passed "Path loss" (label ++ " threshold event") (Lit "")
             else incomplete "Path loss" (label ++ " threshold event")
                    (Lit "no path-loss zone crossing was induced")))
    (λ e, record (failed "Path loss" label (str e))).

Section side.
Context {T : Type} `{!Transport T} (on : ∀ X, M (dev (T:=T)) X → P X).

Definition sca_and_power_rows (label side : string) (handle : Z) : P unit :=
  row "SCA" (label ++ " " ++ side ++ " request") (on _ (request_peer_sca handle))
    (λ sca, Fmt "peer SCA code %u" [AInt sca]) ;;
  row "Power control" (label ++ " " ++ side) (on _ (sequenced_power_control handle)) (λ _, Lit "").
End side.
End phase.

(** [run_connected_feature_phase]. *)
Definition run_connected_pair_phase {T1 T2} `{!Transport T1, !Transport T2} (label : string)
  : M (pair (T1:=T1) (T2:=T2) * book) unit :=
  phase (L := option (Z * Z)) None
    (h ← connect_pair (λ h _, Some h);
     let '(central_handle, peripheral_handle) := (h : Z * Z) in
     record (passed "ACL roles" label (Fmt "central 0x%04X / peripheral 0x%04X"
       [AInt central_handle; AInt peripheral_handle])) ;;
     marker ← lift (encode_ascii (label ++ " central->peripheral"));
     acl_data (label ++ " central -> peripheral")
       (first (send_acl central_handle TEST_CID marker))
       (second (marker_received peripheral_handle TEST_CID marker (seconds 5))) ;;
     marker ← lift (encode_ascii (label ++ " peripheral->central"));
     acl_data (label ++ " peripheral -> central")
       (second (send_acl peripheral_handle TEST_CID marker))
       (first (marker_received central_handle TEST_CID marker (seconds 5))) ;;
     link_rows (λ _, first) label "Central" central_handle ;;
     link_rows (λ _, second) label "Peripheral" peripheral_handle ;;
     row "DLE" label (first (set_data_length central_handle))
       (λ o, Fmt "tx %u / rx %u octets" [AInt (fst o); AInt (snd o)]) ;;
     try_except is_HciError (run_phy_round_trip label central_handle peripheral_handle)
       (λ e, record (failed "PHY" label (str e))) ;;
     sca_and_power_rows (λ _, first) label "Central" central_handle ;;
     sca_and_power_rows (λ _, second) label "Peripheral" peripheral_handle ;;
     path_loss_rows label central_handle)
    "Connection" (label ++ " setup")
    (handles ← locals;
     if_some handles (λ h, on_pair (disconnect_acl_pair (Some (fst h)) (Some (snd h))))).
