(* ===== verification/CoreAdvanced.v ===== *)
(** * CoreAdvanced: Core 6.0 and 6.2 procedures on a live link
    (core_advanced.py)

    Extended feature exchange, frame space updates in both directions, and a
    shorter connection interval, on one fresh connection. A failure fails the
    procedure it happened in and leaves those behind it INCOMPLETE. *)

From S2P Require Export Phases.
#[local] Open Scope Z_scope.

Definition OP_LE_READ_ALL_LOCAL_FEATURES : Z := 0x2087.
Definition OP_LE_READ_ALL_REMOTE_FEATURES : Z := 0x2088.
Definition OP_LE_SET_HOST_FEATURE_V2 : Z := 0x2097.
Definition OP_LE_FRAME_SPACE_UPDATE : Z := 0x209D.
Definition OP_LE_CONNECTION_RATE_REQUEST : Z := 0x20A1.
Definition OP_LE_SET_DEFAULT_RATE_PARAMETERS : Z := 0x20A2.
Definition LE_READ_ALL_REMOTE_FEATURES_COMPLETE : Z := 0x2B.
Definition LE_FRAME_SPACE_UPDATE_COMPLETE : Z := 0x35.
Definition LE_CONNECTION_RATE_CHANGE : Z := 0x37.
Definition LE_FEATURE_PAGE_MAX : Z := 10.
Definition LE_REMOTE_FEATURE_PAGES_REQUESTED : Z := 1.
Definition SCI_HOST_SUPPORT_BIT : Z := 73.
Definition FRAME_SPACE_1M : Z := 200.
Definition FRAME_SPACE_DEFAULT : Z := 150.
Definition FRAME_SPACE_PHY_1M : Z := 0x01.
Definition FRAME_SPACE_PHY_2M : Z := 0x02.
Definition FRAME_SPACE_ACL_IFS_CP : Z := 0x0001.
Definition FRAME_SPACE_ACL_IFS_PC : Z := 0x0002.
Definition FRAME_SPACE_ACL_IFS : Z := Z.lor FRAME_SPACE_ACL_IFS_CP FRAME_SPACE_ACL_IFS_PC.
Definition SCI_INTERVAL : Z := 6.
Definition SCI_REQUEST_MAX_INTERVAL : Z := 80.
Definition SCI_SUBRATE : Z := 1.
Definition SCI_MAX_LATENCY : Z := 0.
Definition SCI_CONTINUATION : Z := 0.
Definition SCI_SUPERVISION_TIMEOUT : Z := 400.
Definition SCI_MIN_CE_LEN : Z := 0x0001.
Definition SCI_MAX_CE_LEN : Z := 0x3E7F.

(** [struct.unpack("<H", event[i:i + 2])[0]] of an event known to be long
    enough. *)
Definition u16_at (i : nat) (event : bytes) : Z := le_Z (slice i (i + 2) event).
Definition u8_at (i : nat) (event : bytes) : Z := default 0 (event !! i).

(** The frame space event of one side, its space in a range; [phys] is a
    mask. *)
Definition frame_space_matches (frame_space_min frame_space_max phys expected_initiator : Z)
    (event : bytes) : bool :=
  (10 <=? length event)%nat && (u8_at 1 event =? 0) && (u8_at 4 event =? expected_initiator)
  && (frame_space_min <=? u16_at 5 event) && (u16_at 5 event <=? frame_space_max)
  && negb (Z.land (u8_at 7 event) phys =? 0)
  && (Z.land (u16_at 8 event) FRAME_SPACE_ACL_IFS =? FRAME_SPACE_ACL_IFS).

(** The same for one space. *)
Definition frame_space_is (frame_space expected_initiator : Z) (event : bytes) : bool :=
  (10 <=? length event)%nat && (u8_at 1 event =? 0) && (u8_at 4 event =? expected_initiator)
  && (u16_at 5 event =? frame_space) && negb (Z.land (u8_at 7 event) FRAME_SPACE_PHY_1M =? 0)
  && (Z.land (u16_at 8 event) FRAME_SPACE_ACL_IFS =? FRAME_SPACE_ACL_IFS).

Definition rate_matches (event : bytes) : bool :=
  (14 <=? length event)%nat && (u8_at 1 event =? 0)
  && (u16_at 4 event =? SCI_INTERVAL) && (u16_at 6 event =? SCI_SUBRATE)
  && (u16_at 8 event =? SCI_MAX_LATENCY) && (u16_at 10 event =? SCI_CONTINUATION)
  && (u16_at 12 event =? SCI_SUPERVISION_TIMEOUT).

(** [_rate_parameters]. *)
Definition rate_parameters (with_handle : option Z) (interval_min interval_max : Z) : res bytes :=
  let values := [FH interval_min; FH interval_max; FH SCI_SUBRATE; FH SCI_SUBRATE;
                 FH SCI_MAX_LATENCY; FH SCI_CONTINUATION; FH SCI_SUPERVISION_TIMEOUT;
                 FH SCI_MIN_CE_LEN; FH SCI_MAX_CE_LEN] in
  match with_handle with
  | None => pack values
  | Some h => pack (FH h :: values)
  end.

(** [_valid_feature_bytes]. *)
Definition valid_feature_bytes (max_page : Z) : res Z :=
  if LE_FEATURE_PAGE_MAX <? max_page
  then Exc (HciError (Fmt "feature Max_Page %u exceeds Core maximum %u"
                        [AInt max_page; AInt LE_FEATURE_PAGE_MAX]))
  else Ok (8 + 24 * max_page).

Section single.
Context {T : Type} `{!Transport T}.
Abbreviation D := (M (dev (T:=T))).

Definition read_all_local_features : D (Z * bytes) :=
  r ← Hci.command OP_LE_READ_ALL_LOCAL_FEATURES [] true;
  check_status "LE Read All Local Supported Features" (fst r) ;;
  if negb (length (snd r) =? 249)%nat
  then raise (HciError (Fmt "LE Read All Local Supported Features returned %d bytes, expected 249"
                          [AInt (blen (snd r))]))
  else
    max_page ← lift (idx (snd r) 0);
    mret (max_page, drop 1 (snd r)).

(** (Max_Remote_Page, Max_Valid_Page, features). *)
Definition read_all_remote_features (handle : Z) (page0_expected : bytes) : D (Z * Z * bytes) :=
  payload ← lift (pack [FH handle; FB LE_REMOTE_FEATURE_PAGES_REQUESTED]);
  r ← Hci.command OP_LE_READ_ALL_REMOTE_FEATURES payload true;
  check_status "LE Read All Remote Features" (fst r) ;;
  b ← wait_le_subevent LE_READ_ALL_REMOTE_FEATURES_COMPLETE (Some handle) (Some 2%nat)
        (λ e, 4 <=? length e)%nat (seconds 8);
  body ← need_event "no LE Read All Remote Features Complete event" b;
  status ← lift (idx body 1);
  check_status "LE Read All Remote Features Complete" status ;;
  if (length body <? 254)%nat
  then raise (HciError (Fmt
    "LE Read All Remote Features Complete returned %d bytes, expected at least 254"
    [AInt (blen body)]))
  else
    max_remote_page ← lift (idx body 4);
    max_valid_page ← lift (idx body 5);
    let features := slice 6 254 body in
    if LE_FEATURE_PAGE_MAX <? max_remote_page
    then raise (HciError (Fmt "remote Max_Page %u exceeds Core maximum" [AInt max_remote_page]))
    else if max_remote_page <? max_valid_page
    then raise (HciError (Fmt "Max_Valid_Page %u exceeds Max_Remote_Page %u"
                            [AInt max_valid_page; AInt max_remote_page]))
    else if max_valid_page <? 1
    then raise (HciError (Lit "extended feature exchange did not retrieve page 1"))
    else if negb (bool_decide (take 8 features = page0_expected))
    then raise (HciError (Fmt "all-remote page 0 %s differs from LE Read Remote Features Page 0 %s"
                            [ABytes (take 8 features); ABytes page0_expected]))
    else mret (max_remote_page, max_valid_page, features).

Definition wait_frame_space (handle frame_space expected_initiator : Z) : D unit :=
  b ← wait_le_subevent LE_FRAME_SPACE_UPDATE_COMPLETE (Some handle) (Some 2%nat)
        (frame_space_is frame_space expected_initiator) (seconds 8);
  need_event "no matching LE Frame Space Update Complete event" b ;; skip.

Definition wait_frame_space_range (handle frame_space_min frame_space_max phys
    expected_initiator : Z) : D Z :=
  b ← wait_le_subevent LE_FRAME_SPACE_UPDATE_COMPLETE (Some handle) (Some 2%nat)
        (frame_space_matches frame_space_min frame_space_max phys expected_initiator) (seconds 8);
  body ← need_event "no matching LE Frame Space Update Complete event for SCI" b;
  lift (unpack_H (slice 5 7 body)).

Definition set_sci_host_support (enable : bool) : D unit :=
  payload ← lift (pack [FH SCI_HOST_SUPPORT_BIT; FB (if enable then 1 else 0)]);
  r ← Hci.command OP_LE_SET_HOST_FEATURE_V2 payload true;
  when (negb (fst r =? 0))
    (raise (HciError (Fmt "LE Set Host Feature v2 bit %u returned %s"
                        (AInt SCI_HOST_SUPPORT_BIT :: status_text (fst r))))).

Definition set_default_rate_parameters : D unit :=
  payload ← lift (rate_parameters None SCI_INTERVAL SCI_INTERVAL);
  r ← Hci.command OP_LE_SET_DEFAULT_RATE_PARAMETERS payload true;
  check_status "LE Set Default Rate Parameters" (fst r).

Definition wait_rate_change (handle : Z) : D unit :=
  b ← wait_le_subevent LE_CONNECTION_RATE_CHANGE (Some handle) (Some 2%nat) rate_matches (seconds 8);
  need_event "no matching LE Connection Rate Change event" b ;; skip.
End single.

(** ** Requests with a peer *)

Section requests.
Context {T1 T2 : Type} `{!Transport T1, !Transport T2} {L : Type}.
Abbreviation P X := (M (pair (T1:=T1) (T2:=T2) * book * L) X).

Section from.
Context {Ti Tp : Type} `{!Transport Ti, !Transport Tp}.
Context (initiator : ∀ X, M (dev (T:=Ti)) X → P X) (peer : ∀ X, M (dev (T:=Tp)) X → P X).

Definition frame_space_request (initiator_handle peer_handle frame_space : Z) : P unit :=
  payload ← lift (pack [FH initiator_handle; FH frame_space; FH frame_space;
                        FB FRAME_SPACE_PHY_1M; FH FRAME_SPACE_ACL_IFS]);
  r ← initiator _ (Hci.command OP_LE_FRAME_SPACE_UPDATE payload true);
  when (negb (fst r =? 0))
    (raise (HciError (Fmt "LE Frame Space Update returned %s" (status_text (fst r))))) ;;
  initiator _ (wait_frame_space initiator_handle frame_space 0) ;;
  peer _ (wait_frame_space peer_handle frame_space 2).

Definition frame_space_range_request (initiator_handle peer_handle frame_space_min
    frame_space_max phys : Z) : P Z :=
  payload ← lift (pack [FH initiator_handle; FH frame_space_min; FH frame_space_max;
                        FB phys; FH FRAME_SPACE_ACL_IFS]);
  r ← initiator _ (Hci.command OP_LE_FRAME_SPACE_UPDATE payload true);
  when (negb (fst r =? 0))
    (raise (HciError (Fmt "LE Frame Space Update for SCI returned %s" (status_text (fst r))))) ;;
  local_space ← initiator _ (wait_frame_space_range initiator_handle frame_space_min
                               frame_space_max phys 0);
  peer_space ← peer _ (wait_frame_space_range peer_handle frame_space_min frame_space_max phys 2);
  if negb (local_space =? peer_space)
  then raise (HciError (Fmt "SCI frame-space result differs across peers: %u vs %u us"
                          [AInt local_space; AInt peer_space]))
  else mret local_space.
End from.
End requests.

(** ** The phase *)

Definition steps : list (string * string) :=
  [("Core 6.0", "LE Read All Remote Features completion");
   ("Core 6.0", "Frame Space Update positive procedure");
   ("Core 6.2", "Connection Rate / Shorter Connection Intervals")]%string.

(** The handles, the sides whose host support is set ([sci_enabled]), and the
    step the phase is at. *)
Record core_locals : Type := CoreLocals {
  core_handles : option (Z * Z); sci_first : bool; sci_second : bool; current_step : nat }.

Definition set_core_handles h l := CoreLocals (Some h) (sci_first l) (sci_second l) (current_step l).
Definition set_sci_first l := CoreLocals (core_handles l) true (sci_second l) (current_step l).
Definition set_sci_second l := CoreLocals (core_handles l) (sci_first l) true (current_step l).
Definition set_step n l := CoreLocals (core_handles l) (sci_first l) (sci_second l) n.

Section phase.
Context {T1 T2 : Type} `{!Transport T1, !Transport T2}.
Abbreviation P X := (M (pair (T1:=T1) (T2:=T2) * book * core_locals) X).

(** The FAIL of the step that raised, INCOMPLETE for those behind it. *)
Definition fail_from (e : exn) : P unit :=
  l ← locals;
  match drop (current_step l) steps with
  | [] => skip
  | (group, name) :: rest =>
      record (failed group name (str e)) ;;
      for_each rest (λ s, record (incomplete (fst s) (snd s)
        (Lit "not reached after prior Core procedure failure")))
  end.

(** The first step: both sides' features, as each reads the other's. *)
Definition exchange_features (central_handle peripheral_handle central_local_max
    peripheral_local_max : Z) : P unit :=
  central_page0 ← first (read_remote_features central_handle);
  peripheral_page0 ← second (read_remote_features peripheral_handle);
  c ← first (read_all_remote_features central_handle central_page0);
  p ← second (read_all_remote_features peripheral_handle peripheral_page0);
  let '(c_max, c_valid, c_features) := (c : Z * Z * bytes) in
  let '(p_max, p_valid, p_features) := (p : Z * Z * bytes) in
  if negb (c_max =? peripheral_local_max)
  then raise (HciError (Fmt "Central sees peer Max_Page %u, Peripheral reports local Max_Page %u"
                          [AInt c_max; AInt peripheral_local_max]))
  else if negb (p_max =? central_local_max)
  then raise (HciError (Fmt "Peripheral sees peer Max_Page %u, Central reports local Max_Page %u"
                          [AInt p_max; AInt central_local_max]))
  else
    compare_len ← lift (valid_feature_bytes (Z.min c_valid p_valid));
    if negb (bool_decide (take (Z.to_nat compare_len) c_features
                          = take (Z.to_nat compare_len) p_features))
    then raise (HciError (Lit "reciprocal all-remote feature pages differ"))
    else record (passed "Core 6.0" "LE Read All Remote Features completion"
           (Fmt "Max_Page %u / Max_Valid_Page %u" [AInt c_max; AInt c_valid])).

(** The second step: each side changes the frame space. *)
Definition exchange_frame_space (central_handle peripheral_handle : Z) : P unit :=
  frame_space_request (λ _, first) (λ _, second) central_handle peripheral_handle FRAME_SPACE_1M ;;
  frame_space_request (λ _, second) (λ _, first) peripheral_handle central_handle
    FRAME_SPACE_DEFAULT ;;
  record (passed "Core 6.0" "Frame Space Update positive procedure"
    (Lit "Central 200 us, Peripheral restore 150 us")).

(** The third step: the shortest interval, on LE 2M with a reduced space. *)
Definition shorten_interval (central_handle peripheral_handle : Z) : P unit :=
  second (set_phy peripheral_handle PHY_2M) ;;
  sci_frame_space ← frame_space_range_request (λ _, second) (λ _, first) peripheral_handle
    central_handle 0 FRAME_SPACE_DEFAULT FRAME_SPACE_PHY_2M;
  payload ← lift (rate_parameters (Some peripheral_handle) SCI_INTERVAL SCI_REQUEST_MAX_INTERVAL);
  r ← second (Hci.command OP_LE_CONNECTION_RATE_REQUEST payload true);
  when (negb (fst r =? 0))
    (raise (HciError (Fmt "LE Connection Rate Request returned %s" (status_text (fst r))))) ;;
  second (wait_rate_change peripheral_handle) ;;
  first (wait_rate_change central_handle) ;;
  record (passed "Core 6.2" "Connection Rate / Shorter Connection Intervals"
    (Fmt "750 us, subrate 1, 2M PHY, %u us frame space" [AInt sci_frame_space])).

(** What comes before the first step's procedures. *)
Definition core_setup : P (Z * Z * (Z * Z)) :=
  p ← second (prepare_controller DEFAULT_LE_EVENT_MASK);
  let '(peripheral_id, peripheral_type, _) := (p : bytes * Z * id_source) in
  c ← first (prepare_controller DEFAULT_LE_EVENT_MASK);
  let '(_, central_type, _) := (c : bytes * Z * id_source) in
  first (set_sci_host_support true) ;;
  note set_sci_first ;;
  first set_default_rate_parameters ;;
  second (set_sci_host_support true) ;;
  note set_sci_second ;;
  second set_default_rate_parameters ;;
  cl ← first read_all_local_features;
  pl ← second read_all_local_features;
  second (start_legacy_advertising peripheral_id peripheral_type true) ;;
  first (start_legacy_connection central_type peripheral_id peripheral_type) ;;
  h ← on_pair (wait_acl_pair (seconds 10));
  note (set_core_handles h) ;;
  mret (h, (fst cl, fst pl)).

Definition run_core_advanced_phase (label : string) : M (pair (T1:=T1) (T2:=T2) * book) unit :=
  phase_with (CoreLocals None false false 0)
    (x ← core_setup;
     let '(central_handle, peripheral_handle, (central_local_max, peripheral_local_max)) :=
       (x : Z * Z * (Z * Z)) in
     exchange_features central_handle peripheral_handle central_local_max peripheral_local_max ;;
     note (set_step 1) ;;
     exchange_frame_space central_handle peripheral_handle ;;
     note (set_step 2) ;;
     shorten_interval central_handle peripheral_handle ;;
     note (set_step 3))
    fail_from
    (l ← locals;
     if_some (core_handles l) (λ h, on_pair (disconnect_acl_pair (Some (fst h)) (Some (snd h)))) ;;
     when (sci_first l) (quietly (first (set_sci_host_support false))) ;;
     when (sci_second l) (quietly (second (set_sci_host_support false)))).
End phase.
