(* ===== verification/Recovery.v ===== *)
(** * Recovery: recovering from resets in advanced states
    (recovery_features.py)

    The advertiser is the first device of the pair, the scanner the second: it
    is the advertiser that becomes the central of the last connection. *)

From S2P Require Export Reassembly Phases.
#[local] Open Scope Z_scope.

Definition LE_PERIODIC_SYNC_LOST : Z := 0x10.
Definition RECOVERY_CID : Z := 0x0040.
(** b"HCI recovery ACL". *)
Definition RECOVERY_MARKER : bytes :=
  [72; 67; 73; 32; 114; 101; 99; 111; 118; 101; 114; 121; 32; 65; 67; 76].

(** The Sync Lost event of the sync. *)
Definition match_lost (sync_handle : Z) (p : packet) : res (option unit) :=
  if is_event EVT_LE_META p && (3 <=? length (body p))%nat
     && bool_decide (head (body p) = Some LE_PERIODIC_SYNC_LOST) then
    got ← unpack_H (slice 1 3 (body p));
    Ok (if mask12 got =? sync_handle then Some tt else None)
  else Ok None.

Definition wait_sync_lost {T} `{!Transport T} (sync_handle timeout : Z) : M (dev (T:=T)) unit :=
  r ← wait_for (match_lost sync_handle) timeout;
  match r with
  | Some _ => skip
  | None => raise (HciError (Lit "timed out waiting for Periodic Advertising Sync Lost"))
  end.

Record recovery_locals : Type := RecoveryLocals {
  rec_sync : option Z; rec_handles : option (Z * Z); rec_step : string }.

Definition set_rec_sync v l := RecoveryLocals v (rec_handles l) (rec_step l).
Definition set_rec_handles v l := RecoveryLocals (rec_sync l) v (rec_step l).
Definition set_rec_step v l := RecoveryLocals (rec_sync l) (rec_handles l) v.

Section recovery.
Context {T1 T2 : Type} `{!Transport T1, !Transport T2}.
Abbreviation P X := (M (pair (T1:=T1) (T2:=T2) * book * recovery_locals) X).

(** [_sync_once]. *)
Definition sync_once (adv_id : bytes) (adv_type : Z) : P Z :=
  second (create_periodic_sync adv_id adv_type ADV_SID_PERIODIC false) ;;
  s ← second (wait_sync_established None (seconds 10) false false);
  second (wait_periodic_report (fst s) PERIODIC_MARKER (seconds 8) false) ;;
  mret (fst s).

(** The two syncs the advertiser's first train allows; its address comes
    with them. *)
Definition sync_around_scanner_reset : P unit :=
  a ← first (prepare_controller DEFAULT_LE_EVENT_MASK);
  let '(adv_id, adv_type, _) := (a : bytes * Z * id_source) in
  second (prepare_controller DEFAULT_LE_EVENT_MASK) ;;
  first (configure_periodic adv_type PERIODIC_MARKER) ;;
  first start_periodic ;;
  sync ← sync_once adv_id adv_type;
  note (set_rec_sync (Some sync)) ;;
  note (set_rec_step "periodic sync after scanner reset") ;;
  second (prepare_controller DEFAULT_LE_EVENT_MASK) ;;
  note (set_rec_sync None) ;;
  sync ← sync_once adv_id adv_type;
  note (set_rec_sync (Some sync)).

(** The advertiser is reset: its train ends, and a new one is synced to. *)
Definition sync_after_advertiser_reset : P unit :=
  note (set_rec_step "periodic sync lost after advertiser reset") ;;
  l ← locals;
  a ← first (prepare_controller DEFAULT_LE_EVENT_MASK);
  let '(adv_id, adv_type, _) := (a : bytes * Z * id_source) in
  second (wait_sync_lost (default 0 (rec_sync l)) (seconds 7)) ;;
  note (set_rec_sync None) ;;
  note (set_rec_step "periodic sync after advertiser reset") ;;
  first (configure_periodic adv_type PERIODIC_MARKER) ;;
  first start_periodic ;;
  sync ← sync_once adv_id adv_type;
  note (set_rec_sync (Some sync)) ;;
  second (terminate_sync sync) ;;
  note (set_rec_sync None) ;;
  first stop_periodic.

Definition reconnect_after_resets : P unit :=
  note (set_rec_step "ACL recovery after advanced-state resets") ;;
  p ← second (prepare_controller DEFAULT_LE_EVENT_MASK);
  let '(peripheral_id, peripheral_type, _) := (p : bytes * Z * id_source) in
  c ← first (prepare_controller DEFAULT_LE_EVENT_MASK);
  let '(_, central_type, _) := (c : bytes * Z * id_source) in
  second (start_legacy_advertising peripheral_id peripheral_type true) ;;
  first (start_legacy_connection central_type peripheral_id peripheral_type) ;;
  h ← on_pair (wait_acl_pair (seconds 10));
  note (set_rec_handles (Some h)) ;;
  first (send_acl (fst h) RECOVERY_CID RECOVERY_MARKER) ;;
  got ← second (Reassembly.wait_acl_marker (snd h) RECOVERY_CID RECOVERY_MARKER (seconds 5));
  when (negb (fst got)) (raise (HciError (Lit "ACL marker missing after advanced-state recovery"))).

Definition run_recovery_phase (label : string) : M (pair (T1:=T1) (T2:=T2) * book) unit :=
  phase_with (RecoveryLocals None None "initial periodic sync")
    (sync_around_scanner_reset ;;
     sync_after_advertiser_reset ;;
     reconnect_after_resets ;;
     record (passed "Recovery" "reset/reconnect after active advanced procedures"
       (Fmt "%s scanner reset + advertiser reset + ACL recovery" [AStr label])))
    (λ e, l ← locals;
       record (failed "Recovery" "reset/reconnect after active advanced procedures"
         (Fmt ("%s: " ++ fmt (str e)) (AStr (rec_step l) :: fargs (str e)))))
    (l ← locals;
     if_some (rec_handles l) (λ h, on_pair (disconnect_acl_pair (Some (fst h)) (Some (snd h)))) ;;
     if_some (rec_sync l) (λ h, second (terminate_sync h)) ;;
     first stop_periodic).
End recovery.
