(* ===== verification/Core54.v ===== *)
(** * Core54: Bluetooth 5.4 advertising (core54_features.py) and capability
    reads (profile.py)

    The profile a controller advertises, the reports of coded advertising, and
    the phases that check both. The random token of a case ([secrets]) is an
    argument of its phase. *)

From S2P Require Export Phases.
#[local] Open Scope Z_scope.

(** ** Reading what a controller supports (profile.py) *)

Definition OP_READ_CONN_ACCEPT_TIMEOUT : Z := 0x0C15.
Definition OP_WRITE_CONN_ACCEPT_TIMEOUT : Z := 0x0C16.
Definition OP_READ_LOCAL_VERSION : Z := 0x1001.
Definition OP_READ_LOCAL_SUPPORTED_COMMANDS : Z := 0x1002.
Definition OP_LE_READ_LOCAL_SUPPORTED_FEATURES : Z := 0x2003.
Definition OP_LE_READ_SUPPORTED_STATES : Z := 0x201C.
Definition OP_LE_READ_ALL_LOCAL_SUPPORTED_FEATURES : Z := 0x2087.
Definition OP_LE_READ_MIN_SUPPORTED_CONN_INTERVAL : Z := 0x20A3.

(** [data[i] & (1 << bit)], for [i] in range. *)
Definition bit_of (data : bytes) (i : nat) (bit : Z) : bool :=
  match data !! i with Some b => Z.testbit b bit | None => false end.

Definition command_supported (commands : bytes) (octet : nat) (bit : Z) : bool :=
  (octet <? length commands)%nat && bit_of commands octet bit.

Record capabilities : Type := Capabilities {
  version : bytes; commands : bytes; features : bytes; states : option bytes;
  all_local_features : option bytes; minimum_connection_interval : option bytes;
  connection_accept_timeout : option bytes }.

Section capabilities.
Context {T : Type} `{!Transport T}.
Abbreviation D := (M (dev (T:=T))).

(** A read the capabilities cannot do without. *)
Definition must_read (opcode : Z) (name : string) : D bytes :=
  r ← Hci.command opcode [] true;
  if negb (fst r =? 0)
  then raise (RuntimeError (Fmt (name ++ " failed with 0x%02X") [AInt (fst r)]))
  else mret (snd r).

(** One whose failure leaves [None]. *)
Definition may_read (opcode : Z) : D (option bytes) :=
  r ← Hci.command opcode [] true;
  mret (if fst r =? 0 then Some (snd r) else None).

(** The accept timeout is read and written back. *)
Definition accept_timeout : D (option bytes) :=
  r ← Hci.command OP_READ_CONN_ACCEPT_TIMEOUT [] true;
  let '(status, data) := (r : Z * bytes) in
  if (status =? 0) && (length data =? 2)%nat then
    w ← Hci.command OP_WRITE_CONN_ACCEPT_TIMEOUT data true;
    mret (if (fst w =? 0) && bool_decide (snd w = []) then Some data else None)
  else mret None.

Definition read_controller_capabilities (reset : bool) : D capabilities :=
  when reset (Hci.command OP_RESET [] false ;; skip) ;;
  version ← must_read OP_READ_LOCAL_VERSION "Read Local Version";
  commands ← must_read OP_READ_LOCAL_SUPPORTED_COMMANDS "Read Local Supported Commands";
  features ← must_read OP_LE_READ_LOCAL_SUPPORTED_FEATURES "LE Read Local Supported Features";
  states ← may_read OP_LE_READ_SUPPORTED_STATES;
  all_local ← (if command_supported commands 47 2
               then may_read OP_LE_READ_ALL_LOCAL_SUPPORTED_FEATURES else mret None);
  interval ← (if command_supported commands 48 7
              then may_read OP_LE_READ_MIN_SUPPORTED_CONN_INTERVAL else mret None);
  timeout ← (if command_supported commands 7 2 && command_supported commands 7 3
             then accept_timeout else mret None);
  mret (Capabilities version commands features states all_local interval timeout).
End capabilities.

(** ** The 5.4 profile *)

Definition OP_EXT_ADV_PARAMS_V2 : Z := 0x207F.
Definition OP_SET_HOST_FEATURE : Z := 0x2074.
Definition CORE54_VERSION : Z := 0x0D.

Definition REQUIRED_FEATURES : list (Z * string) :=
  [(40, "Advertising Coding Selection"); (43, "PAwR Advertiser"); (44, "PAwR Scanner")]%string.

Definition REQUIRED_COMMANDS : list (nat * Z * Z * string) :=
  [(44%nat, 1, 0x2074, "LE Set Host Feature");
   (46%nat, 2, 0x207F, "LE Set Extended Advertising Parameters v2");
   (46%nat, 5, 0x2082, "LE Set Periodic Advertising Subevent Data");
   (46%nat, 6, 0x2083, "LE Set Periodic Advertising Response Data");
   (46%nat, 7, 0x2084, "LE Set Periodic Sync Subevent");
   (47%nat, 0, 0x2085, "LE Extended Create Connection v2");
   (47%nat, 1, 0x2086, "LE Set Periodic Advertising Parameters v2")]%string.

Definition EAD_SAMPLE : bytes :=
  [24; 225; 87; 202; 222; 116; 228; 220; 175; 220; 81; 199; 40; 40; 16; 194; 33; 127; 14; 76; 239; 67; 67; 24; 31; 186; 0; 105; 204].

Definition version_errors (v : bytes) : list text :=
  if (length v <? 8)%nat || (default 0 (v !! 0%nat) <? CORE54_VERSION)
     || (default 0 (v !! 3%nat) <? CORE54_VERSION)
  then [Fmt "Core version is below 5.4: %s" [ABytes v]] else [].

Definition feature_errors (fs : bytes) : list text :=
  if negb (length fs =? 8)%nat
  then [Fmt "LE Supported Features is %u octets, expected 8" [AInt (blen fs)]]
  else omap (λ '(bit, name),
         if bit_of fs (Z.to_nat (bit / 8)) (bit mod 8) then None
         else Some (Fmt "%s feature bit %u is clear" [AStr name; AInt bit])) REQUIRED_FEATURES.

Definition command_errors (cs : bytes) : list text :=
  if negb (length cs =? 64)%nat
  then [Fmt "Supported Commands is %u octets, expected 64" [AInt (blen cs)]]
  else omap (λ '(octet, bit, opcode, name),
         if bit_of cs octet bit then None
         else Some (Fmt "%s (0x%04X) missing from Supported Commands" [AStr name; AInt opcode]))
         REQUIRED_COMMANDS.

Definition profile54_errors (c : capabilities) : list text :=
  version_errors (version c) ++ feature_errors (features c) ++ command_errors (commands c).

(** ['; '.join(errors)]. *)
Definition join_errors (es : list text) : text :=
  Fmt (String.concat "; " (fmt <$> es)) (concat (fargs <$> es)).

(** ** Coded advertising *)

Definition advertising_params (addr_type option_ : Z) : res bytes :=
  payload ← ext_adv_params 0 addr_type 0 0;
  let phy := if option_ =? 0 then 1 else 3 in
  tail ← mkbytes [option_; option_];
  Ok (<[20%nat := phy]> (<[22%nat := phy]> payload) ++ tail).

(** A report: event type flags, address type, address, PHYs, SID, data. *)
Record report54 : Type := Report54 {
  x_flags : Z; x_kind : Z; x_addr : bytes; x_primary : Z; x_secondary : Z; x_sid : Z; x_data : bytes }.

Fixpoint reports54_from (n : nat) (body : bytes) (at_ : nat) : res (list report54) :=
  match n with
  | O => if negb (at_ =? length body)%nat
         then Exc (HciError (Lit "trailing extended advertising data")) else Ok []
  | S n' =>
      if (length body <? at_ + 24)%nat
      then Exc (HciError (Lit "short extended advertising report"))
      else
        len ← idx body (at_ + 23);
        let end_ := (at_ + 24 + Z.to_nat len)%nat in
        if (length body <? end_)%nat
        then Exc (HciError (Lit "truncated extended advertising data"))
        else
          kind ← idx body (at_ + 2);
          primary ← idx body (at_ + 9);
          secondary ← idx body (at_ + 10);
          sid ← idx body (at_ + 11);
          rest ← reports54_from n' body end_;
          Ok (Report54 (le_Z (slice at_ (at_ + 2) body)) kind (slice (at_ + 3) (at_ + 9) body)
                primary secondary sid (slice (at_ + 24) end_ body) :: rest)
  end.

(** [reports]. *)
Definition reports54 (body : bytes) : res (list report54) :=
  match body with
  | sub :: tail =>
      if negb (sub =? LE_EXTENDED_ADVERTISING_REPORT) then Ok []
      else match tail with
           | [] => Exc (HciError (Lit "short extended advertising event"))
           | n :: _ => reports54_from (Z.to_nat n) body 2
           end
  | [] => Ok []
  end.

Definition is_awaited (address : bytes) (addr_type : Z) (payload : bytes) (r : report54) : bool :=
  (x_kind r =? addr_type) && bool_decide (x_addr r = address) && (x_sid r =? 0)
  && bool_decide (x_data r = payload).

Section observe.
Context {T : Type} `{!Transport T}.
Abbreviation D := (M (dev (T:=T))).

(** The first report of the awaited advertisement decides. *)
Definition observe54_step (address : bytes) (addr_type : Z) (payload : bytes) (phy : Z)
    (_ : unit) (p : packet) : D (unit + unit) :=
  if negb (is_event EVT_LE_META p) then mret (inl tt)
  else
    rs ← lift (reports54 (body p));
    match List.find (is_awaited address addr_type payload) rs with
    | None => mret (inl tt)
    | Some r =>
        if negb (Z.land (x_flags r) 0x60 =? 0)
        then raise (HciError (Lit "advertising data was fragmented or truncated"))
        else if negb (x_primary r =? phy) || negb (x_secondary r =? phy)
        then raise (HciError (Fmt "unexpected advertising PHY: %u/%u, expected %u"
               [AInt (x_primary r); AInt (x_secondary r); AInt phy]))
        else mret (inr tt)
    end.

(** [observe]. *)
Definition observe54 (address : bytes) (addr_type : Z) (payload : bytes) (phy timeout : Z) : D unit :=
  r ← poll short_wait (observe54_step address addr_type payload phy) (ms 200) timeout tt;
  match r with
  | inr _ => skip
  | inl _ => raise (HciError (Lit "no matching complete advertisement from the selected peer"))
  end.

(** [_command_ok] without a name. *)
Definition command_ok_unnamed (opcode : Z) (payload : bytes) : D bytes :=
  r ← Hci.command opcode payload true;
  if negb (fst r =? 0)
  then raise (HciError (Fmt "opcode 0x%04X returned %s" (AInt opcode :: status_text (fst r))))
  else mret (snd r).
End observe.

(** ** The phases *)

Section phases.
Context {T1 T2 : Type} `{!Transport T1, !Transport T2}.
Abbreviation P X := (M (pair (T1:=T1) (T2:=T2) * book * unit) X).

(** The profile row of one controller. *)
Definition profile_row (label : string) (read : P capabilities) : P unit :=
  try_except any_error
    (c ← read;
     match profile54_errors c with
     | [] => record (passed "Bluetooth 5.4 profile" label (Lit ""))
     | es => record (failed "Bluetooth 5.4 profile" label (join_errors es))
     end)
    (λ e, record (failed "Bluetooth 5.4 profile" label (str e))).

Definition run_profile54_phase : M (pair (T1:=T1) (T2:=T2) * book) unit :=
  plain (profile_row "A" (first (read_controller_capabilities true)) ;;
         profile_row "B" (second (read_controller_capabilities true))).

(** (option, host support, expected PHY, name). *)
Definition advertising_cases : list (Z * bool * Z * string) :=
  [(0, true, 1, "EAD opaque transport / 1M");
   (3, true, 4, "required S=2 / host reporting enabled");
   (4, true, 3, "required S=8 / host reporting enabled");
   (3, false, 3, "S=2 / legacy coded reporting")]%string.

(** b'HCI54-' and the token's eight hexadecimal digits. *)
Definition token_of (hex : bytes) : bytes := [72; 67; 73; 53; 52; 45] ++ hex.

(** One case: the advertiser is the first device, the scanner the second. *)
Definition advertise_and_observe (option_ : Z) (host_support : bool) (phy : Z) (hex : bytes) : P unit :=
  a ← first (prepare_controller DEFAULT_LE_EVENT_MASK);
  let '(address, addr_type, _) := (a : bytes * Z * id_source) in
  s ← second (prepare_controller DEFAULT_LE_EVENT_MASK);
  let '(_, scan_type, _) := (s : bytes * Z * id_source) in
  second (command_ok_unnamed OP_SET_HOST_FEATURE [41; if host_support then 1 else 0]) ;;
  params ← lift (advertising_params addr_type option_);
  first (command_ok_unnamed OP_EXT_ADV_PARAMS_V2 params) ;;
  when (addr_type =? 1)
    (first (command_ok_unnamed OP_LE_SET_ADV_SET_RANDOM_ADDRESS ([0] ++ address)) ;; skip) ;;
  let token := token_of hex in
  h ← lift (mkbytes [blen token + 1; 0x09]);
  e ← lift (mkbytes [blen EAD_SAMPLE + 1; 0x31]);
  let data := h ++ token ++ e ++ EAD_SAMPLE in
  d ← lift (mkbytes [0; 3; 1; blen data]);
  first (command_ok_unnamed OP_LE_SET_EXT_ADV_DATA (d ++ data)) ;;
  c ← lift (mkbytes [scan_type; 0; if option_ =? 0 then 1 else 4; 0]);
  w ← lift (pack [FH 0x60; FH 0x60]);
  second (command_ok_unnamed OP_LE_SET_EXT_SCAN_PARAMS (c ++ w)) ;;
  second (set_sync_scan true false) ;;
  first (ext_adv_enable 0 true) ;;
  second (observe54 address addr_type data phy (seconds 8)).

(** A failed reset is a result of its own. *)
Definition reset_row (label name role : string) (reset : P bytes) : P unit :=
  try_except any_error (reset ;; skip)
    (λ e, record (failed ("Bluetooth 5.4 " ++ label) (name ++ " / " ++ role ++ " reset") (str e))).

Definition advertising_case (label : string) (hex : bytes) (c : Z * bool * Z * string) : P unit :=
  let '(option_, host_support, phy, name) := c in
  try_finally
    (try_except any_error
       (advertise_and_observe option_ host_support phy hex ;;
        record (passed ("Bluetooth 5.4 " ++ label) name (Lit "")))
       (λ e, record (failed ("Bluetooth 5.4 " ++ label) name (str e))))
    (reset_row label name "advertiser" (first (command_ok_unnamed OP_RESET [])) ;;
     reset_row label name "scanner" (second (command_ok_unnamed OP_RESET []))).

(** [hexes]: the tokens of the cases, in turn. *)
Definition run_advertising54_phase (label : string) (hexes : nat → bytes)
  : M (pair (T1:=T1) (T2:=T2) * book) unit :=
  plain (for_each (imap (λ i c, (i, c)) advertising_cases)
           (λ x, advertising_case label (hexes (fst x)) (snd x))).
End phases.
