(* ===== verification/PhasesLaws.v ===== *)
(** * PhasesLaws: what the release phases leave in the book *)

From S2P Require Export Logs ConnectedPair CoreAdvanced Recovery Core54.
#[local] Open Scope Z_scope.

(** ** The procedures on one controller end *)

Section ends.
Context {T : Type} `{Tr : !Transport T, TL : !TransportLaws T}.
Abbreviation some := (ends (T:=T) any_exn).

(** *** With fragments, and a busy controller *)

Lemma ends_marker handle cid payload timeout :
  some (Reassembly.wait_acl_marker handle cid payload timeout).
Proof.
  unfold Reassembly.wait_acl_marker. apply runs_bind_post; [apply _| |].
  - intros s Hs. pose proof (marker_poll_cases handle cid payload timeout s Hs) as H.
    destruct (poll _ _ _ _ _ s) as [r s1]. destruct H as (?&_&Hr). cbn. split_and!; try done; by intros ->.
  - intros r s s1 Hs Hs1 E. pose proof (marker_poll_cases handle cid payload timeout s Hs) as H.
    rewrite E in H. destruct H as (_&_&H). destruct r as [w|w].
    + destruct H as (ps&_&Hps&Hperm). rewrite Hperm in Hps.
      apply runs_bind; [apply _|ends_auto|intros n|done]. by apply ends_restored; [|ends_auto].
    + destruct H as (ps&frags&_&Hps&Hperm&_). rewrite Hperm in Hps.
      apply Forall_app in Hps as [_ Hps]. by apply ends_restored; [|ends_auto|].
Qed.

Lemma ends_received handle cid payload timeout : some (marker_received handle cid payload timeout).
Proof.
  unfold marker_received. apply runs_bind; [apply _|apply ends_marker|intros ?; ends_auto].
Qed.

Lemma ends_pause us : some (pause us).
Proof. by apply ends_own. Qed.
Hint Resolve ends_pause : ends.

Lemma ends_retry op payload n : some (command_status_retry op payload n).
Proof. induction n as [|n IH]; cbn [command_status_retry]; ends_auto. Qed.
Hint Resolve ends_marker ends_received ends_retry : ends.

Lemma ends_sequenced_power h : some (sequenced_power_control h).
Proof. unfold sequenced_power_control. ends_auto. Qed.

Lemma ends_request_phy h phy expected options : some (request_phy h phy expected options).
Proof. unfold request_phy. ends_auto. Qed.

Lemma ends_peer_phy h phy timeout : some (wait_peer_phy h phy timeout).
Proof. unfold wait_peer_phy. ends_auto. Qed.

Lemma ends_phy_exact h phy : some (read_phy_exact h phy).
Proof. unfold read_phy_exact. ends_auto. Qed.

(** *** Core 6.0 and 6.2 *)

Lemma rate_total h lo hi : rate_parameters h lo hi ≠ Stuck.
Proof. unfold rate_parameters. total. Qed.

Lemma ends_local_features : some read_all_local_features.
Proof. unfold read_all_local_features. ends_auto. Qed.

Lemma ends_all_remote h page0 : some (read_all_remote_features h page0).
Proof. unfold read_all_remote_features. ends_auto. Qed.

Lemma ends_frame_space h space initiator : some (wait_frame_space h space initiator).
Proof. unfold wait_frame_space. ends_auto. Qed.

Lemma ends_frame_range h lo hi phys initiator : some (wait_frame_space_range h lo hi phys initiator).
Proof. unfold wait_frame_space_range. ends_auto. Qed.

Lemma ends_sci_support b : some (set_sci_host_support b).
Proof. unfold set_sci_host_support. ends_auto. Qed.

Lemma ends_default_rate : some set_default_rate_parameters.
Proof. unfold set_default_rate_parameters, rate_parameters. ends_auto. Qed.

Lemma ends_rate_change h : some (wait_rate_change h).
Proof. unfold wait_rate_change. ends_auto. Qed.

(** *** Recovery *)

Lemma ends_lost h timeout : some (wait_sync_lost h timeout).
Proof.
  unfold wait_sync_lost. apply runs_bind; [apply _| |intros ?; ends_auto].
  apply ends_wait_for. intros p. unfold match_lost. decode.
Qed.

(** *** Core 5.4 *)

Lemma ends_capabilities b : some (read_controller_capabilities b).
Proof.
  unfold read_controller_capabilities, must_read, may_read, accept_timeout. ends_auto.
Qed.

(** Decoding that may also refuse what it read. *)
Definition refuses {A} (r : res A) : Prop := r ≠ Stuck ∧ ∀ e, r = Exc e → engine_exn e.

Lemma refuses_decodes {A} (r : res A) : decodes r → refuses r.
Proof. intros [? He]. split; [done|]. intros e ->. right. by apply He. Qed.
Lemma refuses_hci {A} t : refuses (A:=A) (Exc (HciError t)).
Proof. split; [done|]. intros ? [= <-]. by left. Qed.
Lemma refuses_bind {A B} (r : res A) (f : A → res B) :
  refuses r → (∀ a, refuses (f a)) → refuses (r ≫= f).
Proof. intros [Hs He] Hf. destruct r; [apply Hf|split; [done|intros ? [= <-]; by apply He]|done]. Qed.

Lemma reports54_from_refuses n b at_ : refuses (reports54_from n b at_).
Proof.
  revert at_. induction n as [|n IH]; intros at_; cbn [reports54_from].
  { case_match; [apply refuses_hci|by apply refuses_decodes, decodes_ok]. }
  case_match; [apply refuses_hci|]. apply refuses_bind; [apply refuses_decodes; decode|intros len].
  case_match; [apply refuses_hci|].
  repeat (apply refuses_bind; [solve [apply refuses_decodes; decode|apply IH]|intros ?]).
  apply refuses_decodes, decodes_ok.
Qed.

Lemma reports54_refuses b : refuses (reports54 b).
Proof.
  unfold reports54. repeat case_match;
    solve [apply refuses_hci|apply refuses_decodes, decodes_ok|apply reports54_from_refuses].
Qed.

Lemma ends_observe54 addr ty payload phy timeout : some (observe54 addr ty payload phy timeout).
Proof.
  unfold observe54. apply runs_bind; [apply _| |intros ?; ends_auto].
  apply ends_poll; [done|unfold short_wait, ms; lia|]. intros R ? [] p Hp. unfold observe54_step.
  destruct (negb _); [by apply runs_ret, _|].
  apply runs_bind; [apply _|by apply runs_lift; [apply _|apply reports54_refuses..]|intros rs].
  repeat case_match; solve [by apply runs_ret, _ | by apply runs_raise; [apply _|left]].
Qed.

Lemma ends_unnamed op payload : some (command_ok_unnamed op payload).
Proof. unfold command_ok_unnamed. ends_auto. Qed.
End ends.

#[export] Hint Resolve ends_marker ends_received ends_sequenced_power ends_request_phy
  ends_peer_phy ends_phy_exact ends_local_features ends_all_remote ends_frame_space
  ends_frame_range ends_sci_support ends_default_rate ends_rate_change ends_lost
  ends_capabilities ends_observe54 ends_unnamed : ends.

(** ** The phases *)

Section phases.
Context {T1 T2 : Type} `{Tr1 : !Transport T1, Tr2 : !Transport T2}.
Context `{TL1 : !TransportLaws T1, TL2 : !TransportLaws T2}.

(** The phases over two controllers. The tokens of the advertising cases are
    random bytes of the release. *)
Inductive release_phase : Type :=
  | PeriodicSyncPhase | PastPhase | ConnectedPhase | SubratePhase | BisPhase
  | ConnectedPairPhase | CoreAdvancedPhase | RecoveryPhase | Profile54Phase
  | Advertising54Phase (hexes : nat → bytes).

Definition run_phase (p : release_phase) (label : string)
  : M (pair (T1:=T1) (T2:=T2) * book) unit :=
  match p with
  | PeriodicSyncPhase => run_periodic_sync_phase label
  | PastPhase => run_past_phase label
  | ConnectedPhase => run_connected_feature_phase label
  | SubratePhase => run_subrate_phase label
  | BisPhase => run_bis_phase label
  | ConnectedPairPhase => run_connected_pair_phase label
  | CoreAdvancedPhase => run_core_advanced_phase label
  | RecoveryPhase => run_recovery_phase label
  | Profile54Phase => run_profile54_phase
  | Advertising54Phase hexes => run_advertising54_phase label hexes
  end.

(** *** Their rows *)

Definition acl_rows (label : string) : list row_id :=
  [("ACL roles", label); ("ACL data", label ++ " central -> peripheral");
   ("ACL data", label ++ " peripheral -> central")]%string.
Definition side_rows (label side : string) : list row_id :=
  [("Connection", label ++ " " ++ side ++ " RSSI");
   ("Connection", label ++ " " ++ side ++ " remote features")]%string.
Definition sca_rows (label side : string) : list row_id :=
  [("SCA", label ++ " " ++ side ++ " request");
   ("Power control", label ++ " " ++ side)]%string.
Definition round_trip_rows (label : string) : list row_id :=
  [("PHY", label ++ " peripheral request 2M"); ("PHY", label ++ " return to 1M");
   ("PHY", label ++ " Coded S=2 preference"); ("PHY", label ++ " Coded S=8 preference")]%string.
Definition case_rows (label : string) : list row_id :=
  (λ c : Z * bool * Z * string, (("Bluetooth 5.4 " ++ label)%string, snd c)) <$> advertising_cases.

Definition phase_rows (p : release_phase) (label : string) : list row_id :=
  match p with
  | PeriodicSyncPhase => [("Periodic advertising", "Advertiser -> periodic sync")]%string
  | PastPhase => [("PAST", "sender and receiver")]%string
  | ConnectedPhase =>
      acl_rows label ++ side_rows label "Central" ++ side_rows label "Peripheral"
      ++ [("DLE", label); ("PHY", label ++ " 2M"); ("PHY", label ++ " return to 1M")]%string
      ++ sca_rows label "Central" ++ sca_rows label "Peripheral"
      ++ [("Path loss", label ++ " threshold event")]%string
  | SubratePhase => [("Connection subrating", label)]%string
  | BisPhase => [("ISO", "BIS Source -> Sink")]%string
  | ConnectedPairPhase =>
      acl_rows label ++ side_rows label "Central" ++ side_rows label "Peripheral"
      ++ [("DLE", label)]%string ++ round_trip_rows label
      ++ sca_rows label "Central" ++ sca_rows label "Peripheral"
      ++ [("Path loss", label ++ " configuration"); ("Path loss", label ++ " threshold event")]%string
  | CoreAdvancedPhase => steps
  | RecoveryPhase => [("Recovery", "reset/reconnect after active advanced procedures")]%string
  | Profile54Phase => [("Bluetooth 5.4 profile", "A"); ("Bluetooth 5.4 profile", "B")]%string
  | Advertising54Phase _ => case_rows label
  end.

(** A phase meets its contract. *)
Definition narrates (p : release_phase) : Prop :=
  ∀ label, phase_ok (phase_rows p label) (run_phase p label).

(** The rule for sequences where no condition is kept on the locals. *)
Abbreviation free := (λ _, True).
Abbreviation then_rows ns := (logs_bind free any_exn ns).

Lemma periodic_sync_narrates : narrates PeriodicSyncPhase.
Proof. intros label. apply phase_is_ok; [narrate|silent]. Qed.

Lemma past_narrates : narrates PastPhase.
Proof. intros label. apply phase_is_ok; [narrate|silent]. Qed.

Lemma subrate_narrates : narrates SubratePhase.
Proof. intros label. apply phase_is_ok; [narrate|silent]. Qed.

Lemma bis_narrates : narrates BisPhase.
Proof. intros label. apply phase_is_ok; [unfold bis_sync, bis_data; narrate|silent]. Qed.

(** *** On a live connection *)

Section rows.
Context {L : Type} (Φ : L → Prop).
Abbreviation P X := (M (pair (T1:=T1) (T2:=T2) * book * L) X).

Lemma connect_pair_logs notes :
  (∀ h l, Φ l → Φ (notes h l)) → logs Φ any_exn [] (connect_pair notes : P _).
Proof. intros Hn. unfold connect_pair. silent. Qed.

Lemma acl_data_logs n sent arrived :
  logs Φ any_exn [] sent → logs Φ any_exn [] arrived →
  logs Φ any_exn [("ACL data"%string, n)] (acl_data n sent arrived : P unit).
Proof.
  intros Hs Ha. unfold acl_data. apply logs_then; [exact Hs|intros _].
  apply logs_then; [exact Ha|intros []]; narrate.
Qed.

Section side.
Context {T : Type} `{Tr : !Transport T, TL : !TransportLaws T}.
Context (on : ∀ X, M (dev (T:=T)) X → P X).
Hypothesis Hon : ∀ X (m : M (dev (T:=T)) X), ends any_exn m → logs Φ any_exn [] (on X m).

Lemma link_rows_logs label side h : logs Φ any_exn (side_rows label side) (link_rows on label side h).
Proof.
  unfold link_rows. eapply (logs_bind Φ _ [_] [_]); [|intros _]; apply logs_row, Hon; auto with ends.
Qed.

Lemma power_rows_logs label side h : logs Φ any_exn (sca_rows label side) (power_rows on label side h).
Proof.
  unfold power_rows. eapply (logs_bind Φ _ [_] [_]); [|intros _]; apply logs_row, Hon; auto with ends.
Qed.

Lemma sca_and_power_rows_logs label side h :
  logs Φ any_exn (sca_rows label side) (sca_and_power_rows on label side h).
Proof.
  unfold sca_and_power_rows.
  eapply (logs_bind Φ _ [_] [_]); [|intros _]; apply logs_row, Hon; auto with ends.
Qed.
End side.

Lemma set_both_phys_logs label c p :
  logs Φ any_exn [("PHY", label ++ " 2M")%string; ("PHY", label ++ " return to 1M")%string]
    (set_both_phys label c p : P unit).
Proof. unfold set_both_phys. apply logs_except with any_exn; [narrate|done]. Qed.

Lemma path_loss_row_logs label c :
  logs Φ any_exn [("Path loss", label ++ " threshold event")%string] (path_loss_row label c : P unit).
Proof.
  unfold path_loss_row. apply logs_except with any_exn; [|done].
  apply logs_then; [silent|intros []]; narrate.
Qed.

Lemma path_loss_rows_logs label c :
  logs Φ any_exn [("Path loss", label ++ " configuration")%string;
                  ("Path loss", label ++ " threshold event")%string] (path_loss_rows label c : P unit).
Proof.
  unfold path_loss_rows. apply logs_except with any_exn; [|done].
  apply logs_then; [silent|intros []]; narrate.
Qed.

Lemma coded_phy_logs label c p options name :
  logs Φ any_exn [("PHY", (label ++ " Coded " ++ name)%string)]
    (run_coded_phy label c p options name : P unit).
Proof. unfold run_coded_phy, verify_acl_on_phy. narrate. Qed.
Hint Extern 1 (logs _ _ _ (run_coded_phy _ _ _ _ _)) => apply coded_phy_logs : rows.

Lemma round_trip_logs label c p :
  logs Φ any_exn (round_trip_rows label) (run_phy_round_trip label c p : P unit).
Proof. unfold run_phy_round_trip. narrate. Qed.
End rows.

Lemma on_first {L} (Φ : L → Prop) X (m : M (dev (T:=T1)) X) :
  ends any_exn m → logs (T2:=T2) Φ any_exn [] (first m).
Proof. apply logs_first. Qed.
Lemma on_second {L} (Φ : L → Prop) X (m : M (dev (T:=T2)) X) :
  ends any_exn m → logs (T1:=T1) Φ any_exn [] (second m).
Proof. apply logs_second. Qed.
Hint Resolve on_first on_second : ends.

Lemma connected_narrates : narrates ConnectedPhase.
Proof.
  intros label. apply phase_is_ok; [|silent].
  apply logs_then; [by apply connect_pair_logs|intros [c p]].
  eapply (then_rows [_]); [by apply logs_add|intros _].
  apply logs_then; [silent|intros ?]. eapply (then_rows [_]); [apply acl_data_logs; silent|intros _].
  apply logs_then; [silent|intros ?]. eapply (then_rows [_]); [apply acl_data_logs; silent|intros _].
  apply (then_rows (side_rows label "Central")); [apply link_rows_logs; [apply _|apply on_first]|intros _].
  apply (then_rows (side_rows label "Peripheral")); [apply link_rows_logs; [apply _|apply on_second]|intros _].
  eapply (then_rows [_]); [apply logs_row; silent|intros _].
  eapply (then_rows [_; _]); [apply set_both_phys_logs|intros _].
  apply (then_rows (sca_rows label "Central")); [apply power_rows_logs; [apply _|apply on_first]|intros _].
  apply (then_rows (sca_rows label "Peripheral")); [apply power_rows_logs; [apply _|apply on_second]|intros _].
  apply path_loss_row_logs.
Qed.

Lemma connected_pair_narrates : narrates ConnectedPairPhase.
Proof.
  intros label. apply phase_is_ok; [|silent].
  apply logs_then; [by apply connect_pair_logs|intros [c p]].
  eapply (then_rows [_]); [by apply logs_add|intros _].
  apply logs_then; [silent|intros ?]. eapply (then_rows [_]); [apply acl_data_logs; silent|intros _].
  apply logs_then; [silent|intros ?]. eapply (then_rows [_]); [apply acl_data_logs; silent|intros _].
  apply (then_rows (side_rows label "Central")); [apply link_rows_logs; [apply _|apply on_first]|intros _].
  apply (then_rows (side_rows label "Peripheral")); [apply link_rows_logs; [apply _|apply on_second]|intros _].
  eapply (then_rows [_]); [apply logs_row; silent|intros _].
  apply (then_rows (round_trip_rows label));
    [apply logs_except with any_exn; [apply round_trip_logs|done]|intros _].
  apply (then_rows (sca_rows label "Central")); [apply sca_and_power_rows_logs; [apply _|apply on_first]|intros _].
  apply (then_rows (sca_rows label "Peripheral")); [apply sca_and_power_rows_logs; [apply _|apply on_second]|intros _].
  apply path_loss_rows_logs.
Qed.

(** *** Core 6.0 and 6.2 *)

(** While the phase runs, a step is left for the handler to fail. *)
Definition on_a_step (l : core_locals) : Prop := (current_step l < 3)%nat.

Lemma fail_from_fails e : fails (T1:=T1) (T2:=T2) on_a_step not_hci (fail_from e).
Proof.
  intros ns s Hs Hl. unfold fail_from, locals, gets, mbind at 1, M_bind at 1. cbn [fst snd].
  assert (Hd : ∃ st rest, drop (current_step (snd s)) steps = st :: rest).
  { unfold on_a_step in Hl. destruct (current_step (snd s)) as [|[|[|?]]]; cbn; [by eauto..|lia]. }
  destruct Hd as ([g n]&rest&->).
  refine (fails_before on_a_step not_hci (record (failed g n (str e))) _
    (concat ((λ x : string * string, [x]) <$> rest)) _ _ ns s Hs Hl); [apply fails_record|intros _].
  apply logs_for_each. intros [? ?] _. by apply logs_add.
Qed.

Lemma core_setup_logs : logs (T1:=T1) (T2:=T2) on_a_step any_exn [] core_setup.
Proof. unfold core_setup, on_a_step. silent. Qed.

Lemma exchange_features_logs ch ph cm pm :
  logs (T1:=T1) (T2:=T2) on_a_step any_exn
    [("Core 6.0", "LE Read All Remote Features completion")]%string
    (exchange_features ch ph cm pm).
Proof.
  unfold exchange_features. narrate. do 2 (destruct (negb _); [by apply logs_raise|]).
  apply logs_then; [apply logs_lift; unfold valid_feature_bytes; by case_match|intros ?].
  destruct (negb _); [by apply logs_raise|by apply logs_add].
Qed.

Lemma exchange_frame_space_logs ch ph :
  logs (T1:=T1) (T2:=T2) on_a_step any_exn
    [("Core 6.0", "Frame Space Update positive procedure")]%string (exchange_frame_space ch ph).
Proof. unfold exchange_frame_space, frame_space_request. narrate. Qed.

Lemma shorten_interval_logs ch ph :
  logs (T1:=T1) (T2:=T2) on_a_step any_exn
    [("Core 6.2", "Connection Rate / Shorter Connection Intervals")]%string (shorten_interval ch ph).
Proof. unfold shorten_interval, frame_space_range_request, rate_parameters. narrate. Qed.

Lemma core_advanced_narrates : narrates CoreAdvancedPhase.
Proof.
  intros label. apply (phase_with_ok on_a_step); [by unfold on_a_step; cbn; lia| |apply fail_from_fails|silent].
  apply (narration_then _ []); [apply core_setup_logs|intros [[ch ph] [cm pm]]].
  apply (narration_then _ [_]); [apply exchange_features_logs|intros _].
  apply (narration_then _ []); [apply logs_note; unfold on_a_step; cbn; lia|intros _].
  apply (narration_then _ [_]); [apply exchange_frame_space_logs|intros _].
  apply (narration_then _ []); [apply logs_note; unfold on_a_step; cbn; lia|intros _].
  apply (narration_last _ [_] []); [apply shorten_interval_logs|intros _; by apply logs_note].
Qed.

Lemma recovery_narrates : narrates RecoveryPhase.
Proof.
  intros label. apply (phase_with_ok free); [done| | |silent].
  - apply logs_narration. unfold sync_around_scanner_reset, sync_after_advertiser_reset, reconnect_after_resets, sync_once. narrate.
  - intros e. apply fails_then; [silent|intros l]. apply fails_record.
Qed.

Lemma profile_row_logs label read :
  logs (T1:=T1) (T2:=T2) free any_exn [] read →
  logs free not_hci [("Bluetooth 5.4 profile", label)]%string (profile_row label read).
Proof.
  intros Hr. unfold profile_row. apply logs_except with any_exn; [|done].
  apply logs_then; [exact Hr|intros c]. case_match; narrate.
Qed.

Lemma profile54_narrates : narrates Profile54Phase.
Proof.
  intros label. apply plain_ok. eapply (logs_bind _ _ [_]); [|intros _]; apply profile_row_logs; silent.
Qed.

Lemma reset_row_logs label name role reset :
  logs (T1:=T1) (T2:=T2) free any_exn [] reset →
  logs free not_hci [] (reset_row label name role reset).
Proof.
  intros Hr. unfold reset_row. apply logs_except with any_exn; [|done].
  apply logs_then; [exact Hr|intros _; silent].
Qed.

Lemma advertising_case_logs label hex c :
  logs (T1:=T1) (T2:=T2) free not_hci [(("Bluetooth 5.4 " ++ label)%string, snd c)]
    (advertising_case label hex c).
Proof.
  destruct c as [[[option_ host] phy] name]. unfold advertising_case. apply logs_finally.
  - apply logs_except with any_exn; [unfold advertise_and_observe, advertising_params, ext_adv_params; narrate|done].
  - apply logs_then; [|intros _]; apply reset_row_logs; silent.
Qed.

Lemma advertising54_narrates hexes : narrates (Advertising54Phase hexes).
Proof.
  intros label. apply plain_ok.
  apply (logs_for_each free not_hci
           (λ x : nat * (Z * bool * Z * string), [(("Bluetooth 5.4 " ++ label)%string, snd (snd x))])).
  intros x _. apply advertising_case_logs.
Qed.

End phases.

(** ** A concrete run

    The advertiser and the scanner of the periodic sync phase, as scripts of
    the answers they give. *)

Definition complete (op : Z) (ret : bytes) : bytes :=
  [H4_EVENT; EVT_COMMAND_COMPLETE; 4 + blen ret; 1; op mod 256; op / 256; 0] ++ ret.

Definition prepared (addr : bytes) : list bytes :=
  [complete OP_RESET []; complete OP_SET_EVENT_MASK []; complete OP_LE_SET_EVENT_MASK [];
   complete OP_LE_READ_BUFFER_SIZE [251; 0; 3]; complete OP_LE_SET_EVENT_MASK [];
   complete OP_READ_BD_ADDR addr].

Definition advertiser_script : list bytes :=
  prepared [1; 2; 3; 4; 5; 6] ++
  ((λ op, complete op []) <$>
   [OP_LE_SET_EXT_ADV_PARAMS; OP_LE_SET_EXT_ADV_DATA; OP_LE_SET_PERIODIC_ADV_PARAMS;
    OP_LE_SET_PERIODIC_ADV_DATA; OP_LE_SET_EXT_ADV_ENABLE; OP_LE_SET_PERIODIC_ADV_ENABLE;
    OP_LE_SET_PERIODIC_ADV_ENABLE; OP_LE_SET_EXT_ADV_ENABLE]).

Definition scanner_script : list bytes :=
  prepared [6; 6; 6; 6; 6; 6] ++
  [complete OP_READ_BD_ADDR [6; 6; 6; 6; 6; 6]; complete OP_LE_SET_EXT_SCAN_PARAMS [];
   complete OP_LE_SET_EXT_SCAN_ENABLE []; le_meta (report_event [demo_report]);
   status_event OP_LE_PERIODIC_CREATE_SYNC; le_meta (sync_event 9 [1; 2; 3; 4; 5; 6]);
   complete OP_LE_SET_EXT_SCAN_ENABLE [];
   le_meta ([LE_PERIODIC_ADV_REPORT; 9; 0; 0; 0; 0; 0; blen PERIODIC_MARKER] ++ PERIODIC_MARKER);
   complete OP_LE_PERIODIC_TERMINATE_SYNC []].

Definition demo_bench : pair (T1:=SerialH4.state) (T2:=SerialH4.state) * book :=
  ((0, (snd (serial_dev [] scanner_script), snd (serial_dev [] advertiser_script))), []).

Abbreviation sync_run := (run_phase PeriodicSyncPhase "A/B" demo_bench).

