(* ===== verification/Auracast.v ===== *)
(** * Auracast: the broadcast source (auracast.py)

    The encoders of the announcements a source puts on air, the payloads of
    its commands, and [AuracastSource]: starting the broadcast, streaming one
    SDU per BIS and interval, and stopping. *)

From coqutil Require Import Datatypes.RecordSetters.
From S2P Require Export Pair Iso Periodic Bis.
Import TriangleBracketNotations.
#[local] Open Scope Z_scope.

Definition UUID_BASIC_AUDIO_ANNOUNCEMENT : Z := 0x1851.
Definition UUID_BROADCAST_AUDIO_ANNOUNCEMENT : Z := 0x1852.
Definition UUID_PUBLIC_BROADCAST_ANNOUNCEMENT : Z := 0x1856.
Definition AD_SERVICE_DATA_16 : Z := 0x16.
Definition AD_BROADCAST_NAME : Z := 0x30.
Definition PBA_ENCRYPTED : Z := 0x01.
Definition PBA_STANDARD_QUALITY : Z := 0x02.
Definition PBA_HIGH_QUALITY : Z := 0x04.
Definition CODEC_FORMAT_LC3 : Z := 0x06.
Definition CFG_SAMPLING_FREQUENCY : Z := 0x01.
Definition CFG_FRAME_DURATION : Z := 0x02.
Definition CFG_CHANNEL_ALLOCATION : Z := 0x03.
Definition CFG_OCTETS_PER_FRAME : Z := 0x04.
Definition CFG_BLOCKS_PER_SDU : Z := 0x05.
Definition SAMPLING_FREQUENCY_CODE : list (Z * Z) :=
  [(8000, 0x01); (11025, 0x02); (16000, 0x03); (22050, 0x04); (24000, 0x05);
   (32000, 0x06); (44100, 0x07); (48000, 0x08); (88200, 0x09); (96000, 0x0A);
   (176400, 0x0B); (192000, 0x0C); (384000, 0x0D)].
Definition FRAME_DURATION_CODE : list (Z * Z) := [(7500, 0x00); (10000, 0x01)].
Definition LOCATION_FRONT_LEFT : Z := 0x00000001.
Definition LOCATION_FRONT_RIGHT : Z := 0x00000002.
Definition META_PROGRAM_INFO : Z := 0x03.
Definition META_LANGUAGE : Z := 0x04.
Definition META_STREAMING_CONTEXTS : Z := 0x02.
Definition CONTEXT_MEDIA : Z := 0x0004.

(** name: (sampling rate, frame duration, octets per frame). *)
Definition PRESETS : list (string * (Z * Z * Z)) :=
  [("16_2_2", (16000, 10000, 40)); ("24_2_2", (24000, 10000, 60));
   ("32_2_2", (32000, 10000, 80)); ("48_2_2", (48000, 10000, 100));
   ("48_4_2", (48000, 10000, 120))]%string.

(** [d.get(key)] of a table of constants. *)
Definition assoc {A} (key : Z) (table : list (Z * A)) : option A :=
  snd <$> List.find (λ kv, fst kv =? key) table.

(** ** Encoders *)

Definition ltv (ad_type : Z) (value : bytes) : res bytes :=
  if 255 <? blen value + 1 then Exc (ValueError (Lit "LTV value too long"))
  else h ← mkbytes [blen value + 1; ad_type]; Ok (h ++ value).

Definition codec_config (sample_rate_hz frame_us octets : Z) (blocks : option Z) : res bytes :=
  match assoc sample_rate_hz SAMPLING_FREQUENCY_CODE with
  | None => Exc (ValueError (Fmt "unsupported sampling rate %r" [AInt sample_rate_hz]))
  | Some rate =>
      match assoc frame_us FRAME_DURATION_CODE with
      | None => Exc (ValueError (Lit "frame duration must be 7500 or 10000 us"))
      | Some duration =>
          r ← mkbytes [rate]; a ← ltv CFG_SAMPLING_FREQUENCY r;
          d ← mkbytes [duration]; b ← ltv CFG_FRAME_DURATION d;
          o ← pack [FH octets]; c ← ltv CFG_OCTETS_PER_FRAME o;
          match blocks with
          | None => Ok (a ++ b ++ c)
          | Some n => k ← mkbytes [n]; e ← ltv CFG_BLOCKS_PER_SDU k; Ok (a ++ b ++ c ++ e)
          end
      end
  end.

Definition channel_allocation (locations : Z) : res bytes :=
  v ← pack [FI locations]; ltv CFG_CHANNEL_ALLOCATION v.

(** [program_info] and [language] are the encoded octets of the strings. *)
Definition metadata (contexts : option Z) (program_info language : option bytes) : res bytes :=
  a ← match contexts with
      | Some c => v ← pack [FH c]; ltv META_STREAMING_CONTEXTS v
      | None => Ok [] end;
  b ← match program_info with Some p => ltv META_PROGRAM_INFO p | None => Ok [] end;
  c ← match language with
      | Some code =>
          if negb (length code =? 3)%nat
          then Exc (ValueError (Lit "language is a three letter ISO 639-3 code"))
          else ltv META_LANGUAGE code
      | None => Ok [] end;
  Ok (a ++ b ++ c).

Definition service_data (uuid16 : Z) (payload : bytes) : res bytes :=
  u ← pack [FH uuid16]; ltv AD_SERVICE_DATA_16 (u ++ payload).

(** A subgroup of a BASE: its codec configuration, its metadata, and the index
    and configuration of each of its BISes. *)
Record subgroup : Type := Subgroup {
  g_config : bytes; g_metadata : bytes; g_bis : list (Z * bytes) }.

Fixpoint encode_bis (l : list (Z * bytes)) : res bytes :=
  match l with
  | [] => Ok []
  | (index, cfg) :: l' =>
      h ← mkbytes [index; blen cfg]; rest ← encode_bis l'; Ok (h ++ cfg ++ rest)
  end.

Definition encode_subgroup (g : subgroup) : res bytes :=
  match g_bis g with
  | [] => Exc (ValueError (Lit "a subgroup needs at least one BIS"))
  | bis =>
      n ← mkbytes [Z.of_nat (length bis)];
      c ← mkbytes [CODEC_FORMAT_LC3; 0; 0; 0; 0];
      lc ← mkbytes [blen (g_config g)];
      lm ← mkbytes [blen (g_metadata g)];
      b ← encode_bis bis;
      Ok (n ++ c ++ lc ++ g_config g ++ lm ++ g_metadata g ++ b)
  end.

Fixpoint encode_subgroups (l : list subgroup) : res bytes :=
  match l with
  | [] => Ok []
  | g :: l' => a ← encode_subgroup g; rest ← encode_subgroups l'; Ok (a ++ rest)
  end.

Definition base_data (presentation_delay_us : Z) (subgroups : list subgroup) : res bytes :=
  d ← pack [FI presentation_delay_us];
  n ← mkbytes [Z.of_nat (length subgroups)];
  gs ← encode_subgroups subgroups;
  Ok (take 3 d ++ n ++ gs).

Definition base (presentation_delay_us : Z) (subgroups : list subgroup) : res bytes :=
  if negb ((0 <=? presentation_delay_us) && (presentation_delay_us <=? 0xFFFFFF))
  then Exc (ValueError (Lit "presentation delay is 24 bits"))
  else if negb ((1 <=? length subgroups)%nat && (length subgroups <=? 31)%nat)
  then Exc (ValueError (Lit "a BASE carries 1 to 31 subgroups"))
  else
    data ← base_data presentation_delay_us subgroups;
    service_data UUID_BASIC_AUDIO_ANNOUNCEMENT data.

Definition stereo_base (presentation_delay_us sample_rate_hz frame_us octets : Z)
    (contexts : option Z) (program_info language : option bytes) : res bytes :=
  cfg ← codec_config sample_rate_hz frame_us octets None;
  meta ← metadata contexts program_info language;
  left ← channel_allocation LOCATION_FRONT_LEFT;
  right ← channel_allocation LOCATION_FRONT_RIGHT;
  base presentation_delay_us [Subgroup cfg meta [(1, left); (2, right)]].

Definition broadcast_announcement (broadcast_id : Z) : res bytes :=
  if negb ((0 <=? broadcast_id) && (broadcast_id <=? 0xFFFFFF))
  then Exc (ValueError (Lit "Broadcast_ID is 24 bits"))
  else d ← pack [FI broadcast_id]; service_data UUID_BROADCAST_AUDIO_ANNOUNCEMENT (take 3 d).

Definition public_announcement (features : Z) (meta : bytes) : res bytes :=
  h ← mkbytes [features; blen meta];
  service_data UUID_PUBLIC_BROADCAST_ANNOUNCEMENT (h ++ meta).

Definition broadcast_name (raw : bytes) : res bytes :=
  if negb ((4 <=? length raw)%nat && (length raw <=? 32)%nat)
  then Exc (ValueError (Lit "Broadcast Name is 4 to 32 octets"))
  else ltv AD_BROADCAST_NAME raw.

Definition extended_adv_data (broadcast_id : Z) (name : bytes) (encrypted high_quality : bool)
  : res bytes :=
  let features := if high_quality then PBA_HIGH_QUALITY else PBA_STANDARD_QUALITY in
  let features := if encrypted then Z.lor features PBA_ENCRYPTED else features in
  a ← broadcast_announcement broadcast_id;
  p ← public_announcement features [];
  n ← broadcast_name name;
  Ok (a ++ p ++ n).

Definition broadcast_code (raw : bytes) : res bytes :=
  if (16 <? length raw)%nat then Exc (ValueError (Lit "Broadcast_Code is at most 16 octets"))
  else Ok (raw ++ zeros (16 - length raw)).

(** ** Command payloads *)

Definition ADV_HANDLE : Z := 0.
Definition BIG_HANDLE : Z := 0.
Definition BIG_TERMINATE_LOCAL : Z := 0x16.
Definition PERIODIC_INTERVAL : Z := 0x0050.
Definition PERIODIC_DATA_MAX : nat := 252.
Definition SDU_INTERVAL_US : list (Z * Z) := [(7500, 7500); (10000, 10000)].

(** [data[i:i + n] for i in range(0, len(data), n)]. *)
Fixpoint chunks (fuel n : nat) (data : bytes) : list bytes :=
  match fuel, data with
  | O, _ | _, [] => []
  | S fuel', _ => take n data :: chunks fuel' n (drop n data)
  end.

(** The operation code of the chunk at [i] of [n]. *)
Definition chunk_op (i n : nat) : Z :=
  if (i =? 0)%nat then 0x00 else if (i =? n - 1)%nat then 0x02 else 0x01.

Definition chunk_command (handle op : Z) (chunk : bytes) : res bytes :=
  h ← mkbytes [handle; op; blen chunk]; Ok (h ++ chunk).

Fixpoint chunk_commands (handle : Z) (i n : nat) (cs : list bytes) : res (list bytes) :=
  match cs with
  | [] => Ok []
  | c :: cs' =>
      a ← chunk_command handle (chunk_op i n) c;
      rest ← chunk_commands handle (S i) n cs';
      Ok (a :: rest)
  end.

Definition periodic_data_commands (handle : Z) (data : bytes) : res (list bytes) :=
  if (length data <=? PERIODIC_DATA_MAX)%nat then
    a ← chunk_command handle 0x03 data; Ok [a]
  else
    let cs := chunks (length data) PERIODIC_DATA_MAX data in
    chunk_commands handle 0 (length cs) cs.

(** [code] is empty or the 16 octets of the Broadcast_Code. *)
Definition create_big_payload (num_bis frame_us sdu_octets rtn latency_ms phy : Z)
    (code : option bytes) : res bytes :=
  let encrypted := match code with Some (_ :: _) => true | _ => false end in
  h ← mkbytes [BIG_HANDLE; ADV_HANDLE; num_bis];
  interval ← match assoc frame_us SDU_INTERVAL_US with Some i => Ok i | None => Exc KeyError end;
  d ← pack [FI interval];
  s ← pack [FH sdu_octets; FH latency_ms];
  r ← mkbytes [rtn; phy; 0; 0; if encrypted then 1 else 0];
  Ok (h ++ take 3 d ++ s ++ r ++ if encrypted then default [] code else zeros 16).

(** ** AuracastSource *)

Record source : Type := Source {
  broadcast_id : Z; name : bytes; rate : Z; frame_us : Z; octets : Z; delay_us : Z;
  rtn : Z; latency_ms : Z; phy : Z; bcode : option bytes; program_info : option bytes;
  language : option bytes; bis_handles : list Z; started : bool }.

(** [AuracastSource.__init__]; the strings are their encoded octets, and an
    empty password is no password. *)
Definition init_source (broadcast_id : Z) (name : bytes) (preset : string)
    (presentation_delay_us rtn latency_ms phy : Z) (password program_info language : option bytes)
  : res source :=
  match List.find (λ kv, bool_decide (fst kv = preset)) PRESETS with
  | None => Exc (ValueError (Fmt "unknown preset %r" [AStr preset]))
  | Some (_, (rate, frame_us, octets)) =>
      code ← match password with
             | Some ((_ :: _) as p) => c ← broadcast_code p; Ok (Some c)
             | _ => Ok None end;
      Ok (Source broadcast_id name rate frame_us octets presentation_delay_us rtn latency_ms phy
            code program_info language [] false)
  end.

(** [[unpack("<H", body[19 + 2 * i:21 + 2 * i]) & 0x0FFF for i in range(count)]]. *)
Fixpoint big_handles (count i : nat) (body : bytes) : res (list Z) :=
  match count with
  | O => Ok []
  | S count' =>
      h ← unpack_H (slice (19 + 2 * i) (21 + 2 * i) body);
      rest ← big_handles count' (S i) body;
      Ok (mask12 h :: rest)
  end.

Definition is_big_complete (event : bytes) : bool :=
  (21 <=? length event)%nat && bool_decide (event !! 2%nat = Some BIG_HANDLE).

Section source.
Context {T : Type} `{!Transport T}.
Definition A (X : Type) : Type := M (dev (T:=T) * source) X.
Definition self : A source := gets snd.
Definition update (f : source → source) : A unit := on_own (modify f).

Fixpoint setup_paths (handles : list Z) : M (dev (T:=T)) unit :=
  match handles with
  | [] => skip
  | h :: hs => setup_iso_path h ISO_DIRECTION_INPUT ;; setup_paths hs
  end.

Definition start : A unit :=
  s ← self;
  id ← on_dev (prepare_controller DEFAULT_LE_EVENT_MASK);
  let '(_, addr_type, _) := (id : bytes * Z * id_source) in
  adv_data ← lift (extended_adv_data (broadcast_id s) (name s)
                     (bool_decide (bcode s ≠ None)) false);
  on_dev (configure_ext_set ADV_HANDLE addr_type 0x0000 ADV_SID_PERIODIC adv_data) ;;
  params ← lift (pack [FB ADV_HANDLE; FH PERIODIC_INTERVAL; FH PERIODIC_INTERVAL; FH 0]);
  on_dev (command_ok OP_LE_SET_PERIODIC_ADV_PARAMS params
            "LE Set Periodic Advertising Parameters") ;;
  base_ad ← lift (stereo_base (delay_us s) (rate s) (frame_us s) (octets s) (Some CONTEXT_MEDIA)
                    (program_info s) (language s));
  payloads ← lift (periodic_data_commands ADV_HANDLE base_ad);
  on_dev (for_each payloads (λ payload,
    command_ok OP_LE_SET_PERIODIC_ADV_DATA payload "LE Set Periodic Advertising Data" ;; skip)) ;;
  on_dev (ext_adv_enable ADV_HANDLE true) ;;
  on_dev (command_ok 0x2040 [1; ADV_HANDLE] "LE Set Periodic Advertising Enable") ;;
  big ← lift (create_big_payload 2 (frame_us s) (octets s) (rtn s) (latency_ms s) (phy s) (bcode s));
  r ← on_dev (Hci.command OP_LE_CREATE_BIG big true);
  when (negb (fst r =? 0))
    (raise (HciError (Fmt "LE Create BIG returned 0x%02X" [AInt (fst r)]))) ;;
  b ← on_dev (wait_le_subevent LE_BIG_COMPLETE None None is_big_complete (seconds 10));
  body ← match b with
         | Some body => mret body
         | None => raise (HciError (Lit "no LE Create BIG Complete event")) end;
  status ← lift (idx body 1);
  when (negb (status =? 0))
    (raise (HciError (Fmt "LE Create BIG Complete status 0x%02X" [AInt status]))) ;;
  count ← lift (idx body 18);
  handles ← lift (big_handles (Z.to_nat count) 0 body);
  update (λ s, s<|bis_handles := handles|>) ;;
  on_dev (setup_paths handles) ;;
  update (λ s, s<|started := true|>).

(** One SDU to each BIS, the shorter of the two lists deciding. *)
Fixpoint send_set (seq : Z) (pairs : list (Z * bytes)) : M (dev (T:=T)) unit :=
  match pairs with
  | [] => skip
  | (handle, sdu) :: pairs' => send_iso handle seq sdu ;; send_set seq pairs'
  end.

(** Reading events until the next SDU is due: at most 2 ms at a time. *)
Definition pace (deadline : Z) : M (dev (T:=T)) unit :=
  now ← gets fst;
  poll (λ left, Z.min left (ms 2)) (λ (_ : unit) _, mret (inl tt : unit + unit)) (ms 2)
    (deadline - now) tt ;;
  skip.

(** The streaming loop; [frames] is the successive values of the callback
    before it returns None. *)
Fixpoint stream_loop (frames : list (list bytes)) (handles : list Z) (interval deadline seq : Z)
    (until : option Z) : M (dev (T:=T)) unit :=
  now ← gets fst;
  if match until with Some e => e <=? now | None => false end then skip
  else
    match frames with
    | [] => skip
    | frame_set :: frames' =>
        send_set seq (zip handles frame_set) ;;
        let deadline := deadline + interval in
        pace deadline ;;
        stream_loop frames' handles interval deadline (Z.land (seq + 1) 0xFFFF) until
    end.

Definition stream (frames : list (list bytes)) (seconds_ : option Z) : A unit :=
  s ← self;
  now ← on_dev (gets fst);
  on_dev (stream_loop frames (bis_handles s) (frame_us s) now 0
            (match seconds_ with Some n => Some (now + seconds n) | None => None end)).

Fixpoint remove_paths (handles : list Z) : M (dev (T:=T)) unit :=
  match handles with
  | [] => skip
  | h :: hs => remove_iso_path h 0x01 ;; remove_paths hs
  end.

Definition stop : A unit :=
  s ← self;
  on_dev (remove_paths (bis_handles s)) ;;
  when (started s)
    (try_except (λ _, true)
       (on_dev (Hci.command OP_LE_TERMINATE_BIG [BIG_HANDLE; BIG_TERMINATE_LOCAL] true) ;; skip)
       (λ _, skip)) ;;
  on_dev stop_periodic ;;
  update (λ s, s<|bis_handles := []|><|started := false|>).
End source.
