(* ===== verification/AuracastLaws.v ===== *)
(** * AuracastLaws: what the broadcast source guarantees

    The announcement decodes to what it was built from; the fragments of the
    periodic data put together are the data; the broadcast is set up in the
    order the controller needs; streaming sends every frame once, numbered in
    order, and never ahead of time. *)

From Stdlib Require Import Sorting.Sorted.
From coqutil Require Import Datatypes.RecordSetters.
From stdpp Require Import sorting.
From S2P Require Export Auracast.
Import TriangleBracketNotations.
#[local] Open Scope Z_scope.

(** ** The BASE *)

(** A reader of the layout (BAP 3.7.2.2): [None] on anything malformed. *)
Definition take_octets (n : nat) (bs : bytes) : option (bytes * bytes) :=
  if (length bs <? n)%nat then None else Some (take n bs, drop n bs).

(** A length octet and that many octets. *)
Definition take_counted (bs : bytes) : option (bytes * bytes) :=
  match bs with n :: bs' => take_octets (Z.to_nat n) bs' | [] => None end.

Fixpoint read_bis (n : nat) (bs : bytes) : option (list (Z * bytes) * bytes) :=
  match n with
  | O => Some ([], bs)
  | S n' =>
      match bs with
      | index :: bs' =>
          '(cfg, bs'') ← take_counted bs';
          '(rest, bs3) ← read_bis n' bs'';
          Some ((index, cfg) :: rest, bs3)
      | [] => None
      end
  end.

Definition read_subgroup (bs : bytes) : option (subgroup * bytes) :=
  match bs with
  | n :: bs1 =>
      '(codec, bs2) ← take_octets 5 bs1;
      if negb (bool_decide (codec = [CODEC_FORMAT_LC3; 0; 0; 0; 0])) then None
      else
        '(cfg, bs3) ← take_counted bs2;
        '(meta, bs4) ← take_counted bs3;
        '(bis, bs5) ← read_bis (Z.to_nat n) bs4;
        Some (Subgroup cfg meta bis, bs5)
  | [] => None
  end.

Fixpoint read_subgroups (n : nat) (bs : bytes) : option (list subgroup * bytes) :=
  match n with
  | O => Some ([], bs)
  | S n' =>
      '(g, bs') ← read_subgroup bs;
      '(gs, bs'') ← read_subgroups n' bs';
      Some (g :: gs, bs'')
  end.

(** The whole AD structure: presentation delay and subgroups. *)
Definition read_base (ad : bytes) : option (Z * list subgroup) :=
  '(body, rest) ← take_counted ad;
  match body with
  | kind :: u0 :: u1 :: d0 :: d1 :: d2 :: n :: groups =>
      if bool_decide (rest = []) && (kind =? AD_SERVICE_DATA_16)
         && (le_Z [u0; u1] =? UUID_BASIC_AUDIO_ANNOUNCEMENT) then
        '(gs, extra) ← read_subgroups (Z.to_nat n) groups;
        if bool_decide (extra = []) then Some (le_Z [d0; d1; d2], gs) else None
      else None
  | _ => None
  end.

Lemma res_bind_ok {A B} (r : res A) (f : A → res B) b :
  (r ≫= f) = Ok b → ∃ a, r = Ok a ∧ f a = Ok b.
Proof. destruct r; [eauto|done|done]. Qed.

Ltac res_inv H :=
  repeat (let a := fresh "v" in let E := fresh "E" in
          apply res_bind_ok in H as (a&E&H)).

Lemma take_octets_app n bs rest : length bs = n → take_octets n (bs ++ rest) = Some (bs, rest).
Proof.
  intros <-. unfold take_octets. rewrite length_app, (proj2 (Nat.ltb_ge _ _)) by lia.
  by rewrite take_app_length, drop_app_length.
Qed.

Lemma take_counted_app bs rest : take_counted (blen bs :: bs ++ rest) = Some (bs, rest).
Proof. cbn. apply take_octets_app. unfold blen. lia. Qed.

Lemma mkbytes_Ok l v : mkbytes l = Ok v → v = l.
Proof. intros H. by apply mkbytes_inv in H as [-> _]. Qed.

Lemma read_bis_encode l bs rest :
  encode_bis l = Ok bs → read_bis (length l) (bs ++ rest) = Some (l, rest).
Proof.
  revert bs. induction l as [|[index cfg] l IH]; intros bs; cbn [encode_bis length read_bis].
  { by intros [= <-]. }
  intros H. res_inv H. injection H as <-. apply mkbytes_Ok in E as ->.
  cbn [app]. rewrite <- !app_assoc, take_counted_app. cbn.
  by rewrite (IH _ E0).
Qed.

Lemma read_subgroup_encode g bs rest :
  encode_subgroup g = Ok bs → read_subgroup (bs ++ rest) = Some (g, rest).
Proof.
  unfold encode_subgroup. destruct g as [cfg meta bis]. cbn [g_bis g_config g_metadata].
  destruct bis as [|b bis]; [done|]. intros H. res_inv H. injection H as <-.
  apply mkbytes_Ok in E as ->, E0 as ->, E1 as ->, E2 as ->. cbn [app read_subgroup].
  change (CODEC_FORMAT_LC3 :: 0 :: 0 :: 0 :: 0 :: ?x) with ([CODEC_FORMAT_LC3; 0; 0; 0; 0] ++ x).
  rewrite take_octets_app by done. cbn [mbind option_bind].
  rewrite bool_decide_eq_true_2 by done. cbn [negb].
  rewrite <- !app_assoc. cbn [app]. rewrite <- !app_assoc, take_counted_app. cbn [mbind option_bind].
  rewrite take_counted_app. cbn [mbind option_bind].
  rewrite Nat2Z.id, (read_bis_encode _ _ _ E3). done.
Qed.

Lemma read_subgroups_encode gs bs rest :
  encode_subgroups gs = Ok bs → read_subgroups (length gs) (bs ++ rest) = Some (gs, rest).
Proof.
  revert bs. induction gs as [|g gs IH]; intros bs; cbn [encode_subgroups length read_subgroups].
  { by intros [= <-]. }
  intros H. res_inv H. injection H as <-.
  rewrite <- app_assoc, (read_subgroup_encode _ _ _ E). cbn [mbind option_bind].
  by rewrite (IH _ E0).
Qed.

(** A Basic Audio Announcement decodes, with nothing left over, to the
    presentation delay and the subgroups it was built from, whatever the
    encoders accepted. *)
Theorem base_roundtrip (presentation_delay_us : Z) (subgroups : list subgroup) (ad : bytes) :
  Auracast.base presentation_delay_us subgroups = Ok ad →
  read_base ad = Some (presentation_delay_us, subgroups).
Proof.
  unfold Auracast.base.
  destruct (Z.leb_spec 0 presentation_delay_us) as [Hd1|]; [|done].
  destruct (Z.leb_spec presentation_delay_us 0xFFFFFF) as [Hd2|]; [|done]. cbn [andb negb].
  destruct (negb _); [done|].
  intros H. apply res_bind_ok in H as (data&Hdata&H).
  unfold service_data in H. apply res_bind_ok in H as (u&Hu&H). injection Hu as <-.
  unfold ltv in H. destruct (255 <? _) in H; [done|].
  apply res_bind_ok in H as (h&Hh%mkbytes_Ok&H). subst h. injection H as <-.
  unfold base_data in Hdata. res_inv Hdata. injection Hdata as <-.
  assert (Hv : v = le_bytes 4 presentation_delay_us).
  { cbn in E. rewrite pack_le_ok in E by (cbn; lia). cbn in E. by injection E as <-. }
  apply mkbytes_Ok in E0 as ->. subst v.
  unfold read_base. cbn [app].
  match goal with |- context [take_counted (?n :: ?x)] => set (body := x); set (m := n) end.
  assert (Hb : take_counted (blen body :: body ++ []) = Some (body, [])) by apply take_counted_app.
  rewrite app_nil_r in Hb.
  replace m with (blen body) by (subst m body; unfold blen; cbn [length]; lia).
  rewrite Hb. subst body. cbn [mbind option_bind le_bytes take app].
  rewrite bool_decide_eq_true_2 by done. cbn [andb Z.eqb].
  change (AD_SERVICE_DATA_16 =? AD_SERVICE_DATA_16) with true.
  rewrite Nat2Z.id, <- (app_nil_r v1), (read_subgroups_encode _ _ _ E1).
  cbn [andb mbind option_bind]. rewrite bool_decide_eq_true_2 by done. f_equal. f_equal.
  exact (le_Z_le_bytes_small 3 presentation_delay_us ltac:(cbn; lia)).
Qed.

(** ** Periodic advertising data *)

Lemma chunks_ok fuel data :
  (length data <= fuel)%nat →
  let cs := chunks fuel PERIODIC_DATA_MAX data in
  concat cs = data ∧ Forall (λ c, (length c <= PERIODIC_DATA_MAX)%nat) cs ∧
  ((PERIODIC_DATA_MAX < length data)%nat → (2 <= length cs)%nat).
Proof.
  revert data. induction fuel as [|fuel IH]; intros data Hl.
  { destruct data; [|cbn in Hl; lia]. cbn. split_and!; [done|constructor|lia]. }
  destruct data as [|x data]; [cbn; split_and!; [done|constructor|lia]|].
  cbn [chunks]. set (d := x :: data) in *.
  assert (Hd : (length (drop PERIODIC_DATA_MAX d) <= fuel)%nat)
    by (rewrite length_drop; unfold PERIODIC_DATA_MAX; subst d; cbn [length] in *; lia).
  destruct (IH _ Hd) as (Hc&Hf&_). cbn zeta. split_and!.
  - cbn [concat]. by rewrite Hc, take_drop.
  - constructor; [rewrite length_take; lia|done].
  - intros Hlong. cbn [length]. destruct fuel; [unfold PERIODIC_DATA_MAX in *; lia|].
    assert (Hne : (0 < length (drop PERIODIC_DATA_MAX d))%nat) by (rewrite length_drop; lia).
    destruct (drop PERIODIC_DATA_MAX d); cbn [length chunks] in *; lia.
Qed.

(** A fragment as it is sent. *)
Definition fragment (handle op : Z) (chunk : bytes) : bytes := [handle; op; blen chunk] ++ chunk.

Lemma chunk_command_ok handle op chunk :
  is_byte handle → is_byte op → (length chunk <= PERIODIC_DATA_MAX)%nat →
  chunk_command handle op chunk = Ok (fragment handle op chunk).
Proof.
  intros Hh Ho Hl. unfold chunk_command. rewrite mkbytes_ok; [done|].
  repeat constructor; try done; unfold is_byte, blen, PERIODIC_DATA_MAX in *; lia.
Qed.

Lemma chunk_op_byte i n : is_byte (chunk_op i n).
Proof. unfold chunk_op, is_byte. repeat case_match; lia. Qed.

Lemma chunk_commands_ok handle i n cs :
  is_byte handle → Forall (λ c, (length c <= PERIODIC_DATA_MAX)%nat) cs →
  chunk_commands handle i n cs =
  Ok (zip_with (λ j c, fragment handle (chunk_op j n) c) (seq i (length cs)) cs).
Proof.
  intros Hh Hf. revert i. induction Hf as [|c cs Hc _ IH]; intros i; [done|].
  cbn [chunk_commands]. rewrite chunk_command_ok by auto using chunk_op_byte.
  cbn [mbind res_bind]. by rewrite IH.
Qed.

Lemma chunk_ops_shape n : (2 <= n)%nat →
  (λ i, chunk_op i n) <$> seq 0 n = 0x00 :: replicate (n - 2) 0x01 ++ [0x02].
Proof.
  intros Hn. destruct n as [|[|n]]; [lia|lia|]. rewrite seq_S. cbn [seq].
  rewrite fmap_app. cbn [fmap list_fmap app]. f_equal.
  replace (S (S n) - 2)%nat with n by lia. f_equal.
  - apply list_eq. intros i. rewrite list_lookup_fmap.
    destruct (decide (i < n)%nat) as [Hi|Hi].
    + rewrite lookup_seq_lt by done. cbn. rewrite lookup_replicate_2 by done.
      unfold chunk_op. cbn. rewrite (proj2 (Nat.eqb_neq _ _)) by lia. done.
    + rewrite lookup_seq_ge by lia. cbn. symmetry. apply lookup_replicate_None. lia.
  - unfold chunk_op. cbn. rewrite (proj2 (Nat.eqb_eq _ _)) by lia. done.
Qed.

(** The payload of one LE Set Periodic Advertising Data command. *)
Definition fragment_ok (handle : Z) (c : bytes) : Prop :=
  (length c <= 255)%nat ∧ ∃ op chunk, c = fragment handle op chunk ∧ is_byte op.

Lemma fragment_zip handle n idxs cs :
  length idxs = length cs → Forall (λ c, (length c <= PERIODIC_DATA_MAX)%nat) cs →
  let out := zip_with (λ j c, fragment handle (chunk_op j n) c) idxs cs in
  concat (drop 3 <$> out) = concat cs ∧ Forall (fragment_ok handle) out ∧
  (λ c, nth 1 c 0) <$> out = (λ i, chunk_op i n) <$> idxs.
Proof.
  intros Hl Hf. revert idxs Hl. induction Hf as [|c cs Hc _ IH]; intros [|j idxs] Hl; try done.
  cbn [zip_with fmap list_fmap concat]. injection Hl as Hl. destruct (IH idxs Hl) as (Hcat&Hok&Hops).
  cbn [fmap list_fmap concat]. split_and!.
  - cbn [drop fragment app]. by rewrite <- Hcat.
  - constructor; [|done]. split; [|by eexists _, _; split; [|apply chunk_op_byte]].
    unfold fragment, PERIODIC_DATA_MAX in *. cbn. lia.
  - cbn. by rewrite <- Hops.
Qed.

(** The fragments of the periodic data carry it whole and in order, each
    fits a command and names the set, and their operations are complete for a
    single one, first, intermediate and last otherwise. *)
Theorem periodic_data_reassembles (handle : Z) (data : bytes) :
  is_byte handle →
  ∃ cs, periodic_data_commands handle data = Ok cs ∧ concat (drop 3 <$> cs) = data ∧
    Forall (fragment_ok handle) cs ∧
    (λ c, nth 1 c 0) <$> cs =
      if (length data <=? PERIODIC_DATA_MAX)%nat then [0x03]
      else 0x00 :: replicate (length cs - 2) 0x01 ++ [0x02].
Proof.
  intros Hh. unfold periodic_data_commands.
  destruct (Nat.leb_spec (length data) PERIODIC_DATA_MAX) as [Hle|Hgt].
  - rewrite chunk_command_ok by (done || (unfold is_byte; lia)). cbn [mbind res_bind].
    eexists. split; [reflexivity|]. cbn. rewrite app_nil_r. split_and!; [done| |done].
    apply Forall_singleton. split; [|eexists _, _; split; [reflexivity|unfold is_byte; lia]].
    unfold PERIODIC_DATA_MAX in *. cbn. lia.
  - destruct (chunks_ok (length data) data (le_n _)) as (Hcat&Hf&Hn). specialize (Hn Hgt).
    cbn zeta. set (cs := chunks _ _ _) in *. rewrite chunk_commands_ok by done.
    eexists. split; [reflexivity|].
    destruct (fragment_zip handle (length cs) (seq 0 (length cs)) cs) as (H1&H2&H3);
      [by rewrite length_seq|done|].
    rewrite H1, Hcat, H3. split_and!; [done|done|].
    rewrite chunk_ops_shape by done. by rewrite length_zip_with, length_seq, Nat.min_id.
Qed.

(** ** Streaming *)

Section streaming.
Context {T : Type} `{Tr : !Transport T} `{TL : !TransportLaws T}.
Implicit Types d : dev (T:=T).

(** The packets of one frame set, and those due for a list of them. *)
Definition set_packets (seq : Z) (pairs : list (Z * bytes)) : list bytes :=
  (λ hs, H4_ISO :: iso_body (sent_iso (fst hs) seq (snd hs))) <$> pairs.

Fixpoint due (handles : list Z) (seq : Z) (frames : list (list bytes)) : list bytes :=
  match frames with
  | [] => []
  | f :: fs => set_packets seq (zip handles f) ++ due handles (seq + 1) fs
  end.

Definition frame_ok (f : list bytes) : Prop := Forall (λ sdu, blen sdu ≤ 0x0FFF) f.

Lemma set_packets_mod seq seq' pairs :
  seq mod 65536 = seq' mod 65536 → set_packets seq pairs = set_packets seq' pairs.
Proof. intros E. apply list_fmap_ext. intros i [h sdu] _. unfold sent_iso. by rewrite E. Qed.

Lemma due_mod handles frames seq seq' :
  seq mod 65536 = seq' mod 65536 → due handles seq frames = due handles seq' frames.
Proof.
  revert seq seq'. induction frames as [|f fs IH]; intros seq seq' E; [done|]. cbn [due].
  f_equal; [by apply set_packets_mod|]. apply IH.
  rewrite <- (Z.add_mod_idemp_l seq), <- (Z.add_mod_idemp_l seq') by lia. by rewrite E.
Qed.

Lemma send_iso_cases handle seq sdu d :
  engine_ok d → blen sdu ≤ 0x0FFF →
  let '(r, d') := send_iso handle seq sdu d in
  engine_ok d' ∧ fst d' = fst d ∧ r ≠ Stuck ∧ (∀ e, r = Exc e → engine_exn e) ∧
  sent d' = sent d ++ if is_ok r then [H4_ISO :: iso_body (sent_iso handle seq sdu)] else [].
Proof.
  intros Hd Hl. rewrite send_iso_eq by done.
  pose proof (write_packet_cases (H4_ISO :: iso_body (sent_iso handle seq sdu)) d Hd) as H.
  destruct (write_packet _ d) as [[u|e|] d']; destruct H as (?&_&?&_&Hr); [| |done];
    split_and!; try done.
  - intros ? [= <-]. left. apply Hr.
  - cbn. rewrite app_nil_r. apply Hr.
Qed.

Lemma send_set_cases seq pairs d :
  engine_ok d → Forall (λ hs, blen (snd hs) ≤ 0x0FFF) pairs →
  let '(r, d') := send_set seq pairs d in
  engine_ok d' ∧ fst d' = fst d ∧ r ≠ Stuck ∧ (∀ e, r = Exc e → engine_exn e) ∧
  ∃ ps, sent d' = sent d ++ ps ∧ ps `prefix_of` set_packets seq pairs ∧
    (is_ok r = true → ps = set_packets seq pairs).
Proof.
  intros Hd Hp. revert d Hd. induction Hp as [|[h sdu] pairs Hl _ IH]; intros d Hd; cbn [send_set].
  { split_and!; try done. exists []. by rewrite app_nil_r. }
  pose proof (send_iso_cases h seq sdu d Hd Hl) as Hc. unfold mbind, M_bind.
  destruct (send_iso h seq sdu d) as [[u|e|] d1]; destruct Hc as (Hd1&Ht1&Hst&He&Hs1); [| |done].
  - specialize (IH d1 Hd1). destruct (send_set seq pairs d1) as [r d2].
    destruct IH as (?&Ht&?&?&ps&Hs&Hpre&Hok). split_and!; try done; [congruence|].
    exists ((H4_ISO :: iso_body (sent_iso h seq sdu)) :: ps).
    rewrite Hs, Hs1, <- app_assoc. split_and!; [done|by apply prefix_cons|].
    intros Hr. by rewrite Hok.
  - split_and!; [done|done|done|done|]. exists [].
    rewrite Hs1. split_and!; [done|apply prefix_nil|done].
Qed.

Lemma pace_cases deadline d :
  engine_ok d →
  let '(r, d') := pace deadline d in
  engine_ok d' ∧ fst d ≤ fst d' ∧ r ≠ Stuck ∧ (∀ e, r = Exc e → engine_exn e) ∧ sent d' = sent d ∧
  (is_ok r = true → deadline ≤ fst d').
Proof.
  intros Hd. unfold pace, gets. unfold mbind at 1, M_bind at 1. cbn [fst].
  set (wait := λ left : Z, Z.min left (ms 2)).
  set (step := λ (_ : unit) (_ : packet), mret (inl tt : unit + unit)).
  pose proof (poll_pure (λ _ : unit, False) wait step (ms 2) (deadline - fst d) tt d) as Hp.
  assert (Hlate : ∀ u d', poll wait step (ms 2) (deadline - fst d) tt d = (Ok (inl u), d') → deadline ≤ fst d').
  { intros u d'. unfold poll, gets, mbind, M_bind; cbn. intros E. apply poll_loop_late in E. lia. }
  unfold mbind, M_bind. destruct (poll _ _ _ _ _ d) as [r d'].
  destruct Hp as (?&[[? _] _]&?&Hr); [done|unfold wait, ms; lia| | |done|].
  - intros R ? u p _. by apply runs_ret.
  - intros u p s a s' _. unfold step. by intros [=].
  - destruct r as [[u|[]]|e|]; cbn; split_and!; try done.
    + intros _. by apply (Hlate u d').
    + by intros ? [= <-].
Qed.

(** Where a stream of [frames] has got to: [k] sets are out and their time has
    passed, and a part of the next one. *)
Definition streamed (handles : list Z) (seq interval t0 : Z) (frames : list (list bytes))
    (k : nat) (d d' : dev (T:=T)) : Prop :=
  (k <= length frames)%nat ∧ t0 + Z.of_nat k * interval ≤ fst d' ∧
  ∃ ps, sent d' = sent d ++ due handles seq (take k frames) ++ ps ∧
    ∃ f, ps `prefix_of` set_packets (seq + Z.of_nat k) (zip handles f) ∧
         (ps = [] ∨ frames !! k = Some f).

Lemma zip_frame_ok handles f :
  frame_ok f → Forall (λ hs : Z * bytes, blen (snd hs) ≤ 0x0FFF) (zip handles f).
Proof.
  intros Hf. revert handles. induction Hf as [|sdu f Hs _ IH]; intros [|h hs]; cbn; by constructor.
Qed.

Lemma streamed_none handles seq interval t0 frames d :
  t0 ≤ fst d → streamed handles seq interval t0 frames 0 d d.
Proof.
  intros Ht. split_and!; [lia|lia|]. exists []. rewrite app_nil_r. split; [done|].
  exists []. split; [apply prefix_nil|by left].
Qed.

Lemma stream_loop_cases handles interval t0 frames seq until d :
  engine_ok d → t0 ≤ fst d → Forall frame_ok frames →
  let '(r, d') := stream_loop frames handles interval t0 seq until d in
  engine_ok d' ∧ r ≠ Stuck ∧ (∀ e, r = Exc e → engine_exn e) ∧
  ∃ k, streamed handles seq interval t0 frames k d d' ∧
    (is_ok r = true → sent d' = sent d ++ due handles seq (take k frames) ∧
       (until = None → k = length frames)).
Proof.
  intros Hd Ht Hf. revert t0 seq d Hd Ht.
  induction Hf as [|f frames Hf _ IH]; intros t0 seq d Hd Ht; cbn [stream_loop];
    unfold gets; unfold mbind at 1, M_bind at 1; cbn [fst].
  { assert (Hskip : ∀ b : bool, (if b then skip else skip) d = (Ok tt, d)) by by intros [].
    rewrite Hskip. split_and!; try done. exists O. split; [by apply streamed_none|].
    intros _. by rewrite app_nil_r. }
  assert (Hstop : ∀ d', sent d' = sent d → t0 ≤ fst d' →
    streamed handles seq interval t0 (f :: frames) 0 d d').
  { intros d' Hs Hle. split_and!; [lia|lia|]. exists []. rewrite Hs, !app_nil_r.
    split; [done|]. exists []. split; [apply prefix_nil|by left]. }
  destruct (match until with Some e => e <=? fst d | None => false end) eqn:Eu.
  { split_and!; try done. exists O. split; [by apply Hstop|]. intros _. cbn. rewrite app_nil_r.
    split; [done|]. by intros ->. }
  pose proof (send_set_cases seq (zip handles f) d Hd (zip_frame_ok handles f Hf)) as Hset.
  unfold mbind at 1, M_bind at 1. destruct (send_set _ _ d) as [[u|e|] d1];
    destruct Hset as (Hd1&Ht1&Hst&He&ps&Hs1&Hpre&Hall); [| |done].
  2:{ split_and!; try done. exists O. split; [|done]. split_and!; [lia|lia|].
      exists ps. split; [done|]. exists f. rewrite Z.add_0_r. split; [done|by right]. }
  specialize (Hall eq_refl). subst ps. cbn zeta.
  pose proof (pace_cases (t0 + interval) d1 Hd1) as Hp.
  unfold mbind at 1, M_bind at 1. destruct (pace _ d1) as [[u'|e|] d2];
    destruct Hp as (Hd2&Ht2&Hst2&He2&Hs2&Hlate); [| |done].
  2:{ split_and!; try done. exists O. split; [|done]. split_and!; [lia|lia|].
      exists (set_packets seq (zip handles f)). rewrite Hs2, Hs1. split; [done|]. exists f.
      rewrite Z.add_0_r. split; [done|by right]. }
  specialize (IH (t0 + interval) (Z.land (seq + 1) 0xFFFF) d2 Hd2 (Hlate eq_refl)).
  destruct (stream_loop frames handles _ _ _ _ d2) as [r d3].
  destruct IH as (?&?&?&k&(Hk&Htk&ps&Hs3&g&Hg&Hnext)&Hok). split_and!; try done.
  assert (Hseq : ∀ x, (Z.land (seq + 1) 0xFFFF + x) mod 65536 = (seq + 1 + x) mod 65536).
  { intros x. change 0xFFFF with (Z.ones 16). rewrite Z.land_ones by lia.
    change (2 ^ 16) with 65536. by rewrite Z.add_mod_idemp_l by lia. }
  assert (Hdue : due handles (Z.land (seq + 1) 0xFFFF) (take k frames) = due handles (seq + 1) (take k frames)).
  { apply due_mod. pose proof (Hseq 0) as E. by rewrite !Z.add_0_r in E. }
  exists (S k). split.
  - split_and!; [cbn; lia|lia|]. exists ps. cbn [take due]. rewrite Hs3, Hs2, Hs1, Hdue, <- !app_assoc.
    split; [done|]. exists g. split; [|exact Hnext].
    replace (seq + Z.of_nat (S k)) with (seq + 1 + Z.of_nat k) by lia.
    by rewrite <- (set_packets_mod _ _ _ (Hseq (Z.of_nat k))).
  - intros Hr. destruct (Hok Hr) as [Hs4 Hlen]. cbn [take due].
    rewrite Hs4, Hs2, Hs1, Hdue, <- !app_assoc. split; [done|]. intros Hu. cbn. by rewrite (Hlen Hu).
Qed.

(** C15: streaming sends to every BIS its SDU of every frame set, once and in
    order, the sets numbered consecutively modulo 2^16; no SDU of a set goes
    out before the intervals of the sets before it have passed; and without a
    time limit a stream that returns has sent them all. *)
Theorem stream_in_order (frames : list (list bytes)) (limit : option Z) (d : dev (T:=T))
    (src : source) :
  engine_ok d → Forall frame_ok frames →
  let '(r, (d', src')) := Auracast.stream frames limit (d, src) in
  src' = src ∧ engine_ok d' ∧ r ≠ Stuck ∧ (∀ e, r = Exc e → engine_exn e) ∧
  ∃ k, streamed (bis_handles src) 0 (frame_us src) (fst d) frames k d d' ∧
    (r = Ok tt → sent d' = sent d ++ due (bis_handles src) 0 (take k frames) ∧
       (limit = None → k = length frames)).
Proof.
  intros Hd Hf. unfold Auracast.stream, self, gets, on_dev, zoom. unfold mbind, M_bind. cbn [fst snd].
  set (until := match limit with Some n => Some (fst d + seconds n) | None => None end).
  pose proof (stream_loop_cases (bis_handles src) (frame_us src) (fst d) frames 0 until d Hd
    (Z.le_refl _) Hf) as H.
  destruct (stream_loop _ _ _ _ _ _ d) as [r d']. destruct H as (?&?&?&k&Hk&Hok).
  split_and!; try done. exists k. split; [exact Hk|]. intros ->. destruct (Hok eq_refl) as [Hs Hl].
  split; [exact Hs|]. intros ->. by apply Hl.
Qed.
End streaming.

(** ** Setting up in order *)

(** The opcode of a command packet, and the stage of the set-up a
    configuration command belongs to; reads belong to none. *)
Definition packet_opcode (pkt : bytes) : option Z :=
  match pkt with
  | k :: lo :: hi :: _ => if k =? H4_COMMAND then Some (lo + 256 * hi) else None
  | _ => None
  end.

Definition stage_table : list (Z * nat) :=
  [(OP_RESET, 0); (OP_SET_EVENT_MASK, 0); (OP_LE_SET_EVENT_MASK, 0); (OP_LE_SET_RANDOM_ADDRESS, 0);
   (OP_LE_SET_EXT_ADV_PARAMS, 1); (OP_LE_SET_ADV_SET_RANDOM_ADDRESS, 1); (OP_LE_SET_EXT_ADV_DATA, 1);
   (OP_LE_SET_PERIODIC_ADV_PARAMS, 2); (OP_LE_SET_PERIODIC_ADV_DATA, 3);
   (OP_LE_SET_EXT_ADV_ENABLE, 4); (OP_LE_SET_PERIODIC_ADV_ENABLE, 5);
   (OP_LE_CREATE_BIG, 6); (OP_LE_SETUP_ISO_DATA_PATH, 7)]%nat.

Definition stage_of (pkt : bytes) : option nat :=
  op ← packet_opcode pkt; assoc op stage_table.

Lemma stage_of_command op payload :
  0 ≤ op < 65536 → stage_of (command_packet op payload) = assoc op stage_table.
Proof.
  intros Hop. unfold stage_of, packet_opcode, command_packet. cbn [le_bytes app].
  change (H4_COMMAND =? H4_COMMAND) with true. cbn [mbind option_bind]. f_equal.
  Z.to_euclidean_division_equations; lia.
Qed.

(** *** The encoders end *)

Lemma ltv_total ty v : ltv ty v ≠ Stuck.
Proof. unfold ltv. total. Qed.

Lemma service_data_total u payload : service_data u payload ≠ Stuck.
Proof. unfold service_data. total. apply ltv_total. Qed.

Lemma encode_bis_total l : encode_bis l ≠ Stuck.
Proof. induction l as [|[index cfg] l IH]; cbn [encode_bis]; total. Qed.

Lemma encode_subgroups_total gs : encode_subgroups gs ≠ Stuck.
Proof.
  induction gs as [|g gs IH]; cbn [encode_subgroups]; total. unfold encode_subgroup. total.
  apply encode_bis_total.
Qed.

Lemma stereo_base_total delay rate frame octets ctxs info lang :
  stereo_base delay rate frame octets ctxs info lang ≠ Stuck.
Proof.
  unfold stereo_base, codec_config, metadata, channel_allocation, Auracast.base, base_data.
  total; first [apply ltv_total | apply service_data_total | apply encode_subgroups_total].
Qed.

Lemma extended_adv_data_total id nm enc hq : extended_adv_data id nm enc hq ≠ Stuck.
Proof.
  unfold extended_adv_data, broadcast_announcement, public_announcement, broadcast_name.
  total; first [apply ltv_total | apply service_data_total].
Qed.

Lemma create_big_total n f o r l p c : create_big_payload n f o r l p c ≠ Stuck.
Proof. unfold create_big_payload. total. Qed.

Lemma chunk_commands_total handle i n cs : chunk_commands handle i n cs ≠ Stuck.
Proof.
  revert i. induction cs as [|c cs IH]; intros i; cbn [chunk_commands]; [done|].
  unfold chunk_command. total. by apply IH.
Qed.

Lemma periodic_data_total handle data : periodic_data_commands handle data ≠ Stuck.
Proof. unfold periodic_data_commands, chunk_command. total. apply chunk_commands_total. Qed.

Section starting.
Context {T : Type} `{Tr : !Transport T} `{TL : !TransportLaws T}.
Abbreviation S2 := (dev (T:=T) * source)%type.

Definition stages (ps : list bytes) : list nat := omap stage_of ps.
Definition in_stage (k : nat) (pkt : bytes) : Prop := stage_of pkt = None ∨ stage_of pkt = Some k.

Abbreviation calm k := (runs engine_ok (wrote (T:=T) (in_stage k)) (λ _, True)).

(** A part of the set-up: commands of stage [k] only, at least one of them
    when it returns. *)
Definition phase {A} (k : nat) (m : M (dev (T:=T)) A) : Prop :=
  calm k m ∧
  ∀ s a s', engine_ok s → m s = (Ok a, s') →
    ∃ ps, sent s' = sent s ++ ps ∧ Forall (in_stage k) ps ∧ k ∈ stages ps.

(** The stages from [lo] on, in order, none skipped. *)
Definition staged {A} (lo : nat) (m : M S2 A) : Prop :=
  ∀ s, engine_ok (fst s) →
    engine_ok (fst (snd (m s))) ∧ fst (m s) ≠ Stuck ∧
    ∃ ps, sent (fst (snd (m s))) = sent (fst s) ++ ps ∧
      StronglySorted le (stages ps) ∧ Forall (λ n, (lo <= n)%nat) (stages ps) ∧
      ∀ j, j ∈ stages ps → ∀ i, (lo <= i < j)%nat → i ∈ stages ps.

Lemma stages_app ps ps' : stages (ps ++ ps') = stages ps ++ stages ps'.
Proof. apply omap_app. Qed.

Lemma in_stage_all k ps : Forall (in_stage k) ps → Forall (eq k) (stages ps).
Proof.
  unfold stages. induction 1 as [|p ps [Hp|Hp] _ IH]; cbn; [constructor|by rewrite Hp|].
  rewrite Hp. by constructor.
Qed.

Lemma sorted_all k l : Forall (eq k) l → StronglySorted le l.
Proof.
  induction 1 as [|x l Hx Hl IH]; constructor; [done|]. apply (Forall_impl _ _ _ Hl). intros; lia.
Qed.

Lemma staged_none {A} lo (m : M S2 A) :
  (∀ s, fst (snd (m s)) = fst s ∧ fst (m s) ≠ Stuck) → staged lo m.
Proof.
  intros Hm s Hs. destruct (Hm s) as [E Hst]. rewrite E. split_and!; try done.
  exists []. rewrite app_nil_r. split_and!; [done|constructor|constructor|].
  intros j Hj. by apply not_elem_of_nil in Hj.
Qed.

(** Computing something on the way. *)
Lemma staged_pure {A B} lo (m : M S2 A) (k : A → M S2 B) :
  (∀ s, snd (m s) = s ∧ fst (m s) ≠ Stuck) →
  (∀ s a, m s = (Ok a, s) → staged lo (k a)) → staged lo (m ≫= k).
Proof.
  intros Hm Hk s Hs. destruct (Hm s) as [E Hst]. unfold mbind, M_bind.
  destruct (m s) as [[a|e|] s1] eqn:Em; cbn in E; subst s1; [by apply (Hk s a)| |done].
  by apply (staged_none lo (raise e : M S2 B)).
Qed.

Lemma staged_lift {A B} lo (r : res A) (k : A → M S2 B) :
  r ≠ Stuck → (∀ a, r = Ok a → staged lo (k a)) → staged lo (lift r ≫= k).
Proof. intros Hr Hk. apply staged_pure; [done|]. intros s a [= E]. by apply Hk. Qed.

Lemma staged_check {A} lo (c : bool) e (k : M S2 A) :
  staged lo k → staged lo (when c (raise e) ;; k).
Proof. intros Hk. apply staged_pure; [by destruct c|]. by intros s [] _. Qed.

Lemma staged_update {B} lo f (k : M S2 B) : staged lo k → staged lo (update f ;; k).
Proof. intros Hk [d x]. exact (Hk (d, f x)). Qed.

(** A program of one stage before the rest of it. *)
Lemma staged_calm {A B} lo (m : M (dev (T:=T)) A) (k : A → M S2 B) :
  calm lo m → (∀ a, staged lo (k a)) → staged lo (on_dev m ≫= k).
Proof.
  intros Hm Hk [d x] Hd. destruct (Hm d Hd) as (Hd1&(ps&Hs&Hp)&_&Hst).
  apply in_stage_all in Hp. unfold on_dev, zoom. unfold mbind, M_bind. cbn [fst snd] in *.
  destruct (m d) as [[a|e|] d1] eqn:Em; cbn [fst snd] in *; [| |done].
  - destruct (Hk a (d1, x) Hd1) as (?&?&ps'&Hs'&Hso&Hlo&Hj). cbn [fst] in *. split_and!; try done.
    exists (ps ++ ps'). rewrite Hs', Hs, stages_app, <- app_assoc. split_and!; [done| | |].
    + apply StronglySorted_app_2; [intros y z Hy Hz|by eapply sorted_all|done].
      rewrite Forall_forall in Hp, Hlo. by rewrite <- (Hp y Hy); apply Hlo.
    + apply Forall_app. split; [|done]. apply (Forall_impl _ _ _ Hp). intros; lia.
    + intros j [Hin|Hin]%elem_of_app i Hi; [rewrite Forall_forall in Hp; specialize (Hp j Hin); lia|].
      apply elem_of_app. right. by apply (Hj j).
  - split_and!; try done. exists ps. split_and!; [done|by eapply sorted_all| |].
    + apply (Forall_impl _ _ _ Hp). intros; lia.
    + intros j Hin i Hi. rewrite Forall_forall in Hp. specialize (Hp j Hin). lia.
Qed.

(** A stage that returned before the stages behind it. *)
Lemma staged_phase {A B} lo (m : M (dev (T:=T)) A) (k : A → M S2 B) :
  phase lo m → (∀ a, staged (S lo) (k a)) → staged lo (on_dev m ≫= k).
Proof.
  intros [Hm Hemit] Hk [d x] Hd. destruct (Hm d Hd) as (Hd1&(ps0&Hs0&Hp0)&_&Hst).
  unfold on_dev, zoom. unfold mbind, M_bind. cbn [fst snd] in *.
  destruct (m d) as [[a|e|] d1] eqn:Em; cbn [fst snd] in *; [| |done].
  - destruct (Hemit d a d1 Hd Em) as (ps&Hs&Hp&Hin0). apply in_stage_all in Hp.
    destruct (Hk a (d1, x) Hd1) as (?&?&ps'&Hs'&Hso&Hlo&Hj). cbn [fst] in *. split_and!; try done.
    exists (ps ++ ps'). rewrite Hs', Hs, stages_app, <- app_assoc. split_and!; [done| | |].
    + apply StronglySorted_app_2; [intros y z Hy Hz|by eapply sorted_all|done].
      rewrite Forall_forall in Hp, Hlo. rewrite <- (Hp y Hy). specialize (Hlo z Hz). lia.
    + apply Forall_app. split; [apply (Forall_impl _ _ _ Hp)|apply (Forall_impl _ _ _ Hlo)]; intros; lia.
    + intros j [Hin|Hin]%elem_of_app i Hi; [rewrite Forall_forall in Hp; specialize (Hp j Hin); lia|].
      apply elem_of_app. destruct (decide (i = lo)) as [->|]; [by left|right].
      apply (Hj j Hin). lia.
  - apply in_stage_all in Hp0. split_and!; try done. exists ps0.
    split_and!; [done|by eapply sorted_all| |].
    + apply (Forall_impl _ _ _ Hp0). intros; lia.
    + intros j Hin i Hi. rewrite Forall_forall in Hp0. specialize (Hp0 j Hin). lia.
Qed.

(** *** The stages *)

Ltac opcode := by unfold is_byte; vm_compute.

Lemma calm_trace {A} k (m : M (dev (T:=T)) A) E :
  runs engine_ok (trace_frame (in_stage k)) E m → calm k m.
Proof.
  intros Hm s Hs. destruct (Hm s Hs) as (?&[_ ?]&_&?). by split_and!.
Qed.

Lemma command_calm k op payload af :
  0 ≤ op < 65536 → assoc op stage_table = None ∨ assoc op stage_table = Some k →
  calm k (Hci.command op payload af).
Proof.
  intros Hop Hk. eapply calm_trace, command_trace. unfold in_stage. by rewrite stage_of_command.
Qed.

Lemma command_phase k op payload af :
  0 ≤ op < 65536 → assoc op stage_table = Some k → phase k (Hci.command op payload af).
Proof.
  intros Hop Hk. split; [by apply command_calm; [|right]|].
  intros s a s' Hs E. pose proof (command_sent op payload (seconds 3) af s Hs) as H.
  unfold Hci.command in E. rewrite E in H. destruct H as [H|[_ ?]]; [|done].
  exists [command_packet op payload]. split; [done|]. unfold in_stage, stages.
  rewrite Forall_singleton. cbn [omap list_omap]. rewrite !stage_of_command, Hk by done.
  split; [by right|by left].
Qed.

Lemma calm_phase {A B} k (m : M (dev (T:=T)) A) (f : A → M (dev (T:=T)) B) :
  calm k m → (∀ a, phase k (f a)) → phase k (m ≫= f).
Proof.
  intros Hm Hf. split; [apply runs_bind; [apply _|done|intros a; apply Hf]|].
  intros s b s' Hs H. destruct (Hm s Hs) as (Hs1&(ps&E&Hp)&_).
  apply bind_ok_inv in H as (a&s1&E1&H). rewrite E1 in *. cbn in *.
  destruct (Hf a) as [_ He]. destruct (He s1 b s' Hs1 H) as (ps'&E'&Hp'&Hin).
  exists (ps ++ ps'). rewrite E', E, stages_app, <- app_assoc. split_and!; [done|by apply Forall_app|].
  apply elem_of_app. by right.
Qed.

Lemma phase_calm {A B} k (m : M (dev (T:=T)) A) (f : A → M (dev (T:=T)) B) :
  phase k m → (∀ a, calm k (f a)) → phase k (m ≫= f).
Proof.
  intros [Hm He] Hf. split; [apply runs_bind; [apply _|done|done]|].
  intros s b s' Hs H. destruct (Hm s Hs) as (Hs1&_). apply bind_ok_inv in H as (a&s1&E1&H).
  destruct (He s a s1 Hs E1) as (ps&E&Hp&Hin). rewrite E1 in Hs1. cbn in Hs1.
  destruct (Hf a s1 Hs1) as (_&(ps'&E'&Hp')&_). rewrite H in E'. cbn in E'.
  exists (ps ++ ps'). rewrite E', E, stages_app, <- app_assoc. split_and!; [done|by apply Forall_app|].
  apply elem_of_app. by left.
Qed.

Lemma calm_lift {A} k (r : res A) : r ≠ Stuck → calm k (lift r).
Proof. intros Hr. by apply runs_lift; [apply _|done|]. Qed.

Lemma calm_own k f :
  (∀ d, engine_ok d → engine_ok (f d) ∧ sent (f d) = sent d) → calm k (modify f).
Proof.
  intros Hf. apply runs_modify. intros d Hd. destruct (Hf d Hd). split; [done|].
  by apply wrote_nothing.
Qed.

(** One step of a calm program. *)
Ltac calm_step :=
  lazymatch goal with
  | |- runs _ _ _ (mbind _ _) => apply runs_bind; [apply _| |intros ?]
  | |- runs _ _ _ (mret _) => apply runs_ret, _
  | |- runs _ _ _ skip => apply runs_skip, _
  | |- runs _ _ _ (raise _) => apply runs_raise; [apply _|done]
  | |- runs _ _ _ (gets _) => apply runs_gets, _
  | |- runs _ _ _ (when _ _) => apply runs_when; [apply _|intros ?]
  | |- runs _ _ _ (for_each _ _) => apply runs_for_each; [apply _|intros ? ?]
  | |- runs _ _ _ (check_status _ _) => unfold check_status
  | |- runs _ _ _ (Hci.command _ _ _) =>
      apply command_calm; [by vm_compute|(by left; vm_compute) || (by right; vm_compute)]
  | |- runs _ _ _ (lift (pack _)) => apply calm_lift, pack_not_stuck
  | |- runs _ _ _ (lift (mkbytes _)) => apply calm_lift, mkbytes_not_stuck
  | |- runs _ _ _ (if ?b then _ else _) => destruct b
  | |- runs _ _ _ (match ?x with _ => _ end) => destruct x
  end.

Lemma identity_calm k :
  calm k (Hci.identity (T:=T) None).
Proof.
  unfold Hci.identity. repeat calm_step. by apply (calm_own k (λ s, (fst s, add_unsupported _ (snd s)))).
Qed.

Lemma command_ok_phase k op payload nm :
  0 ≤ op < 65536 → assoc op stage_table = Some k → phase k (command_ok (T:=T) op payload nm).
Proof.
  intros Hop Hk. unfold command_ok. apply phase_calm; [by apply command_phase|intros r].
  repeat calm_step.
Qed.

Lemma command_ok_calm k op payload nm :
  0 ≤ op < 65536 → assoc op stage_table = Some k → calm k (command_ok (T:=T) op payload nm).
Proof. intros Hop Hk. by apply command_ok_phase. Qed.

Lemma prepare_phase mask : phase 0 (prepare_controller (T:=T) mask).
Proof.
  unfold prepare_controller, setup. apply phase_calm.
  - apply phase_calm; [by apply command_phase; vm_compute|intros _]. repeat calm_step.
    + apply calm_lift. by case_decide.
    + apply calm_lift. unfold idx. by case_match.
    + by apply (calm_own _ (λ s, (fst s, set_buffers _ _ (snd s)))).
  - intros _. repeat calm_step. apply identity_calm.
Qed.

Lemma ext_adv_params_total handle t properties sid : ext_adv_params handle t properties sid ≠ Stuck.
Proof.
  unfold ext_adv_params. total.
Qed.

Lemma ext_set_phase handle t properties sid data :
  phase 1 (configure_ext_set (T:=T) handle t properties sid data).
Proof.
  unfold configure_ext_set. apply calm_phase; [apply calm_lift, ext_adv_params_total|intros params].
  apply phase_calm; [by apply command_ok_phase; vm_compute|intros _].
  apply runs_bind; [apply _| |intros _].
  - apply runs_when; [apply _|intros _]. apply runs_bind; [apply _|apply identity_calm|].
    intros [[addr ty] src]. repeat calm_step. by apply command_ok_calm; vm_compute.
  - repeat calm_step. by apply command_ok_calm; vm_compute.
Qed.

Lemma fragments_phase payloads :
  payloads ≠ [] →
  phase 3 (for_each payloads (λ payload, command_ok (T:=T) OP_LE_SET_PERIODIC_ADV_DATA payload
    "LE Set Periodic Advertising Data" ;; skip)).
Proof.
  intros Hne. destruct payloads as [|c cs]; [done|]. cbn [for_each].
  apply phase_calm; [|intros _].
  - apply phase_calm; [by apply command_ok_phase; vm_compute|intros _]. calm_step.
  - repeat calm_step. by apply command_ok_calm; vm_compute.
Qed.

Lemma fragments_some handle data cs : periodic_data_commands handle data = Ok cs → cs ≠ [].
Proof.
  unfold periodic_data_commands. case_match.
  - intros H'. apply res_bind_ok in H' as (a&_&[= <-]). done.
  - destruct (chunks_ok (length data) data (le_n _)) as (_&_&Hn). cbn zeta in Hn.
    apply Nat.leb_gt in H. specialize (Hn H).
    destruct (chunks _ _ data) as [|c0 cs0]; [cbn in Hn; lia|]. cbn [chunk_commands].
    intros H'. apply res_bind_ok in H' as (a&_&H'). apply res_bind_ok in H' as (r&_&[= <-]). done.
Qed.

Lemma enable_phase handle on : phase 4 (ext_adv_enable (T:=T) handle on).
Proof.
  unfold ext_adv_enable. apply calm_phase.
  - apply calm_lift. destruct on; [|done].
    destruct (mkbytes [1; 1; handle]) as [?|?|] eqn:E; [done|done|by apply mkbytes_not_stuck in E].
  - intros p. apply phase_calm; [by apply command_ok_phase; vm_compute|intros _; calm_step].
Qed.

Lemma setup_paths_calm handles : calm 7 (setup_paths (T:=T) handles).
Proof.
  induction handles as [|h hs IH]; cbn [setup_paths]; [calm_step|].
  apply runs_bind; [apply _| |intros _; exact IH]. unfold setup_iso_path. repeat calm_step.
Qed.

Lemma wait_calm k subevent handle off predicate timeout :
  calm k (wait_le_subevent (T:=T) subevent handle off predicate timeout).
Proof.
  intros s Hs. destruct (wait_safe [] subevent handle off predicate timeout s Hs)
    as (?&[_ (ps&E&Hp)]&_&?).
  assert (Hnil : ps = []) by (destruct Hp as [|p ps (op&payload&Hop&_) _]; [done|];
    by apply not_elem_of_nil in Hop).
  rewrite Hnil, app_nil_r in E. split_and!; try done. by apply wrote_nothing.
Qed.

Lemma big_handles_total count i body : big_handles count i body ≠ Stuck.
Proof.
  revert i. induction count as [|n IH]; intros i; cbn [big_handles]; [done|].
  unfold unpack_H, unpack_le. case_decide; [|done]. cbn. specialize (IH (S i)).
  by destruct (big_handles n (S i) body).
Qed.

Lemma start_staged : staged 0 (Auracast.start (T:=T)).
Proof.
  unfold Auracast.start. apply staged_pure; [done|intros _ s _].
  apply staged_phase; [apply prepare_phase|intros [[addr ty] id_src]].
  apply staged_lift; [apply extended_adv_data_total|intros adv _].
  apply staged_phase; [apply ext_set_phase|intros _].
  apply staged_lift; [apply pack_not_stuck|intros params _].
  apply staged_phase; [by apply command_ok_phase; vm_compute|intros _].
  apply staged_lift; [apply stereo_base_total|intros base_ad _].
  apply staged_lift; [apply periodic_data_total|intros payloads Hp].
  apply staged_phase; [by eapply fragments_phase, fragments_some|intros _].
  apply staged_phase; [apply enable_phase|intros _].
  apply staged_phase; [by apply command_ok_phase; vm_compute|intros _].
  apply staged_lift; [apply create_big_total|intros big _].
  apply staged_phase; [by apply command_phase; vm_compute|intros r].
  apply staged_check. apply staged_calm; [apply wait_calm|intros b].
  apply staged_pure; [by destruct b|intros _ body _].
  apply staged_lift; [by unfold idx; case_match|intros status _].
  apply staged_check. apply staged_lift; [by unfold idx; case_match|intros count _].
  apply staged_lift; [apply big_handles_total|intros handles _].
  apply staged_update. apply staged_calm; [apply setup_paths_calm|intros _].
  apply staged_none. by intros [].
Qed.

(** Starting a broadcast configures the controller in order, on every path:
    the commands that were written are those of the stages up to some point -
    preparation, advertising set, periodic parameters, periodic data,
    extended advertising on, periodic advertising on, Create BIG, data paths -
    each stage behind the one before it and none skipped, whether the start
    succeeds or fails. *)
Theorem start_in_order (d : dev (T:=T)) (src : source) :
  engine_ok d →
  let '(r, (d', src')) := Auracast.start (d, src) in
  engine_ok d' ∧ r ≠ Stuck ∧
  ∃ ps, sent d' = sent d ++ ps ∧ StronglySorted le (omap stage_of ps) ∧
    ∀ j i, j ∈ omap stage_of ps → (i < j)%nat → i ∈ omap stage_of ps.
Proof.
  intros Hd. destruct (start_staged (d, src) Hd) as (Hok&Hst&ps&Hs&Hso&_&Hj).
  destruct (Auracast.start (d, src)) as [r [d' src']]. cbn in *.
  split_and!; [done|done|]. exists ps. split_and!; [done|done|].
  intros j i Hin Hlt. apply (Hj j Hin). lia.
Qed.

(** *** Stopping *)

(** The packet that removes the data path of a BIS. *)
Definition remove_packet (handle : Z) : list bytes :=
  match pack [FH handle; FB 0x01] with
  | Ok bs => [command_packet OP_LE_REMOVE_ISO_DATA_PATH bs] | _ => [] end.

Lemma sends_remove handle : sends (remove_packet handle) (remove_iso_path (T:=T) handle 0x01).
Proof.
  unfold remove_iso_path, remove_packet. apply sends_try; [|intros e; by apply sends_none].
  destruct (pack _) as [bs|e|] eqn:E; [| |by apply pack_not_stuck in E].
  - apply (sends_skip (Hci.command OP_LE_REMOVE_ISO_DATA_PATH bs true)), sends_command.
  - by apply (sends_none (raise e)).
Qed.

Lemma sends_removes handles :
  sends (concat (remove_packet <$> handles)) (remove_paths (T:=T) handles).
Proof.
  induction handles as [|h hs IH]; cbn [remove_paths fmap list_fmap concat]; [by apply sends_none|].
  apply sends_bind; [apply sends_remove|intros _; exact IH].
Qed.

(** What a stop may write. *)
Definition stop_packets (src : source) : list bytes :=
  concat (remove_packet <$> bis_handles src)
  ++ (if started src then [command_packet OP_LE_TERMINATE_BIG [BIG_HANDLE; BIG_TERMINATE_LOCAL]] else [])
  ++ [command_packet OP_LE_SET_PERIODIC_ADV_ENABLE [0; 0]]
  ++ [command_packet OP_LE_SET_EXT_ADV_ENABLE [0; 0]].

(** [stop] with its engine part in one piece. *)
Lemma stop_eq d src :
  Auracast.stop (T:=T) (d, src) =
  let '(r, d') := (remove_paths (bis_handles src) ;;
     when (started src) (try_except (λ _, true)
       (Hci.command OP_LE_TERMINATE_BIG [BIG_HANDLE; BIG_TERMINATE_LOCAL] true ;; skip) (λ _, skip)) ;;
     stop_periodic) d in
  match r with
  | Ok _ => (Ok tt, (d', src<|bis_handles := []|><|started := false|>))
  | Exc e => (Exc e, (d', src)) | Stuck => (Stuck, (d', src))
  end.
Proof.
  unfold Auracast.stop, self, gets, on_dev, zoom, mbind, M_bind. cbn [fst snd].
  destruct (remove_paths _ d) as [[u|e|] d1]; [|done|done]. cbn [fst snd].
  destruct (started src); cbn [when]; unfold try_except, skip; cbn [fst snd].
  - destruct (Hci.command _ _ _ d1) as [[v|e|] d2]; cbn [fst snd]; [| |done];
      by destruct (stop_periodic d2) as [[w|e'|] d3].
  - by destruct (stop_periodic d1) as [[w|e'|] d3].
Qed.

End starting.

(** ** Concrete runs *)

(** Command Complete with success. *)
Definition complete (op : Z) (ret : bytes) : bytes :=
  [H4_EVENT; EVT_COMMAND_COMPLETE; 4 + blen ret; 1; op mod 256; op / 256; 0] ++ ret.

Definition no_source : source := Source 0 [] 0 0 0 0 0 0 0 None None None [] false.
Definition demo_source : source :=
  match init_source 0x123456 [65; 66; 67; 68] "48_2_2" 40000 2 65 2 None None None with
  | Ok s => s | _ => no_source end.

(** A BIG of two BISes has been created. *)
Definition big_event : bytes :=
  [H4_EVENT; EVT_LE_META; 23; LE_BIG_COMPLETE; 0; BIG_HANDLE] ++ zeros 15 ++ [2; 0x60; 0; 0x61; 0].

(** A controller that carries the whole set-up out. *)
Definition big_dev : dev (T:=SerialH4.state) :=
  serial_dev []
    ([complete OP_RESET []; complete OP_SET_EVENT_MASK []; complete OP_LE_SET_EVENT_MASK [];
      complete OP_LE_READ_BUFFER_SIZE [251; 0; 4]; complete OP_LE_SET_EVENT_MASK [];
      complete OP_READ_BD_ADDR [1; 2; 3; 4; 5; 6]; complete OP_LE_SET_EXT_ADV_PARAMS [0];
      complete OP_LE_SET_EXT_ADV_DATA []; complete OP_LE_SET_PERIODIC_ADV_PARAMS [];
      complete OP_LE_SET_PERIODIC_ADV_DATA []; complete OP_LE_SET_EXT_ADV_ENABLE [];
      complete OP_LE_SET_PERIODIC_ADV_ENABLE [];
      [H4_EVENT; EVT_COMMAND_STATUS; 4; 0; 1; 0x68; 0x20]; big_event;
      complete OP_LE_SETUP_ISO_DATA_PATH [0x60; 0]; complete OP_LE_SETUP_ISO_DATA_PATH [0x61; 0]]).

Definition on_air : source := demo_source<|bis_handles := [0x60; 0x61]|><|started := true|>.

Lemma base_roundtrip_witness :
  let groups := [Subgroup [2; 1; 8] [3; 2; 4; 0] [(1, [5; 3; 1; 0; 0; 0]); (2, [])]] in
  match Auracast.base 40000 groups with
  | Ok ad => read_base ad = Some (40000, groups)
  | _ => False
  end.
Proof.
  intros groups. destruct (Auracast.base 40000 groups) as [ad|e|] eqn:E.
  - exact (base_roundtrip 40000 groups ad E).
  - by vm_compute in E.
  - by vm_compute in E.
Defined.

Lemma periodic_data_reassembles_witness :
  ∃ cs, periodic_data_commands 0 (replicate 600 7) = Ok cs ∧
    concat (drop 3 <$> cs) = replicate 600 7 ∧ Forall (fragment_ok 0) cs ∧
    (λ c, nth 1 c 0) <$> cs = [0x00; 0x01; 0x02].
Proof.
  destruct (periodic_data_reassembles 0 (replicate 600 7)) as (cs&E&Hc&Hf&Ho);
    [unfold is_byte; lia|].
  exists cs. split; [exact E|]. split; [exact Hc|]. split; [exact Hf|].
  assert (Hl : length <$> match periodic_data_commands 0 (replicate 600 7) with
    Ok cs => Some cs | _ => None end = Some 3%nat) by by vm_compute.
  rewrite E in Hl. injection Hl as Hl. rewrite Ho, Hl. reflexivity.
Defined.

Lemma stream_in_order_witness :
  let frames := [[[1; 2]; [3; 4]]; [[5; 6]; [7; 8]]] in
  let '(r, (d', _)) := Auracast.stream frames None (serial_dev [] [], on_air) in
  r = Ok tt ∧ sent d' = due [0x60; 0x61] 0 frames ∧ 20000 ≤ fst d'.
Proof.
  intros frames.
  pose proof (stream_in_order frames None (serial_dev [] []) on_air
    (serial_dev_ok (serial_dev [] []) eq_refl)) as H.
  assert (E : fst (Auracast.stream frames None (serial_dev [] [], on_air)) = Ok tt)
    by by vm_compute.
  destruct (Auracast.stream _ _ _) as [r [d' src']]. cbn in E. subst r.
  destruct H as (_&_&_&_&k&(_&Ht&_)&Hok).
  { repeat constructor; unfold blen; cbn; lia. }
  destruct (Hok eq_refl) as [Hs Hk]. rewrite (Hk eq_refl) in Hs, Ht.
  split; [done|]. split; [exact Hs|exact Ht].
Defined.

Lemma start_in_order_witness :
  let '(r, (d', src')) := Auracast.start (big_dev, demo_source) in
  r = Ok tt ∧ src' = on_air ∧ omap stage_of (sent d') = [0; 0; 0; 0; 1; 1; 2; 3; 4; 5; 6; 7; 7]%nat ∧
  StronglySorted le (omap stage_of (sent d')).
Proof.
  pose proof (start_in_order big_dev demo_source (serial_dev_ok big_dev eq_refl)) as H.
  assert (E : let '(r, (d', src')) := Auracast.start (big_dev, demo_source) in
    r = Ok tt ∧ src' = on_air ∧
    omap stage_of (sent d') = [0; 0; 0; 0; 1; 1; 2; 3; 4; 5; 6; 7; 7]%nat)
    by (vm_compute; by split_and!).
  destruct (Auracast.start _) as [r [d' src']]. destruct H as (_&_&ps&Hs&Hso&_).
  destruct E as (?&?&?). split_and!; [done|done|done|]. rewrite Hs. exact Hso.
Defined.

(** The data paths are refused: the start fails with the BIG on air, and the
    stop that follows does not terminate it. *)
Definition refused_dev : dev (T:=SerialH4.state) :=
  serial_dev [] [complete OP_LE_REMOVE_ISO_DATA_PATH [0x60; 0];
    complete OP_LE_REMOVE_ISO_DATA_PATH [0x61; 0]; complete OP_LE_SET_PERIODIC_ADV_ENABLE [];
    complete OP_LE_SET_EXT_ADV_ENABLE []].

