(* ===== verification/NativeUsb.v ===== *)
(** * NativeUsb: the native Bluetooth USB transport (hci_transport.py)

    [NativeUsbTransport]: endpoint selection, packet framing on the interrupt
    and bulk endpoints, the reader threads that publish packets and their
    errors, and the reading and writing side the host engine uses. PyUSB is a
    script of outcomes: what each endpoint read returns, how each write ends. *)

From stdpp Require Import relations.
From S2P Require Export Transport.
#[local] Open Scope Z_scope.

(** ** Errors *)

(** A [usb.core.USBError]: is it a USBTimeoutError, does it mean that the
    device left (backend code -4 or ENODEV), its text. *)
Record usb_error : Type := UsbErr { is_timeout : bool; is_gone : bool; err_text : string }.

(** [_classify_usb_error(operation, err)]. *)
Definition classify_usb_error (operation : text) (err : usb_error) : exn :=
  if is_timeout err then
    TransportError (Fmt (fmt operation ++ " timed out") (fargs operation))
  else
    let message := Fmt (fmt operation ++ ": %s")
                       (fargs operation ++ [AStr (err_text err)]) in
    if is_gone err then TransportGone message else TransportError message.

(** ** Endpoints *)

Inductive ep_type : Type := Control | Isochronous | Bulk | Interrupt.
#[export] Instance ep_type_dec : EqDecision ep_type.
Proof. solve_decision. Defined.

Record endpoint : Type := Endpoint {
  ep_kind : ep_type; ep_in : bool; ep_address : Z; ep_max_packet : Z }.

(** [_endpoint_mps]. *)
Definition endpoint_mps (e : endpoint) (label : string) : res Z :=
  let size := Z.land (ep_max_packet e) 0x07FF in
  if size <=? 0 then Exc (TransportError (Fmt "%s has invalid max packet size" [AStr label]))
  else Ok size.

(** [_bulk_transfer_size]. *)
Definition bulk_transfer_size (e : endpoint) : res Z :=
  mps ← endpoint_mps e "Bluetooth USB bulk IN endpoint";
  Ok ((1025 + mps - 1) / mps * mps).

Record endpoints : Type := Eps {
  event_ep : option endpoint; bulk_in_ep : option endpoint; bulk_out_ep : option endpoint }.

(** One turn of the loop over the interface's endpoints. *)
Definition choose_endpoint (eps : endpoints) (e : endpoint) : endpoints :=
  match ep_kind e, ep_in e with
  | Interrupt, true => Eps (Some e) (bulk_in_ep eps) (bulk_out_ep eps)
  | Bulk, true => Eps (event_ep eps) (Some e) (bulk_out_ep eps)
  | Bulk, false => Eps (event_ep eps) (bulk_in_ep eps) (Some e)
  | _, _ => eps
  end.

Record opened : Type := Opened {
  o_eps : endpoints; bulk_read_size : Z; event_read_size : Z }.

(** [_open_endpoints(interface)]. *)
Definition open_endpoints (bulk_serialization : bool) (interface : list endpoint)
  : res opened :=
  let eps := fold_left choose_endpoint interface (Eps None None None) in
  match bulk_in_ep eps, bulk_out_ep eps with
  | Some bulk_in, Some _ =>
      if negb bulk_serialization && bool_decide (event_ep eps = None)
      then Exc (TransportError (Lit "Bluetooth USB event endpoint is missing"))
      else
        bulk_size ← bulk_transfer_size bulk_in;
        event_size ← match event_ep eps with
                     | Some e => endpoint_mps e "Bluetooth USB event endpoint"
                     | None => Ok 0
                     end;
        Ok (Opened eps bulk_size event_size)
  | _, _ => Exc (TransportError (Lit "Bluetooth USB bulk endpoints are missing"))
  end.

(** ** Framing *)

(** [_event_expected], [_acl_expected], [_serialized_expected]. *)
Definition event_expected (data : bytes) : res (option Z) :=
  if (length data <? 2)%nat then Ok None
  else n ← idx data 1; Ok (Some (n + 2)).

Definition acl_expected (data : bytes) : res (option Z) :=
  if (length data <? 4)%nat then Ok None
  else Ok (Some (le_Z (slice 2 4 data) + 4)).

Definition serialized_expected (data : bytes) : res (option Z) :=
  match data with
  | [] => Ok None
  | kind :: body =>
      expected ←
        (if kind =? H4_EVENT then event_expected body
         else if kind =? H4_ACL then acl_expected body
         else if kind =? H4_ISO then
           if (length body <? 4)%nat then Ok None
           else Ok (Some (mask14 (le_Z (slice 2 4 body)) + 4))
         else Exc (TransportError
           (Fmt "unexpected USB Bulk Serialization indicator 0x%02X" [AInt kind])));
      match expected with
      | None => Ok None
      | Some n => Ok (Some (n + 1))
      end
  end.

(** [_parse_event], [_parse_acl], [_parse_iso], [_parse_serialized]. *)
Definition parse_event (data : bytes) : res packet :=
  if (length data <? 2)%nat then Exc (TransportError (Lit "short native USB event"))
  else
    len ← idx data 1;
    if negb (blen data =? len + 2) then
      Exc (TransportError (Fmt "native USB event length %d, expected %d"
                             [AInt (blen data); AInt (len + 2)]))
    else code ← idx data 0; Ok (Pkt H4_EVENT (Some code) (drop 2 data)).

Definition parse_acl (data : bytes) : res packet :=
  if (length data <? 4)%nat then Exc (TransportError (Lit "short native USB ACL packet"))
  else
    let len := le_Z (slice 2 4 data) in
    if negb (blen data =? len + 4) then
      Exc (TransportError (Fmt "native USB ACL length %d, expected %d"
                             [AInt (blen data); AInt (len + 4)]))
    else Ok (Pkt H4_ACL None data).

Definition parse_iso (data : bytes) : res packet :=
  if (length data <? 4)%nat then Exc (TransportError (Lit "short native USB ISO packet"))
  else
    let len := mask14 (le_Z (slice 2 4 data)) in
    if negb (blen data =? len + 4) then
      Exc (TransportError (Fmt "native USB ISO length %d, expected %d"
                             [AInt (blen data); AInt (len + 4)]))
    else Ok (Pkt H4_ISO None data).

Definition parse_serialized (data : bytes) : res packet :=
  match data with
  | [] => Exc (TransportError (Lit "empty USB Bulk Serialization packet"))
  | kind :: body =>
      if kind =? H4_EVENT then parse_event body
      else if kind =? H4_ACL then parse_acl body
      else if kind =? H4_ISO then parse_iso body
      else Exc (TransportError
        (Fmt "unexpected USB Bulk Serialization indicator 0x%02X" [AInt kind]))
  end.

(** [_take_complete(buffer, expected_fn, maximum, label)]. *)
Definition take_complete (expected_fn : bytes → res (option Z)) (maximum : Z)
    (label : string) : M bytes (option bytes) :=
  buffer ← getS;
  expected ← lift (expected_fn buffer);
  match expected with
  | None => mret None
  | Some n =>
      if maximum <? n then
        modify (λ _, []) ;;
        raise (TransportError (Fmt "%s length %d exceeds %d"
                                 [AStr label; AInt n; AInt maximum]))
      else if blen buffer <? n then mret None
      else
        modify (drop (Z.to_nat n)) ;;
        mret (Some (take (Z.to_nat n) buffer))
  end.

(** The readers [_start_readers] starts: what each is given. *)
Inductive reader_kind : Type := EventReader | AclReader | SerializedReader.
#[export] Instance reader_kind_dec : EqDecision reader_kind.
Proof. solve_decision. Defined.

Definition start_readers (bulk_serialization : bool) : list reader_kind :=
  if bulk_serialization then [SerializedReader] else [EventReader; AclReader].

Definition expected_fn (k : reader_kind) : bytes → res (option Z) :=
  match k with
  | EventReader => event_expected
  | AclReader => acl_expected
  | SerializedReader => serialized_expected
  end.
Definition maximum (k : reader_kind) : Z :=
  match k with EventReader => 257 | AclReader => 1024 | SerializedReader => 1025 end.
Definition label (k : reader_kind) : string :=
  match k with
  | EventReader => "native USB event"
  | AclReader => "native USB ACL packet"
  | SerializedReader => "USB Bulk Serialization packet"
  end.
Definition parser (k : reader_kind) : bytes → res packet :=
  match k with
  | EventReader => parse_event
  | AclReader => parse_acl
  | SerializedReader => parse_serialized
  end.

(** The octets of a packet on a reader's endpoint. *)
Definition frame (k : reader_kind) (p : packet) : bytes :=
  match k with
  | EventReader => default 0 (code p) :: blen (body p) :: body p
  | AclReader => body p
  | SerializedReader => H4.frame p
  end.

(** ** The reader threads

    A reader runs [_reader_loop]; between two of its actions another thread
    can run. What the readers and the main thread share is the stop flag, the
    queue and the first error. *)

(** What one [endpoint.read] comes back with. *)
Inductive transfer : Type :=
  | Data (chunk : bytes)
  | UsbFails (err : usb_error)
  | OtherFails (what : string).   (* any other exception *)

(** [_read_endpoint]: [None] on a timeout. *)
Definition read_endpoint (address : Z) (t : transfer) : res (option bytes) :=
  match t with
  | Data chunk => Ok (Some chunk)
  | UsbFails err =>
      if is_timeout err then Ok None
      else Exc (classify_usb_error (Fmt "native USB read ep 0x%02X" [AInt address]) err)
  | OtherFails what => Exc (RuntimeError (Lit what))
  end.

(** Where a reader is in its loop. *)
Inductive reader_phase : Type :=
  | Top                   (* at the while test *)
  | Blocked               (* in endpoint.read *)
  | Holding (data : bytes)  (* a packet in hand, before the second stop test *)
  | Publishing (data : bytes)
  | Raised (e : exn)      (* in an except clause, before its stop test *)
  | Failing (e : exn)
  | Ended.

Record reader : Type := Reader {
  r_kind : reader_kind; r_address : Z;
  r_buffer : bytes; r_phase : reader_phase;
  r_received : bytes;      (* ghost: every octet read so far *)
  r_published : list packet  (* ghost: every packet queued so far *)
}.

Definition set_phase (ph : reader_phase) (r : reader) : reader :=
  Reader (r_kind r) (r_address r) (r_buffer r) ph (r_received r) (r_published r).
Definition set_buffer (b : bytes) (r : reader) : reader :=
  Reader (r_kind r) (r_address r) b (r_phase r) (r_received r) (r_published r).

Record shared : Type := Shared {
  stop : bool; queue : list packet; reader_error : option exn }.

(** [_queue_reader_packet], [_fail_reader]. *)
Definition queue_reader_packet (p : packet) (sh : shared) : shared :=
  Shared (stop sh) (queue sh ++ [p]) (reader_error sh).
Definition fail_reader (e : exn) (sh : shared) : shared :=
  Shared true (queue sh)
    (match reader_error sh with None => Some e | old => old end).

(** The exception the [except] clauses hand to [_fail_reader]. *)
Definition reader_exn (k : reader_kind) (e : exn) : exn :=
  if is_transport_error e then e
  else TransportError (Fmt "%s reader failed" [AStr (label k)]).

(** One framing attempt of [_read_complete]: a packet in hand, or [none]. *)
Definition frame_once (none : reader_phase) (r : reader) : reader :=
  match take_complete (expected_fn (r_kind r)) (maximum (r_kind r)) (label (r_kind r))
          (r_buffer r) with
  | (Ok (Some data), b) => set_phase (Holding data) (set_buffer b r)
  | (Ok None, b) => set_phase none (set_buffer b r)
  | (Exc e, b) => set_phase (Raised e) (set_buffer b r)
  | (Stuck, b) => set_buffer b r
  end.

(** One action of a reader; [None] when it cannot move: it has ended, or it
    waits for a transfer and none is given. *)
Definition advance (t : option transfer) (sh : shared) (r : reader)
  : option (shared * reader) :=
  match r_phase r with
  | Top => Some (sh, if stop sh then set_phase Ended r else frame_once Blocked r)
  | Blocked =>
      match t with
      | None => None
      | Some t =>
          match read_endpoint (r_address r) t with
          | Ok None => Some (sh, set_phase Top r)
          | Ok (Some chunk) =>
              Some (sh, frame_once Top
                (Reader (r_kind r) (r_address r) (r_buffer r ++ chunk) Blocked
                        (r_received r ++ chunk) (r_published r)))
          | Exc e => Some (sh, set_phase (Raised e) r)
          | Stuck => None
          end
      end
  | Holding data =>
      Some (sh, set_phase (if stop sh then Ended else Publishing data) r)
  | Publishing data =>
      match parser (r_kind r) data with
      | Ok p => Some (queue_reader_packet p sh,
                      Reader (r_kind r) (r_address r) (r_buffer r) Top
                             (r_received r) (r_published r ++ [p]))
      | Exc e => Some (sh, set_phase (Raised e) r)
      | Stuck => None
      end
  | Raised e => Some (sh, set_phase (if stop sh then Ended else Failing e) r)
  | Failing e => Some (fail_reader (reader_exn (r_kind r) e) sh, set_phase Ended r)
  | Ended => None
  end.

(** The whole transport: shared state, readers, and the packets the main
    thread has taken so far. *)
Record usb : Type := Usb { u_shared : shared; u_readers : list reader; u_taken : list packet }.

Definition new_reader (address : Z) (k : reader_kind) : reader :=
  Reader k address [] Top [] [].

(** As [__init__] leaves it. *)
Definition init_usb (bulk_serialization : bool) (address : Z) : usb :=
  Usb (Shared false [] None) (new_reader address <$> start_readers bulk_serialization) [].

(** One action of some thread. *)
Inductive usb_step : usb → usb → Prop :=
  | step_reader sh rs i r t sh' r' taken :
      rs !! i = Some r → (∀ chunk, t = Some (Data chunk) → bytes_ok chunk) →
      advance t sh r = Some (sh', r') →
      usb_step (Usb sh rs taken) (Usb sh' (<[i := r']> rs) taken)
  | step_take sh rs p ps taken :   (* read_packet takes the oldest packet *)
      queue sh = p :: ps →
      usb_step (Usb sh rs taken) (Usb (Shared (stop sh) ps (reader_error sh)) rs (taken ++ [p]))
  | step_close sh rs taken :       (* close sets the stop flag *)
      usb_step (Usb sh rs taken) (Usb (Shared true (queue sh) (reader_error sh)) rs taken).

Inductive usb_reach (bulk_serialization : bool) (address : Z) : usb → Prop :=
  | usb_reach_init : usb_reach bulk_serialization address (init_usb bulk_serialization address)
  | usb_reach_step u u' :
      usb_reach bulk_serialization address u → usb_step u u' →
      usb_reach bulk_serialization address u'.

(** ** Framing lemmas *)

Lemma event_expected_ok data : ∃ n, event_expected data = Ok n.
Proof.
  unfold event_expected. case_match; [by eexists|].
  destruct (idx_ok data 1) as [x ->]; [apply Nat.ltb_ge in H; lia|by eexists].
Qed.

Lemma acl_expected_ok data : ∃ n, acl_expected data = Ok n.
Proof. unfold acl_expected. case_match; by eexists. Qed.

Lemma serialized_expected_cases data :
  (∃ n, serialized_expected data = Ok n) ∨
  (∃ t, serialized_expected data = Exc (TransportError t)).
Proof.
  unfold serialized_expected. destruct data as [|kind body]; [left; by eexists|].
  destruct (event_expected_ok body) as [n1 ->], (acl_expected_ok body) as [n2 ->].
  repeat case_match; cbn; repeat case_match; simplify_eq; eauto.
Qed.

Lemma expected_exc k data e :
  expected_fn k data = Exc e → is_transport_error e = true.
Proof.
  destruct k; cbn.
  - by destruct (event_expected_ok data) as [n ->].
  - by destruct (acl_expected_ok data) as [n ->].
  - destruct (serialized_expected_cases data) as [[n ->]|[t ->]]; [done|by intros [= <-]].
Qed.

Lemma expected_not_stuck k data : expected_fn k data ≠ Stuck.
Proof.
  destruct k; cbn.
  - by destruct (event_expected_ok data) as [n ->].
  - by destruct (acl_expected_ok data) as [n ->].
  - by destruct (serialized_expected_cases data) as [[n ->]|[t ->]].
Qed.

Lemma slice_take {A} i j n (l : list A) :
  (j ≤ n)%nat → slice i j (take n l) = slice i j l.
Proof.
  intros. unfold slice. rewrite skipn_firstn_comm, take_take. f_equal. lia.
Qed.

Lemma lookup_take_idx {A} (l : list A) n i : (i < n)%nat → idx (take n l) i = idx l i.
Proof. intros. unfold idx. by rewrite lookup_take_lt. Qed.

(** The two ways a packet is delimited: a length octet or a length field. *)
Lemma event_complete buf n :
  bytes_ok buf → event_expected buf = Ok (Some n) → n ≤ blen buf →
  ∃ c b, take (Z.to_nat n) buf = c :: blen b :: b ∧ 2 ≤ n ∧ blen b ≤ 255 ∧
    parse_event (take (Z.to_nat n) buf) = Ok (Pkt H4_EVENT (Some c) b).
Proof.
  intros Hok. unfold event_expected. destruct buf as [|c [|l buf]]; cbn; try done.
  intros [= <-] Hn.
  assert (is_byte l) as Hl by (apply (bytes_ok_lookup _ 1 _ Hok); done).
  unfold is_byte, blen in *; cbn [length] in Hn.
  replace (Z.to_nat (l + 2)) with (S (S (Z.to_nat l))) by lia. cbn [take].
  set (b := take (Z.to_nat l) buf).
  assert (Z.of_nat (length b) = l) as Hb by (unfold b; rewrite length_take; lia).
  exists c, b. rewrite Hb. split_and!; [done|lia|lia|].
  assert (blen (c :: l :: b) = l + 2) as E by (unfold blen; cbn [length]; lia).
  unfold parse_event. cbn -[blen Z.add]. by rewrite E, Z.eqb_refl.
Qed.

Lemma sized_complete (mask : Z → Z) buf n :
  (∀ v, 0 ≤ v → 0 ≤ mask v) → bytes_ok buf → (4 ≤ length buf)%nat →
  n = mask (le_Z (slice 2 4 buf)) + 4 → n ≤ blen buf →
  let data := take (Z.to_nat n) buf in
  (4 ≤ length data)%nat ∧ 4 ≤ n ∧ blen data = mask (le_Z (slice 2 4 data)) + 4.
Proof.
  intros Hm Hok Hl Hn Hle data.
  pose proof (Hm _ (proj1 (le_Z_bound _ (bytes_ok_slice 2 4 _ Hok)))) as H0.
  assert (4 ≤ n) by lia.
  unfold data, blen in *. rewrite slice_take, length_take by lia. lia.
Qed.

Lemma mask14_nonneg v : 0 ≤ v → 0 ≤ mask14 v.
Proof. intros. rewrite mask14_spec. apply Z.mod_pos_bound. lia. Qed.

(** A packet the framing delimits: its parser accepts it, and framing the
    parsed packet again gives the same octets. *)
Definition carries (k : reader_kind) (p : packet) : Prop :=
  match k with
  | EventReader => kind p = H4_EVENT
  | AclReader => kind p = H4_ACL
  | SerializedReader => True
  end.

Definition parses (k : reader_kind) (data : bytes) : Prop := ∃ p,
  parser k data = Ok p ∧ frame k p = data ∧ packet_wf p ∧ carries k p.

Lemma acl_parses data :
  (4 ≤ length data)%nat → blen data = le_Z (slice 2 4 data) + 4 →
  parse_acl data = Ok (Pkt H4_ACL None data) ∧ packet_wf (Pkt H4_ACL None data).
Proof.
  intros Hl Hb. unfold parse_acl. rewrite (proj2 (Nat.ltb_ge _ _)) by done.
  rewrite Hb, Z.eqb_refl. split; [done|]. right; left. cbn. split_and!; [done|done|done|lia].
Qed.

Lemma iso_parses data :
  (4 ≤ length data)%nat → blen data = mask14 (le_Z (slice 2 4 data)) + 4 →
  parse_iso data = Ok (Pkt H4_ISO None data) ∧ packet_wf (Pkt H4_ISO None data).
Proof.
  intros Hl Hb. unfold parse_iso. rewrite (proj2 (Nat.ltb_ge _ _)) by done.
  rewrite Hb, Z.eqb_refl. split; [done|]. right; right. cbn. split_and!; [done|done|done|lia].
Qed.

Lemma event_wf c b : blen b ≤ 255 → packet_wf (Pkt H4_EVENT (Some c) b).
Proof. intros. left. cbn. by split_and!; [|eexists|]. Qed.

Lemma delimited_parses k buf n :
  bytes_ok buf → expected_fn k buf = Ok (Some n) → n ≤ blen buf →
  0 < n ∧ parses k (take (Z.to_nat n) buf).
Proof.
  intros Hok He Hn. destruct k; cbn in He.
  - destruct (event_complete buf n Hok He Hn) as (c&b&E&?&?&Hp). split; [lia|].
    exists (Pkt H4_EVENT (Some c) b). cbn. rewrite Hp, E. auto using event_wf.
  - unfold acl_expected in He. case_match eqn:Hl; [done|]. simplify_eq.
    apply Nat.ltb_ge in Hl.
    destruct (sized_complete id buf _ ltac:(done) Hok Hl eq_refl Hn) as (?&?&?).
    unfold id in *. split; [lia|]. destruct (acl_parses (take (Z.to_nat (le_Z (slice 2 4 buf) + 4)) buf))
      as [Hp Hw]; [done|done|]. eexists. by split_and!; [exact Hp| | |].
  - unfold serialized_expected in He. destruct buf as [|kd body]; [done|].
    apply Forall_cons in Hok as [_ Hok].
    assert (∀ m, take (Z.to_nat (m + 1)) (kd :: body)
                 = if decide (0 ≤ m) then kd :: take (Z.to_nat m) body else take (Z.to_nat (m + 1)) (kd :: body)) as Ht.
    { intros m. case_decide; [|done]. replace (Z.to_nat (m + 1)) with (S (Z.to_nat m)) by lia. done. }
    unfold blen in Hn; cbn [length] in Hn. unfold parses; cbn [parser parse_serialized frame].
    destruct (kd =? H4_EVENT) eqn:E1; [apply Z.eqb_eq in E1 as ->|].
    + destruct (event_expected body) as [[m|]| |] eqn:Em; cbn in He; simplify_eq.
      destruct (event_complete body m Hok Em) as (c&b&E&?&?&Hp); [unfold blen; lia|].
      split; [lia|]. rewrite Ht, decide_True by lia. exists (Pkt H4_EVENT (Some c) b).
      cbn. rewrite Hp. split_and!; [done|unfold H4.frame; cbn; by rewrite E|by apply event_wf|done].
    + destruct (kd =? H4_ACL) eqn:E2; [apply Z.eqb_eq in E2 as ->|].
      * unfold acl_expected in He. case_match eqn:Hl; cbn in He; [done|]. simplify_eq.
        apply Nat.ltb_ge in Hl.
        destruct (sized_complete id body _ ltac:(done) Hok Hl eq_refl) as (?&?&?); [unfold blen; cbn; lia|].
        cbn in *. split; [lia|]. rewrite Ht, decide_True by lia.
        destruct (acl_parses (take (Z.to_nat (le_Z (slice 2 4 body) + 4)) body)) as [Hp Hw]; [done|done|].
        eexists. cbn. split_and!; [exact Hp|done|done|done].
      * destruct (kd =? H4_ISO) eqn:E3; [apply Z.eqb_eq in E3 as ->|by cbn in He].
        case_match eqn:Hl; cbn in He; [done|]. simplify_eq. apply Nat.ltb_ge in Hl.
        destruct (sized_complete mask14 body _ mask14_nonneg Hok Hl eq_refl) as (?&?&?); [unfold blen; cbn; lia|].
        cbn in *. split; [lia|]. rewrite Ht, decide_True by lia.
        destruct (iso_parses (take (Z.to_nat (mask14 (le_Z (slice 2 4 body)) + 4)) body)) as [Hp Hw]; [done|done|].
        eexists. cbn. split_and!; [exact Hp|done|done|done].
Qed.

Lemma take_complete_cases k buf r buf' :
  bytes_ok buf →
  take_complete (expected_fn k) (maximum k) (label k) buf = (r, buf') →
  bytes_ok buf' ∧
  ((∃ data, r = Ok (Some data) ∧ buf = data ++ buf' ∧ parses k data ∧
            blen data ≤ maximum k) ∨
   (r = Ok None ∧ buf' = buf) ∨
   (∃ e, r = Exc e ∧ is_transport_error e = true)).
Proof.
  intros Hok. unfold take_complete, getS, lift, modify, raise.
  unfold mbind, M_bind; cbn.
  destruct (expected_fn k buf) as [[n|]|e|] eqn:E; cbn.
  - destruct (Z.ltb_spec (maximum k) n); cbn.
    { intros [= <- <-]. split; [constructor|]. right; right. by eexists. }
    destruct (Z.ltb_spec (blen buf) n); cbn.
    { intros [= <- <-]. split; [done|]. by right; left. }
    intros [= <- <-]. split; [by apply bytes_ok_drop|]. left.
    destruct (delimited_parses k buf n Hok E) as [? Hp]; [lia|].
    eexists. split_and!; [done|by rewrite take_drop|done|].
    unfold blen in *. rewrite length_take. lia.
  - intros [= <- <-]. split; [done|]. by right; left.
  - intros [= <- <-]. split; [done|]. right; right. exists e. split; [done|].
    by eapply expected_exc.
  - by apply expected_not_stuck in E.
Qed.

(** Framing a packet again: a buffer that starts with its octets gives it. *)
Definition produced (k : reader_kind) (p : packet) : Prop :=
  packet_wf p ∧ carries k p ∧ blen (frame k p) ≤ maximum k.

Lemma sized_slice (b rest : bytes) :
  (4 ≤ length b)%nat → slice 2 4 (b ++ rest) = slice 2 4 b.
Proof.
  intros. rewrite <-(slice_take 2 4 4 (b ++ rest)), <-(slice_take 2 4 4 b) by done.
  by rewrite take_app_le.
Qed.

Lemma acl_frame_expected b rest :
  (4 ≤ length b)%nat → blen b = 4 + le_Z (slice 2 4 b) →
  acl_expected (b ++ rest) = Ok (Some (blen b)).
Proof.
  intros Hl Hb. unfold acl_expected.
  rewrite (proj2 (Nat.ltb_ge _ _)) by (rewrite length_app; lia).
  rewrite sized_slice by done. do 2 f_equal. lia.
Qed.

Lemma usb_frame_expected k p rest :
  packet_wf p → carries k p → expected_fn k (frame k p ++ rest) = Ok (Some (blen (frame k p))).
Proof.
  destruct p as [kd c b]. unfold packet_wf; cbn. intros Hw Hc. destruct k; cbn in *; subst.
  - transitivity (Ok (Some (blen b + 2))); [done|].
    unfold blen; cbn [length]. do 2 f_equal. lia.
  - destruct Hw as [(?&?)|[(?&->&?&?)|(?&?)]]; [done| |done]. by apply acl_frame_expected.
  - destruct Hw as [(->&[x ->]&?)|[(->&->&?&?)|(->&->&?&?)]]; cbn -[Nat.ltb].
    + transitivity (Ok (Some (blen b + 2 + 1))); [done|].
      unfold blen; cbn [length]. do 2 f_equal. lia.
    + rewrite acl_frame_expected by done. cbn. do 2 f_equal. unfold blen; cbn [length]. lia.
    + rewrite (proj2 (Nat.ltb_ge _ _)) by (rewrite length_app; lia). cbn.
      rewrite sized_slice by done. do 2 f_equal. unfold blen in *; cbn [length]. lia.
Qed.

Lemma take_complete_frame k p rest :
  produced k p →
  take_complete (expected_fn k) (maximum k) (label k) (frame k p ++ rest)
  = (Ok (Some (frame k p)), rest).
Proof.
  intros (Hw&Hc&Hm). unfold take_complete, getS, lift, modify, mbind, M_bind.
  rewrite usb_frame_expected by done. rewrite (proj2 (Z.ltb_ge _ _)) by done.
  rewrite (proj2 (Z.ltb_ge _ _)) by (unfold blen; rewrite length_app; lia).
  unfold blen. by rewrite Nat2Z.id, take_app_length, drop_app_length.
Qed.

Lemma parse_frame k p : packet_wf p → carries k p → parser k (frame k p) = Ok p.
Proof.
  destruct p as [kd c b]. unfold packet_wf; cbn. intros Hw Hc.
  assert (∀ c, parse_event (c :: blen b :: b) = Ok (Pkt H4_EVENT (Some c) b)) as He.
  { intros c'. unfold parse_event. cbn -[blen].
    by rewrite (proj2 (Z.eqb_eq _ _)) by (unfold blen; cbn [length]; lia). }
  destruct k; cbn in *; subst.
  - destruct Hw as [(_&[x ->]&?)|[(?&?)|(?&?)]]; [apply He|done|done].
  - destruct Hw as [(?&?)|[(?&->&?&?)|(?&?)]]; [done| |done]. apply acl_parses; [done|lia].
  - destruct Hw as [(->&[x ->]&?)|[(->&->&?&?)|(->&->&?&?)]]; cbn; [apply He| |].
    + apply acl_parses; [done|lia].
    + apply iso_parses; [done|lia].
Qed.

(** No complete packet is left in a buffer. *)
Definition drained (k : reader_kind) (buf : bytes) : Prop :=
  take_complete (expected_fn k) (maximum k) (label k) buf = (Ok None, buf).

(** Framing is unambiguous: octets that end without a complete packet
    decompose into packets in one way only. *)
Lemma frames_unique k ps qs rest :
  Forall (produced k) ps → Forall (produced k) qs → drained k rest →
  concat (map (frame k) ps) ++ rest = concat (map (frame k) qs) →
  ps = qs ∧ rest = [].
Proof.
  intros Hps Hqs Hd. revert qs Hqs.
  induction Hps as [|p ps Hp Hps IH]; intros qs Hqs; cbn.
  - intros Heq. destruct qs as [|q qs]; cbn in Heq; [done|].
    apply Forall_cons in Hqs as [Hq _].
    pose proof (take_complete_frame k q (concat (map (frame k) qs)) Hq) as Ht.
    rewrite <-Heq in Ht. unfold drained in Hd. congruence.
  - rewrite <-app_assoc. intros Heq.
    pose proof (take_complete_frame k p (concat (map (frame k) ps) ++ rest) Hp) as Ht.
    destruct qs as [|q qs]; cbn in Heq.
    + rewrite Heq in Ht. by destruct k.
    + apply Forall_cons in Hqs as [Hq Hqs].
      rewrite Heq, take_complete_frame in Ht by done. injection Ht as Hf Hr.
      destruct Hp as (?&?&_), Hq as (?&?&_).
      assert (q = p) as ->.
      { pose proof (parse_frame k q) as E1. pose proof (parse_frame k p) as E2.
        rewrite Hf in E1. rewrite E1 in E2 by done. by injection (E2 ltac:(done) ltac:(done)). }
      destruct (IH qs Hqs) as [-> ->]; [done|]. done.
Qed.

(** ** The readers' invariant *)

Definition published_octets (r : reader) : bytes :=
  concat (map (frame (r_kind r)) (r_published r)).

(** What has been read is what has been published, then the packet in hand,
    then the buffer; a reader that waits for its endpoint holds no complete
    packet; a reader that has raised may have dropped octets. *)
Definition reader_ok (r : reader) : Prop :=
  bytes_ok (r_buffer r) ∧ Forall (produced (r_kind r)) (r_published r) ∧
  match r_phase r with
  | Top => r_received r = published_octets r ++ r_buffer r
  | Blocked => r_received r = published_octets r ++ r_buffer r ∧
               drained (r_kind r) (r_buffer r)
  | Holding data | Publishing data =>
      r_received r = published_octets r ++ data ++ r_buffer r ∧
      parses (r_kind r) data ∧ blen data ≤ maximum (r_kind r)
  | Raised _ | Failing _ | Ended => ∃ rest, r_received r = published_octets r ++ rest
  end.

Lemma frame_once_ok none k a buf rcv pub ph :
  none = Top ∨ none = Blocked → bytes_ok buf → Forall (produced k) pub →
  rcv = concat (map (frame k) pub) ++ buf →
  reader_ok (frame_once none (Reader k a buf ph rcv pub)).
Proof.
  intros Hn Hok Hp Hr. unfold frame_once; cbn.
  destruct (take_complete _ _ _ buf) as [r b] eqn:E.
  pose proof E as E'. apply take_complete_cases in E as [Hb Hc]; [|done].
  destruct Hc as [(data&->&->&Hd&Hmax)|[[-> ->]|(e&->&He)]]; unfold reader_ok, published_octets; cbn.
  - split_and!; done.
  - destruct Hn as [-> | ->]; cbn; split_and!; done.
  - split_and!; [done|done|]. by eexists.
Qed.

Lemma frame_once_kind none r : r_kind (frame_once none r) = r_kind r.
Proof. unfold frame_once. by destruct (take_complete _ _ _ _) as [[[]| |] ?]. Qed.

Lemma frame_once_published none r : r_published (frame_once none r) = r_published r.
Proof. unfold frame_once. by destruct (take_complete _ _ _ _) as [[[]| |] ?]. Qed.

(** A reader's action keeps its invariant and queues what it publishes. *)
Definition advances (sh : shared) (r : reader) (sh' : shared) (r' : reader) : Prop :=
  reader_ok r' ∧ r_kind r' = r_kind r ∧
  ∃ ps, r_published r' = r_published r ++ ps ∧ queue sh' = queue sh ++ ps.

Lemma advances_quiet sh r sh' r' :
  reader_ok r' → r_kind r' = r_kind r → r_published r' = r_published r →
  queue sh' = queue sh → advances sh r sh' r'.
Proof.
  intros. split_and!; [done|done|]. exists []. by rewrite !app_nil_r.
Qed.

Lemma advance_ok t sh r sh' r' :
  reader_ok r → (∀ chunk, t = Some (Data chunk) → bytes_ok chunk) →
  advance t sh r = Some (sh', r') → advances sh r sh' r'.
Proof.
  destruct r as [k a buf ph rcv pub]. intros (Hb&Hp&Hr) Ht. unfold advance; cbn in *.
  assert (∀ rest ph', rcv = concat (map (frame k) pub) ++ rest →
    match ph' with Raised _ | Failing _ | Ended => True | _ => False end →
    reader_ok (Reader k a buf ph' rcv pub)) as Hend.
  { intros rest ph' -> Hph. unfold reader_ok; cbn. split_and!; [done|done|].
    destruct ph'; try done; by eexists. }
  destruct ph as [| |data|data|e|e|]; cbn in Hr.
  - intros [= <- <-]. destruct (stop sh); apply advances_quiet; try done.
    + by eapply Hend.
    + apply frame_once_ok; auto.
    + apply frame_once_kind.
    + apply frame_once_published.
  - destruct Hr as [Hr _]. destruct t as [t|]; [|done].
    destruct (read_endpoint a t) as [[chunk|]|e|] eqn:Et; try done; intros [= <- <-].
    + assert (bytes_ok chunk) as Hc.
      { apply Ht. destruct t as [|err|]; cbn in Et; [by simplify_eq| |done].
        by destruct (is_timeout err). }
      apply advances_quiet; [|by rewrite frame_once_kind|by rewrite frame_once_published|done].
      apply frame_once_ok; [by left|by apply bytes_ok_app|done|].
      by rewrite Hr, <-app_assoc.
    + by apply advances_quiet.
    + apply advances_quiet; try done. by eapply Hend.
  - destruct Hr as [Hr Hd]. intros [= <- <-].
    destruct (stop sh); apply advances_quiet; try done. by eapply Hend.
  - destruct Hr as (Hr&(p&Hpp&Hfr&Hw&Hca)&Hmax). rewrite Hpp. intros [= <- <-].
    split_and!; [|done|by exists [p]].
    unfold reader_ok, published_octets; cbn. split_and!; [done| |].
    { apply Forall_app; split; [done|]. constructor; [|done]. by rewrite <-Hfr in Hmax. }
    rewrite map_app, concat_app; cbn. rewrite app_nil_r, Hfr, <-app_assoc. done.
  - destruct Hr as [rest Hr]. intros [= <- <-].
    apply advances_quiet; try done. eapply Hend; [done|]. by destruct (stop sh).
  - destruct Hr as [rest Hr]. intros [= <- <-].
    apply advances_quiet; try done. by eapply Hend.
  - done.
Qed.

(** The whole transport: every packet queued was published by one reader, and
    what the main thread has taken and what is queued are, in order, what the
    readers have published. *)
Definition usb_ok (u : usb) : Prop :=
  Forall reader_ok (u_readers u) ∧
  ∃ history : list (nat * packet),
    map snd history = u_taken u ++ queue (u_shared u) ∧
    ∀ i r, u_readers u !! i = Some r →
      map snd (filter (λ e, fst e = i) history) = r_published r.

Lemma usb_step_ok u u' : usb_ok u → usb_step u u' → usb_ok u'.
Proof.
  intros (Hrs&hist&Hh&Hpub) Hst.
  destruct Hst as [sh rs i r t sh' r' taken Hi Ht Hadv|sh rs p ps taken Hq|sh rs taken];
    cbn in *.
  - pose proof (Forall_lookup_1 _ _ _ _ Hrs Hi) as Hr.
    destruct (advance_ok t sh r sh' r' Hr Ht Hadv) as (Hr'&Hk&ps&Hp&Hq).
    split; [by apply Forall_insert|]. exists (hist ++ ((λ p, (i, p)) <$> ps)). split.
    + rewrite map_app, Hh. cbn. rewrite Hq, <-app_assoc. f_equal. f_equal.
      clear. induction ps; cbn; [done|by f_equal].
    + intros j rj Hj. cbn in Hj. rewrite filter_app, map_app.
      destruct (decide (i = j)) as [<-|Hne].
      * rewrite list_lookup_insert_eq in Hj by (by eapply lookup_lt_Some). injection Hj as <-.
        rewrite Hp, (Hpub i r Hi). f_equal. clear. induction ps as [|p ps IH]; [done|].
        rewrite fmap_cons, filter_cons_True by done. cbn [map snd]. by rewrite IH.
      * rewrite list_lookup_insert_ne in Hj by done. rewrite (Hpub j rj Hj).
        assert (filter (λ e : nat * packet, fst e = j) ((λ p, (i, p)) <$> ps) = []) as ->.
        { clear -Hne. induction ps as [|p ps IH]; [done|].
          rewrite fmap_cons, filter_cons_False; done. }
        by rewrite app_nil_r.
  - split; [done|]. exists hist. split; [|done]. rewrite Hh, Hq. cbn. by rewrite <-app_assoc.
  - split; [done|]. by exists hist.
Qed.

Lemma usb_reach_ok bulk a u : usb_reach bulk a u → usb_ok u.
Proof.
  induction 1 as [|u u' _ IH Hst]; [|by eapply usb_step_ok].
  split; cbn.
  - destruct bulk; repeat constructor; done.
  - exists []. split; [done|]. intros i r Hr.
    destruct bulk, i as [|[|i]]; cbn in Hr; by simplify_eq.
Qed.


(** A reader that waits for its endpoint after the octets of a packet
    sequence have arrived, however the transfers cut them, has published
    exactly that sequence and holds nothing back. *)
Theorem usb_reader_complete (bulk_serialization : bool) (address : Z) (u : usb)
    (i : nat) (r : reader) (ps : list packet)
    (Hu : usb_reach bulk_serialization address u)
    (Hi : u_readers u !! i = Some r) (Hb : r_phase r = Blocked)
    (Hps : Forall (produced (r_kind r)) ps)
    (Hrecv : r_received r = concat (map (frame (r_kind r)) ps)) :
  r_published r = ps ∧ r_buffer r = [].
Proof.
  apply usb_reach_ok in Hu as (Hrs&_).
  pose proof (Forall_lookup_1 _ _ _ _ Hrs Hi) as (_&Hp&Hr). rewrite Hb in Hr.
  destruct Hr as [Hr Hd]. rewrite Hr in Hrecv. by eapply frames_unique.
Qed.

(** *** The first error stays, and stops the readers *)

Definition in_publication (r : reader) : bool :=
  match r_phase r with Publishing _ => true | _ => false end.

(** Packets out of a reader, or past its last stop test. *)
Definition output (u : usb) : nat :=
  (length (u_taken u) + length (queue (u_shared u))
   + sum_list_with (λ r, if in_publication r then 1 else 0) (u_readers u))%nat.

Lemma sum_list_insert {A} (f : A → nat) l i x y :
  l !! i = Some x →
  (sum_list_with f (<[i := y]> l) + f x = sum_list_with f l + f y)%nat.
Proof.
  revert i. induction l as [|z l IH]; intros [|i] Hi; cbn in *; try done.
  - injection Hi as ->. cbn. lia.
  - rewrite <-!Nat.add_assoc. f_equal. exact (IH i Hi).
Qed.

Lemma frame_once_phase none r :
  none = Top ∨ none = Blocked →
  in_publication r = false → in_publication (frame_once none r) = false.
Proof.
  intros Hn Hr. unfold frame_once. destruct (take_complete _ _ _ _) as [[[]| |] ?]; cbn; [done| |done|].
  - by destruct Hn as [-> | ->].
  - unfold in_publication in *. done.
Qed.

Lemma advance_output t sh r sh' r' :
  stop sh = true → advance t sh r = Some (sh', r') →
  stop sh' = true ∧
  (length (queue sh') + (if in_publication r' then 1 else 0)
   ≤ length (queue sh) + (if in_publication r then 1 else 0))%nat.
Proof.
  intros Hs. unfold advance. destruct (r_phase r) as [| |data|data|e|e|] eqn:Ep.
  - rewrite Hs. intros [= <- <-]. split; [done|]. cbn. lia.
  - destruct t as [t|]; [|done].
    destruct (read_endpoint (r_address r) t) as [[chunk|]|e|]; try done; intros [= <- <-];
      (split; [done|]); cbn; [|lia..].
    rewrite frame_once_phase by (done || by left). cbn. lia.
  - rewrite Hs. intros [= <- <-]. split; [done|]. cbn. lia.
  - destruct (parser _ _) as [p|e|]; try done; intros [= <- <-]; (split; [done|]).
    + unfold in_publication. rewrite Ep. cbn. rewrite length_app. cbn. lia.
    + unfold in_publication. rewrite Ep. cbn. lia.
  - rewrite Hs. intros [= <- <-]. split; [done|]. cbn. lia.
  - intros [= <- <-]. split; [done|]. cbn. lia.
  - done.
Qed.

Lemma usb_step_stopped u u' :
  stop (u_shared u) = true → usb_step u u' →
  stop (u_shared u') = true ∧ (output u' ≤ output u)%nat.
Proof.
  intros Hs Hst. destruct Hst as [sh rs i r t sh' r' taken Hi Ht Hadv|sh rs p ps taken Hq|];
    unfold output; cbn in *.
  - destruct (advance_output t sh r sh' r' Hs Hadv) as [? ?]. split; [done|].
    pose proof (sum_list_insert (λ r, if in_publication r then 1 else 0)%nat rs i r r' Hi).
    cbn in *. lia.
  - split; [done|]. rewrite Hq, length_app. cbn. lia.
  - split; [done|lia].
Qed.

(** Once close or a failure has set the stop flag, the flag stays and the
    readers queue at most the packets that were past their last stop test: the
    packets handed out or waiting never exceed that bound again. *)
Theorem usb_stop_bounds_output (u u' : usb) (Hs : stop (u_shared u) = true)
    (Hsteps : rtc usb_step u u') :
  stop (u_shared u') = true ∧
  (length (u_taken u') + length (queue (u_shared u')) ≤ output u)%nat.
Proof.
  assert (stop (u_shared u') = true ∧ (output u' ≤ output u)%nat) as [? ?].
  { induction Hsteps as [u|u u1 u' Hst _ IH]; [split; [done|lia]|].
    destruct (usb_step_stopped u u1 Hs Hst) as [Hs1 ?].
    destruct (IH Hs1). split; [done|lia]. }
  split; [done|]. unfold output in *. lia.
Qed.

Definition error_ok (u : usb) : Prop :=
  ∀ e, reader_error (u_shared u) = Some e →
  is_transport_error e = true ∧ stop (u_shared u) = true.

Lemma advance_error t sh r sh' r' :
  advance t sh r = Some (sh', r') →
  (stop sh = true → stop sh' = true) ∧
  (reader_error sh' = reader_error sh ∨
   reader_error sh = None ∧ stop sh' = true ∧
   ∃ e, reader_error sh' = Some e ∧ is_transport_error e = true).
Proof.
  unfold advance. destruct (r_phase r) as [| |data|data|e|e|].
  - intros [= <- <-]; auto.
  - destruct t as [t|]; [|done].
    destruct (read_endpoint (r_address r) t) as [[chunk|]|e|]; try done; intros [= <- <-]; auto.
  - intros [= <- <-]; auto.
  - destruct (parser _ _); try done; intros [= <- <-]; auto.
  - intros [= <- <-]; auto.
  - intros [= <- <-]. split; [done|]. cbn. destruct (reader_error sh); [by left|right].
    split_and!; [done|done|]. eexists. split; [done|]. unfold reader_exn.
    by destruct (is_transport_error e) eqn:?.
  - done.
Qed.

(** The error read_packet will raise is a transport error, comes with the
    stop flag set, and once recorded is never replaced by a later one. *)
Theorem usb_first_error_wins (bulk_serialization : bool) (address : Z) (u u' : usb) (e : exn)
    (Hu : usb_reach bulk_serialization address u)
    (He : reader_error (u_shared u) = Some e) (Hsteps : rtc usb_step u u') :
  is_transport_error e = true ∧ stop (u_shared u) = true ∧
  reader_error (u_shared u') = Some e.
Proof.
  assert (error_ok u) as Hok.
  { clear He Hsteps. induction Hu as [|u u1 _ IH Hst]; [done|].
    destruct Hst as [sh rs i r t sh' r' taken Hi Ht Hadv| |]; intros e'; cbn in *.
    - apply advance_error in Hadv as [Hs [->|(_&?&e1&->&?)]]; [|by intros [= <-]].
      intros Hs'. destruct (IH e' Hs'). auto.
    - intros Hs'. by destruct (IH e' Hs').
    - intros Hs'. by destruct (IH e' Hs'). }
  destruct (Hok e He) as [? ?]. split_and!; [done|done|]. clear Hu Hok.
  induction Hsteps as [|u u1 u' Hst _ IH]; [done|]. apply IH.
  - destruct Hst as [sh rs i r t sh' r' taken Hi Ht Hadv| |]; cbn in *; [|done..].
    apply advance_error in Hadv as [_ [->|(?&_)]]; [done|congruence].
  - destruct Hst as [sh rs i r t sh' r' taken Hi Ht Hadv| |]; cbn in *; [|done..].
    apply advance_error in Hadv as [Hs _]. auto.
Qed.

(** ** The main thread's side *)

(** How one OUT transfer ends: octets written, or a USB error. *)
Inductive outcome : Type := Wrote (n : Z) | WriteFails (err : usb_error).

(** An OUT transfer: HCI command on the control endpoint, or bulk. *)
Inductive out_transfer : Type := ControlOut (data : bytes) | BulkOut (data : bytes).

(** What wakes the main thread: a packet, a failure, or nothing. *)
Inductive publication : Type := Published (p : packet) | Failed (e : exn) | Woken.

(** What the readers will publish and when, and what the main thread sees. *)
Record native : Type := Native {
  bulk_serialization : bool;
  prefetched : list packet;
  reader_packets : list packet;
  native_error : option exn;
  arrivals : list (Z * publication);
  outcomes : list outcome;      (* of the writes to come; none left: all succeed *)
  transfers : list out_transfer;
  written : list bytes;
}.

Definition set_prefetched ps t := Native (bulk_serialization t) ps (reader_packets t)
  (native_error t) (arrivals t) (outcomes t) (transfers t) (written t).
Definition set_reader_packets ps t := Native (bulk_serialization t) (prefetched t) ps
  (native_error t) (arrivals t) (outcomes t) (transfers t) (written t).
Definition set_arrivals l t := Native (bulk_serialization t) (prefetched t) (reader_packets t)
  (native_error t) l (outcomes t) (transfers t) (written t).
Definition set_native_error e t := Native (bulk_serialization t) (prefetched t)
  (reader_packets t) e (arrivals t) (outcomes t) (transfers t) (written t).
Definition add_transfer x os t := Native (bulk_serialization t) (prefetched t)
  (reader_packets t) (native_error t) (arrivals t) os (transfers t ++ [x]) (written t).
Definition add_written pkt t := Native (bulk_serialization t) (prefetched t)
  (reader_packets t) (native_error t) (arrivals t) (outcomes t) (transfers t) (written t ++ [pkt]).

(** One publication by a reader. *)
Definition publish (a : publication) (t : native) : native :=
  match a with
  | Published p => set_reader_packets (reader_packets t ++ [p]) t
  | Failed e => set_native_error (match native_error t with None => Some e | old => old end) t
  | Woken => t
  end.

(** Everything published by [now]. *)
Fixpoint publish_due (now : Z) (l : list (Z * publication)) (t : native) : native :=
  match l with
  | (at_, a) :: l' =>
      if at_ <=? now then publish_due now l' (publish a (set_arrivals l' t)) else set_arrivals l t
  | [] => set_arrivals [] t
  end.

Definition catch_up (s : Z * native) : Z * native :=
  (fst s, publish_due (fst s) (arrivals (snd s)) (snd s)).

(** [condition.wait(remaining)]: until the next publication or the timeout. *)
Definition wait (remaining : Z) : M (Z * native) unit := modify (λ s,
  let until := match arrivals (snd s) with
               | (at_, _) :: _ => Z.min (fst s + remaining) (Z.max (fst s) at_)
               | [] => fst s + remaining
               end in
  catch_up (until, snd s)).

Fixpoint wait_loop (fuel : nat) (timeout deadline : Z) : M (Z * native) (option packet) :=
  match fuel with
  | O => λ s, (Stuck, s)
  | S fuel' =>
      s ← getS;
      match reader_packets (snd s) with
      | p :: ps =>
          modify (λ s, (fst s, set_reader_packets ps (snd s))) ;; mret (Some p)
      | [] =>
          match native_error (snd s) with
          | Some e => raise e
          | None =>
              if timeout <=? 0 then mret None
              else
                let remaining := deadline - fst s in
                if remaining <=? 0 then mret None
                else wait remaining ;; wait_loop fuel' timeout deadline
          end
      end
  end.

(** [NativeUsbTransport.read_packet]. *)
Definition read_packet (timeout : Z) : M (Z * native) (option packet) :=
  s ← getS;
  match prefetched (snd s) with
  | p :: ps => modify (λ s, (fst s, set_prefetched ps (snd s))) ;; mret (Some p)
  | [] =>
      let timeout := Z.max 0 timeout in
      modify catch_up ;;
      wait_loop (length (arrivals (snd s)) + 2) timeout (fst s + timeout)
  end.

(** [NativeUsbTransport.has_pending_input]. *)
Definition has_pending_input : M (Z * native) bool :=
  s ← getS;
  match prefetched (snd s) with
  | _ :: _ => mret true
  | [] =>
      p ← read_packet 1000;
      match p with
      | None => mret false
      | Some p =>
          modify (λ s, (fst s, set_prefetched (prefetched (snd s) ++ [p]) (snd s))) ;;
          mret true
      end
  end.

(** One OUT transfer of [data], checked for its length. *)
Definition out (x : out_transfer) (data : bytes) (short : string) : M native unit := λ t,
  match outcomes t with
  | WriteFails err :: os =>
      (Exc (classify_usb_error (Lit "native USB write") err), add_transfer x os t)
  | Wrote n :: os =>
      if n =? blen data then (Ok tt, add_transfer x os t)
      else (Exc (TransportError (Lit short)), add_transfer x os t)
  | [] => (Ok tt, add_transfer x [] t)
  end.

(** [NativeUsbTransport.write_packet]. *)
Definition write_packet (pkt : bytes) : M native unit :=
  match pkt with
  | [] => raise (TransportError (Lit "empty HCI packet"))
  | kind :: body =>
      bulk ← gets bulk_serialization;
      (if (bulk : bool) then out (BulkOut pkt) pkt "short native USB bulk write"
       else if kind =? H4_COMMAND then
         out (ControlOut body) body "short native USB command transfer"
       else if kind =? H4_ACL then out (BulkOut body) body "short native USB ACL write"
       else if kind =? H4_ISO then
         raise (TransportError (Lit "HCI ISO needs USB Bulk Serialization; rerun with --usb-bulk"))
       else raise (TransportError (Fmt "HCI packet type 0x%02X is not supported by native USB"
                                     [AInt kind]))) ;;
      modify (add_written pkt)
  end.

Definition native_backlog (t : native) : nat :=
  (length (prefetched t) + length (reader_packets t) + length (arrivals t))%nat.

Definition arrival_ok (a : Z * publication) : Prop :=
  match snd a with
  | Published p => packet_ok p
  | Failed e => is_transport_error e = true
  | Woken => True
  end.
Definition native_wf (t : native) : Prop :=
  Forall packet_ok (prefetched t) ∧ Forall packet_ok (reader_packets t) ∧
  Forall arrival_ok (arrivals t) ∧ from_option (λ e, is_transport_error e = true) True (native_error t).

#[global] Instance native_transport : Transport native := {|
  t_read_packet := read_packet;
  t_write_packet := write_packet;
  t_has_pending_input := has_pending_input;
  t_sent := written;
  t_backlog := native_backlog;
  t_wf := native_wf;
|}.

(** *** The laws *)

(** What publishing preserves. *)
Definition publishes (t t' : native) : Prop :=
  native_wf t' ∧ written t' = written t ∧ prefetched t' = prefetched t ∧
  (native_backlog t' ≤ native_backlog t)%nat ∧
  (length (arrivals t') ≤ length (arrivals t))%nat.

Lemma publish_due_spec now l t :
  native_wf (set_arrivals l t) → publishes (set_arrivals l t) (publish_due now l t).
Proof.
  revert t. induction l as [|[at_ a] l IH]; intros t Hwf; cbn; [by split_and!|].
  destruct (Z.leb_spec at_ now); [|by split_and!].
  assert (set_arrivals l (publish a (set_arrivals l t)) = publish a (set_arrivals l t)) as E
    by (by destruct a).
  assert (native_wf (set_arrivals l (publish a (set_arrivals l t)))) as Hwf'.
  { destruct Hwf as (Hp&Hr&Ha&He); cbn in *. apply Forall_cons in Ha as [Ha Has].
    unfold native_wf. destruct a as [p|e|]; cbn in *; split_and!; try done.
    - apply Forall_app; by split; [|constructor].
    - by destruct (native_error t). }
  destruct (IH _ Hwf') as (H1&H2&H3&H4&H5). unfold publishes.
  unfold native_backlog in *. destruct a as [p|e|]; cbn in *;
    rewrite ?length_app in H4; cbn in H4; split_and!; auto; lia.
Qed.

Lemma set_arrivals_same t : set_arrivals (arrivals t) t = t.
Proof. by destruct t. Qed.

Lemma catch_up_spec now t :
  native_wf t → publishes t (publish_due now (arrivals t) t).
Proof.
  intros Hwf. pose proof (publish_due_spec now (arrivals t) t) as H.
  rewrite set_arrivals_same in H. by apply H.
Qed.

(** A due publication is consumed. *)
Lemma publish_due_consumes now at_ a l t :
  at_ ≤ now → (length (arrivals (publish_due now ((at_, a) :: l) t)) ≤ length l)%nat.
Proof.
  intros Hle. cbn. rewrite (proj2 (Z.leb_le _ _)) by done.
  generalize (publish a (set_arrivals l t)). induction l as [|[at' a'] l IH]; intros t'; cbn; [lia|].
  destruct (at' <=? now); cbn; [|lia]. specialize (IH (publish a' (set_arrivals l t'))). lia.
Qed.

(** Turns needed: one per publication to come, one for the timeout. *)
Definition wait_turns (deadline now : Z) (t : native) : nat :=
  (length (arrivals t) + if (deadline <=? now)%Z then 0 else 1)%nat.

Lemma wait_progress deadline now t :
  native_wf t → now < deadline →
  let '(_, (now', t')) := wait (deadline - now) (now, t) in
  publishes t t' ∧ now ≤ now' ≤ deadline ∧
  (wait_turns deadline now' t' < wait_turns deadline now t)%nat.
Proof.
  intros Hwf Hlt. unfold wait, modify, catch_up; cbn.
  set (until := match arrivals t with
    | (at_, _) :: _ => Z.min (now + (deadline - now)) (Z.max now at_)
    | [] => now + (deadline - now) end).
  pose proof (catch_up_spec until t Hwf) as Hp. split; [done|].
  destruct Hp as (_&_&_&_&Hle). unfold wait_turns.
  destruct (arrivals t) as [|[at_ a] l] eqn:Ea.
  - unfold until in *. rewrite (proj2 (Z.leb_gt deadline now)) by done.
    rewrite (proj2 (Z.leb_le _ _)) by lia. split; [lia|]. lia.
  - assert (now ≤ until ≤ deadline) by (unfold until; lia). split; [done|].
    rewrite (proj2 (Z.leb_gt deadline now)) by done.
    destruct (Z.leb_spec at_ until).
    + pose proof (publish_due_consumes until at_ a l t H0). destruct (deadline <=? until); cbn [length]; lia.
    + rewrite (proj2 (Z.leb_le deadline until)) by (unfold until in *; lia). cbn [length] in *. lia.
Qed.

Lemma wait_loop_spec fuel timeout deadline now t :
  native_wf t → (wait_turns deadline now t < fuel)%nat →
  let '(r, s') := wait_loop fuel timeout deadline (now, t) in
  native_wf (snd s') ∧ read_frame (now, t) s' ∧ prefetched (snd s') = prefetched t ∧
  ((∃ p, r = Ok (Some p) ∧ packet_ok p ∧ (native_backlog (snd s') < native_backlog t)%nat) ∨
   (r = Ok None ∧ (0 < timeout → deadline ≤ fst s')) ∨
   (∃ e, r = Exc e ∧ is_transport_error e = true)).
Proof.
  revert now t. induction fuel as [|fuel IH]; intros now t Hwf Hfuel; [lia|].
  cbn [wait_loop]. unfold getS, modify, raise, mret, M_ret, mbind, M_bind; cbn -[wait].
  pose proof Hwf as (H1&H2&H3&H4).
  destruct (reader_packets t) as [|p ps] eqn:Er.
  2: { apply Forall_cons in H2 as [H2 H2']. unfold read_frame; cbn. unfold native_wf, native_backlog; cbn.
       rewrite Er; cbn. split_and!; try done; try lia. left. exists p. split_and!; [done|done|lia]. }
  destruct (native_error t) as [e|] eqn:Ee.
  { unfold read_frame; cbn. split_and!; try done; try lia. right; right. by exists e. }
  destruct (Z.leb_spec timeout 0).
  { unfold read_frame; cbn. split_and!; try done; try lia. right; left. split; [done|lia]. }
  destruct (Z.leb_spec (deadline - now) 0).
  { unfold read_frame; cbn. split_and!; try done; try lia. right; left. split; [done|lia]. }
  pose proof (wait_progress deadline now t Hwf ltac:(lia)) as Hw.
  change (wait (deadline - now) (now, t)) with (Ok (A:=unit) tt, snd (wait (deadline - now) (now, t))) in *.
  destruct (snd (wait (deadline - now) (now, t))) as [now1 t1]; cbn in *.
  destruct Hw as ((Hwf1&Hw1&Hp1&Hb1&_)&Hnow&Ht). specialize (IH now1 t1 Hwf1 ltac:(lia)).
  destruct (wait_loop fuel timeout deadline (now1, t1)) as [r s'].
  destruct IH as (?&(?&?&?)&?&Hres). unfold read_frame in *; cbn in *.
  split_and!; try done; try congruence; try lia.
  destruct Hres as [(p&?&?&?)|Hres]; [left; exists p; split_and!; auto; lia|by right].
Qed.

Lemma native_read_spec timeout now t :
  native_wf t →
  let '(r, s') := read_packet timeout (now, t) in
  native_wf (snd s') ∧ read_frame (now, t) s' ∧
  ((∃ p, r = Ok (Some p) ∧ packet_ok p ∧ (native_backlog (snd s') < native_backlog t)%nat ∧
         (length (prefetched (snd s')) ≤ length (prefetched t))%nat) ∨
   (r = Ok None ∧ (0 < timeout → now + timeout ≤ fst s')) ∨
   (∃ e, r = Exc e ∧ is_transport_error e = true)).
Proof.
  intros Hwf. pose proof Hwf as (H1&H2&H3&H4).
  unfold read_packet, getS, modify, mret, M_ret, mbind, M_bind; cbn.
  destruct (prefetched t) as [|p ps] eqn:Ep.
  2: { apply Forall_cons in H1 as [H1 H1']. unfold read_frame; cbn. unfold native_wf, native_backlog; cbn.
       rewrite Ep; cbn. split_and!; try done; try lia. left. exists p. split_and!; try done; lia. }
  unfold catch_up; cbn. destruct (catch_up_spec now t Hwf) as (Hwf1&Hw1&Hp1&Hb1&Ha1).
  pose proof (wait_loop_spec (length (arrivals t) + 2) (Z.max 0 timeout) (now + Z.max 0 timeout)
    now (publish_due now (arrivals t) t) Hwf1) as Hl.
  destruct (wait_loop _ _ _ _) as [r s'].
  destruct Hl as (?&(?&?&?)&Hp&Hres).
  { unfold wait_turns. destruct (_ <=? _)%Z; lia. }
  unfold read_frame; cbn in *. split_and!; try done; try congruence; try lia.
  destruct Hres as [(p&?&?&?)|[[-> ?]|?]]; [left; exists p|right; left|by right; right].
  - rewrite Hp, Hp1, Ep. split_and!; auto; lia.
  - split; [done|lia].
Qed.

(** A write either completes and is recorded, or raises a transport error. *)
Definition write_outcome (pkt : bytes) (t : native) (r : res unit) (t' : native) : Prop :=
  (native_wf t → native_wf t') ∧ native_backlog t' = native_backlog t ∧
  ((r = Ok tt ∧ written t' = written t ++ [pkt]) ∨
   (∃ e, r = Exc e ∧ is_transport_error e = true ∧ written t' = written t)).

Lemma out_then_record x data short pkt t :
  let '(r, t') := (out x data short ;; modify (add_written pkt)) t in
  write_outcome pkt t r t'.
Proof.
  unfold out, classify_usb_error, modify, mbind, M_bind, write_outcome.
  repeat case_match; simplify_eq; split_and!; eauto.
Qed.

Lemma raise_outcome pkt t tx (m : M native unit) :
  let '(r, t') := (raise (A:=unit) (TransportError tx) ;; m) t in write_outcome pkt t r t'.
Proof. unfold raise, mbind, M_bind, write_outcome. split_and!; eauto. Qed.

Lemma native_write_cases pkt t :
  let '(r, t') := write_packet pkt t in write_outcome pkt t r t'.
Proof.
  unfold write_packet. destruct pkt as [|kd body].
  { unfold raise, write_outcome. split_and!; eauto. }
  unfold gets. unfold mbind at 1, M_bind at 1.
  destruct (bulk_serialization t); [apply out_then_record|].
  destruct (kd =? H4_COMMAND); [apply out_then_record|].
  destruct (kd =? H4_ACL); [apply out_then_record|].
  destruct (kd =? H4_ISO); apply raise_outcome.
Qed.

#[global] Instance native_laws : TransportLaws native.
Proof.
  split; cbn.
  - intros timeout [now t] Hwf. pose proof (native_read_spec timeout now t Hwf) as H.
    destruct (read_packet timeout (now, t)) as [r s']; cbn.
    destruct H as (?&?&Hr). split_and!; try done.
    + intros e ->. by destruct Hr as [(?&?&_)|[[? _]|(?&[= <-]&?)]].
    + destruct Hr as [(?&->&_)|[[-> _]|(?&->&_)]]; done.
  - intros timeout now t p s' Hwf E. pose proof (native_read_spec timeout now t Hwf) as H.
    rewrite E in H. destruct H as (_&_&[(?&[= <-]&?&?&_)|[[? _]|(?&?&_)]]); done.
  - intros timeout now t s' Hwf Hto E. pose proof (native_read_spec timeout now t Hwf) as H.
    rewrite E in H. destruct H as (_&_&[(?&?&?&?)|[[_ ?]|(?&?&_)]]); try done. left. lia.
  - intros [now t] Hwf. cbn in Hwf. unfold has_pending_input, getS, modify, mret, M_ret.
    unfold mbind, M_bind; cbn.
    destruct (prefetched t) as [|p0 ps0] eqn:Ep; [|by split_and!].
    pose proof (native_read_spec 1000 now t Hwf) as H.
    destruct (read_packet 1000 (now, t)) as [[[p|]|e|] [now' t']];
      destruct H as (Hwf'&(?&?&?)&Hr); cbn in *.
    + destruct Hr as [(p'&[= <-]&?&?&_)|[[? _]|(?&?&_)]]; [|done..].
      destruct Hwf' as (H1'&H2'&H3'&H4'). unfold read_frame in *; cbn in *. unfold native_wf, native_backlog in *; cbn in *.
      rewrite !length_app; cbn. split_and!; try done; try lia.
      apply Forall_app; by split; [|constructor].
    + by split_and!.
    + split_and!; try done. intros e' [= <-].
      by destruct Hr as [(?&?&_)|[[? _]|(?&[= <-]&?)]].
    + by destruct Hr as [(?&?&_)|[[? _]|(?&?&_)]].
  - intros bs t Hwf. pose proof (native_write_cases bs t) as H.
    destruct (write_packet bs t) as [r t'].
    destruct H as (Hok&Hb&[[-> _]|(e&->&He&_)]); cbn; split_and!; auto; [done|].
    by intros ? [= <-].
  - intros bs t t' E. pose proof (native_write_cases bs t) as H. rewrite E in H.
    by destruct H as (_&_&[[_ ?]|(e&?&_)]).
  - intros bs t t' e E. pose proof (native_write_cases bs t) as H. rewrite E in H.
    by destruct H as (_&_&[[? _]|(?&_&_&?)]).
Qed.

(** ** What goes out, and how much comes in *)

(** Every packet the host writes goes to the endpoint Bluetooth USB assigns
    it: commands without their indicator to the control endpoint, ACL data
    without it to the bulk endpoint, anything with its indicator to the bulk
    endpoint under Bulk Serialization; ISO data without it is refused and no
    transfer is made. *)
Theorem native_write_routing (pkt : bytes) (t t' : native)
    (Hw : write_packet pkt t = (Ok tt, t')) :
  ∃ kind body, pkt = kind :: body ∧ written t' = written t ++ [pkt] ∧
    transfers t' = transfers t ++
      [if bulk_serialization t then BulkOut pkt
       else if kind =? H4_COMMAND then ControlOut body else BulkOut body] ∧
    (bulk_serialization t = false → kind = H4_COMMAND ∨ kind = H4_ACL).
Proof.
  unfold write_packet, gets, modify, raise, out in Hw.
  unfold mbind, M_bind in Hw. destruct pkt as [|kd body]; [done|]. exists kd, body.
  destruct (bulk_serialization t); [|destruct (kd =? H4_COMMAND) eqn:E1;
    [|destruct (kd =? H4_ACL) eqn:E2; [|by destruct (kd =? H4_ISO)]]].
  all: split; [done|]; repeat case_match; simplify_eq; split_and!; try done; intros; lia.
Qed.

(** The bulk IN transfer size is a whole number of USB packets, the least
    one that holds a 1025 octet HCI packet. *)
Theorem bulk_transfer_size_covers (e : endpoint) (size : Z)
    (H : bulk_transfer_size e = Ok size) :
  let mps := Z.land (ep_max_packet e) 0x07FF in
  0 < mps ∧ size mod mps = 0 ∧ 1025 ≤ size < 1025 + mps.
Proof.
  unfold bulk_transfer_size, endpoint_mps in H. cbn zeta.
  set (mps := Z.land (ep_max_packet e) 0x07FF) in *.
  destruct (Z.leb_spec mps 0); [done|]. cbn in H. injection H as <-.
  split; [done|]. split; [apply Z_mod_mult|].
  pose proof (Z.div_mod (1025 + mps - 1) mps ltac:(lia)).
  pose proof (Z.mod_pos_bound (1025 + mps - 1) mps ltac:(lia)). lia.
Qed.

(** ** Runs of the threads *)

(** A schedule: which reader acts, on which transfer, or the main thread. *)
Inductive action : Type := Act (i : nat) (t : option transfer) | Take | Close.

Definition action_ok (a : action) : bool :=
  match a with Act _ (Some (Data chunk)) => bool_decide (bytes_ok chunk) | _ => true end.

Definition act (a : action) (u : usb) : option usb :=
  match a with
  | Act i t =>
      r ← u_readers u !! i;
      '(sh', r') ← advance t (u_shared u) r;
      Some (Usb sh' (<[i := r']> (u_readers u)) (u_taken u))
  | Take =>
      match queue (u_shared u) with
      | p :: ps => Some (Usb (Shared (stop (u_shared u)) ps (reader_error (u_shared u)))
                             (u_readers u) (u_taken u ++ [p]))
      | [] => None
      end
  | Close => Some (Usb (Shared true (queue (u_shared u)) (reader_error (u_shared u)))
                       (u_readers u) (u_taken u))
  end.

Lemma act_step a u u' : action_ok a = true → act a u = Some u' → usb_step u u'.
Proof.
  destruct u as [sh rs taken]. destruct a as [i t| |]; cbn.
  - intros Hok. destruct (rs !! i) as [r|] eqn:Hi; cbn; [|done].
    destruct (advance t sh r) as [[sh' r']|] eqn:Ha; cbn; [|done]. intros [= <-].
    eapply step_reader; [done| |done].
    intros chunk ->. by apply bool_decide_eq_true in Hok.
  - intros _. destruct (queue sh) as [|p ps] eqn:Hq; [done|]. intros [= <-]. by constructor.
  - intros _ [= <-]. constructor.
Qed.

(** The state a schedule leads to; impossible actions are skipped. *)
Definition acts (l : list action) (u : usb) : usb :=
  fold_left (λ u a, default u (act a u)) l u.

Lemma acts_steps l u : forallb action_ok l = true → rtc usb_step u (acts l u).
Proof.
  revert u. induction l as [|a l IH]; intros u; cbn; [done|].
  intros [Ha Hl]%andb_true_iff. destruct (act a u) as [u'|] eqn:E; cbn; [|by apply IH].
  eapply rtc_l; [by eapply act_step|by apply IH].
Qed.

Lemma reach_steps bulk a u u' :
  usb_reach bulk a u → rtc usb_step u u' → usb_reach bulk a u'.
Proof.
  intros Hu Hst. induction Hst; [done|]. apply IHHst. by eapply usb_reach_step.
Qed.

Lemma acts_reach bulk a l u :
  usb_reach bulk a u → forallb action_ok l = true → usb_reach bulk a (acts l u).
Proof. intros Hu Hl. eapply reach_steps; [done|by apply acts_steps]. Qed.

(** An event cut over two transfers, an ACL packet in between, then close. *)
Definition demo_schedule : list action :=
  [ Act 0 None; Act 1 None; Act 0 (Some (Data [0x0e; 4; 1])); Act 0 None;
    Act 1 (Some (Data [0x40; 0; 1; 0; 9])); Act 1 None; Act 1 None; Act 1 None;
    Act 0 (Some (Data [3; 0x0c; 0])); Act 0 None; Act 0 None; Act 0 None; Take ].

Definition demo_usb : usb := acts demo_schedule (init_usb false 0x81).
Definition demo_event : packet := Pkt H4_EVENT (Some EVT_COMMAND_COMPLETE) [1; 3; 0x0c; 0].
Definition demo_acl : packet := Pkt H4_ACL None [0x40; 0; 1; 0; 9].

Lemma demo_reach : usb_reach false 0x81 demo_usb.
Proof. by apply acts_reach; [constructor|]. Defined.


Lemma usb_reader_complete_witness :
  ∃ r, u_readers demo_usb !! 0%nat = Some r ∧ r_published r = [demo_event] ∧ r_buffer r = [].
Proof.
  eexists. split; [by vm_compute|].
  apply (usb_reader_complete false 0x81 demo_usb 0 _ [demo_event] demo_reach).
  - by vm_compute.
  - reflexivity.
  - constructor; [|constructor]. split; [by apply (bool_decide_unpack _)|].
    split; [done|]. unfold blen; cbn; lia.
  - by vm_compute.
Defined.

Lemma usb_stop_bounds_output_witness :
  let u := acts [Close] demo_usb in
  let u' := acts [Act 0 (Some (Data [0x0e; 0])); Act 0 None; Act 1 None; Take] u in
  stop (u_shared u) = true ∧
  stop (u_shared u') = true ∧
  (length (u_taken u') + length (queue (u_shared u')) ≤ output u)%nat.
Proof.
  cbv zeta. split; [by vm_compute|].
  apply (usb_stop_bounds_output (acts [Close] demo_usb)); [by vm_compute|].
  by apply acts_steps.
Defined.

Lemma usb_first_error_wins_witness :
  let gone := UsbErr false true "no device" in
  let u := acts [Act 0 (Some (UsbFails gone)); Act 0 None; Act 0 None] demo_usb in
  let u' := acts [Act 1 (Some (OtherFails "x")); Act 1 None; Act 1 None] u in
  ∃ e, reader_error (u_shared u) = Some e ∧ is_transport_error e = true ∧
       stop (u_shared u) = true ∧ reader_error (u_shared u') = Some e.
Proof.
  cbv zeta. eexists. split; [by vm_compute|].
  apply (usb_first_error_wins false 0x81).
  - by apply acts_reach; [apply demo_reach|].
  - by vm_compute.
  - by apply acts_steps.
Defined.

Lemma native_write_routing_witness :
  let t := Native false [] [] None [] [] [] [] in
  let t' := snd (write_packet [1; 3; 0x0c; 0] t) in
  transfers t' = [ControlOut [3; 0x0c; 0]] ∧
  ∃ kind body, [1; 3; 0x0c; 0] = kind :: body ∧ written t' = written t ++ [[1; 3; 0x0c; 0]] ∧
    transfers t' = transfers t ++
      [if bulk_serialization t then BulkOut [1; 3; 0x0c; 0]
       else if kind =? H4_COMMAND then ControlOut body else BulkOut body] ∧
    (bulk_serialization t = false → kind = H4_COMMAND ∨ kind = H4_ACL).
Proof.
  cbv zeta. split; [by vm_compute|].
  apply (native_write_routing [1; 3; 0x0c; 0] (Native false [] [] None [] [] [] [])).
  reflexivity.
Defined.

Lemma bulk_transfer_size_covers_witness :
  let e := Endpoint Bulk true 0x82 64 in
  bulk_transfer_size e = Ok 1088 ∧
  let mps := Z.land (ep_max_packet e) 0x07FF in
  0 < mps ∧ 1088 mod mps = 0 ∧ 1025 ≤ 1088 < 1025 + mps.
Proof.
  split; [by vm_compute|]. apply (bulk_transfer_size_covers (Endpoint Bulk true 0x82 64) 1088).
  by vm_compute.
Defined.
