(* ===== verification/Att.v ===== *)
(** * Att: the GATT server of the test peripheral
    (class AttServer of hci_ble_test_impl.py)

    A table of attributes, an ATT transaction per incoming PDU, and
    notifications. Responses leave through the engine's [send_acl]; what is
    printed about a request is left out. *)

From Stdlib Require Import Sorting.Sorted.
From stdpp Require Import sets.
From S2P Require Export Trace.
#[local] Open Scope Z_scope.

Definition CID_ATT : Z := 0x0004.
Definition CID_SIGNALING : Z := 0x0005.
Definition CID_SMP : Z := 0x0006.

Definition ATT_ERROR_RSP : Z := 0x01.
Definition ATT_EXCHANGE_MTU_REQ : Z := 0x02.
Definition ATT_EXCHANGE_MTU_RSP : Z := 0x03.
Definition ATT_READ_BY_GROUP_TYPE_REQ : Z := 0x10.
Definition ATT_READ_BY_TYPE_REQ : Z := 0x08.
Definition ATT_FIND_INFORMATION_REQ : Z := 0x04.
Definition ATT_READ_REQ : Z := 0x0A.
Definition ATT_READ_RSP : Z := 0x0B.
Definition ATT_READ_BLOB_REQ : Z := 0x0C.
Definition ATT_READ_BLOB_RSP : Z := 0x0D.
Definition ATT_READ_BY_TYPE_RSP : Z := 0x09.
Definition ATT_READ_BY_GROUP_TYPE_RSP : Z := 0x11.
Definition ATT_FIND_INFORMATION_RSP : Z := 0x05.
Definition ATT_WRITE_REQ : Z := 0x12.
Definition ATT_WRITE_RSP : Z := 0x13.
Definition ATT_WRITE_CMD : Z := 0x52.
Definition ATT_HANDLE_VALUE_NTF : Z := 0x1B.

Definition ATT_ERR_INVALID_HANDLE : Z := 0x01.
Definition ATT_ERR_REQUEST_NOT_SUPPORTED : Z := 0x06.
Definition ATT_ERR_INVALID_OFFSET : Z := 0x07.
Definition ATT_ERR_ATTRIBUTE_NOT_FOUND : Z := 0x0A.

Definition UUID_PRIMARY_SERVICE : Z := 0x2800.
Definition UUID_CHARACTERISTIC : Z := 0x2803.
Definition UUID_CCCD : Z := 0x2902.
Definition UUID_DEVICE_NAME : Z := 0x2A00.
Definition UUID_APPEARANCE : Z := 0x2A01.

(** [uuid128(text)]: the octets of the text, reversed. *)
Definition uuid128 (text : bytes) : bytes := rev text.

Definition NUS_SERVICE : bytes := uuid128
  [0x6E; 0x40; 0x00; 0x01; 0xB5; 0xA3; 0xF3; 0x93; 0xE0; 0xA9; 0xE5; 0x0E; 0x24; 0xDC; 0xCA; 0x9E].
Definition NUS_RX : bytes := uuid128
  [0x6E; 0x40; 0x00; 0x02; 0xB5; 0xA3; 0xF3; 0x93; 0xE0; 0xA9; 0xE5; 0x0E; 0x24; 0xDC; 0xCA; 0x9E].
Definition NUS_TX : bytes := uuid128
  [0x6E; 0x40; 0x00; 0x03; 0xB5; 0xA3; 0xF3; 0x93; 0xE0; 0xA9; 0xE5; 0x0E; 0x24; 0xDC; 0xCA; 0x9E].

Module AttServer.

Record attribute : Type := Attribute {
  a_handle : Z; a_uuid : bytes; a_value : bytes; a_group_end : option Z }.

Record att : Type := Att {
  conn : Z; mtu : Z; requests : nat; responses : nat; notifications : nat;
  written : bytes; cccd : Z; attrs : list attribute }.

Definition set_mtu v a := Att (conn a) v (requests a) (responses a) (notifications a)
  (written a) (cccd a) (attrs a).
Definition add_request a := Att (conn a) (mtu a) (S (requests a)) (responses a)
  (notifications a) (written a) (cccd a) (attrs a).
Definition add_response a := Att (conn a) (mtu a) (requests a) (S (responses a))
  (notifications a) (written a) (cccd a) (attrs a).
Definition add_notification a := Att (conn a) (mtu a) (requests a) (responses a)
  (S (notifications a)) (written a) (cccd a) (attrs a).
Definition add_written v a := Att (conn a) (mtu a) (requests a) (responses a)
  (notifications a) (written a ++ v) (cccd a) (attrs a).
Definition set_cccd v a := Att (conn a) (mtu a) (requests a) (responses a)
  (notifications a) (written a) v (attrs a).
Definition set_attrs v a := Att (conn a) (mtu a) (requests a) (responses a)
  (notifications a) (written a) (cccd a) v.
Definition set_value (v : bytes) (x : attribute) : attribute :=
  Attribute (a_handle x) (a_uuid x) v (a_group_end x).

Definition u16 (value : Z) : res bytes := pack [FH value].

(** The attribute table of [AttServer.build]. *)
Definition build (name : bytes) : res (list attribute) :=
  service ← u16 UUID_PRIMARY_SERVICE;
  characteristic ← u16 UUID_CHARACTERISTIC;
  gap ← u16 0x1800;
  h3 ← u16 0x0003; name_uuid ← u16 UUID_DEVICE_NAME;
  h5 ← u16 0x0005; appearance ← u16 UUID_APPEARANCE; no_appearance ← u16 0x0000;
  h12 ← u16 0x0012; h14 ← u16 0x0014;
  cccd_uuid ← u16 UUID_CCCD; cccd_off ← u16 0x0000;
  Ok [Attribute 0x0001 service gap (Some 0x0005);
      Attribute 0x0002 characteristic ([0x02] ++ h3 ++ name_uuid) None;
      Attribute 0x0003 name_uuid name None;
      Attribute 0x0004 characteristic ([0x02] ++ h5 ++ appearance) None;
      Attribute 0x0005 appearance no_appearance None;
      Attribute 0x0010 service NUS_SERVICE (Some 0x0015);
      Attribute 0x0011 characteristic ([0x0C] ++ h12 ++ NUS_RX) None;
      Attribute 0x0012 NUS_RX [] None;
      Attribute 0x0013 characteristic ([0x10] ++ h14 ++ NUS_TX) None;
      Attribute 0x0014 NUS_TX [] None;
      Attribute 0x0015 cccd_uuid cccd_off None].

(** [AttServer.__init__]. *)
Definition init (handle : Z) (name : bytes) : res att :=
  table ← build name; Ok (Att handle 23 0 0 0 [] 0 table).

(** [AttServer.find]: the first attribute with the handle. *)
Definition find (handle : Z) (a : att) : option attribute :=
  List.find (λ x, a_handle x =? handle) (attrs a).

(** Assigning to the value of the attribute [find] returned. *)
Fixpoint store (handle : Z) (v : bytes) (l : list attribute) : list attribute :=
  match l with
  | [] => []
  | x :: l' => if a_handle x =? handle then set_value v x :: l' else x :: store handle v l'
  end.

Definition in_range (start last : Z) (x : attribute) : bool :=
  (start <=? a_handle x) && (a_handle x <=? last).

(** The loop of [read_by_group_type] and [read_by_type]: entries of the kept
    attributes, all of the first one's length, while they fit the MTU. *)
Fixpoint gather (mtu : Z) (keep : attribute → bool) (entry : attribute → res bytes)
    (l : list attribute) (entries : list bytes) (size : option Z)
    : res (list bytes * option Z) :=
  match l with
  | [] => Ok (entries, size)
  | x :: l' =>
      if negb (keep x) then gather mtu keep entry l' entries size
      else
        e ← entry x;
        let sz := default (blen e) size in
        if negb (blen e =? sz) then Ok (entries, Some sz)
        else if mtu <? 2 + blen entries * sz + sz then Ok (entries, Some sz)
        else gather mtu keep entry l' (entries ++ [e]) (Some sz)
  end.

(** The loop of [find_information]: handle and UUID pairs of one format. *)
Fixpoint information (mtu : Z) (start last : Z) (l : list attribute)
    (entries : list bytes) (fmt : option Z) : res (list bytes * option Z) :=
  match l with
  | [] => Ok (entries, fmt)
  | x :: l' =>
      if negb (in_range start last x) then information mtu start last l' entries fmt
      else
        let this_fmt := if (length (a_uuid x) =? 2)%nat then 0x01 else 0x02 in
        let f := default this_fmt fmt in
        if negb (this_fmt =? f) then Ok (entries, Some f)
        else
          h ← u16 (a_handle x);
          let e := h ++ a_uuid x in
          if mtu <? 2 + (blen entries + 1) * blen e then Ok (entries, Some f)
          else information mtu start last l' (entries ++ [e]) (Some f)
  end.

Section server.
Context {T : Type} `{!Transport T}.
Definition A (X : Type) : Type := M (dev (T:=T) * att) X.

Definition self : A att := gets snd.
Definition update (f : att → att) : A unit := on_own (modify f).

(** [AttServer.send]: a response, cut to the MTU. *)
Definition send (payload : bytes) : A unit :=
  a ← self;
  on_dev (send_acl (conn a) CID_ATT (take (Z.to_nat (mtu a)) payload)) ;;
  update add_response.

(** [AttServer.error]. *)
Definition error (opcode handle code : Z) : A unit :=
  pdu ← lift (pack [FB ATT_ERROR_RSP; FB opcode; FH handle; FB code]);
  send pdu.

(** The tail the three range requests share: an error when nothing was
    found, otherwise a two-octet head and the entries. *)
Definition send_entries (request response start : Z) (r : list bytes * option Z) : A unit :=
  match fst r with
  | [] => error request start ATT_ERR_ATTRIBUTE_NOT_FOUND
  | _ =>
      match snd r with
      | Some sz => head ← lift (mkbytes [response; sz]); send (head ++ concat (fst r))
      | None => raise TypeError
      end
  end.

Definition read_by_group_type (payload : bytes) : A unit :=
  start ← lift (unpack_H (slice 1 3 payload));
  last ← lift (unpack_H (slice 3 5 payload));
  let group := drop 5 payload in
  service ← lift (u16 UUID_PRIMARY_SERVICE);
  if negb (bool_decide (group = service))
  then error ATT_READ_BY_GROUP_TYPE_REQ start ATT_ERR_ATTRIBUTE_NOT_FOUND
  else
    a ← self;
    r ← lift (gather (mtu a)
          (λ x, match a_group_end x with Some _ => in_range start last x | None => false end)
          (λ x, h ← u16 (a_handle x); e ← u16 (default 0 (a_group_end x));
                Ok (h ++ e ++ a_value x))
          (attrs a) [] None);
    send_entries ATT_READ_BY_GROUP_TYPE_REQ ATT_READ_BY_GROUP_TYPE_RSP start r.

Definition read_by_type (payload : bytes) : A unit :=
  start ← lift (unpack_H (slice 1 3 payload));
  last ← lift (unpack_H (slice 3 5 payload));
  let wanted := drop 5 payload in
  a ← self;
  r ← lift (gather (mtu a)
        (λ x, bool_decide (a_uuid x = wanted) && in_range start last x)
        (λ x, h ← u16 (a_handle x); Ok (h ++ a_value x))
        (attrs a) [] None);
  send_entries ATT_READ_BY_TYPE_REQ ATT_READ_BY_TYPE_RSP start r.

Definition find_information (payload : bytes) : A unit :=
  start ← lift (unpack_H (slice 1 3 payload));
  last ← lift (unpack_H (slice 3 5 payload));
  a ← self;
  r ← lift (information (mtu a) start last (attrs a) [] None);
  send_entries ATT_FIND_INFORMATION_REQ ATT_FIND_INFORMATION_RSP start r.

Definition exchange_mtu (payload : bytes) : A unit :=
  peer ← lift (unpack_H (slice 1 3 payload));
  update (set_mtu (Z.max 23 (Z.min peer 247))) ;;
  a ← self;
  pdu ← lift (pack [FB ATT_EXCHANGE_MTU_RSP; FH (mtu a)]);
  send pdu.

Definition read (opcode : Z) (payload : bytes) : A unit :=
  handle ← lift (unpack_H (slice 1 3 payload));
  a ← self;
  match find handle a with
  | None => error opcode handle ATT_ERR_INVALID_HANDLE
  | Some x => send ([ATT_READ_RSP] ++ take (Z.to_nat (mtu a - 1)) (a_value x))
  end.

Definition read_blob (opcode : Z) (payload : bytes) : A unit :=
  handle ← lift (unpack_H (slice 1 3 payload));
  offset ← lift (unpack_H (slice 3 5 payload));
  a ← self;
  match find handle a with
  | None => error opcode handle ATT_ERR_INVALID_HANDLE
  | Some x =>
      if blen (a_value x) <? offset
      then error opcode handle ATT_ERR_INVALID_OFFSET
      else send ([ATT_READ_BLOB_RSP] ++
                 slice (Z.to_nat offset) (Z.to_nat (offset + mtu a - 1)) (a_value x))
  end.

Definition write (opcode : Z) (payload : bytes) : A unit :=
  handle ← lift (unpack_H (slice 1 3 payload));
  let value := drop 3 payload in
  a ← self;
  match find handle a with
  | None =>
      if opcode =? ATT_WRITE_REQ then error opcode handle ATT_ERR_INVALID_HANDLE else skip
  | Some _ =>
      update (λ a, set_attrs (store handle value (attrs a)) a) ;;
      (if handle =? 0x0015 then
         v ← lift (unpack_H (take 2 (value ++ [0; 0])));
         update (set_cccd v)
       else if handle =? 0x0012 then update (add_written value)
       else skip) ;;
      if opcode =? ATT_WRITE_REQ then
        pdu ← lift (mkbytes [ATT_WRITE_RSP]); send pdu
      else skip
  end.

(** [AttServer.feed]: one PDU of a channel. *)
Definition feed (payload : bytes) (cid : Z) : A unit :=
  match payload with
  | [] => skip
  | opcode :: _ =>
      if negb (cid =? CID_ATT) then skip
      else
        update add_request ;;
        if opcode =? ATT_EXCHANGE_MTU_REQ then exchange_mtu payload
        else if opcode =? ATT_READ_BY_GROUP_TYPE_REQ then read_by_group_type payload
        else if opcode =? ATT_READ_BY_TYPE_REQ then read_by_type payload
        else if opcode =? ATT_FIND_INFORMATION_REQ then find_information payload
        else if opcode =? ATT_READ_REQ then read opcode payload
        else if opcode =? ATT_READ_BLOB_REQ then read_blob opcode payload
        else if (opcode =? ATT_WRITE_REQ) || (opcode =? ATT_WRITE_CMD)
        then write opcode payload
        else if opcode mod 2 =? 0
        then error opcode 0x0000 ATT_ERR_REQUEST_NOT_SUPPORTED
        else skip
  end.

(** [AttServer.notify]. *)
Definition notify (text : bytes) : A bool :=
  a ← self;
  if Z.land (cccd a) 0x0001 =? 0 then mret false
  else
    handle ← lift (u16 0x0014);
    let payload := [ATT_HANDLE_VALUE_NTF] ++ handle ++ text in
    on_dev (send_acl (conn a) CID_ATT (take (Z.to_nat (mtu a)) payload)) ;;
    update add_notification ;;
    mret true.
End server.
End AttServer.

(** ** Properties *)

Module AttLaws.
Import AttServer.

Definition attribute_ok (x : attribute) : Prop :=
  0 ≤ a_handle x < 65536 ∧ 0 ≤ default 0 (a_group_end x) < 65536 ∧
  (length (a_uuid x) = 2 ∨ length (a_uuid x) = 16)%nat.

(** What holds of a server from its creation on. *)
Definition att_ok (a : att) : Prop :=
  0 ≤ conn a < 65536 ∧ 23 ≤ mtu a ≤ 247 ∧ Forall attribute_ok (attrs a).

(** The same without the connection handle, which only sending needs. *)
Definition table_ok (a : att) : Prop := 23 ≤ mtu a ≤ 247 ∧ Forall attribute_ok (attrs a).

Lemma u16_ok v : 0 ≤ v < 65536 → u16 v = Ok (le_bytes 2 v).
Proof. intros Hv. unfold u16. cbn. by rewrite pack_le_ok by (cbn; lia). Qed.

(** *** The entries of a range response *)

(** Entries that share a length and fit a response. *)
Definition entries_fit (mtu : Z) (entries : list bytes) (size : option Z) : Prop :=
  match size with
  | None => entries = []
  | Some z => Forall (λ e, blen e = z) entries ∧
              (entries ≠ [] → 2 + blen entries * z ≤ mtu)
  end.

Lemma gather_spec mtu keep entry (g : attribute → bytes) l entries size :
  (∀ x, x ∈ l → entry x = Ok (g x)) → entries_fit mtu entries size →
  ∃ entries' size',
    gather mtu keep entry l entries size = Ok (entries', size') ∧
    entries_fit mtu entries' size' ∧
    entries' `prefix_of` entries ++ (g <$> filter (λ x, keep x = true) l).
Proof.
  revert entries size. induction l as [|x l IH]; intros entries size Hg Hfit; cbn [gather].
  { exists entries, size. by rewrite app_nil_r. }
  destruct (keep x) eqn:Hk; cbn [negb].
  2:{ rewrite filter_cons_False by congruence. apply IH; [|done]. intros y Hy. apply Hg. by right. }
  rewrite filter_cons_True by done. rewrite (Hg x) by left. cbn [mbind res_bind].
  set (sz := default (blen (g x)) size).
  assert (Hsz : entries_fit mtu entries (Some sz)).
  { unfold sz. destruct size as [z|]; [done|]. cbn in Hfit. by subst. }
  destruct (Z.eqb_spec (blen (g x)) sz) as [Hlen|]; cbn [negb].
  2:{ exists entries, (Some sz). split_and!; [done|done|]. by exists (g x :: (g <$> filter (λ x, keep x = true) l)). }
  destruct (Z.ltb_spec mtu (2 + blen entries * sz + sz)) as [|Hroom].
  { exists entries, (Some sz). split_and!; [done|done|]. by exists (g x :: (g <$> filter (λ x, keep x = true) l)). }
  destruct (IH (entries ++ [g x]) (Some sz)) as (es'&sz'&->&Hf&Hp).
  - intros y Hy. apply Hg. by right.
  - destruct Hsz as [Hall _]. split.
    + apply Forall_app. split; [done|]. by apply Forall_singleton.
    + intros _. rewrite blen_app. unfold blen at 2; cbn. lia.
  - exists es', sz'. split_and!; [done|done|]. by rewrite <- app_assoc in Hp.
Qed.

Definition fmt_of (x : attribute) : Z := if (length (a_uuid x) =? 2)%nat then 0x01 else 0x02.
Definition pair_of (x : attribute) : bytes := le_bytes 2 (a_handle x) ++ a_uuid x.

(** The length of an entry of a format. *)
Definition pair_length (fmt : Z) : Z := if fmt =? 1 then 4 else 18.

Lemma pair_of_length x : attribute_ok x → blen (pair_of x) = pair_length (fmt_of x).
Proof.
  intros (_&_&Hu). unfold pair_of, fmt_of. rewrite blen_app, blen_le_bytes. unfold blen.
  destruct Hu as [-> | ->]; done.
Qed.

Lemma concat_fit mtu entries z :
  entries_fit mtu entries (Some z) → entries ≠ [] → 2 + blen (concat entries) ≤ mtu.
Proof.
  intros [Hall Hfit] Hne. specialize (Hfit Hne).
  enough (blen (concat entries) = blen entries * z) by lia.
  clear Hfit Hne. induction Hall as [|e es He _ IH]; [done|]. cbn [concat].
  rewrite blen_app, He, IH. unfold blen; cbn [length]. lia.
Qed.

Lemma information_spec mtu start last l entries fmt :
  Forall attribute_ok l → entries_fit mtu entries (pair_length <$> fmt) →
  fmt ∈ [None; Some 1; Some 2] →
  ∃ entries' fmt',
    information mtu start last l entries fmt = Ok (entries', fmt') ∧
    entries_fit mtu entries' (pair_length <$> fmt') ∧ fmt' ∈ [None; Some 1; Some 2] ∧
    entries `prefix_of` entries' ∧
    entries' `prefix_of`
      entries ++ (pair_of <$> filter (λ x, in_range start last x = true) l).
Proof.
  revert entries fmt. induction l as [|x l IH]; intros entries fmt Hok Hfit Hfmt;
    cbn [information].
  { exists entries, fmt. rewrite app_nil_r. by split_and!. }
  apply Forall_cons in Hok as [Hx Hok]. pose proof (pair_of_length x Hx) as Hlen.
  destruct (in_range start last x) eqn:Hk; cbn [negb].
  2:{ rewrite filter_cons_False by congruence. by apply IH. }
  rewrite filter_cons_True by done.
  change (if (length (a_uuid x) =? 2)%nat then 1 else 2) with (fmt_of x). cbn zeta.
  set (f := default (fmt_of x) fmt).
  assert (Hf : Some f ∈ [None; Some 1; Some 2]).
  { unfold f. destruct fmt as [f'|]; [done|]. unfold fmt_of. case_match; [right; left|right; right; left]. }
  assert (Hsz : entries_fit mtu entries (Some (pair_length f))).
  { unfold f. destruct fmt as [z|]; [done|]. cbn in Hfit. by subst. }
  destruct (Z.eqb_spec (fmt_of x) f) as [Hfx|]; cbn [negb].
  2:{ exists entries, (Some f). split_and!; [done|done|done|done|].
      by exists (pair_of <$> x :: filter (λ x, in_range start last x = true) l). }
  rewrite u16_ok by apply Hx. cbn [mbind res_bind].
  change (le_bytes 2 (a_handle x) ++ a_uuid x) with (pair_of x). rewrite Hlen, Hfx.
  destruct (Z.ltb_spec mtu (2 + (blen entries + 1) * pair_length f)) as [|Hroom].
  { exists entries, (Some f). split_and!; [done|done|done|done|].
    by exists (pair_of <$> x :: filter (λ x, in_range start last x = true) l). }
  destruct (IH (entries ++ [pair_of x]) (Some f)) as (es'&fmt'&->&Hf'&Hm&He&Hp); [done| |done|].
  - destruct Hsz as [Hall _]. split.
    + apply Forall_app. split; [done|]. apply Forall_singleton. congruence.
    + intros _. rewrite blen_app. unfold blen at 2; cbn [length]. lia.
  - exists es', fmt'. split_and!; [done|done|done| |by rewrite <- app_assoc in Hp].
    transitivity (entries ++ [pair_of x]); [by eexists|done].
Qed.

(** *** Answers *)

Section laws.
Context {T : Type} `{Tr : !Transport T} `{TL : !TransportLaws T}.
Implicit Types d : dev (T:=T).

(** [m] answers with one PDU of [pdu], sent on the ATT channel and within the
    MTU; if the transport refuses it, nothing was sent. *)
Definition answers (pdu : bytes → Prop) (m : M (dev (T:=T) * att) unit) d (a : att) : Prop :=
  wp m (λ r s', engine_ok (fst s') ∧ att_ok (snd s') ∧ both_frame d (fst s') ∧
    match r with
    | Ok _ => ∃ rsp, pdu rsp ∧ 1 ≤ blen rsp ≤ mtu (snd s') ∧
        sent (fst s') = sent d ++ [acl_packet (conn a) CID_ATT rsp] ∧
        conn (snd s') = conn a ∧ responses (snd s') = S (responses a)
    | Exc e => is_hci_error e = true ∧ sent (fst s') = sent d
    | Stuck => False
    end) (d, a).

Lemma answers_send (pdu : bytes → Prop) payload d a :
  engine_ok d → att_ok a → pdu (take (Z.to_nat (mtu a)) payload) → 1 ≤ blen payload →
  answers pdu (send payload) d a.
Proof.
  intros Hd Ha Hp Hne. unfold answers, send, self. apply wp_gets_bind; cbn [snd].
  destruct Ha as (Hc&Hm&Hat).
  assert (Hlen : 1 ≤ blen (take (Z.to_nat (mtu a)) payload) ≤ mtu a).
  { unfold blen in *. rewrite length_take. lia. }
  apply wp_bind, wp_on_dev. cbn [fst snd].
  apply wp_send_acl; [done|done|unfold CID_ATT; lia|lia| |].
  - intros d' Hd' Hfr Hsent. unfold update, on_own, wp; cbn. split_and!; try done.
    by exists (take (Z.to_nat (mtu a)) payload).
  - intros e d' Hd' Hfr He Hsent. by split_and!.
Qed.

(** The Error Response to a request. *)
Definition error_pdu (opcode : Z) (rsp : bytes) : Prop :=
  ∃ handle code, rsp = [ATT_ERROR_RSP; opcode] ++ le_bytes 2 handle ++ [code].

Lemma answers_error (pdu : bytes → Prop) opcode handle code d a :
  engine_ok d → att_ok a → is_byte opcode → 0 ≤ handle < 65536 → is_byte code →
  (∀ rsp, error_pdu opcode rsp → pdu rsp) →
  answers pdu (error opcode handle code) d a.
Proof.
  unfold is_byte. intros Hd Ha Ho Hh Hc Hpdu. unfold error.
  assert (Hpack : pack [FB ATT_ERROR_RSP; FB opcode; FH handle; FB code] =
    Ok ([ATT_ERROR_RSP; opcode] ++ le_bytes 2 handle ++ [code])).
  { unfold ATT_ERROR_RSP. cbn. rewrite !pack_le_ok by (cbn; lia). cbn. by rewrite (Z.mod_small opcode), (Z.mod_small code) by lia. }
  rewrite Hpack. apply answers_send; try done.
  apply Hpdu. exists handle, code. pose proof Ha as (_&Hm&_).
  rewrite take_ge; [done|]. cbn. lia.
Qed.

(** The response opcode of a request, or an error naming the request. *)
Definition answer_pdu (opcode : Z) (rsp : bytes) : Prop :=
  (∃ t, rsp = (opcode + 1) :: t) ∨ error_pdu opcode rsp.

(** The tail of the range requests. *)
Lemma answers_entries request start entries size z d a :
  engine_ok d → att_ok a → is_byte request → is_byte (request + 1) → 0 ≤ start < 65536 →
  entries_fit (mtu a) entries z → (is_Some z → is_Some size) →
  (∀ v, size = Some v → is_byte v ∨ entries = []) →
  answers (answer_pdu request) (send_entries request (request + 1) start (entries, size)) d a.
Proof.
  intros Hd Ha Hr Hr1 Hst Hfit Hsome Hbyte. unfold send_entries; cbn [fst snd].
  destruct entries as [|e es].
  { apply answers_error; try done. by right. }
  destruct z as [z|]; [|done]. destruct Hsome as [v ->]; [by eexists|].
  assert (Hv : is_byte v) by (by destruct (Hbyte v eq_refl)).
  pose proof (concat_fit _ _ _ Hfit ltac:(done)) as Hlen.
  rewrite mkbytes_ok by (apply Forall_cons; split; [done|]; by apply Forall_singleton).
  assert (Htake : take (Z.to_nat (mtu a)) ([request + 1; v] ++ concat (e :: es)) =
                  [request + 1; v] ++ concat (e :: es)).
  { apply take_ge. unfold blen in Hlen. rewrite length_app. cbn [length]. lia. }
  unfold answers. apply wp_lift_bind; [|done|done]. intros ? [= <-].
  apply answers_send; [done|done| |].
  - rewrite Htake. left. by eexists.
  - rewrite blen_app. change (blen [request + 1; v]) with 2.
    pose proof (blen_nonneg (concat (e :: es))). lia.
Qed.

(** Handles read off the request. *)
Lemma unpack_handle i j payload :
  bytes_ok payload → j = (i + 2)%nat → (j ≤ length payload)%nat →
  ∃ h, unpack_H (slice i j payload) = Ok h ∧ 0 ≤ h < 65536.
Proof.
  intros Hb -> Hj. exists (le_Z (slice i (i + 2) payload)).
  assert (Hl : length (slice i (i + 2) payload) = 2%nat) by (rewrite slice_full; lia).
  rewrite unpack_H_ok by done. split; [done|].
  pose proof (le_Z_bound _ (bytes_ok_slice i (i + 2) _ Hb)) as H. unfold blen in H.
  by rewrite Hl in H.
Qed.

(** Shortest request of an opcode. *)
Definition min_length (opcode : Z) : nat :=
  if bool_decide (opcode ∈ [ATT_READ_BY_GROUP_TYPE_REQ; ATT_READ_BY_TYPE_REQ; ATT_FIND_INFORMATION_REQ;
                ATT_READ_BLOB_REQ]) then 5%nat
  else if bool_decide (opcode ∈ [ATT_EXCHANGE_MTU_REQ; ATT_READ_REQ; ATT_WRITE_REQ; ATT_WRITE_CMD])
  then 3%nat else 1%nat.

Lemma answers_mono (P Q : bytes → Prop) m d a :
  (∀ rsp, P rsp → Q rsp) → answers P m d a → answers Q m d a.
Proof.
  unfold answers, wp. intros HPQ.
  destruct (m (d, a)) as [[u|e|] [d' a']]; cbn [fst snd]; [|done|done].
  intros (?&?&?&H).
  destruct H as (rsp&?&?). split_and!; try done. exists rsp. auto.
Qed.

(** An answer survives a change of the server's state that keeps its
    connection and its count of responses. *)
Lemma answers_update pdu (f : att → att) m d a :
  conn (f a) = conn a → responses (f a) = responses a →
  answers pdu m d (f a) → answers pdu (update f ;; m) d a.
Proof.
  unfold answers. intros Hc Hr Hm.
  change (wp (update f ;; m)) with (wp (λ s : dev (T:=T) * att, m (fst s, f (snd s)))).
  unfold wp in *. cbn [fst snd]. rewrite Hc, Hr in Hm. exact Hm.
Qed.

Lemma answers_lift {A} pdu (r : res A) (x : A) k d a :
  r = Ok x → answers pdu (k x) d a → answers pdu (lift r ≫= k) d a.
Proof. intros ->. done. Qed.

Lemma answers_self pdu k d a : answers pdu (k a) d a → answers pdu (self ≫= k) d a.
Proof. done. Qed.

Section on_state.
Context (d : dev (T:=T)) (a : att) (Hd : engine_ok d) (Ha : att_ok a).

Lemma answers_range_gather request keep entry (g : attribute → bytes) start :
  is_byte request → is_byte (request + 1) → 0 ≤ start < 65536 →
  (∀ x, x ∈ attrs a → entry x = Ok (g x)) →
  answers (answer_pdu request)
    (r ← lift (gather (mtu a) keep entry (attrs a) [] None);
     send_entries request (request + 1) start r) d a.
Proof.
  intros Hr Hr1 Hs He.
  destruct (gather_spec (mtu a) keep entry g (attrs a) [] None He eq_refl)
    as (es&size&E&Hfit&_).
  apply (answers_lift _ _ (es, size)); [exact E|].
  apply (answers_entries request start es size size); try done.
  intros v ->. destruct es as [|e es]; [by right|]. left.
  destruct Hfit as [Hall Hfit]. specialize (Hfit ltac:(done)).
  apply Forall_cons in Hall as [Hv _]. pose proof (blen_nonneg e). pose proof Ha as (_&Hm&_).
  unfold is_byte. unfold blen at 1 in Hfit; cbn [length] in Hfit. nia.
Qed.

Lemma answers_range_information start last :
  0 ≤ start < 65536 →
  answers (answer_pdu ATT_FIND_INFORMATION_REQ)
    (r ← lift (information (mtu a) start last (attrs a) [] None);
     send_entries ATT_FIND_INFORMATION_REQ ATT_FIND_INFORMATION_RSP start r) d a.
Proof.
  intros Hs. pose proof Ha as (_&_&Hat).
  destruct (information_spec (mtu a) start last (attrs a) [] None Hat eq_refl
              ltac:(by left)) as (es&fmt&E&Hfit&Hm&_&_).
  apply (answers_lift _ _ (es, fmt)); [exact E|].
  apply (answers_entries ATT_FIND_INFORMATION_REQ start es fmt (pair_length <$> fmt)); try done.
  - by destruct fmt; [eexists|intros [? ?]].
  - intros v ->. left. apply list_elem_of_In in Hm. cbn in Hm.
    destruct Hm as [[=]|[[= <-]|[[= <-]|[]]]]; by vm_compute.
Qed.

Lemma answers_lookup opcode (h : Z) (k : attribute → M (dev (T:=T) * att) unit) :
  is_byte opcode → 0 ≤ h < 65536 →
  (∀ x, answers (answer_pdu opcode) (k x) d a) →
  answers (answer_pdu opcode)
    (a ← self; match find h a with
               | None => error opcode h ATT_ERR_INVALID_HANDLE
               | Some x => k x
               end) d a.
Proof.
  intros Ho Hh Hk. apply answers_self. destruct (find h a) as [x|]; [apply Hk|].
  apply answers_error; try done. by right.
Qed.

(** A response that starts with its own opcode. *)
Lemma answers_own opcode code payload d' a' :
  engine_ok d' → att_ok a' → code = opcode + 1 →
  answers (answer_pdu opcode) (send ([code] ++ payload)) d' a'.
Proof.
  intros Hd' Ha' ->. apply answers_send; [done|done| |].
  - pose proof Ha' as (_&Hm&_). left. destruct (Z.to_nat (mtu a')) eqn:E; [lia|].
    by eexists.
  - rewrite blen_app. change (blen [opcode + 1]) with 1. pose proof (blen_nonneg payload). lia.
Qed.

Lemma answers_exchange payload :
  bytes_ok payload → (3 ≤ length payload)%nat →
  answers (answer_pdu ATT_EXCHANGE_MTU_REQ) (exchange_mtu payload) d a.
Proof.
  intros Hb Hl. destruct (unpack_handle 1 3 payload Hb eq_refl Hl) as (h&E&Hh).
  unfold exchange_mtu. eapply answers_lift; [exact E|].
  apply answers_update; [done|done|]. apply answers_self.
  set (a' := set_mtu _ a). destruct Ha as (Hc&Hm&Hat).
  assert (Ha' : att_ok a') by (split_and!; cbn; [lia|lia|lia|lia|done]).
  assert (Hpk : pack [FB ATT_EXCHANGE_MTU_RSP; FH (mtu a')] =
                Ok ([ATT_EXCHANGE_MTU_RSP] ++ le_bytes 2 (mtu a'))).
  { unfold ATT_EXCHANGE_MTU_RSP. cbn -[mtu]. destruct Ha' as (_&?&_).
    rewrite !pack_le_ok by (cbn -[mtu]; lia). by rewrite app_nil_r. }
  rewrite Hpk. by apply answers_own.
Qed.

Lemma store_ok h v l : Forall attribute_ok l → Forall attribute_ok (store h v l).
Proof.
  induction 1 as [|x l Hx Hl IH]; cbn; [done|].
  destruct (a_handle x =? h); by apply Forall_cons.
Qed.

(** What a write leaves behind once its attribute was found. *)
Definition after_write (h : Z) (value : bytes) (a : att) : att :=
  let a := set_attrs (store h value (attrs a)) a in
  if h =? 0x0015 then set_cccd (le_Z (take 2 (value ++ [0; 0]))) a
  else if h =? 0x0012 then add_written value a else a.

Lemma after_write_ok h value : att_ok (after_write h value a).
Proof.
  destruct Ha as (Hc&Hm&Hat). unfold after_write.
  pose proof (store_ok h value _ Hat). cbn zeta.
  destruct (h =? 0x0015); [|destruct (h =? 0x0012)]; (split; [done|split; done]).
Qed.

Lemma write_eq opcode payload h :
  unpack_H (slice 1 3 payload) = Ok h →
  write (T:=T) opcode payload (d, a) =
  match find h a with
  | None => (if opcode =? ATT_WRITE_REQ then error opcode h ATT_ERR_INVALID_HANDLE else skip) (d, a)
  | Some _ => (if opcode =? ATT_WRITE_REQ
               then pdu ← lift (mkbytes [ATT_WRITE_RSP]); send pdu else skip)
              (d, after_write h (drop 3 payload) a)
  end.
Proof.
  intros E. unfold write. rewrite E. unfold mbind at 1, M_bind at 1, lift at 1. cbn zeta.
  unfold self, gets. unfold mbind at 1, M_bind at 1. cbn [snd].
  destruct (find h a) as [x|]; [|done]. unfold after_write.
  destruct (h =? 21) eqn:E21; [|by destruct (h =? 18)].
  assert (Hu : unpack_H (take 2 (drop 3 payload ++ [0; 0])) =
               Ok (le_Z (take 2 (drop 3 payload ++ [0; 0])))).
  { apply unpack_H_ok. rewrite length_take, length_app. cbn [length]. lia. }
  rewrite Hu. done.
Qed.

Lemma answers_read payload :
  bytes_ok payload → (3 ≤ length payload)%nat →
  answers (answer_pdu ATT_READ_REQ) (read ATT_READ_REQ payload) d a.
Proof.
  intros Hb Hl. destruct (unpack_handle 1 3 payload Hb eq_refl Hl) as (h&E&Hh).
  unfold read. eapply answers_lift; [exact E|]. apply answers_lookup; [done|done|].
  intros x. by apply answers_own.
Qed.

Lemma answers_read_blob payload :
  bytes_ok payload → (5 ≤ length payload)%nat →
  answers (answer_pdu ATT_READ_BLOB_REQ) (read_blob ATT_READ_BLOB_REQ payload) d a.
Proof.
  intros Hb Hl. destruct (unpack_handle 1 3 payload Hb eq_refl ltac:(lia)) as (h&E&Hh).
  destruct (unpack_handle 3 5 payload Hb eq_refl Hl) as (o&E'&Ho).
  unfold read_blob. eapply answers_lift; [exact E|]. eapply answers_lift; [exact E'|].
  apply answers_lookup; [done|done|]. intros x. destruct (blen (a_value x) <? o).
  - apply answers_error; try done. by right.
  - by apply answers_own.
Qed.

Lemma attrs_u16 x : x ∈ attrs a → u16 (a_handle x) = Ok (le_bytes 2 (a_handle x)).
Proof.
  intros Hx. destruct Ha as (_&_&Hat). rewrite Forall_forall in Hat.
  destruct (Hat x Hx) as [? _]. by apply u16_ok.
Qed.

Lemma answers_read_by_type payload :
  bytes_ok payload → (5 ≤ length payload)%nat →
  answers (answer_pdu ATT_READ_BY_TYPE_REQ) (read_by_type payload) d a.
Proof.
  intros Hb Hl. destruct (unpack_handle 1 3 payload Hb eq_refl ltac:(lia)) as (h&E&Hh).
  destruct (unpack_handle 3 5 payload Hb eq_refl Hl) as (l&E'&_).
  unfold read_by_type. eapply answers_lift; [exact E|]. eapply answers_lift; [exact E'|].
  cbn zeta. apply answers_self.
  change ATT_READ_BY_TYPE_RSP with (ATT_READ_BY_TYPE_REQ + 1).
  apply (answers_range_gather ATT_READ_BY_TYPE_REQ _ _
           (λ x, le_bytes 2 (a_handle x) ++ a_value x) h); try done.
  intros x Hx. by rewrite attrs_u16.
Qed.

Lemma answers_read_by_group_type payload :
  bytes_ok payload → (5 ≤ length payload)%nat →
  answers (answer_pdu ATT_READ_BY_GROUP_TYPE_REQ) (read_by_group_type payload) d a.
Proof.
  intros Hb Hl. destruct (unpack_handle 1 3 payload Hb eq_refl ltac:(lia)) as (h&E&Hh).
  destruct (unpack_handle 3 5 payload Hb eq_refl Hl) as (l&E'&_).
  unfold read_by_group_type. eapply answers_lift; [exact E|]. eapply answers_lift; [exact E'|].
  cbn zeta. eapply answers_lift; [by apply u16_ok|]. destruct (negb _).
  { apply answers_error; try done. by right. }
  apply answers_self.
  change ATT_READ_BY_GROUP_TYPE_RSP with (ATT_READ_BY_GROUP_TYPE_REQ + 1).
  apply (answers_range_gather ATT_READ_BY_GROUP_TYPE_REQ _ _ (λ x, le_bytes 2 (a_handle x) ++
    le_bytes 2 (default 0 (a_group_end x)) ++ a_value x) h); try done.
  intros x Hx. rewrite attrs_u16 by done. destruct Ha as (_&_&Hat).
  rewrite Forall_forall in Hat. destruct (Hat x Hx) as (_&?&_). by rewrite u16_ok.
Qed.

Lemma answers_find_information payload :
  bytes_ok payload → (5 ≤ length payload)%nat →
  answers (answer_pdu ATT_FIND_INFORMATION_REQ) (find_information payload) d a.
Proof.
  intros Hb Hl. destruct (unpack_handle 1 3 payload Hb eq_refl ltac:(lia)) as (h&E&Hh).
  destruct (unpack_handle 3 5 payload Hb eq_refl Hl) as (l&E'&_).
  unfold find_information. eapply answers_lift; [exact E|]. eapply answers_lift; [exact E'|].
  apply answers_self. by apply answers_range_information.
Qed.

Lemma answers_write payload :
  bytes_ok payload → (3 ≤ length payload)%nat →
  answers (answer_pdu ATT_WRITE_REQ) (write ATT_WRITE_REQ payload) d a.
Proof.
  intros Hb Hl. destruct (unpack_handle 1 3 payload Hb eq_refl Hl) as (h&E&Hh).
  unfold answers, wp. rewrite (write_eq _ _ h E). destruct (find h a) as [x|].
  - pose proof (after_write_ok h (drop 3 payload)) as Hok.
    assert (Hc : conn (after_write h (drop 3 payload) a) = conn a ∧
                 responses (after_write h (drop 3 payload) a) = responses a).
    { unfold after_write. cbn zeta. destruct (h =? 21); [done|]. by destruct (h =? 18). }
    pose proof (answers_own ATT_WRITE_REQ ATT_WRITE_RSP [] d _ Hd Hok eq_refl) as H.
    unfold answers, wp in H. destruct Hc as [<- <-]. exact H.
  - apply answers_error; try done. by right.
Qed.
End on_state.

Lemma feed_answers opcode rest d a :
  engine_ok d → att_ok a →
  bytes_ok (opcode :: rest) → opcode mod 2 = 0 → opcode ≠ ATT_WRITE_CMD →
  (min_length opcode ≤ length (opcode :: rest))%nat →
  answers (answer_pdu opcode) (feed (opcode :: rest) CID_ATT) d a.
Proof.
  intros Hd Ha Hb Heven Hcmd Hlen. pose proof Hb as [Hop _]%Forall_cons.
  set (payload := opcode :: rest) in *.
  unfold feed. change (negb (CID_ATT =? CID_ATT)) with false. cbn [payload].
  apply answers_update; [done|done|]. fold payload.
  repeat lazymatch goal with
  | |- answers _ (if ?o =? ?c then _ else _) _ _ => destruct (Z.eqb_spec o c) as [->|]
  end.
  - by apply answers_exchange.
  - by apply answers_read_by_group_type.
  - by apply answers_read_by_type.
  - by apply answers_find_information.
  - by apply answers_read.
  - by apply answers_read_blob.
  - destruct (Z.eqb_spec opcode ATT_WRITE_REQ) as [->|]; [by apply answers_write|].
    rewrite (proj2 (Z.eqb_neq _ _)), (proj2 (Z.eqb_eq _ _)) by done. cbn [orb].
    apply answers_error; try done. by right.
Qed.

(** C11: every well-formed ATT request gets exactly one PDU back, within the MTU:
    the response of that request or an Error Response that names it - or the
    transport fails and nothing is sent. Nothing else is raised, and the
    server stays well formed. *)
Theorem att_request_answered (opcode : Z) (rest : bytes) (d : dev (T:=T)) (a : att) :
  engine_ok d → att_ok a →
  bytes_ok (opcode :: rest) → opcode mod 2 = 0 → opcode ≠ ATT_WRITE_CMD →
  (min_length opcode ≤ length (opcode :: rest))%nat →
  let '(r, (d', a')) := AttServer.feed (opcode :: rest) CID_ATT (d, a) in
  engine_ok d' ∧ att_ok a' ∧
  match r with
  | Ok _ => ∃ rsp, answer_pdu opcode rsp ∧ 1 ≤ blen rsp ≤ mtu a' ∧
      sent d' = sent d ++ [acl_packet (conn a) CID_ATT rsp] ∧
      responses a' = S (responses a)
  | Exc e => is_hci_error e = true ∧ sent d' = sent d
  | Stuck => False
  end.
Proof.
  intros Hd Ha Hb Heven Hcmd Hlen.
  enough (H : answers (answer_pdu opcode) (feed (opcode :: rest) CID_ATT) d a).
  { unfold answers, wp in H.
    destruct (feed (opcode :: rest) CID_ATT (d, a)) as [[u|e|] [d' a']]; cbn [fst snd] in H;
      destruct H as (?&?&_&H); (split; [done|split; [done|]]); [|exact H|exact H].
    destruct H as (rsp&?&?&?&_&?). by exists rsp. }
  by apply feed_answers.
Qed.

(** A response that fits the MTU, with the state it leaves. *)
Lemma wp_send payload Q (d : dev (T:=T)) a :
  engine_ok d → att_ok a → blen payload ≤ mtu a →
  (∀ d', engine_ok d' → sent d' = sent d ++ [acl_packet (conn a) CID_ATT payload] →
     Q (Ok tt) (d', add_response a)) →
  (∀ e d', is_hci_error e = true → sent d' = sent d → Q (Exc e) (d', a)) →
  wp (send payload) Q (d, a).
Proof.
  intros Hd (Hc&Hm&_) Hl HO HE. unfold send, self. apply wp_gets_bind; cbn [snd].
  rewrite take_ge by (unfold blen in Hl; lia).
  apply wp_bind, wp_on_dev. cbn [fst snd].
  apply wp_send_acl; [done|done|unfold CID_ATT; lia|lia| |].
  - intros d' Hd' _ Hsent. unfold update, on_own, wp; cbn. by apply HO.
  - intros e d' Hd' _ He Hsent. by apply HE.
Qed.

Lemma find_store h v l x :
  List.find (λ x, a_handle x =? h) l = Some x →
  List.find (λ x, a_handle x =? h) (store h v l) = Some (set_value v x).
Proof.
  induction l as [|y l IH]; cbn; [done|]. destruct (a_handle y =? h) eqn:E.
  - intros [= ->]. cbn. by rewrite E.
  - intros Hf. cbn. rewrite E. by apply IH.
Qed.

Lemma find_after_write h v a x :
  find h a = Some x → find h (after_write h v a) = Some (set_value v x).
Proof.
  intros Hx. apply (find_store _ v) in Hx. unfold after_write. cbn zeta.
  destruct (h =? 21); [exact Hx|]. destruct (h =? 18); exact Hx.
Qed.

Lemma after_write_same h v a :
  conn (after_write h v a) = conn a ∧ mtu (after_write h v a) = mtu a.
Proof. unfold after_write. cbn zeta. destruct (h =? 21); [done|]. by destruct (h =? 18). Qed.

Lemma handle_slice (h : Z) (rest : bytes) (op : Z) :
  0 ≤ h < 65536 → unpack_H (slice 1 3 ([op] ++ le_bytes 2 h ++ rest)) = Ok h.
Proof.
  intros Hh. change (slice 1 3 ([op] ++ le_bytes 2 h ++ rest)) with (le_bytes 2 h).
  rewrite unpack_H_ok by done. f_equal. by apply le_Z_le_bytes_small.
Qed.

(** What is written is what is read: after a Write Request to a handle of the
    table has been answered, a Read Request of that handle returns the value
    written, cut to the MTU. *)
Theorem att_write_then_read (h : Z) (value : bytes) (d d' : dev (T:=T)) (a a' : att) :
  engine_ok d → att_ok a → 0 ≤ h < 65536 → is_Some (find h a) →
  AttServer.feed ([ATT_WRITE_REQ] ++ le_bytes 2 h ++ value) CID_ATT (d, a)
    = (Ok tt, (d', a')) →
  let '(r, (d'', a'')) := AttServer.feed ([ATT_READ_REQ] ++ le_bytes 2 h) CID_ATT (d', a') in
  match r with
  | Ok _ => sent d'' = sent d ++ [acl_packet (conn a) CID_ATT [ATT_WRITE_RSP];
              acl_packet (conn a) CID_ATT
                (ATT_READ_RSP :: take (Z.to_nat (mtu a - 1)) value)]
  | Exc e => is_hci_error e = true
  | Stuck => False
  end.
Proof.
  intros Hd Ha Hh [x Hx] Hw.
  change (write ATT_WRITE_REQ ([ATT_WRITE_REQ] ++ le_bytes 2 h ++ value) (d, add_request a)
          = (Ok tt, (d', a'))) in Hw.
  rewrite (write_eq d (add_request a) _ _ h) in Hw by by apply handle_slice.
  change (find h (add_request a)) with (find h a) in Hw. rewrite Hx in Hw.
  change (drop 3 _) with value in Hw.
  set (a1 := after_write h value (add_request a)) in Hw.
  assert (Ha1 : att_ok a1) by by apply after_write_ok.
  destruct (after_write_same h value (add_request a)) as [Hc1 Hm1]. fold a1 in Hc1, Hm1.
  assert (H : engine_ok d' ∧ a' = add_response a1 ∧
              sent d' = sent d ++ [acl_packet (conn a) CID_ATT [ATT_WRITE_RSP]]).
  { change (send [ATT_WRITE_RSP] (d, a1) = (Ok (), (d', a'))) in Hw.
    pose proof (wp_send [ATT_WRITE_RSP] (λ r s', r = Ok tt → engine_ok (fst s') ∧
      snd s' = add_response a1 ∧
      sent (fst s') = sent d ++ [acl_packet (conn a1) CID_ATT [ATT_WRITE_RSP]]) d a1 Hd Ha1) as H.
    unfold wp in H. rewrite Hw in H. rewrite Hc1 in H. apply H; try done.
    destruct Ha as (_&?&_). change (blen [ATT_WRITE_RSP]) with 1. rewrite Hm1. cbn. lia. }
  destruct H as (Hd'&->&Hsent).
  change (AttServer.feed ([ATT_READ_REQ] ++ le_bytes 2 h) CID_ATT (d', add_response a1))
    with (read ATT_READ_REQ ([ATT_READ_REQ] ++ le_bytes 2 h ++ [])
            (d', add_request (add_response a1))).
  set (a2 := add_request (add_response a1)).
  assert (Hfind : find h a2 = Some (set_value value x)).
  { change (find h a2) with (find h a1). by apply find_after_write. }
  enough (H : wp (read ATT_READ_REQ ([ATT_READ_REQ] ++ le_bytes 2 h ++ []))
    (λ r s', match r with
             | Ok _ => sent (fst s') = sent d' ++ [acl_packet (conn a) CID_ATT
                         (ATT_READ_RSP :: take (Z.to_nat (mtu a - 1)) value)]
             | Exc e => is_hci_error e = true
             | Stuck => False
             end) (d', a2)).
  { unfold wp in H. destruct (read _ _ (d', a2)) as [[u|e|] [d'' a'']]; cbn in H; [|done|done].
    by rewrite H, Hsent, <- app_assoc. }
  unfold read. rewrite handle_slice by done. apply wp_lift_bind; [|done|done].
  intros ? [= <-]. unfold self. apply wp_gets_bind; cbn [snd]. rewrite Hfind.
  change (mtu a2) with (mtu a1). rewrite Hm1. cbn [a_value set_value add_request mtu].
  pose proof Ha as (_&Hm&_). apply wp_send; [done|by destruct Ha1| | |done].
  - change (mtu a2) with (mtu a1). rewrite Hm1, blen_app. change (blen [ATT_READ_RSP]) with 1.
    unfold blen. rewrite length_take. cbn [mtu add_request]. lia.
  - intros d'' _ Hs''. cbn [fst]. rewrite Hs''. change (conn a2) with (conn a1). by rewrite Hc1.
Qed.

(** Nothing is sent for what asks for no answer: PDUs of other channels, odd
    opcodes (responses, notifications) and Write Commands; a Write Command
    to a handle of the table still stores its value. *)
Theorem att_silent (opcode : Z) (rest : bytes) (cid : Z) (d : dev (T:=T)) (a : att) :
  bytes_ok rest →
  cid ≠ CID_ATT ∨ opcode mod 2 = 1 ∨ (opcode = ATT_WRITE_CMD ∧ (2 ≤ length rest)%nat) →
  ∃ a', AttServer.feed (opcode :: rest) cid (d, a) = (Ok tt, (d, a')) ∧
        responses a' = responses a ∧
        (cid = CID_ATT → opcode = ATT_WRITE_CMD →
         ∀ x, find (le_Z (take 2 rest)) a = Some x →
              find (le_Z (take 2 rest)) a' = Some (set_value (drop 2 rest) x)).
Proof.
  intros Hb Hc. destruct (Z.eqb_spec cid CID_ATT) as [->|Hne].
  2:{ exists a. split_and!; [|done|done]. unfold feed. by rewrite (proj2 (Z.eqb_neq _ _)). }
  destruct Hc as [?|[Hodd|[-> Hl]]]; [done| |].
  { exists (add_request a). split_and!; [|done|by intros _ ->].
    unfold feed. change (negb (CID_ATT =? CID_ATT)) with false.
    assert (Hne : ∀ c, c mod 2 = 0 → (opcode =? c) = false).
    { intros c Hc. apply Z.eqb_neq. intros ->. lia. }
    unfold ATT_EXCHANGE_MTU_REQ, ATT_READ_BY_GROUP_TYPE_REQ, ATT_READ_BY_TYPE_REQ,
      ATT_FIND_INFORMATION_REQ, ATT_READ_REQ, ATT_READ_BLOB_REQ, ATT_WRITE_REQ, ATT_WRITE_CMD.
    rewrite !Hne by done. by rewrite Hodd. }
  assert (E : unpack_H (slice 1 3 (ATT_WRITE_CMD :: rest)) = Ok (le_Z (take 2 rest))).
  { rewrite unpack_H_ok; [by destruct rest as [|? [|]]|].
    rewrite slice_full; [done|lia|cbn; lia]. }
  change (feed (ATT_WRITE_CMD :: rest) CID_ATT (d, a))
    with (write (T:=T) ATT_WRITE_CMD (ATT_WRITE_CMD :: rest) (d, add_request a)).
  rewrite (write_eq d (add_request a) _ _ _ E).
  change (find _ (add_request a)) with (find (le_Z (take 2 rest)) a).
  destruct (find (le_Z (take 2 rest)) a) as [y|] eqn:Hf.
  - eexists. split; [reflexivity|]. split.
    + unfold after_write. cbn zeta. destruct (_ =? 21); [done|]. by destruct (_ =? 18).
    + intros _ _ x [= <-]. by apply find_after_write.
  - eexists. split; [reflexivity|]. split; [done|]. by intros _ _ x [=].
Qed.

(** A notification is sent exactly when the peer has enabled notifications
    in the CCCD, as one PDU cut to the MTU. *)
Theorem att_notify_gated (text : bytes) (d : dev (T:=T)) (a : att) :
  engine_ok d → att_ok a →
  let '(r, (d', a')) := AttServer.notify text (d, a) in
  if Z.testbit (cccd a) 0 then
    match r with
    | Ok b => b = true ∧ notifications a' = S (notifications a) ∧
        sent d' = sent d ++ [acl_packet (conn a) CID_ATT
          (take (Z.to_nat (mtu a)) ([ATT_HANDLE_VALUE_NTF; 0x14; 0x00] ++ text))]
    | Exc e => is_hci_error e = true ∧ sent d' = sent d ∧ a' = a
    | Stuck => False
    end
  else r = Ok false ∧ d' = d ∧ a' = a.
Proof.
  intros Hd (Hc&Hm&_).
  assert (Hbit : (Z.land (cccd a) 1 =? 0) = negb (Z.testbit (cccd a) 0)).
  { rewrite Z.bit0_odd, Z.land_comm. change 1 with (Z.ones 1) at 1.
    rewrite Z.land_comm, Z.land_ones, Z.pow_1_r, Zmod_odd by lia. by destruct (Z.odd _). }
  destruct (Z.testbit (cccd a) 0) eqn:Hb.
  2:{ unfold notify, self, gets, mbind, M_bind. cbn [fst snd]. by rewrite Hbit. }
  enough (H : wp (notify text) (λ r s',
    match r with
    | Ok b => b = true ∧ notifications (snd s') = S (notifications a) ∧
        sent (fst s') = sent d ++ [acl_packet (conn a) CID_ATT
          (take (Z.to_nat (mtu a)) ([ATT_HANDLE_VALUE_NTF; 0x14; 0x00] ++ text))]
    | Exc e => is_hci_error e = true ∧ sent (fst s') = sent d ∧ snd s' = a
    | Stuck => False
    end) (d, a)).
  { unfold wp in H. destruct (notify text (d, a)) as [r [d' a']]. exact H. }
  unfold notify, self. apply wp_gets_bind; cbn [snd]. rewrite Hbit.
  cbn [negb]. rewrite u16_ok by done. apply wp_lift_bind; [|done|done]. intros ? [= <-].
  apply wp_bind, wp_on_dev. cbn [fst snd].
  apply wp_send_acl; [done|done|unfold CID_ATT; lia| | |].
  - unfold blen. rewrite length_take. lia.
  - intros d' _ _ Hs'. by split_and!.
  - intros e d' _ _ He Hs'. by split_and!.
Qed.

(** *** Any PDU at all *)

Lemma table_u16 a x : table_ok a → x ∈ attrs a → u16 (a_handle x) = Ok (le_bytes 2 (a_handle x)).
Proof.
  intros (_&Hat) Hx. rewrite Forall_forall in Hat. destruct (Hat x Hx) as [? _]. by apply u16_ok.
Qed.

Section contained.
Context (P : bytes → Prop) (HP : ∀ rest, P (H4_ACL :: rest)).
Abbreviation tame := (runs (both_ok (T:=T) table_ok) (dev_frame (T:=T) P) engine_exn).

Lemma send_tame payload : tame (send (T:=T) payload).
Proof.
  unfold send. apply runs_own_bind. intros a Ha.
  apply runs_bind; [apply _|by apply runs_on_dev, send_acl_trace|intros _].
  by apply runs_on_own.
Qed.

Lemma pack_tame {A} fs (k : bytes → M (dev (T:=T) * att) A) :
  (∀ bs, tame (k bs)) → tame (lift (pack fs) ≫= k).
Proof.
  intros Hk. apply runs_bind; [apply _| |exact Hk].
  apply runs_lift; [apply _|apply pack_not_stuck|].
  intros e E. right; left. by eapply pack_struct_error.
Qed.

Lemma unpack_tame {A} bs (k : Z → M (dev (T:=T) * att) A) :
  (∀ v, tame (k v)) → tame (lift (unpack_H bs) ≫= k).
Proof.
  intros Hk. apply runs_bind; [apply _| |exact Hk].
  unfold unpack_H, unpack_le. apply runs_lift; [apply _|by case_decide|].
  case_decide; [done|]. intros e [= <-]. by right; left.
Qed.

Lemma error_tame opcode handle code : tame (error (T:=T) opcode handle code).
Proof. unfold error. apply pack_tame. intros pdu. apply send_tame. Qed.

Lemma entries_tame request response start entries size z m :
  is_byte response → m ≤ 247 → entries_fit m entries z → (is_Some z → is_Some size) →
  (∀ v, size = Some v → is_byte v ∨ entries = []) →
  tame (send_entries (T:=T) request response start (entries, size)).
Proof.
  intros Hr Hm Hfit Hsome Hbyte. unfold send_entries; cbn [fst snd].
  destruct entries as [|e es]; [apply error_tame|].
  destruct z as [z|]; [|done]. destruct Hsome as [v ->]; [by eexists|].
  assert (Hv : is_byte v) by (by destruct (Hbyte v eq_refl)).
  eapply runs_lift_ok; [apply mkbytes_ok; by repeat (apply Forall_cons; split)|].
  apply send_tame.
Qed.

(** The size of gathered entries is an octet. *)
Lemma gathered_byte m es v :
  m ≤ 247 → entries_fit m es (Some v) → is_byte v ∨ es = [].
Proof.
  intros Hm [Hall Hfit]. destruct es as [|e es]; [by right|]. left.
  specialize (Hfit ltac:(done)). apply Forall_cons in Hall as [Hv _].
  pose proof (blen_nonneg e). unfold is_byte.
  unfold blen at 1 in Hfit; cbn [length] in Hfit. nia.
Qed.

Lemma gather_tame request response start keep entry g a :
  is_byte response → table_ok a → (∀ x, x ∈ attrs a → entry x = Ok (g x)) →
  tame (r ← lift (gather (mtu a) keep entry (attrs a) [] None);
        send_entries (T:=T) request response start r).
Proof.
  intros Hr (Hm&_) He.
  destruct (gather_spec (mtu a) keep entry g (attrs a) [] None He eq_refl)
    as (es&size&E&Hfit&_).
  eapply runs_lift_ok; [exact E|]. apply (entries_tame _ _ _ es size size (mtu a)); try done; [lia|].
  intros v ->. apply (gathered_byte (mtu a)); [lia|done].
Qed.

Lemma feed_tame payload cid : tame (feed (T:=T) payload cid).
Proof.
  unfold feed. destruct payload as [|opcode rest]; [by apply runs_skip, _|].
  destruct (negb _); [by apply runs_skip, _|].
  apply runs_bind; [apply _|by apply runs_on_own|intros _].
  set (payload := opcode :: rest).
  repeat lazymatch goal with |- runs _ _ _ (if ?b then _ else _) => destruct b end;
    try (by apply runs_skip, _).
  - unfold exchange_mtu. apply unpack_tame. intros peer.
    apply runs_bind; [apply _| |intros _].
    { apply runs_on_own. intros a (?&?). split; [cbn; lia|done]. }
    apply runs_own_bind. intros a Ha. apply pack_tame. intros pdu. apply send_tame.
  - unfold read_by_group_type. apply unpack_tame. intros start. apply unpack_tame. intros l.
    cbn zeta. eapply runs_lift_ok; [by apply u16_ok|]. destruct (negb _); [apply error_tame|].
    apply runs_own_bind. intros a Ha.
    apply (gather_tame _ _ _ _ _ (λ x, le_bytes 2 (a_handle x) ++
      le_bytes 2 (default 0 (a_group_end x)) ++ a_value x)); [done|done|].
    intros x Hx. rewrite (table_u16 a) by done. destruct Ha as (_&Hat).
    rewrite Forall_forall in Hat. destruct (Hat x Hx) as (_&?&_). by rewrite u16_ok.
  - unfold read_by_type. apply unpack_tame. intros start. apply unpack_tame. intros l.
    cbn zeta. apply runs_own_bind. intros a Ha.
    apply (gather_tame _ _ _ _ _ (λ x, le_bytes 2 (a_handle x) ++ a_value x)); [done|done|].
    intros x Hx. by rewrite (table_u16 a).
  - unfold find_information. apply unpack_tame. intros start. apply unpack_tame. intros l.
    apply runs_own_bind. intros a Ha. pose proof Ha as (Hm&Hat).
    destruct (information_spec (mtu a) start l (attrs a) [] None Hat eq_refl
                ltac:(by left)) as (es&fmt&E&Hfit&Hin&_&_).
    eapply runs_lift_ok; [exact E|].
    apply (entries_tame _ _ _ es fmt (pair_length <$> fmt) (mtu a)); try done; [lia| |].
    + by destruct fmt; [eexists|intros [? ?]].
    + intros v ->. left. apply list_elem_of_In in Hin. cbn in Hin.
      destruct Hin as [[=]|[[= <-]|[[= <-]|[]]]]; by vm_compute.
  - unfold read. apply unpack_tame. intros h. apply runs_own_bind. intros a Ha.
    destruct (find h a); [apply send_tame|apply error_tame].
  - unfold read_blob. apply unpack_tame. intros h. apply unpack_tame. intros o.
    apply runs_own_bind. intros a Ha. destruct (find h a); [|apply error_tame].
    destruct (_ <? _); [apply error_tame|apply send_tame].
  - unfold write. apply unpack_tame. intros h. cbn zeta. apply runs_own_bind. intros a Ha.
    destruct (find h a); [|destruct (_ =? _); [apply error_tame|by apply runs_skip, _]].
    apply runs_bind; [apply _| |intros _].
    { apply runs_on_own. intros x (?&Hat). split; [done|]. by apply store_ok. }
    apply runs_bind; [apply _| |intros _].
    { destruct (h =? 21); [apply unpack_tame; intros v; by apply runs_on_own|].
      destruct (h =? 18); [by apply runs_on_own|by apply runs_skip, _]. }
    destruct (_ =? _); [|by apply runs_skip, _].
    eapply runs_lift_ok; [by apply mkbytes_ok, (bool_decide_unpack _)|]. apply send_tame.
  - apply error_tame.
Qed.
End contained.
End laws.

(** *** Discovery *)

(** A client that discovers attributes with Find Information Requests: from a
    handle on, then from behind the last handle it was told. *)
Fixpoint discover (fuel : nat) (mtu start : Z) (l : list attribute) : res (list bytes) :=
  match fuel with
  | O => Ok []
  | S fuel' =>
      r ← information mtu start 0xFFFF l [] None;
      match last (fst r) with
      | None => Ok []
      | Some e =>
          rest ← discover fuel' mtu (le_Z (take 2 e) + 1) l;
          Ok (fst r ++ rest)
      end
  end.

Definition handle_lt (x y : attribute) : Prop := a_handle x < a_handle y.

Lemma filter_range_agree start start' l :
  Forall (λ x, start ≤ a_handle x ∧ start' ≤ a_handle x) l →
  filter (λ y, in_range start 0xFFFF y = true) l =
  filter (λ y, in_range start' 0xFFFF y = true) l.
Proof.
  induction 1 as [|x l [H1 H2] _ IH]; [done|]. rewrite !filter_cons, IH. unfold in_range.
  by rewrite (proj2 (Z.leb_le _ _) H1), (proj2 (Z.leb_le _ _) H2).
Qed.

Lemma in_range_after start l pre x post :
  StronglySorted handle_lt l →
  filter (λ y, in_range start 0xFFFF y = true) l = pre ++ x :: post →
  filter (λ y, in_range (a_handle x + 1) 0xFFFF y = true) l = post.
Proof.
  intros Hs. revert pre. induction Hs as [|y l Hs IH Hlt]; intros pre; [by destruct pre|].
  assert (Hbelow : x ∈ l → in_range (a_handle x + 1) 0xFFFF y ≠ true).
  { intros Hx. rewrite Forall_forall in Hlt. specialize (Hlt x Hx). unfold handle_lt in Hlt.
    unfold in_range. rewrite (proj2 (Z.leb_gt _ _)) by lia. done. }
  destruct (in_range start 0xFFFF y) eqn:Hy.
  - rewrite filter_cons_True by done. destruct pre as [|y' pre].
    + intros [= -> <-]. apply andb_true_iff in Hy as [Hy%Z.leb_le _].
      rewrite filter_cons_False.
      * apply filter_range_agree. apply (Forall_impl _ _ _ Hlt). unfold handle_lt. lia.
      * unfold in_range. rewrite (proj2 (Z.leb_gt _ _)) by lia. done.
    + intros [= <- E]. rewrite filter_cons_False; [by apply (IH pre)|]. apply Hbelow.
      assert (x ∈ filter (λ y, in_range start 0xFFFF y = true) l) as Hin
        by (rewrite E; set_solver).
      by apply list_elem_of_filter in Hin as [_ ?].
  - rewrite filter_cons_False by congruence. intros E.
    rewrite filter_cons_False; [by apply (IH pre)|]. apply Hbelow.
    assert (x ∈ filter (λ y, in_range start 0xFFFF y = true) l) as Hin
      by (rewrite E; set_solver).
    by apply list_elem_of_filter in Hin as [_ ?].
Qed.

Lemma handle_of_pair x : attribute_ok x → le_Z (take 2 (pair_of x)) = a_handle x.
Proof.
  intros [Hx _]. unfold pair_of. rewrite take_app_length' by done.
  by apply le_Z_le_bytes_small.
Qed.

(** The first attribute in range always fits. *)
Lemma information_first mtu start last l x rest :
  23 ≤ mtu → Forall attribute_ok l →
  filter (λ y, in_range start last y = true) l = x :: rest →
  ∃ es fmt, information mtu start last l [] None = Ok (es, fmt) ∧
    [pair_of x] `prefix_of` es ∧
    es `prefix_of` pair_of <$> filter (λ y, in_range start last y = true) l.
Proof.
  intros Hm. induction l as [|y l IH]; intros Hok E; [done|].
  apply Forall_cons in Hok as [Hy Hok]. cbn [information].
  destruct (in_range start last y) eqn:Hr; cbn [negb].
  - rewrite filter_cons_True in E by done. injection E as -> E.
    cbn [default]. rewrite Z.eqb_refl. cbn [negb]. rewrite u16_ok by apply Hy.
    cbn [mbind res_bind]. change (le_bytes 2 (a_handle x) ++ a_uuid x) with (pair_of x).
    change (if (length (a_uuid x) =? 2)%nat then 1 else 2) with (fmt_of x).
    pose proof (pair_of_length x Hy) as Hl.
    assert (Hp : pair_length (fmt_of x) ≤ 18) by (unfold pair_length; case_match; lia).
    change (blen ([] : list bytes)) with 0. rewrite (proj2 (Z.ltb_ge _ _)) by lia.
    destruct (information_spec mtu start last l [pair_of x] (Some (fmt_of x)) Hok)
      as (es&fmt&E'&_&_&Hpre&Hsuf).
    + split; [by apply Forall_singleton|]. intros _. change (blen [pair_of x]) with 1. lia.
    + unfold fmt_of. case_match; [right; left|right; right; left].
    + exists es, fmt. split_and!; [exact E'|done|]. by rewrite filter_cons_True.
  - rewrite filter_cons_False in E |- * by congruence. by apply IH.
Qed.

Lemma discover_from fuel mtu start l :
  23 ≤ mtu → Forall attribute_ok l → StronglySorted handle_lt l →
  (length (filter (λ x, in_range start 0xFFFF x = true) l) < fuel)%nat →
  discover fuel mtu start l =
  Ok (pair_of <$> filter (λ x, in_range start 0xFFFF x = true) l).
Proof.
  intros Hm Hok Hs. revert start. induction fuel as [|fuel IH]; intros start Hf; [lia|].
  cbn [discover]. destruct (filter (λ x, in_range start 65535 x = true) l) as [|x sub] eqn:E.
  { destruct (information_spec mtu start 0xFFFF l [] None Hok eq_refl ltac:(by left))
      as (es&fmt&->&_&_&_&Hp). rewrite E in Hp. cbn in Hp.
    by apply prefix_nil_inv in Hp as ->. }
  destruct (information_first mtu start 0xFFFF l x sub Hm Hok E) as (es&fmt&->&[t ->]&[rest Hp]).
  rewrite E in Hp. cbn [mbind res_bind fst].
  (* the last entry is the pair of an attribute in the middle of the range *)
  assert (Hsplit : ∃ pre y post, x :: sub = pre ++ y :: post ∧
             [pair_of x] ++ t = pair_of <$> pre ++ [y] ∧ rest = pair_of <$> post).
  { apply fmap_app_inv in Hp as (s1&post&Hs1&->&E1).
    destruct (exists_last (l := s1)) as [pre [y ->]]; [by intros ->|].
    exists pre, y, post. split_and!; [by rewrite E1, <- app_assoc|done|done]. }
  destruct Hsplit as (pre&y&post&Hxs&Hes&->). rewrite Hes.
  rewrite fmap_app, list_fmap_singleton, last_snoc, Hxs. rewrite Hxs in E.
  assert (Hy : attribute_ok y).
  { rewrite Forall_forall in Hok. apply Hok.
    assert (y ∈ filter (λ x, in_range start 65535 x = true) l) as Hin
      by (rewrite E; set_solver). by apply list_elem_of_filter in Hin as [_ ?]. }
  rewrite (handle_of_pair y Hy), IH; rewrite (in_range_after _ _ _ _ _ Hs E).
  - cbn [mbind res_bind]. by rewrite fmap_app, fmap_cons, <- app_assoc.
  - rewrite Hxs, length_app in Hf. cbn in Hf. lia.
Qed.

(** Discovery is complete: a client that keeps asking from behind the last
    handle it was told learns the handle and type of every attribute, in
    order and once, at any MTU the server can agree to. *)
Theorem att_discovery_complete (a : att) :
  att_ok a → StronglySorted handle_lt (attrs a) → Forall (λ x, 1 ≤ a_handle x) (attrs a) →
  discover (S (length (attrs a))) (mtu a) 1 (attrs a) = Ok (pair_of <$> attrs a).
Proof.
  intros (_&Hm&Hat) Hs Hpos.
  assert (E : filter (λ x, in_range 1 0xFFFF x = true) (attrs a) = attrs a).
  { clear Hs. induction (attrs a) as [|x l IH]; [done|].
    apply Forall_cons in Hat as [(?&?) Hat]. apply Forall_cons in Hpos as [? Hpos].
    rewrite filter_cons_True, IH; [done|done|done|]. unfold in_range.
    apply andb_true_iff. rewrite !Z.leb_le. lia. }
  rewrite discover_from; try done; [by rewrite E|lia|rewrite E; lia].
Qed.

(** A new server is well formed, its table in handle order. *)
Lemma init_table handle name :
  ∃ a, init handle name = Ok a ∧ table_ok a ∧ conn a = handle ∧
       StronglySorted handle_lt (attrs a) ∧ Forall (λ x, 1 ≤ a_handle x) (attrs a).
Proof.
  eexists. split; [reflexivity|]. split; [|split; [done|split]].
  - split; [cbn; lia|].
    repeat (apply Forall_cons_2; [split; [cbn; lia|split; [cbn; lia|auto]]|]). done.
  - repeat constructor.
  - repeat (apply Forall_cons_2; [cbn; lia|]). done.
Qed.

Lemma init_ok handle name :
  0 ≤ handle < 65536 →
  ∃ a, init handle name = Ok a ∧ att_ok a ∧ conn a = handle ∧
       StronglySorted handle_lt (attrs a) ∧ Forall (λ x, 1 ≤ a_handle x) (attrs a).
Proof.
  intros Hh. destruct (init_table handle name) as (a&E&Ht&Hc&?&?).
  exists a. split; [exact E|]. split; [|done]. split; [by rewrite Hc|exact Ht].
Qed.

(** *** A concrete server *)

Definition demo_name : bytes := [72; 67; 73].
Definition demo_dev : dev (T:=SerialH4.state) := serial_dev [] [].

Lemma demo_dev_ok : engine_ok demo_dev.
Proof. by apply serial_dev_ok. Qed.

Lemma att_request_answered_witness :
  ∃ a, init 0x40 demo_name = Ok a ∧
    let '(r, (d', a')) := AttServer.feed [ATT_READ_REQ; 0x03; 0x00] CID_ATT (demo_dev, a) in
    r = Ok tt ∧ ∃ rsp, answer_pdu ATT_READ_REQ rsp ∧
      sent d' = [acl_packet 0x40 CID_ATT rsp].
Proof.
  destruct (init_ok 0x40 demo_name) as (a&E&Ha&Hc&_); [done|]. exists a. split; [done|].
  injection E as <-.
  pose proof (att_request_answered ATT_READ_REQ [3; 0] demo_dev _ demo_dev_ok Ha
    ltac:(by apply (bool_decide_unpack _)) eq_refl ltac:(done) ltac:(vm_compute; lia)) as H.
  revert H. match goal with |- context [AttServer.feed ?p ?c ?s] => set (x := AttServer.feed p c s) end.
  assert (Hx : fst x = Ok tt) by (vm_compute; reflexivity).
  destruct x as [r [d' a']]. cbn in Hx. subst r. intros (_&_&rsp&Hr&_&Hs&_).
  split; [done|]. exists rsp. split; [done|]. rewrite Hs. reflexivity.
Defined.

Lemma att_write_then_read_witness :
  ∃ a, init 0x40 demo_name = Ok a ∧
    let '(r, (d', a')) :=
      AttServer.feed ([ATT_WRITE_REQ] ++ le_bytes 2 0x12 ++ [7; 8]) CID_ATT (demo_dev, a) in
    let '(r'', (d'', _)) := AttServer.feed ([ATT_READ_REQ] ++ le_bytes 2 0x12) CID_ATT (d', a') in
    r = Ok tt ∧ r'' = Ok tt ∧
    sent d'' = [acl_packet 0x40 CID_ATT [ATT_WRITE_RSP];
                acl_packet 0x40 CID_ATT [ATT_READ_RSP; 7; 8]].
Proof.
  destruct (init_ok 0x40 demo_name) as (a&E&Ha&Hc&_); [done|]. exists a. split; [done|].
  injection E as <-.
  match goal with |- context [AttServer.feed ?p ?c ?s] => destruct (AttServer.feed p c s) as [r [d' a']] eqn:Ew end.
  assert (Hr : r = Ok tt) by (vm_compute in Ew; congruence). subst r.
  pose proof (att_write_then_read 0x12 [7; 8] demo_dev d' _ a' demo_dev_ok Ha ltac:(lia)
    ltac:(by eexists) Ew) as H. revert H.
  vm_compute in Ew. injection Ew as <- <-.
  match goal with |- context [AttServer.feed ?p ?c ?s] => destruct (AttServer.feed p c s) as [r [d' a']] eqn:Er end.
  assert (Hr : r = Ok tt) by (vm_compute in Er; congruence). subst r. intros H.
  split; [done|]. split; [done|]. exact H.
Defined.

Lemma att_silent_witness :
  ∃ a a', init 0x40 demo_name = Ok a ∧
    AttServer.feed (ATT_WRITE_CMD :: [0x12; 0x00; 5]) CID_ATT (demo_dev, a) = (Ok tt, (demo_dev, a')).
Proof.
  destruct (init_ok 0x40 demo_name) as (a&E&_); [done|].
  destruct (att_silent ATT_WRITE_CMD [0x12; 0x00; 5] CID_ATT demo_dev a) as (a'&H&_).
  - by apply (bool_decide_unpack _).
  - right; right. split; [done|cbn; lia].
  - by exists a, a'.
Defined.

Lemma att_notify_gated_witness :
  ∃ a, init 0x40 demo_name = Ok a ∧ fst (AttServer.notify [1; 2] (demo_dev, a)) = Ok false.
Proof.
  destruct (init_ok 0x40 demo_name) as (a&E&Ha&_); [done|]. exists a. split; [done|].
  pose proof (att_notify_gated [1; 2] demo_dev a demo_dev_ok Ha) as H.
  injection E as <-. destruct (AttServer.notify _ _) as [r [d' a']]. cbn in H. by destruct H as [-> _].
Defined.

Lemma att_discovery_complete_witness :
  ∃ a, init 0x40 demo_name = Ok a ∧
    discover 12 23 1 (attrs a) = Ok (pair_of <$> attrs a).
Proof.
  destruct (init_ok 0x40 demo_name) as (a&E&Ha&_&Hs&Hp); [done|]. exists a. split; [done|].
  pose proof (att_discovery_complete a Ha Hs Hp) as H. injection E as <-. exact H.
Defined.
End AttLaws.
