(* ===== verification/GattSpec.v ===== *)
(** * GattSpec: what the GATT server promises, and that it keeps it

    The contract of [AttServer] as a client sees it: a store of values by
    handle, an MTU, a subscription and what was received, with one total
    function [serve] from a request to the new store and the response. The
    refinement theorem is a forward simulation over whole conversations: the
    server's table, looked up linearly and updated in place, is that store,
    and what goes out on the link is what [serve] answers. *)

From stdpp Require Import gmap.
From S2P Require Export Att.
#[local] Open Scope Z_scope.

Import AttServer AttLaws.

(** ** The store *)

Record store : Type := Store {
  s_mtu : Z; s_values : gmap Z bytes; s_subscription : Z; s_received : bytes }.

(** What a client asks about values. *)
Inductive request : Type :=
  | ExchangeMtu (peer : Z)
  | Read (handle : Z)
  | ReadBlob (handle offset : Z)
  | WriteRequest (handle : Z) (value : bytes)
  | WriteCommand (handle : Z) (value : bytes)
  | Unsupported (opcode : Z).

Definition pdu_of (q : request) : bytes :=
  match q with
  | ExchangeMtu peer => ATT_EXCHANGE_MTU_REQ :: le_bytes 2 peer
  | Read h => ATT_READ_REQ :: le_bytes 2 h
  | ReadBlob h o => ATT_READ_BLOB_REQ :: le_bytes 2 h ++ le_bytes 2 o
  | WriteRequest h v => ATT_WRITE_REQ :: le_bytes 2 h ++ v
  | WriteCommand h v => ATT_WRITE_CMD :: le_bytes 2 h ++ v
  | Unsupported opcode => [opcode]
  end.

Definition SUPPORTED : list Z :=
  [ATT_EXCHANGE_MTU_REQ; ATT_READ_BY_GROUP_TYPE_REQ; ATT_READ_BY_TYPE_REQ;
   ATT_FIND_INFORMATION_REQ; ATT_READ_REQ; ATT_READ_BLOB_REQ; ATT_WRITE_REQ; ATT_WRITE_CMD].

Definition u16_range (v : Z) : Prop := 0 ≤ v < 65536.

Definition request_ok (q : request) : Prop :=
  match q with
  | ExchangeMtu v | Read v | WriteRequest v _ | WriteCommand v _ => u16_range v
  | ReadBlob h o => u16_range h ∧ u16_range o
  | Unsupported opcode => is_byte opcode ∧ opcode mod 2 = 0 ∧ opcode ∉ SUPPORTED
  end.

Definition error_rsp (opcode handle code : Z) : bytes :=
  [ATT_ERROR_RSP; opcode] ++ le_bytes 2 handle ++ [code].

(** The client configuration is the first two octets written, zero-filled. *)
Definition subscription_of (value : bytes) : Z := le_Z (take 2 (value ++ [0; 0])).

Definition write_value (h : Z) (v : bytes) (s : store) : store :=
  Store (s_mtu s) (<[h := v]> (s_values s))
    (if h =? 0x0015 then subscription_of v else s_subscription s)
    (if h =? 0x0012 then s_received s ++ v else s_received s).

Definition serve (q : request) (s : store) : store * list bytes :=
  match q with
  | ExchangeMtu peer =>
      let mtu := Z.max 23 (Z.min peer 247) in
      (Store mtu (s_values s) (s_subscription s) (s_received s),
       [ATT_EXCHANGE_MTU_RSP :: le_bytes 2 mtu])
  | Read h =>
      (s, [match s_values s !! h with
           | Some v => ATT_READ_RSP :: take (Z.to_nat (s_mtu s - 1)) v
           | None => error_rsp ATT_READ_REQ h ATT_ERR_INVALID_HANDLE
           end])
  | ReadBlob h o =>
      (s, [match s_values s !! h with
           | Some v =>
               if blen v <? o then error_rsp ATT_READ_BLOB_REQ h ATT_ERR_INVALID_OFFSET
               else ATT_READ_BLOB_RSP :: take (Z.to_nat (s_mtu s - 1)) (drop (Z.to_nat o) v)
           | None => error_rsp ATT_READ_BLOB_REQ h ATT_ERR_INVALID_HANDLE
           end])
  | WriteRequest h v =>
      match s_values s !! h with
      | Some _ => (write_value h v s, [[ATT_WRITE_RSP]])
      | None => (s, [error_rsp ATT_WRITE_REQ h ATT_ERR_INVALID_HANDLE])
      end
  | WriteCommand h v =>
      match s_values s !! h with Some _ => (write_value h v s, []) | None => (s, []) end
  | Unsupported opcode => (s, [error_rsp opcode 0 ATT_ERR_REQUEST_NOT_SUPPORTED])
  end.

Fixpoint serve_all (qs : list request) (s : store) : store * list bytes :=
  match qs with
  | [] => (s, [])
  | q :: qs' =>
      let '(s1, out) := serve q s in
      let '(s2, rest) := serve_all qs' s1 in (s2, out ++ rest)
  end.

(** ** The refinement *)

(** The server's table is the store. *)
Definition refines (a : att) (s : store) : Prop :=
  mtu a = s_mtu s ∧ cccd a = s_subscription s ∧ written a = s_received s ∧
  ∀ h, s_values s !! h = a_value <$> find h a.

(** The store of a table: the first attribute of a handle counts. *)
Definition values_of (l : list attribute) : gmap Z bytes :=
  list_to_map ((λ x, (a_handle x, a_value x)) <$> l).
Definition store_of (a : att) : store := Store (mtu a) (values_of (attrs a)) (cccd a) (written a).

Lemma refines_store_of a : refines a (store_of a).
Proof.
  split_and!; [done|done|done|]. intros h. unfold store_of, values_of, find. cbn [s_values].
  induction (attrs a) as [|x l IH]; cbn; [apply lookup_empty|].
  destruct (Z.eqb_spec (a_handle x) h) as [->|Hne]; [by rewrite lookup_insert_eq|].
  by rewrite lookup_insert_ne.
Qed.

Lemma find_store_ne h h' v l :
  h' ≠ h → List.find (λ x, a_handle x =? h') (AttServer.store h v l)
           = List.find (λ x, a_handle x =? h') l.
Proof.
  intros Hne. induction l as [|x l IH]; [done|]. cbn.
  destruct (Z.eqb_spec (a_handle x) h) as [E|E]; cbn; [|by rewrite IH].
  by rewrite (proj2 (Z.eqb_neq (a_handle x) h')) by congruence.
Qed.

Lemma refines_write h v a s :
  refines a s → is_Some (find h a) → refines (after_write h v a) (write_value h v s).
Proof.
  intros (Hm&Hc&Hw&Hv) [x Hx]. unfold refines, write_value, subscription_of.
  cbn [s_mtu s_subscription s_received s_values].
  split; [by rewrite (proj2 (after_write_same h v a))|].
  assert (Hlook : ∀ h', <[h:=v]> (s_values s) !! h' = a_value <$> find h' (after_write h v a)).
  { intros h'. destruct (decide (h' = h)) as [->|Hne].
    - by rewrite lookup_insert_eq, (find_after_write _ _ _ _ Hx).
    - rewrite lookup_insert_ne, Hv by done. f_equal. unfold after_write, find. cbn zeta.
      destruct (h =? 21); [|destruct (h =? 18)]; symmetry; by apply find_store_ne. }
  split_and!; [| |exact Hlook]; unfold after_write; cbn zeta.
  - destruct (h =? 21); [done|]. by destruct (h =? 18).
  - destruct (Z.eqb_spec h 21) as [->|]; [done|]. destruct (h =? 18); cbn; congruence.
Qed.

Section refinement.
Context {T : Type} `{Tr : !Transport T} `{TL : !TransportLaws T}.
Implicit Types d : dev (T:=T).

(** One request served from [d]: the responses [out] are on the link and the
    server is the store [s], or the transport failed with nothing sent. *)
Definition served d (c : Z) (s : store) (out : list bytes)
    (r : res unit) (st : dev (T:=T) * att) : Prop :=
  match r with
  | Ok _ => engine_ok (fst st) ∧ att_ok (snd st) ∧ conn (snd st) = c ∧ refines (snd st) s ∧
      sent (fst st) = sent d ++ (acl_packet c CID_ATT <$> out)
  | Exc e => is_hci_error e = true ∧ sent (fst st) = sent d
  | Stuck => False
  end.

Lemma served_send rsp d a s :
  engine_ok d → att_ok a → refines a s → blen rsp ≤ mtu a →
  wp (send rsp) (served d (conn a) s [rsp]) (d, a).
Proof.
  intros Hd Ha Hr Hl. apply wp_send; [done|done|done| |].
  - intros d' Hd' Hs. unfold served. cbn [fst snd]. split_and!; [done|exact Ha|done|exact Hr|done].
  - intros e d' He Hs. by split.
Qed.

Lemma served_error opcode handle code d a s :
  engine_ok d → att_ok a → refines a s → is_byte opcode → u16_range handle → is_byte code →
  wp (error opcode handle code) (served d (conn a) s [error_rsp opcode handle code]) (d, a).
Proof.
  unfold is_byte, u16_range. intros Hd Ha Hr Ho Hh Hc. unfold error.
  assert (Hp : pack [FB ATT_ERROR_RSP; FB opcode; FH handle; FB code]
               = Ok (error_rsp opcode handle code)).
  { unfold ATT_ERROR_RSP. cbn. rewrite !pack_le_ok by (cbn; lia). cbn.
    by rewrite (Z.mod_small opcode), (Z.mod_small code) by lia. }
  rewrite Hp. apply wp_lift_bind; [|done|done]. intros ? [= <-].
  apply served_send; [done|done|done|]. destruct Ha as (_&Hm&_). unfold blen. cbn. lia.
Qed.

Lemma served_write opcode h v d a s :
  engine_ok d → att_ok a → refines a s → u16_range h →
  opcode = ATT_WRITE_REQ ∨ opcode = ATT_WRITE_CMD →
  wp (write opcode ([opcode] ++ le_bytes 2 h ++ v))
     (served d (conn a)
        (match s_values s !! h with Some _ => write_value h v s | None => s end)
        (if opcode =? ATT_WRITE_REQ
         then [match s_values s !! h with
               | Some _ => [ATT_WRITE_RSP] | None => error_rsp opcode h ATT_ERR_INVALID_HANDLE end]
         else [])) (d, a).
Proof.
  intros Hd Ha Hr Hh Hop. unfold wp.
  rewrite (write_eq d a _ _ h) by by apply handle_slice. change (drop 3 _) with v.
  destruct Hr as (Hm&Hc&Hw&Hv). rewrite Hv.
  destruct (find h a) as [x|] eqn:Hx; cbn [fmap option_fmap option_map].
  - pose proof (refines_write h v a s ltac:(by unfold refines; split_and!) ltac:(by eexists)) as Hr'.
    pose proof (after_write_ok a Ha h v) as Ha'.
    destruct (after_write_same h v a) as [Hc' Hm'].
    destruct Hop as [-> | ->].
    + pose proof (served_send [ATT_WRITE_RSP] d _ _ Hd Ha' Hr') as Hs.
      rewrite Hc' in Hs. apply Hs. rewrite Hm'. destruct Ha as (_&?&_). unfold blen. cbn. lia.
    + cbn. rewrite app_nil_r. by split_and!.
  - destruct Hop as [-> | ->].
    + apply served_error; try done.
    + cbn. rewrite app_nil_r. by split_and!.
Qed.

Lemma served_exchange peer d a s :
  engine_ok d → att_ok a → refines a s → u16_range peer →
  wp (exchange_mtu ([ATT_EXCHANGE_MTU_REQ] ++ le_bytes 2 peer ++ []))
     (served d (conn a) (fst (serve (ExchangeMtu peer) s)) (snd (serve (ExchangeMtu peer) s)))
     (d, a).
Proof.
  intros Hd Ha Hr Hp. unfold exchange_mtu. rewrite handle_slice by done.
  apply wp_lift_bind; [|done|done]. intros ? [= <-].
  cbn [serve fst snd]. set (m := Z.max 23 (Z.min peer 247)).
  assert (Hm : 23 ≤ m ≤ 247) by (subst m; lia). clearbody m. set (a' := set_mtu m a).
  assert (Ha' : att_ok a') by (destruct Ha as (?&_&?); split; [done|split; [exact Hm|done]]).
  assert (Hr' : refines a' (Store m (s_values s) (s_subscription s) (s_received s)))
    by (destruct Hr as (_&?&?&?); unfold refines; by split_and!).
  assert (Hpk : pack [FB ATT_EXCHANGE_MTU_RSP; FH (mtu a')] = Ok (ATT_EXCHANGE_MTU_RSP :: le_bytes 2 m)).
  { unfold ATT_EXCHANGE_MTU_RSP. cbn. by rewrite !pack_le_ok by (cbn; lia). }
  pose proof (served_send (ATT_EXCHANGE_MTU_RSP :: le_bytes 2 m) d a' _ Hd Ha' Hr') as Hs.
  assert (Hlen : blen (ATT_EXCHANGE_MTU_RSP :: le_bytes 2 m) ≤ mtu a') by (unfold blen; cbn; lia).
  specialize (Hs Hlen). unfold wp in *. unfold update, on_own, self, modify, gets, zoom, lift, mbind, M_bind.
  cbn [fst snd]. fold a'. rewrite Hpk. exact Hs.
Qed.

Lemma take_slice {A} (i n : nat) (l : list A) : slice i (i + n) l = take n (drop i l).
Proof. unfold slice. f_equal. lia. Qed.

Lemma served_read h d a s :
  engine_ok d → att_ok a → refines a s → u16_range h →
  wp (read ATT_READ_REQ ([ATT_READ_REQ] ++ le_bytes 2 h ++ []))
     (served d (conn a) s (snd (serve (Read h) s))) (d, a).
Proof.
  intros Hd Ha Hr Hh. unfold read. rewrite handle_slice by done.
  apply wp_lift_bind; [|done|done]. intros ? [= <-]. unfold self. apply wp_gets_bind; cbn [snd].
  pose proof Hr as (Hm&_&_&Hv). cbn [serve snd]. rewrite Hv, <- Hm.
  destruct (find h a) as [x|]; cbn [fmap option_fmap option_map].
  - apply served_send; [done|done|done|]. destruct Ha as (_&?&_).
    unfold blen. cbn [length app]. rewrite length_take. lia.
  - by apply served_error.
Qed.

Lemma served_read_blob h o d a s :
  engine_ok d → att_ok a → refines a s → u16_range h → u16_range o →
  wp (read_blob ATT_READ_BLOB_REQ ([ATT_READ_BLOB_REQ] ++ le_bytes 2 h ++ le_bytes 2 o))
     (served d (conn a) s (snd (serve (ReadBlob h o) s))) (d, a).
Proof.
  intros Hd Ha Hr Hh Ho. unfold read_blob. rewrite handle_slice by done.
  apply wp_lift_bind; [|done|done]. intros ? [= <-].
  assert (Hoff : unpack_H (slice 3 5 ([ATT_READ_BLOB_REQ] ++ le_bytes 2 h ++ le_bytes 2 o)) = Ok o).
  { change (slice 3 5 _) with (le_bytes 2 o). rewrite unpack_H_ok by done. f_equal.
    by apply le_Z_le_bytes_small. }
  rewrite Hoff. apply wp_lift_bind; [|done|done]. intros ? [= <-].
  unfold self. apply wp_gets_bind; cbn [snd].
  pose proof Hr as (Hm&_&_&Hv). cbn [serve snd]. rewrite Hv, <- Hm. pose proof Ha as (_&Hmtu&_).
  destruct (find h a) as [x|]; cbn [fmap option_fmap option_map]; [|by apply served_error].
  destruct (blen (a_value x) <? o); [by apply served_error|].
  assert (Hsl : slice (Z.to_nat o) (Z.to_nat (o + mtu a - 1)) (a_value x)
                = take (Z.to_nat (mtu a - 1)) (drop (Z.to_nat o) (a_value x))).
  { unfold u16_range in Ho. replace (Z.to_nat (o + mtu a - 1)) with (Z.to_nat o + Z.to_nat (mtu a - 1))%nat by lia.
    apply take_slice. }
  rewrite Hsl. apply served_send; [done|done|done|].
  unfold blen. cbn [length app]. rewrite length_take. lia.
Qed.

(** Counting the request changes nothing the store sees. *)
Lemma feed_step q d a s :
  engine_ok d → att_ok a → refines a s → request_ok q →
  wp (feed (pdu_of q) CID_ATT) (served d (conn a) (fst (serve q s)) (snd (serve q s))) (d, a).
Proof.
  intros Hd Ha Hr Hq. set (a1 := add_request a).
  assert (Hr1 : refines a1 s) by exact Hr.
  destruct q as [peer|h|h o|h v|h v|opcode]; cbn [request_ok pdu_of] in *.
  - rewrite <- (app_nil_r (le_bytes 2 peer)). by apply (served_exchange peer d a1 s).
  - rewrite <- (app_nil_r (le_bytes 2 h)). by apply (served_read h d a1 s).
  - destruct Hq. by apply (served_read_blob h o d a1 s).
  - pose proof (served_write ATT_WRITE_REQ h v d a1 s Hd Ha Hr1 Hq ltac:(by left)) as Hw.
    cbn [serve]. by destruct (s_values s !! h).
  - pose proof (served_write ATT_WRITE_CMD h v d a1 s Hd Ha Hr1 Hq ltac:(by right)) as Hw.
    cbn [serve]. by destruct (s_values s !! h).
  - destruct Hq as (Ho&Heven&Hnot). cbn [serve fst snd]. unfold SUPPORTED in Hnot.
    assert (E : feed (T:=T) [opcode] CID_ATT (d, a) = error opcode 0 ATT_ERR_REQUEST_NOT_SUPPORTED (d, a1)).
    { unfold feed. change (negb (CID_ATT =? CID_ATT)) with false. cbv iota.
      unfold update at 1, on_own at 1, mbind, M_bind. cbn [fst snd].
      repeat (apply not_elem_of_cons in Hnot as [Hne%Z.eqb_neq Hnot]; rewrite Hne; clear Hne).
      cbn [orb]. by rewrite (proj2 (Z.eqb_eq _ _)). }
    unfold wp. rewrite E. by apply (served_error opcode 0 ATT_ERR_REQUEST_NOT_SUPPORTED d a1 s).
Qed.

(** C17: the server refines the store: over any conversation, the responses on
    the link are, request by request, those the store gives, and the table
    ends as the store the conversation leads to; when the transport fails, what
    went out is a prefix of those responses. *)
Theorem att_refines_store (qs : list request) d (a : att) (s : store) :
  engine_ok d → att_ok a → refines a s → Forall request_ok qs →
  let '(r, (d', a')) := for_each qs (λ q, AttServer.feed (pdu_of q) CID_ATT) (d, a) in
  let '(s', out) := serve_all qs s in
  match r with
  | Ok _ => att_ok a' ∧ refines a' s' ∧ sent d' = sent d ++ (acl_packet (conn a) CID_ATT <$> out)
  | Exc e => is_hci_error e = true ∧ ∃ ps, ps `prefix_of` out ∧
      sent d' = sent d ++ (acl_packet (conn a) CID_ATT <$> ps)
  | Stuck => False
  end.
Proof.
  intros Hd Ha Hr Hq. revert d a s Hd Ha Hr.
  induction Hq as [|q qs Hq _ IH]; intros d a s Hd Ha Hr; cbn [for_each serve_all].
  { cbn. by rewrite app_nil_r. }
  pose proof (feed_step q d a s Hd Ha Hr Hq) as Hs. unfold wp in Hs. unfold mbind, M_bind.
  destruct (serve q s) as [s1 out1]. cbn [fst snd] in Hs.
  destruct (feed (pdu_of q) CID_ATT (d, a)) as [[[]|e|] [d1 a1]]; cbn [fst snd served] in Hs; [| |done].
  2:{ destruct Hs as [He Hs]. destruct (serve_all qs s1) as [s2 out2]. split; [exact He|].
      exists []. split; [apply prefix_nil|]. by rewrite app_nil_r. }
  destruct Hs as (Hd1&Ha1&Hc&Hr1&Hs1). specialize (IH d1 a1 s1 Hd1 Ha1 Hr1).
  destruct (for_each qs _ (d1, a1)) as [r [d2 a2]], (serve_all qs s1) as [s2 out2].
  rewrite Hc, Hs1 in IH. destruct r as [[]|e|]; [| |done].
  - destruct IH as (?&?&E). split_and!; [done|done|]. by rewrite E, <- app_assoc, fmap_app.
  - destruct IH as (He&ps&[t ->]&E). split; [done|]. exists (out1 ++ ps).
    split; [by exists t; rewrite app_assoc|]. by rewrite E, <- app_assoc, fmap_app.
Qed.

(** C18: the server is well typed whatever arrives: after any sequence of PDUs,
    malformed ones and other channels included, up to where it raises, its MTU
    is within its bounds and every attribute has a 16-bit handle and group end
    and a 2- or 16-octet type; it does not get stuck, raises only the engine's
    exceptions and writes only ACL data. *)
Theorem att_well_typed (pdus : list (bytes * Z)) d (a : att) :
  engine_ok d → table_ok a →
  let '(r, (d', a')) := for_each pdus (λ p, AttServer.feed (fst p) (snd p)) (d, a) in
  engine_ok d' ∧ table_ok a' ∧ r ≠ Stuck ∧ (∀ e, r = Exc e → engine_exn e) ∧
  ∃ ps, sent d' = sent d ++ ps ∧ Forall (λ p, head p = Some H4_ACL) ps.
Proof.
  intros Hd Ha.
  pose proof (runs_for_each (both_ok (T:=T) table_ok)
    (dev_frame (T:=T) (λ p, head p = Some H4_ACL)) engine_exn pdus
    (λ p, AttServer.feed (fst p) (snd p))) as H.
  destruct (H ltac:(intros p _; by apply feed_tame) (d, a) ltac:(by split)) as ([Hd' Ha']&[_ Hw]&He&Hst).
  destruct (for_each _ _ (d, a)) as [r [d' a']]. by split_and!.
Qed.
End refinement.

(** ** A concrete conversation *)

Definition conversation : list request :=
  [ExchangeMtu 100; Read 0x03; WriteRequest 0x12 [1; 2; 3]; ReadBlob 0x12 1; WriteCommand 0x15 [1];
   Read 0x77; ReadBlob 0x12 9; Unsupported 0x0E].

Definition demo_server : att :=
  match init 0x40 demo_name with Ok a => a | _ => Att 0 0 0 0 0 [] 0 [] end.

Lemma demo_server_ok : att_ok demo_server.
Proof. destruct (init_ok 0x40 demo_name) as (a&E&Ha&_); [done|]. by injection E as <-. Qed.

Lemma att_refines_store_witness :
  let '(r, (d', a')) := for_each conversation (λ q, AttServer.feed (pdu_of q) CID_ATT)
                          (demo_dev, demo_server) in
  r = Ok tt ∧ written a' = [1; 2; 3] ∧ cccd a' = 1 ∧
  sent d' = acl_packet 0x40 CID_ATT <$>
    [[3; 100; 0]; 0x0B :: demo_name; [0x13]; [0x0D; 2; 3]; error_rsp 0x0A 0x77 1;
     error_rsp 0x0C 0x12 7; error_rsp 0x0E 0 6].
Proof.
  assert (Hq : Forall request_ok conversation).
  { repeat constructor; cbn; unfold u16_range, is_byte; try lia.
    intros Hin. apply list_elem_of_In in Hin. cbn in Hin. intuition discriminate. }
  pose proof (att_refines_store conversation demo_dev demo_server (store_of demo_server)
    demo_dev_ok demo_server_ok (refines_store_of demo_server) Hq) as H.
  assert (Hx : fst (for_each conversation (λ q, AttServer.feed (pdu_of q) CID_ATT)
                      (demo_dev, demo_server)) = Ok tt) by (vm_compute; reflexivity).
  destruct (for_each conversation _ _) as [r [d' a']]. cbn [fst] in Hx. subst r.
  assert (Hs : let '(s', out) := serve_all conversation (store_of demo_server) in
    s_received s' = [1; 2; 3] ∧ s_subscription s' = 1 ∧
    out = [[3; 100; 0]; 0x0B :: demo_name; [0x13]; [0x0D; 2; 3]; error_rsp 0x0A 0x77 1;
           error_rsp 0x0C 0x12 7; error_rsp 0x0E 0 6]) by (vm_compute; by split_and!).
  destruct (serve_all conversation (store_of demo_server)) as [s' out].
  destruct Hs as (Hrec&Hsub&->), H as (_&(_&Hc&Hw&_)&Hsent).
  split_and!; [done|congruence|congruence|exact Hsent].
Defined.

Lemma att_well_typed_witness :
  let '(r, (d', a')) := for_each [([0x0A; 3], CID_ATT); ([1], CID_SMP)]
    (λ p, AttServer.feed (fst p) (snd p)) (demo_dev, demo_server) in
  r = Exc StructError ∧ table_ok a'.
Proof.
  pose proof (att_well_typed [([0x0A; 3], CID_ATT); ([1], CID_SMP)] demo_dev demo_server
    demo_dev_ok (proj2 demo_server_ok)) as H.
  assert (Hx : fst (for_each [([0x0A; 3], CID_ATT); ([1], CID_SMP)]
    (λ p, AttServer.feed (fst p) (snd p)) (demo_dev, demo_server)) = Exc StructError)
    by (vm_compute; reflexivity).
  destruct (for_each _ _ _) as [r [d' a']]. cbn [fst] in Hx. subst r.
  destruct H as (_&Ht&_). split; [done|exact Ht].
Defined.
