(* ===== verification/Peripheral.v ===== *)
(** * Peripheral: the legacy Just Works responder
    (class SmpPeripheral of hci_ble_test_impl.py)

    The pairing side of the test peripheral. AES is done by the controller,
    through LE Encrypt, and randomness comes from LE Rand; both are ordinary
    engine commands here, whose answers nothing constrains. *)

From coqutil Require Import Datatypes.RecordSetters.
From S2P Require Export Att.
Import TriangleBracketNotations.
#[local] Open Scope Z_scope.

Definition SMP_PAIRING_REQUEST : Z := 0x01.
Definition SMP_PAIRING_RESPONSE : Z := 0x02.
Definition SMP_PAIRING_CONFIRM : Z := 0x03.
Definition SMP_PAIRING_RANDOM : Z := 0x04.
Definition SMP_PAIRING_FAILED : Z := 0x05.
Definition SMP_ERR_CONFIRM_FAILED : Z := 0x04.
Definition SMP_IO_NO_INPUT_NO_OUTPUT : Z := 0x03.
Definition SMP_MAX_KEY_SIZE : Z := 16.

(** [xor16]: as long as the shorter operand. *)
Definition xor16 (a b : bytes) : bytes := zip_with Z.lxor a b.

Module Peripheral.

Record per : Type := Per {
  conn : Z; ia : bytes; iat : Z; ra : bytes; rat : Z; tk : bytes;
  preq : option bytes; pres : option bytes; own_random : option bytes;
  peer_random : option bytes; peer_confirm : option bytes; stk : option bytes;
  failed : option text; started : bool;
}.

(** [SmpPeripheral.__init__]. *)
Definition init (conn : Z) (local_addr : bytes) (local_type : Z)
    (peer_addr : bytes) (peer_type : Z) : per :=
  Per conn peer_addr peer_type local_addr local_type (zeros 16)
    None None None None None None None false.

Section peripheral.
Context {T : Type} `{!Transport T}.
Definition P (X : Type) : Type := M (dev (T:=T) * per) X.
Definition self : P per := gets snd.
Definition update (f : per → per) : P unit := on_own (modify f).

(** An attribute that is [None] until the pairing has set it. *)
Definition need (x : option bytes) : res bytes :=
  match x with Some b => Ok b | None => Exc TypeError end.

Definition send (payload : bytes) : P unit :=
  p ← self; on_dev (send_acl (conn p) CID_SMP payload).

(** [encrypt]: one block, reversed on the way in and out. *)
Definition encrypt (key plaintext : bytes) : M (dev (T:=T)) bytes :=
  r ← command 0x2017 (rev key ++ rev plaintext) false;
  mret (rev (take 16 (snd r))).

(** [random16]: LE Rand until sixteen octets are there. *)
Fixpoint random_loop (fuel : nat) (out : bytes) : M (dev (T:=T)) bytes :=
  match fuel with
  | O => λ s, (Stuck, s)
  | S fuel' =>
      if (length out <? 16)%nat then
        r ← command 0x2018 [] false;
        random_loop fuel' (out ++ take 8 (snd r))
      else mret (take 16 out)
  end.

(** Every answer uses up input, so the input that is left bounds the loop. *)
Definition random16 : M (dev (T:=T)) bytes :=
  fuel ← gets load; random_loop (S (S fuel)) [].

(** [c1]: the confirm value. *)
Definition c1 (p : per) (key rand : bytes) : M (dev (T:=T)) bytes :=
  types ← lift (mkbytes [iat p; rat p]);
  req ← lift (need (preq p));
  rsp ← lift (need (pres p));
  first ← encrypt key (xor16 rand (types ++ req ++ rsp));
  encrypt key (xor16 first (ra p ++ ia p ++ zeros 4)).

(** [s1]: the short term key. *)
Definition s1 (key own_rand peer_rand : bytes) : M (dev (T:=T)) bytes :=
  encrypt key (take 8 peer_rand ++ take 8 own_rand).

Definition on_request (payload : bytes) : P unit :=
  update (λ p, p<|started := true|><|preq := Some (take 7 payload)|>) ;;
  rsp ← lift (mkbytes [SMP_PAIRING_RESPONSE; SMP_IO_NO_INPUT_NO_OUTPUT; 0x00; 0x00;
                       SMP_MAX_KEY_SIZE; 0x00; 0x00]);
  update (λ p, p<|pres := Some rsp|>) ;;
  send rsp.

Definition on_confirm (payload : bytes) : P unit :=
  p ← self;
  match preq p with
  | None => skip
  | Some _ =>
      update (λ p, p<|peer_confirm := Some (slice 1 17 payload)|>) ;;
      r ← on_dev random16;
      update (λ p, p<|own_random := Some r|>) ;;
      p ← self;
      confirm ← on_dev (c1 p (tk p) r);
      send ([SMP_PAIRING_CONFIRM] ++ confirm)
  end.

Definition on_random (payload : bytes) : P unit :=
  p ← self;
  match own_random p with
  | None => skip
  | Some own =>
      let peer := slice 1 17 payload in
      update (λ p, p<|peer_random := Some peer|>) ;;
      confirm ← on_dev (c1 p (tk p) peer);
      if negb (bool_decide (Some confirm = peer_confirm p)) then
        update (λ p, p<|failed := Some (Lit "the confirm value did not match")|>) ;;
        pdu ← lift (mkbytes [SMP_PAIRING_FAILED; SMP_ERR_CONFIRM_FAILED]);
        send pdu
      else
        key ← on_dev (s1 (tk p) own peer);
        update (λ p, p<|stk := Some key|>) ;;
        send ([SMP_PAIRING_RANDOM] ++ own)
  end.

(** [SmpPeripheral.feed]. *)
Definition feed (payload : bytes) (cid : Z) : P unit :=
  match payload with
  | [] => skip
  | code :: rest =>
      if negb (cid =? CID_SMP) then skip
      else if (code =? SMP_PAIRING_REQUEST) && (7 <=? length payload)%nat
      then on_request payload
      else if (code =? SMP_PAIRING_CONFIRM) && (17 <=? length payload)%nat
      then on_confirm payload
      else if (code =? SMP_PAIRING_RANDOM) && (17 <=? length payload)%nat
      then on_random payload
      else if (code =? SMP_PAIRING_FAILED) && (2 <=? length payload)%nat
      then update (λ p, p<|failed := Some (Fmt "the peer sent Pairing Failed 0x%02X"
                                             [AInt (default 0 (head rest))])|>)
      else skip
  end.
End peripheral.
End Peripheral.

(** ** Properties *)

Module PeripheralLaws.
Import Peripheral.

(** What holds of a responder at every PDU boundary: the values a later step
    reads are there. *)
Definition per_ok (p : per) : Prop :=
  is_byte (iat p) ∧ is_byte (rat p) ∧
  (is_Some (preq p) → is_Some (pres p)) ∧
  (is_Some (own_random p) → is_Some (preq p)).

(** The packets a pairing writes: SMP PDUs and the two crypto commands. *)
Definition smp_packet (pkt : bytes) : Prop :=
  (∃ rest, pkt = H4_ACL :: rest) ∨
  (∃ payload, pkt = command_packet 0x2017 payload ∨ pkt = command_packet 0x2018 payload).

Section laws.
Context {T : Type} `{Tr : !Transport T} `{TL : !TransportLaws T}.
Context (P : bytes → Prop) (HP : ∀ pkt, smp_packet pkt → P pkt).
Implicit Types d : dev (T:=T).

Lemma encrypt_runs key plaintext :
  runs engine_ok (trace_frame P) engine_exn (encrypt (T:=T) key plaintext).
Proof.
  unfold encrypt. apply runs_bind; [apply _| |intros r; by apply runs_ret, _].
  apply command_trace, HP. right. eexists. by left.
Qed.

Lemma random_loop_runs fuel out d :
  engine_ok d → (load d < fuel)%nat →
  let '(r, d') := random_loop fuel out d in
  engine_ok d' ∧ trace_frame P d d' ∧ (∀ e, r = Exc e → engine_exn e) ∧ r ≠ Stuck.
Proof.
  revert out d. induction fuel as [|fuel IH]; intros out d Hd Hf; [lia|].
  cbn [random_loop]. destruct (length out <? 16)%nat; [|by split_and!].
  enough (H : wp (r ← command 0x2018 [] false; random_loop fuel (out ++ take 8 (snd r)))
    (λ r d', engine_ok d' ∧ trace_frame P d d' ∧ (∀ e, r = Exc e → engine_exn e) ∧ r ≠ Stuck) d).
  { unfold wp in H. cbn zeta. lazymatch goal with |- let '(_, _) := ?x in _ => by destruct x end. }
  assert (HP' : P (command_packet 0x2018 [])) by (apply HP; right; eexists; by right).
  apply wp_bind, wp_command; [done| |].
  - intros st data d' Hd' Hfr Hsent Hl _.
    assert (trace_frame P d d') by (split; [done|by eapply wrote_one]).
    specialize (IH (out ++ take 8 (snd (st, data))) d' Hd' ltac:(lia)). unfold wp.
    destruct (random_loop _ _ d') as [r d'']. destruct IH as (?&?&?&?). cbn.
    split_and!; try done. by etrans.
  - intros e d' Hd' Hfr He Hsent. split_and!; try done; [|by intros ? [= <-]].
    split; [done|]. destruct Hsent; [by eapply wrote_one|by apply wrote_nothing].
Qed.

Lemma random16_runs : runs engine_ok (trace_frame P) engine_exn (random16 (T:=T)).
Proof.
  intros d Hd. unfold random16. unfold gets, mbind, M_bind.
  pose proof (random_loop_runs (S (S (load d))) [] d Hd ltac:(lia)) as H.
  by destruct (random_loop _ _ d).
Qed.

Lemma c1_runs p key rand :
  per_ok p → is_Some (preq p) → runs engine_ok (trace_frame P) engine_exn (c1 (T:=T) p key rand).
Proof.
  intros (Hi&Hr&Hs&_) Hq. destruct (Hs Hq) as [rsp Hrsp]. destruct Hq as [req Hreq].
  unfold c1. rewrite Hreq, Hrsp.
  eapply runs_lift_ok; [apply mkbytes_ok; by repeat (apply Forall_cons; split)|].
  do 2 (eapply runs_lift_ok; [reflexivity|]).
  apply runs_bind; [apply _|apply encrypt_runs|intros first; apply encrypt_runs].
Qed.

Lemma send_runs payload :
  runs (both_ok per_ok) (dev_frame P) engine_exn (send (T:=T) payload).
Proof.
  unfold send. apply runs_own_bind. intros p _. apply runs_on_dev, send_acl_trace.
  intros rest. apply HP. left. by eexists.
Qed.
(** During a step that has seen the Pairing Request. *)
Definition pairing_ok (p : per) : Prop := per_ok p ∧ is_Some (preq p).

Lemma runs_pairing (m : M (dev (T:=T) * per) unit) d p :
  runs (both_ok pairing_ok) (dev_frame P) engine_exn m →
  engine_ok d → pairing_ok p →
  both_ok per_ok (snd (m (d, p))) ∧ dev_frame P (d, p) (snd (m (d, p))) ∧
  (∀ e, fst (m (d, p)) = Exc e → engine_exn e) ∧ fst (m (d, p)) ≠ Stuck.
Proof.
  intros Hm Hd Hp. destruct (Hm (d, p) (conj Hd Hp)) as ([? [? _]]&?&?&?).
  by split_and!; [split|..].
Qed.

Lemma send_pairing_runs payload :
  runs (both_ok pairing_ok) (dev_frame P) engine_exn (send (T:=T) payload).
Proof.
  unfold send. apply runs_own_bind. intros p _. apply runs_on_dev, send_acl_trace.
  intros rest. apply HP. left. by eexists.
Qed.

Lemma on_request_runs payload :
  runs (both_ok per_ok) (dev_frame P) engine_exn (on_request (T:=T) payload).
Proof.
  intros [d p] [Hd (Hi&Hr&_&_)].
  set (p' := p<|started := true|><|preq := Some (take 7 payload)|>
              <|pres := Some [2; 3; 0; 0; 16; 0; 0]|>).
  assert (Hp' : per_ok p') by (split_and!; cbn; eauto).
  exact (send_runs [2; 3; 0; 0; 16; 0; 0] (d, p') (conj Hd Hp')).
Qed.

Lemma on_confirm_runs payload :
  runs (both_ok per_ok) (dev_frame P) engine_exn (on_confirm (T:=T) payload).
Proof.
  unfold on_confirm, self. apply runs_self_at. intros d p Hd Hp.
  destruct (preq p) as [req|] eqn:Hreq; [|by apply (runs_skip (both_ok per_ok) (dev_frame P) _ (d, p) (conj Hd Hp))].
  apply runs_pairing; [|done|by split; [|rewrite Hreq]].
  apply runs_bind; [apply _|apply runs_on_own; by intros ? []|intros _].
  apply runs_bind; [apply _|apply runs_on_dev, random16_runs|intros r].
  apply runs_bind; [apply _|apply runs_on_own; intros x [(?&?&?&?) ?]; by split_and!|intros _].
  apply runs_own_bind. intros p' [Hp' Hq].
  apply runs_bind; [apply _|by apply runs_on_dev, c1_runs|intros c].
  apply send_pairing_runs.
Qed.

Lemma on_random_runs payload :
  runs (both_ok per_ok) (dev_frame P) engine_exn (on_random (T:=T) payload).
Proof.
  unfold on_random, self. apply runs_self_at. intros d p Hd Hp.
  destruct (own_random p) as [own|] eqn:Hown; [|by apply (runs_skip (both_ok per_ok) (dev_frame P) _ (d, p) (conj Hd Hp))].
  assert (Hq : is_Some (preq p)) by (apply Hp; by rewrite Hown).
  apply runs_pairing; [|done|by split].
  apply runs_bind; [apply _|apply runs_on_own; by intros ? []|intros _].
  apply runs_bind; [apply _|by apply runs_on_dev, c1_runs|intros c]. destruct (negb _).
  - apply runs_bind; [apply _|apply runs_on_own; by intros ? []|intros _].
    eapply runs_lift_ok; [by apply mkbytes_ok, (bool_decide_unpack _)|].
    apply send_pairing_runs.
  - apply runs_bind; [apply _|apply runs_on_dev, encrypt_runs|intros key].
    apply runs_bind; [apply _|apply runs_on_own; by intros ? []|intros _].
    apply send_pairing_runs.
Qed.

Lemma feed_runs payload cid :
  runs (both_ok per_ok) (dev_frame P) engine_exn (feed (T:=T) payload cid).
Proof.
  unfold feed. destruct payload as [|code rest]; [by apply runs_skip, _|].
  repeat lazymatch goal with
  | |- runs _ _ _ (if ?b then _ else _) => destruct b
  end; try (by apply runs_skip, _).
  - apply on_request_runs.
  - apply on_confirm_runs.
  - apply on_random_runs.
  - apply runs_on_own. by intros p.
Qed.
End laws.

Section theorems.
Context {T : Type} `{Tr : !Transport T} `{TL : !TransportLaws T}.
Implicit Types d : dev (T:=T).

(** Whatever PDU arrives, handling it ends; it raises nothing but the
    engine's own exceptions, leaves a responder that can take the next PDU,
    and writes only SMP data and the two crypto commands. *)
Theorem smp_feed_contained (payload : bytes) (cid : Z) d (p : per) :
  engine_ok d → per_ok p →
  let '(r, (d', p')) := Peripheral.feed payload cid (d, p) in
  engine_ok d' ∧ per_ok p' ∧ r ≠ Stuck ∧ (∀ e, r = Exc e → engine_exn e) ∧
  ∃ ps, sent d' = sent d ++ ps ∧ Forall smp_packet ps.
Proof.
  intros Hd Hp.
  destruct (feed_runs smp_packet (λ _ H, H) payload cid (d, p) (conj Hd Hp))
    as ([Hd' Hp']&[_ Hw]&He&Hr).
  by destruct (feed payload cid (d, p)) as [r [d' p']].
Qed.

(** C12: a short term key appears only in answer to a Pairing Random, after the
    confirm value the controller computed over the peer's random equalled
    the one the peer had committed to, and it is the key of both randoms. *)
Theorem smp_key_checked (payload : bytes) (cid : Z) d (p : per) :
  let '(r, (d', p')) := Peripheral.feed payload cid (d, p) in
  stk p' = stk p ∨
  ∃ own confirm key d1 d2,
    cid = CID_SMP ∧ head payload = Some SMP_PAIRING_RANDOM ∧ own_random p = Some own ∧
    Peripheral.c1 p (tk p) (slice 1 17 payload) d = (Ok confirm, d1) ∧
    peer_confirm p = Some confirm ∧
    Peripheral.s1 (tk p) own (slice 1 17 payload) d1 = (Ok key, d2) ∧
    stk p' = Some key.
Proof.
  set (Q := λ (r : res unit) (s' : dev (T:=T) * per), stk (snd s') = stk p ∨
    ∃ own confirm key d1 d2,
      cid = CID_SMP ∧ head payload = Some SMP_PAIRING_RANDOM ∧ own_random p = Some own ∧
      c1 p (tk p) (slice 1 17 payload) d = (Ok confirm, d1) ∧
      peer_confirm p = Some confirm ∧
      s1 (tk p) own (slice 1 17 payload) d1 = (Ok key, d2) ∧ stk (snd s') = Some key).
  enough (H : wp (feed payload cid) Q (d, p)).
  { unfold wp, Q in H. by destruct (feed payload cid (d, p)) as [r [d' p']]. }
  assert (Hsend : ∀ pdu d' p', Q (Ok tt) (d', p') → wp (send pdu) Q (d', p')).
  { intros pdu d' p' HQ. unfold send, self. apply wp_gets_bind. apply wp_on_dev.
    unfold wp. cbn [fst snd]. exact HQ. }
  unfold feed. destruct payload as [|code rest]; [by left|].
  destruct (cid =? CID_SMP) eqn:Hcid; cbn [negb]; [|by left]. apply Z.eqb_eq in Hcid.
  repeat lazymatch goal with
  | |- wp (if ?b then _ else _) _ _ => destruct b eqn:?
  end; try by left.
  - by apply (Hsend [2; 3; 0; 0; 16; 0; 0]); left.
  - unfold on_confirm, self. apply wp_gets_bind. cbn [snd].
    destruct (preq p); [|by left].
    change (wp (r ← on_dev random16; update (λ p, p<|own_random := Some r|>);;
                p ← self; confirm ← on_dev (c1 p (tk p) r);
                send ([SMP_PAIRING_CONFIRM] ++ confirm)) Q
              (d, p<|peer_confirm := Some (slice 1 17 (code :: rest))|>)).
    apply wp_on_dev_any; [|by left|by left]. intros r d' _.
    change (wp (confirm ← on_dev (c1 (p<|peer_confirm := Some (slice 1 17 (code :: rest))|>
                  <|own_random := Some r|>) (tk p) r); send ([SMP_PAIRING_CONFIRM] ++ confirm)) Q
              (d', p<|peer_confirm := Some (slice 1 17 (code :: rest))|><|own_random := Some r|>)).
    apply wp_on_dev_any; [|by left|by left]. intros c d'' _. apply Hsend. by left.
  - apply andb_true_iff in Heqb1 as [Hcode%Z.eqb_eq _]. subst.
    unfold on_random, self. apply wp_gets_bind. cbn [snd].
    destruct (own_random p) as [own|] eqn:Hown; [|by left].
    set (p1 := p<|peer_random := Some (slice 1 17 (SMP_PAIRING_RANDOM :: rest))|>).
    cbn zeta. apply wp_modify_own. fold p1.
    apply wp_on_dev_any; [|by left|by left]. intros c d1 Hc1.
    change (peer_confirm p1) with (peer_confirm p).
    case_bool_decide as Heq; cbn [negb].
    + apply wp_on_dev_any; [|by left|by left]. intros key d2 Hs1. apply wp_modify_own.
      apply Hsend. right. by exists own, c, key, d1, d2.
    + apply wp_modify_own. by apply Hsend; left.
Qed.
End theorems.

(** *** A concrete pairing *)

Definition demo_per : per := init 0x40 [1; 2; 3; 4; 5; 6] 1 [7; 8; 9; 10; 11; 12] 0.

Lemma demo_per_ok : per_ok demo_per.
Proof. split_and!; cbn; try (unfold is_byte; lia); by intros [? ?]. Qed.

Lemma smp_feed_contained_witness :
  let '(r, (d', p')) := Peripheral.feed [1; 4; 0; 1; 16; 0; 0] CID_SMP (AttLaws.demo_dev, demo_per) in
  r = Ok tt ∧ started p' = true ∧ per_ok p' ∧ ∃ ps, sent d' = ps ∧ Forall smp_packet ps.
Proof.
  pose proof (smp_feed_contained [1; 4; 0; 1; 16; 0; 0] CID_SMP AttLaws.demo_dev demo_per
                AttLaws.demo_dev_ok demo_per_ok) as H.
  revert H. match goal with |- context [Peripheral.feed ?p ?c ?s] => set (x := Peripheral.feed p c s) end.
  assert (Hx : fst x = Ok tt ∧ started (snd (snd x)) = true) by (vm_compute; done).
  destruct x as [r [d' p']]. cbn in Hx. destruct Hx as [-> Hs].
  intros (_&Hp&_&_&ps&Hsent&Hps). split_and!; [done|done|done|]. by exists ps.
Defined.
End PeripheralLaws.
