(* ===== verification/Catalog.v ===== *)
(** * Catalog: the HCI commands the firmware dispatches
    (hci_commands_catalog.py)

    One row per opcode: its name, the reply it must get, a parameter block
    (possibly computed from the probe context), what must exist first, its
    advertising phase, how to undo it, which refusals are correct answers and
    what to try when it is refused otherwise. The rows' explanatory notes are
    only ever printed and are left out. *)

From coqutil Require Import Datatypes.RecordSetters.
From stdpp Require Import gmap.
From S2P Require Export Bytes.
Import TriangleBracketNotations.
#[local] Open Scope Z_scope.

Inductive reply_kind : Type := COMPLETE | STATUS | NONE.
Inductive need : Type :=
  | NEEDS_NOTHING | NEEDS_CONN | NEEDS_ADV_SET | NEEDS_SYNC | NEEDS_CONSENT | NEEDS_CENTRAL.
Inductive phase_kind : Type := PHASE_ANY | PHASE_LEGACY | PHASE_EXTENDED.

#[export] Instance reply_kind_dec : EqDecision reply_kind.
Proof. solve_decision. Defined.
#[export] Instance need_dec : EqDecision need.
Proof. solve_decision. Defined.
#[export] Instance phase_kind_dec : EqDecision phase_kind.
Proof. solve_decision. Defined.

Definition UNUSED_HANDLE : Z := 0x0EFF.
Definition PROBE_ADV_HANDLE : Z := 0x00.
Definition STATUS_UNKNOWN_CONNECTION : Z := 0x02.
Definition STATUS_COMMAND_DISALLOWED : Z := 0x0C.
Definition STATUS_UNSUPPORTED_FEATURE : Z := 0x11.
Definition STATUS_INVALID_PARAMS : Z := 0x12.
Definition STATUS_UNKNOWN_ADV_ID : Z := 0x42.
Definition PROBE_CIG_ID : Z := 0x00.
Definition PROBE_CIG_TEST_ID : Z := 0x01.
Definition PROBE_CIS_ID : Z := 0x00.
Definition PROBE_BIG_HANDLE : Z := 0x00.
Definition PROBE_BIG_TEST_HANDLE : Z := 0x01.
Definition CODING_FORMAT_TRANSPARENT : Z := 0x03.

(** The attributes of a probe context the rows use. *)
Record probe_ctx : Type := Ctx {
  c_handle : Z; c_addr_type : Z; c_public_addr : bytes }.

Record command : Type := Cmd {
  opcode : Z;
  name : string;
  reply : reply_kind;
  payload : probe_ctx → res bytes;
  needs : list need;
  undo : option (Z * (probe_ctx → res bytes));
  undo_now : bool;
  expect : list Z;
  phase : phase_kind;
  retry_after : list (Z * (probe_ctx → res bytes) * string);
}.

(** [Command(opcode, name, reply, payload)] with the default arguments. *)
Definition row (opcode : Z) (name : string) (reply : reply_kind)
    (payload : probe_ctx → res bytes) : command :=
  Cmd opcode name reply payload [NEEDS_NOTHING] None false [] PHASE_ANY [].

(** [Command.build(ctx)]. *)
Definition build (c : command) (ctx : probe_ctx) : res bytes := payload c ctx.

(** Concatenation of parts that may fail to build. *)
Definition cat (a b : res bytes) : res bytes := x ← a; y ← b; Ok (x ++ y).
Infix "+++" := cat (at level 60, right associativity).

(** [_conn(ctx, tail)]. *)
Definition conn (ctx : probe_ctx) (tail : res bytes) : res bytes :=
  pack [FH (c_handle ctx)] +++ tail.

(** [_legacy_adv_params(ctx, adv_type)]. *)
Definition legacy_adv_params (adv_type : Z) (ctx : probe_ctx) : res bytes :=
  pack [FH 0x00A0; FH 0x00F0; FB adv_type; FB (c_addr_type ctx); FB 0x00;
        FS (zeros 6); FB 0x07; FB 0x00].

(** [_u24(value)]. *)
Definition u24 (value : Z) : res bytes := x ← pack [FI value]; Ok (take 3 x).

(** ** The rows *)

Definition ADV_DATA : res bytes := mkbytes [2; 1; 6] +++ Ok (zeros 29).

Definition SCAN_RSP : res bytes := mkbytes [2; 1; 6] +++ Ok (zeros 29).

Definition PEER_IRK : res bytes := mkbytes [0; 1; 2; 3; 4; 5; 6; 7; 8; 9; 0x0a; 0x0b; 0x0c; 0x0d; 0x0e; 0x0f].

Definition LOCAL_IRK : res bytes := mkbytes [0x10; 0x11; 0x12; 0x13; 0x14; 0x15; 0x16; 0x17; 0x18; 0x19; 0x1a; 0x1b; 0x1c;
  0x1d; 0x1e; 0x1f].

Definition EXT_ADV_PARAMS : res bytes := pack [FB PROBE_ADV_HANDLE] +++ pack [FH 0] +++ Ok [0xa0; 0; 0] +++ Ok [0xf0; 0; 0] +++
  Ok [7] +++ Ok [1] +++ Ok [0] +++ Ok (zeros 6) +++ Ok [0] +++ pack [Fb 127] +++ Ok [1]
  +++ Ok [0] +++ Ok [1] +++ Ok [0] +++ Ok [0].

Definition CB : list command := [
    (row 0x0C01 "Set Event Mask" COMPLETE
      (λ _, Ok [0xff; 0xff; 0xff; 0xff; 0xff; 0xff; 0xff; 0x3f]))
      <|undo := Some (0x0C01, (λ _, Ok [0xff; 0xff; 0xff; 0xff; 0xff; 0xff; 0xff;
        0x3f]))|>;
    row 0x0C03 "Reset" COMPLETE
      (λ _, Ok []);
    (row 0x0C63 "Set Event Mask Page 2" COMPLETE
      (λ _, Ok (zeros 8)))
      <|undo := Some (0x0C63, (λ _, Ok (zeros 8)))|>;
    (row 0x0C2D "Read Transmit Power Level" COMPLETE
      (λ ctx, conn ctx (Ok [0])))
      <|needs := [NEEDS_CONN]|>;
    (row 0x0C7B "Read Authenticated Payload Timeout" COMPLETE
      (λ ctx, conn ctx (Ok [])))
      <|needs := [NEEDS_CONN]|>;
    (row 0x0C7C "Write Authenticated Payload Timeout" COMPLETE
      (λ ctx, conn ctx (pack [FH 0xbb8])))
      <|needs := [NEEDS_CONN]|> ].

Definition LC : list command := [
    (row 0x0406 "Disconnect" STATUS
      (λ ctx, conn ctx (Ok [0x13])))
      <|needs := [NEEDS_CONSENT; NEEDS_CONN]|>;
    (row 0x041D "Read Remote Version Information" STATUS
      (λ ctx, conn ctx (Ok [])))
      <|needs := [NEEDS_CONN]|> ].

Definition INFO : list command := [
    row 0x1001 "Read Local Version Information" COMPLETE
      (λ _, Ok []);
    row 0x1002 "Read Local Supported Commands" COMPLETE
      (λ _, Ok []);
    row 0x1003 "Read Local Supported Features" COMPLETE
      (λ _, Ok []);
    row 0x1009 "Read BD_ADDR" COMPLETE
      (λ _, Ok []);
    (row 0x1405 "Read RSSI" COMPLETE
      (λ ctx, conn ctx (Ok [])))
      <|needs := [NEEDS_CONN]|> ].

Definition LE_BASIC_1 : list command := [
    (row 0x2001 "LE Set Event Mask" COMPLETE
      (λ _, Ok [0xff; 0xff; 0xff; 0xff; 0xff; 0xff; 0xff; 0x1f]))
      <|undo := Some (0x2001, (λ _, Ok [0xff; 0xff; 0xff; 0xff; 0xff; 0xff; 0xff;
        0x1f]))|>;
    row 0x2002 "LE Read Buffer Size" COMPLETE
      (λ _, Ok []);
    row 0x2003 "LE Read Local Supported Features" COMPLETE
      (λ _, Ok []);
    row 0x2005 "LE Set Random Address" COMPLETE
      (λ _, Ok [1; 2; 3; 4; 5; 0xc0]);
    (row 0x2006 "LE Set Advertising Parameters" COMPLETE
      (legacy_adv_params 3))
      <|phase := PHASE_LEGACY|>;
    row 0x2007 "LE Read Advertising Physical Channel Tx Power" COMPLETE
      (λ _, Ok []);
    (row 0x2008 "LE Set Advertising Data" COMPLETE
      (λ _, ADV_DATA))
      <|phase := PHASE_LEGACY|>;
    (row 0x2009 "LE Set Scan Response Data" COMPLETE
      (λ _, SCAN_RSP))
      <|phase := PHASE_LEGACY|>;
    (row 0x200A "LE Set Advertising Enable" COMPLETE
      (λ _, Ok [1]))
      <|undo := Some (0x200A, (λ _, Ok [0]))|>
      <|phase := PHASE_LEGACY|>
      <|retry_after :=
         [(0x2009, (λ _, Ok (zeros 32)), "the scan response data cleared"%string);
          (0x2008, (λ _, Ok (zeros 32)), "the advertising data cleared"%string);
          (0x2006, (λ ctx, legacy_adv_params 2 ctx), "the type scannable undirected"%string);
          (0x2006, (λ ctx, legacy_adv_params
        0 ctx), "the type connectable undirected"%string);
          (0x202D, (λ _, Ok
        [0]), "address resolution off"%string)]|>;
    (row 0x200B "LE Set Scan Parameters" COMPLETE
      (λ ctx, pack [FB 0; FH 96; FH 48; FB (c_addr_type ctx); FB 0]))
      <|phase := PHASE_LEGACY|>;
    (row 0x200C "LE Set Scan Enable" COMPLETE
      (λ _, Ok [1; 0]))
      <|undo := Some (0x200C, (λ _, Ok [0; 0]))|>
      <|phase := PHASE_LEGACY|>;
    (row 0x200E "LE Create Connection Cancel" COMPLETE
      (λ _, Ok []))
      <|needs := [NEEDS_CONSENT]|>
      <|expect := [STATUS_COMMAND_DISALLOWED]|>
      <|phase := PHASE_LEGACY|>;
    row 0x200F "LE Read Filter Accept List Size" COMPLETE
      (λ _, Ok []);
    row 0x2010 "LE Clear Filter Accept List" COMPLETE
      (λ _, Ok []);
    (row 0x2011 "LE Add Device To Filter Accept List" COMPLETE
      (λ _, Ok [0] +++ Ok [1; 2; 3; 4; 5; 0xc0]))
      <|undo := Some (0x2010, (λ _, Ok []))|>;
    row 0x2012 "LE Remove Device From Filter Accept List" COMPLETE
      (λ _, Ok [0] +++ Ok [1; 2; 3; 4; 5; 0xc0]);
    row 0x2014 "LE Set Host Channel Classification" COMPLETE
      (λ _, Ok [0xff; 0xff; 0xff; 0xff; 0x1f]);
    row 0x2017 "LE Encrypt" COMPLETE
      (λ _, Ok (zeros 16) +++ Ok (zeros 16));
    row 0x2018 "LE Rand" COMPLETE
      (λ _, Ok []);
    (row 0x201F "LE Test End" COMPLETE
      (λ _, Ok []))
      <|needs := [NEEDS_CONSENT]|>
      <|expect := [STATUS_COMMAND_DISALLOWED]|>;
    row 0x2023 "LE Read Suggested Default Data Length" COMPLETE
      (λ _, Ok []);
    (row 0x2024 "LE Write Suggested Default Data Length" COMPLETE
      (λ _, pack [FH 251; FH 0x848]))
      <|undo := Some (0x2024, (λ _, pack [FH 27; FH 0x148]))|>;
    row 0x202F "LE Read Maximum Data Length" COMPLETE
      (λ _, Ok []);
    (row 0x2031 "LE Set Default PHY" COMPLETE
      (λ _, Ok [0; 7; 7]))
      <|undo := Some (0x2031, (λ _, Ok [3; 0; 0]))|> ].

Definition LE_BASIC_2 : list command := [
    (row 0x203A "LE Read Maximum Advertising Data Length" COMPLETE
      (λ _, Ok []))
      <|phase := PHASE_EXTENDED|>;
    (row 0x203B "LE Read Number Of Supported Advertising Sets" COMPLETE
      (λ _, Ok []))
      <|phase := PHASE_EXTENDED|>;
    (row 0x203D "LE Clear Advertising Sets" COMPLETE
      (λ _, Ok []))
      <|phase := PHASE_EXTENDED|>;
    (row 0x204A "LE Read Periodic Advertiser List Size" COMPLETE
      (λ _, Ok []))
      <|phase := PHASE_EXTENDED|>;
    row 0x204B "LE Read Transmit Power" COMPLETE
      (λ _, Ok []);
    row 0x204C "LE Read RF Path Compensation" COMPLETE
      (λ _, Ok []);
    row 0x204D "LE Write RF Path Compensation" COMPLETE
      (λ _, pack [Fh 0; Fh 0]);
    (row 0x2074 "LE Set Host Feature" COMPLETE
      (λ _, Ok [0x26; 1]))
      <|undo := Some (0x2074, (λ _, Ok [0x26; 0]))|>;
    row 0x2087 "LE Read All Local Supported Features" COMPLETE
      (λ _, Ok []);
    (row 0x2097 "LE Set Host Feature v2" COMPLETE
      (λ _, pack [FH 38; FB 1]))
      <|undo := Some (0x2097, (λ _, pack [FH 38; FB 0]))|>;
    row 0x207D "LE Set Default Subrate" COMPLETE
      (λ _, pack [FH 1; FH 1; FH 0; FH 0; FH 0x12c]) ].

Definition LE_BASIC : list command := LE_BASIC_1 ++ LE_BASIC_2.

Definition LE_PRIVACY : list command := [
    (row 0x2027 "LE Add Device To Resolving List" COMPLETE
      (λ _, Ok [0] +++ Ok [1; 2; 3; 4; 5; 0xc0] +++ PEER_IRK +++ LOCAL_IRK))
      <|undo := Some (0x2029, (λ _, Ok []))|>;
    row 0x202A "LE Read Resolving List Size" COMPLETE
      (λ _, Ok []);
    row 0x204E "LE Set Privacy Mode" COMPLETE
      (λ _, Ok [0] +++ Ok [1; 2; 3; 4; 5; 0xc0] +++ Ok [0]);
    (row 0x202D "LE Set Address Resolution Enable" COMPLETE
      (λ _, Ok [1]))
      <|undo := Some (0x202D, (λ _, Ok [0]))|>;
    (row 0x202E "LE Set Resolvable Private Address Timeout" COMPLETE
      (λ _, pack [FH 0x384]))
      <|undo := Some (0x202E, (λ _, pack [FH 0x384]))|>;
    row 0x2028 "LE Remove Device From Resolving List" COMPLETE
      (λ _, Ok [0] +++ Ok [1; 2; 3; 4; 5; 0xc0]);
    row 0x2029 "LE Clear Resolving List" COMPLETE
      (λ _, Ok []) ].

Definition LE_EXT : list command := [
    (row 0x2036 "LE Set Extended Advertising Parameters" COMPLETE
      (λ _, EXT_ADV_PARAMS))
      <|phase := PHASE_EXTENDED|>;
    (row 0x207F "LE Set Extended Advertising Parameters v2" COMPLETE
      (λ _, EXT_ADV_PARAMS +++ Ok [0; 0]))
      <|needs := [NEEDS_ADV_SET]|>
      <|phase := PHASE_EXTENDED|>;
    (row 0x2035 "LE Set Advertising Set Random Address" COMPLETE
      (λ _, mkbytes [PROBE_ADV_HANDLE] +++ Ok [1; 2; 3; 4; 5; 0xc0]))
      <|needs := [NEEDS_ADV_SET]|>
      <|phase := PHASE_EXTENDED|>;
    (row 0x207C "LE Set Data Related Address Changes" COMPLETE
      (λ _, mkbytes [PROBE_ADV_HANDLE; 0]))
      <|needs := [NEEDS_ADV_SET]|>
      <|phase := PHASE_EXTENDED|>;
    (row 0x2037 "LE Set Extended Advertising Data" COMPLETE
      (λ _, mkbytes [PROBE_ADV_HANDLE; 3; 1; 3] +++ mkbytes [2; 1; 6]))
      <|phase := PHASE_EXTENDED|>;
    (row 0x2038 "LE Set Extended Scan Response Data" COMPLETE
      (λ _, mkbytes [PROBE_ADV_HANDLE; 3; 1; 0]))
      <|phase := PHASE_EXTENDED|>;
    (row 0x2041 "LE Set Extended Scan Parameters" COMPLETE
      (λ _, mkbytes [1; 0; 1] +++ pack [FB 0; FH 16; FH 16]))
      <|phase := PHASE_EXTENDED|>;
    (row 0x2042 "LE Set Extended Scan Enable" COMPLETE
      (λ _, pack [FB 1; FB 0; FH 0; FH 0]))
      <|undo := Some (0x2042, (λ _, pack [FB 0; FB 0; FH 0; FH 0]))|>
      <|phase := PHASE_EXTENDED|> ].

Definition LE_PERIODIC : list command := [
    (row 0x203E "LE Set Periodic Advertising Parameters" COMPLETE
      (λ _, pack [FB PROBE_ADV_HANDLE; FH 96; FH 160; FH 0]))
      <|needs := [NEEDS_ADV_SET]|>
      <|phase := PHASE_EXTENDED|>;
    (row 0x2086 "LE Set Periodic Advertising Parameters v2" COMPLETE
      (λ _, pack [FB PROBE_ADV_HANDLE; FH 96; FH 160; FH 0; FB 0; FB 0; FB 0; FB 0; FB
      0]))
      <|needs := [NEEDS_ADV_SET]|>
      <|phase := PHASE_EXTENDED|>;
    (row 0x203F "LE Set Periodic Advertising Data" COMPLETE
      (λ _, mkbytes [PROBE_ADV_HANDLE; 3; 3] +++ mkbytes [2; 0xff; 0x59]))
      <|needs := [NEEDS_ADV_SET]|>
      <|phase := PHASE_EXTENDED|>;
    (row 0x2039 "LE Set Extended Advertising Enable" COMPLETE
      (λ _, mkbytes [1; 1; PROBE_ADV_HANDLE] +++ pack [FH 0; FB 0]))
      <|undo := Some (0x2039, (λ _, Ok [0; 0]))|>
      <|phase := PHASE_EXTENDED|>;
    (row 0x2040 "LE Set Periodic Advertising Enable" COMPLETE
      (λ _, mkbytes [1; PROBE_ADV_HANDLE]))
      <|needs := [NEEDS_ADV_SET]|>
      <|undo := Some (0x2040, (λ _, mkbytes [0; PROBE_ADV_HANDLE]))|>
      <|phase := PHASE_EXTENDED|>;
    (row 0x2045 "LE Periodic Advertising Create Sync Cancel" COMPLETE
      (λ _, Ok []))
      <|needs := [NEEDS_CONSENT]|>
      <|expect := [STATUS_COMMAND_DISALLOWED]|>
      <|phase := PHASE_EXTENDED|>;
    (row 0x2047 "LE Add Device To Periodic Advertiser List" COMPLETE
      (λ _, Ok [0] +++ Ok [1; 2; 3; 4; 5; 0xc0] +++ Ok [0]))
      <|undo := Some (0x2049, (λ _, Ok []))|>;
    row 0x2048 "LE Remove Device From Periodic Advertiser List" COMPLETE
      (λ _, Ok [0] +++ Ok [1; 2; 3; 4; 5; 0xc0] +++ Ok [0]);
    row 0x2049 "LE Clear Periodic Advertiser List" COMPLETE
      (λ _, Ok []);
    row 0x205D "LE Set Default Periodic Advertising Sync Transfer Parameters" COMPLETE
      (λ _, pack [FB 0; FH 0; FH 10; FB 0]);
    (row 0x2059 "LE Set Periodic Advertising Receive Enable" COMPLETE
      (λ _, pack [FH UNUSED_HANDLE; FB 0]))
      <|needs := [NEEDS_SYNC]|>
      <|phase := PHASE_EXTENDED|>;
    (row 0x205A "LE Periodic Advertising Sync Transfer" COMPLETE
      (λ ctx, conn ctx (pack [FH 0; FH UNUSED_HANDLE])))
      <|needs := [NEEDS_SYNC]|>
      <|phase := PHASE_EXTENDED|>;
    (row 0x205B "LE Periodic Advertising Set Info Transfer" COMPLETE
      (λ ctx, conn ctx (pack [FH 0; FB PROBE_ADV_HANDLE])))
      <|needs := [NEEDS_CONN]|>
      <|expect := [STATUS_UNKNOWN_ADV_ID]|>
      <|phase := PHASE_EXTENDED|>;
    (row 0x205C "LE Set Periodic Advertising Sync Transfer Parameters" COMPLETE
      (λ ctx, conn ctx (pack [FB 0; FH 0; FH 10; FB 0])))
      <|needs := [NEEDS_CONN]|>;
    (row 0x2044 "LE Periodic Advertising Create Sync" STATUS
      (λ _, Ok [0; 0; 0] +++ Ok [1; 2; 3; 4; 5; 0xc0] +++ pack [FH 0; FH 0x100; FB 0]))
      <|needs := [NEEDS_CONSENT]|>
      <|undo := Some (0x2045, (λ _, Ok []))|>
      <|undo_now := true|>
      <|phase := PHASE_EXTENDED|>;
    (row 0x2046 "LE Periodic Advertising Terminate Sync" COMPLETE
      (λ _, pack [FH UNUSED_HANDLE]))
      <|needs := [NEEDS_SYNC]|>
      <|phase := PHASE_EXTENDED|>;
    (row 0x2082 "LE Set Periodic Advertising Subevent Data" COMPLETE
      (λ _, mkbytes [PROBE_ADV_HANDLE; 1; 0; 0; 0; 0]))
      <|needs := [NEEDS_ADV_SET]|>
      <|expect := [STATUS_UNKNOWN_ADV_ID; STATUS_COMMAND_DISALLOWED]|>
      <|phase := PHASE_EXTENDED|>;
    (row 0x2083 "LE Set Periodic Advertising Response Data" COMPLETE
      (λ _, pack [FH UNUSED_HANDLE; FH 0; FB 0; FB 0; FB 0; FB 0]))
      <|needs := [NEEDS_SYNC]|>
      <|phase := PHASE_EXTENDED|>;
    (row 0x2084 "LE Set Periodic Sync Subevent" COMPLETE
      (λ _, pack [FH UNUSED_HANDLE; FH 0; FB 0]))
      <|needs := [NEEDS_SYNC]|>
      <|phase := PHASE_EXTENDED|> ].

Definition LE_CONN : list command := [
    (row 0x200D "LE Create Connection" STATUS
      (λ _, pack [FH 96; FH 48; FB 0; FB 0; FS [1; 2; 3; 4; 5; 0xc0]; FB 0; FH 24; FH
      40; FH 0; FH 0x2bc; FH 0; FH 0]))
      <|needs := [NEEDS_CONSENT]|>
      <|undo := Some (0x200E, (λ _, Ok []))|>
      <|undo_now := true|>
      <|phase := PHASE_LEGACY|>;
    (row 0x2013 "LE Connection Update" STATUS
      (λ ctx, conn ctx (pack [FH 24; FH 40; FH 0; FH 0x2bc; FH 0; FH 0])))
      <|needs := [NEEDS_CONN]|>
      <|expect := [STATUS_UNSUPPORTED_FEATURE]|>;
    (row 0x2015 "LE Read Channel Map" COMPLETE
      (λ ctx, conn ctx (Ok [])))
      <|needs := [NEEDS_CONN]|>;
    (row 0x2016 "LE Read Remote Features" STATUS
      (λ ctx, conn ctx (Ok [])))
      <|needs := [NEEDS_CONN]|>;
    (row 0x2019 "LE Enable Encryption" STATUS
      (λ ctx, conn ctx (Ok (zeros 8) +++ Ok (zeros 2) +++ Ok (zeros 16))))
      <|needs := [NEEDS_CONSENT; NEEDS_CONN; NEEDS_CENTRAL]|>;
    (row 0x201A "LE Long Term Key Request Reply" COMPLETE
      (λ ctx, conn ctx (Ok (zeros 16))))
      <|needs := [NEEDS_CONSENT; NEEDS_CONN]|>
      <|expect := [STATUS_COMMAND_DISALLOWED]|>;
    (row 0x201B "LE Long Term Key Request Negative Reply" COMPLETE
      (λ ctx, conn ctx (Ok [])))
      <|needs := [NEEDS_CONSENT; NEEDS_CONN]|>
      <|expect := [STATUS_COMMAND_DISALLOWED]|>;
    (row 0x2022 "LE Set Data Length" COMPLETE
      (λ ctx, conn ctx (pack [FH 251; FH 0x848])))
      <|needs := [NEEDS_CONN]|>;
    (row 0x2030 "LE Read PHY" COMPLETE
      (λ ctx, conn ctx (Ok [])))
      <|needs := [NEEDS_CONN]|>;
    (row 0x2032 "LE Set PHY" STATUS
      (λ ctx, conn ctx (pack [FB 0; FB 7; FB 7; FH 0])))
      <|needs := [NEEDS_CONN]|>;
    (row 0x2043 "LE Extended Create Connection" STATUS
      (λ _, Ok [0; 0; 0] +++ Ok [1; 2; 3; 4; 5; 0xc0] +++ Ok [1] +++ pack [FH 96; FH 48;
      FH 24; FH 40; FH 0; FH 0x2bc; FH 0; FH 0]))
      <|needs := [NEEDS_CONSENT]|>
      <|undo := Some (0x200E, (λ _, Ok []))|>
      <|undo_now := true|>
      <|phase := PHASE_EXTENDED|>;
    (row 0x2085 "LE Extended Create Connection v2" STATUS
      (λ _, mkbytes [PROBE_ADV_HANDLE; 0] +++ Ok [0; 0; 0] +++ Ok [1; 2; 3; 4; 5; 0xc0]
      +++ Ok [1] +++ pack [FH 96; FH 48; FH 24; FH 40; FH 0; FH 0x2bc; FH 0; FH 0]))
      <|needs := [NEEDS_ADV_SET; NEEDS_CONSENT]|>
      <|undo := Some (0x200E, (λ _, Ok []))|>
      <|undo_now := true|>
      <|phase := PHASE_EXTENDED|>;
    (row 0x2076 "LE Enhanced Read Transmit Power Level" COMPLETE
      (λ ctx, conn ctx (Ok [1])))
      <|needs := [NEEDS_CONN]|>;
    (row 0x2077 "LE Read Remote Transmit Power Level" STATUS
      (λ ctx, conn ctx (Ok [1])))
      <|needs := [NEEDS_CONN]|>;
    (row 0x2078 "LE Set Path Loss Reporting Parameters" COMPLETE
      (λ ctx, conn ctx (pack [FB 70; FB 10; FB 50; FB 10; FH 5])))
      <|needs := [NEEDS_CONN]|>;
    (row 0x2079 "LE Set Path Loss Reporting Enable" COMPLETE
      (λ ctx, conn ctx (Ok [1])))
      <|needs := [NEEDS_CONN]|>;
    (row 0x207A "LE Set Transmit Power Reporting Enable" COMPLETE
      (λ ctx, conn ctx (Ok [1; 1])))
      <|needs := [NEEDS_CONN]|>;
    (row 0x206D "LE Request Peer SCA" STATUS
      (λ ctx, conn ctx (Ok [])))
      <|needs := [NEEDS_CONN]|>;
    (row 0x207E "LE Subrate Request" STATUS
      (λ ctx, conn ctx (pack [FH 1; FH 1; FH 0; FH 0; FH 0x12c])))
      <|needs := [NEEDS_CONN]|>;
    (row 0x2088 "LE Read All Remote Features" STATUS
      (λ ctx, conn ctx (Ok [1])))
      <|needs := [NEEDS_CONN]|> ].

Definition ISO_1 : list command := [
    row 0x2060 "LE Read Buffer Size v2" COMPLETE
      (λ _, Ok []);
    (row 0xFD19 "VS CIG Reserved Time Set" COMPLETE
      (λ _, pack [FI 0x514]))
      <|undo := Some (0xFD19, (λ _, pack [FI 0x514]))|>;
    (row 0xFD1A "VS CIS Subevent Length Set" COMPLETE
      (λ _, pack [FI 0]))
      <|undo := Some (0xFD1A, (λ _, pack [FI 0]))|>;
    (row 0xFD18 "VS BIG Reserved Time Set" COMPLETE
      (λ _, pack [FI 0x640]))
      <|undo := Some (0xFD18, (λ _, pack [FI 0x640]))|>;
    row 0x2062 "LE Set CIG Parameters" COMPLETE
      (λ _, mkbytes [PROBE_CIG_ID] +++ u24 0x2710 +++ u24 0x2710 +++ mkbytes [0; 0; 0]
      +++ pack [FH 20; FH 20] +++ mkbytes [1] +++ mkbytes [PROBE_CIS_ID] +++ pack [FH
      40; FH 40] +++ mkbytes [1; 1; 2; 2]);
    (row 0x2064 "LE Create CIS" STATUS
      (λ ctx, mkbytes [1] +++ pack [FH UNUSED_HANDLE; FH (c_handle ctx)]))
      <|needs := [NEEDS_CONN; NEEDS_CENTRAL]|>
      <|expect := [STATUS_UNKNOWN_CONNECTION]|>;
    row 0x2065 "LE Remove CIG" COMPLETE
      (λ _, mkbytes [PROBE_CIG_ID]);
    (row 0x2063 "LE Set CIG Parameters Test" COMPLETE
      (λ _, mkbytes [PROBE_CIG_TEST_ID] +++ u24 0x2710 +++ u24 0x2710 +++ mkbytes [1; 1]
      +++ pack [FH 8] +++ mkbytes [0; 0; 0] +++ mkbytes [1] +++ mkbytes [PROBE_CIS_ID;
      2] +++ pack [FH 40; FH 40; FH 40; FH 40] +++ mkbytes [1; 1; 1; 1]))
      <|undo := Some (0x2065, (λ _, mkbytes [PROBE_CIG_TEST_ID]))|>
      <|undo_now := true|>;
    (row 0x2066 "LE Accept CIS Request" STATUS
      (λ _, pack [FH UNUSED_HANDLE]))
      <|expect := [STATUS_UNKNOWN_CONNECTION; STATUS_COMMAND_DISALLOWED]|>;
    (row 0x2067 "LE Reject CIS Request" COMPLETE
      (λ _, pack [FH UNUSED_HANDLE; FB 13]))
      <|expect := [STATUS_UNKNOWN_CONNECTION; STATUS_COMMAND_DISALLOWED]|>;
    (row 0x2061 "LE Read ISO TX Sync" COMPLETE
      (λ _, pack [FH UNUSED_HANDLE]))
      <|expect := [STATUS_UNKNOWN_CONNECTION; STATUS_COMMAND_DISALLOWED]|>;
    (row 0x2075 "LE Read ISO Link Quality" COMPLETE
      (λ _, pack [FH UNUSED_HANDLE]))
      <|expect := [STATUS_UNKNOWN_CONNECTION; STATUS_COMMAND_DISALLOWED]|>;
    (row 0xFD17 "VS ISO Read Tx Timestamp" COMPLETE
      (λ _, pack [FH UNUSED_HANDLE]))
      <|expect := [STATUS_UNKNOWN_CONNECTION; STATUS_COMMAND_DISALLOWED]|>;
    (row 0x206E "LE Setup ISO Data Path" COMPLETE
      (λ _, pack [FH UNUSED_HANDLE] +++ mkbytes [0; 0] +++ mkbytes
      [CODING_FORMAT_TRANSPARENT] +++ Ok (zeros 4) +++ u24 0 +++ mkbytes [0]))
      <|expect := [STATUS_UNKNOWN_CONNECTION; STATUS_COMMAND_DISALLOWED]|>;
    (row 0x206F "LE Remove ISO Data Path" COMPLETE
      (λ _, pack [FH UNUSED_HANDLE; FB 1]))
      <|expect := [STATUS_UNKNOWN_CONNECTION; STATUS_COMMAND_DISALLOWED]|>;
    (row 0x2070 "LE ISO Transmit Test" COMPLETE
      (λ _, pack [FH UNUSED_HANDLE; FB 0]))
      <|expect := [STATUS_UNKNOWN_CONNECTION; STATUS_COMMAND_DISALLOWED]|>;
    (row 0x2071 "LE ISO Receive Test" COMPLETE
      (λ _, pack [FH UNUSED_HANDLE; FB 0]))
      <|expect := [STATUS_UNKNOWN_CONNECTION; STATUS_COMMAND_DISALLOWED]|>;
    (row 0x2072 "LE ISO Read Test Counters" COMPLETE
      (λ _, pack [FH UNUSED_HANDLE]))
      <|expect := [STATUS_UNKNOWN_CONNECTION; STATUS_COMMAND_DISALLOWED]|>;
    (row 0x2073 "LE ISO Test End" COMPLETE
      (λ _, pack [FH UNUSED_HANDLE]))
      <|expect := [STATUS_UNKNOWN_CONNECTION; STATUS_COMMAND_DISALLOWED]|>;
    (row 0x2068 "LE Create BIG" STATUS
      (λ _, mkbytes [PROBE_BIG_HANDLE; PROBE_ADV_HANDLE; 1] +++ u24 0x2710 +++ pack [FH
      40; FH 20] +++ mkbytes [2; 1; 0; 0; 0] +++ Ok (zeros 16)))
      <|needs := [NEEDS_ADV_SET; NEEDS_CONSENT]|>
      <|expect := [STATUS_UNKNOWN_ADV_ID; STATUS_COMMAND_DISALLOWED]|>
      <|phase := PHASE_EXTENDED|> ].

Definition ISO_2 : list command := [
    (row 0x2069 "LE Create BIG Test" STATUS
      (λ _, mkbytes [PROBE_BIG_TEST_HANDLE; PROBE_ADV_HANDLE; 1] +++ u24 0x2710 +++ pack
      [FH 8] +++ mkbytes [1] +++ pack [FH 40; FH 40] +++ mkbytes [1; 0; 0; 1; 1; 0; 0]
      +++ Ok (zeros 16)))
      <|needs := [NEEDS_ADV_SET; NEEDS_CONSENT]|>
      <|undo := Some (0x206A, (λ _, mkbytes [PROBE_BIG_TEST_HANDLE; 0x16]))|>
      <|expect := [STATUS_UNKNOWN_ADV_ID]|>
      <|phase := PHASE_EXTENDED|>;
    (row 0x206A "LE Terminate BIG" STATUS
      (λ _, mkbytes [PROBE_BIG_HANDLE; 0x16]))
      <|expect := [STATUS_UNKNOWN_ADV_ID; STATUS_COMMAND_DISALLOWED]|>
      <|phase := PHASE_EXTENDED|>;
    (row 0x206B "LE BIG Create Sync" STATUS
      (λ _, mkbytes [PROBE_BIG_HANDLE] +++ pack [FH UNUSED_HANDLE] +++ mkbytes [0] +++
      Ok (zeros 16) +++ mkbytes [0] +++ pack [FH 100] +++ mkbytes [1; 1]))
      <|needs := [NEEDS_SYNC]|>
      <|phase := PHASE_EXTENDED|>;
    (row 0x206C "LE BIG Terminate Sync" COMPLETE
      (λ _, mkbytes [PROBE_BIG_HANDLE]))
      <|expect := [STATUS_UNKNOWN_ADV_ID; STATUS_COMMAND_DISALLOWED]|>
      <|phase := PHASE_EXTENDED|> ].

Definition ISO : list command := ISO_1 ++ ISO_2.

Definition DTM : list command := [
    (row 0x201D "LE Receiver Test v1" COMPLETE
      (λ _, Ok [0]))
      <|needs := [NEEDS_CONSENT]|>
      <|undo := Some (0x201F, (λ _, Ok []))|>
      <|undo_now := true|>;
    (row 0x201E "LE Transmitter Test v1" COMPLETE
      (λ _, Ok [0; 0x25; 0]))
      <|needs := [NEEDS_CONSENT]|>
      <|undo := Some (0x201F, (λ _, Ok []))|>
      <|undo_now := true|>;
    (row 0x2033 "LE Receiver Test v2" COMPLETE
      (λ _, Ok [0; 1; 0]))
      <|needs := [NEEDS_CONSENT]|>
      <|undo := Some (0x201F, (λ _, Ok []))|>
      <|undo_now := true|>;
    (row 0x2034 "LE Transmitter Test v2" COMPLETE
      (λ _, Ok [0; 0x25; 0; 1]))
      <|needs := [NEEDS_CONSENT]|>
      <|undo := Some (0x201F, (λ _, Ok []))|>
      <|undo_now := true|>;
    (row 0x204F "LE Receiver Test v3" COMPLETE
      (λ _, Ok [0; 1; 0; 0; 0; 1; 0]))
      <|needs := [NEEDS_CONSENT]|>
      <|undo := Some (0x201F, (λ _, Ok []))|>
      <|undo_now := true|>;
    (row 0x2050 "LE Transmitter Test v3" COMPLETE
      (λ _, Ok [0; 0x25; 0; 1; 0; 0; 0]))
      <|needs := [NEEDS_CONSENT]|>
      <|undo := Some (0x201F, (λ _, Ok []))|>
      <|undo_now := true|>;
    (row 0x207B "LE Transmitter Test v4" COMPLETE
      (λ _, Ok [0; 0x25; 0; 1; 0; 0; 0] +++ pack [Fb 127]))
      <|needs := [NEEDS_CONSENT]|>
      <|undo := Some (0x201F, (λ _, Ok []))|>
      <|undo_now := true|>;
    (row 0xFD23 "VS Transmitter Carrier Test" COMPLETE
      (λ _, Ok [0] +++ pack [Fb 0]))
      <|needs := [NEEDS_CONSENT]|>
      <|undo := Some (0x201F, (λ _, Ok []))|>
      <|undo_now := true|> ].

Definition VENDOR : list command := [
    row 0xFC01 "VS Zephyr Read Version Info" COMPLETE
      (λ _, Ok []);
    row 0xFC02 "VS Zephyr Read Supported Commands" COMPLETE
      (λ _, Ok []);
    (row 0xFC06 "VS Zephyr Write BD_ADDR" COMPLETE
      (λ _, Ok [1; 2; 3; 4; 5; 0xc0]))
      <|needs := [NEEDS_CONSENT]|>
      <|undo := Some (0xFC06, (λ ctx, Ok (c_public_addr ctx)))|>
      <|undo_now := true|>;
    row 0xFC09 "VS Zephyr Read Static Addresses" COMPLETE
      (λ _, Ok []);
    row 0xFC0A "VS Zephyr Read Key Hierarchy Roots" COMPLETE
      (λ _, Ok []);
    row 0xFC0B "VS Zephyr Read Chip Temperature" COMPLETE
      (λ _, Ok []);
    (row 0xFC0E "VS Zephyr Write Tx Power" COMPLETE
      (λ _, pack [FB 0; FH PROBE_ADV_HANDLE; Fb 0]))
      <|needs := [NEEDS_ADV_SET]|>
      <|phase := PHASE_EXTENDED|>;
    (row 0xFC0F "VS Zephyr Read Tx Power" COMPLETE
      (λ _, pack [FB 0; FH PROBE_ADV_HANDLE]))
      <|needs := [NEEDS_ADV_SET]|>
      <|phase := PHASE_EXTENDED|>;
    row 0xFD01 "VS LLPM Mode Set" COMPLETE
      (λ _, Ok [0]);
    (row 0xFD02 "VS Connection Update" STATUS
      (λ ctx, conn ctx (pack [FI 0x7530; FH 0; FH 0x12c])))
      <|needs := [NEEDS_CONN]|>
      <|expect := [STATUS_UNSUPPORTED_FEATURE]|>;
    (row 0xFD04 "VS QoS Connection Event Report Enable" COMPLETE
      (λ _, Ok [0]))
      <|undo := Some (0xFD04, (λ _, Ok [0]))|>;
    (row 0xFD0C "VS Set Advertising Randomness" COMPLETE
      (λ _, pack [FB PROBE_ADV_HANDLE; FH 0]))
      <|needs := [NEEDS_ADV_SET]|>
      <|phase := PHASE_EXTENDED|>;
    (row 0xFD0E "VS QoS Channel Survey Enable" COMPLETE
      (λ _, pack [FB 1; FI 0x186a0]))
      <|undo := Some (0xFD0E, (λ _, pack [FB 0; FI 0]))|>
      <|undo_now := true|>;
    (row 0xFD11 "VS Read Average RSSI" COMPLETE
      (λ ctx, conn ctx (Ok [])))
      <|needs := [NEEDS_CONN]|>;
    (row 0xFD14 "VS Get Next Connection Event Counter" COMPLETE
      (λ ctx, conn ctx (Ok [])))
      <|needs := [NEEDS_CONN]|>;
    (row 0xFD1F "VS Connection Anchor Point Update Event Report Enable" COMPLETE
      (λ _, Ok [0]))
      <|undo := Some (0xFD1F, (λ _, Ok [0]))|>;
    row 0xFFF0 "VS Read Counters" COMPLETE
      (λ _, Ok []) ].

Definition TEARDOWN : list command := [
    (row 0x203C "LE Remove Advertising Set" COMPLETE
      (λ _, mkbytes [PROBE_ADV_HANDLE]))
      <|needs := [NEEDS_ADV_SET]|>
      <|expect := [STATUS_UNKNOWN_ADV_ID]|>
      <|phase := PHASE_EXTENDED|> ].

(** The order matters: what creates state comes before what uses it. *)
Definition COMMANDS : list command :=
  CB ++ LC ++ INFO ++ LE_BASIC ++ LE_PRIVACY ++ LE_EXT ++ LE_PERIODIC ++
  LE_CONN ++ ISO ++ DTM ++ VENDOR.

(** The loop that fills [BY_OPCODE] and refuses an opcode listed twice. *)
Fixpoint index_rows (rows : list command) (table : gmap Z command)
  : res (gmap Z command) :=
  match rows with
  | [] => Ok table
  | c :: rows' =>
      match table !! opcode c with
      | Some _ => Exc (AssertionError (Fmt "opcode 0x%04X listed twice" [AInt (opcode c)]))
      | None => index_rows rows' (<[opcode c := c]> table)
      end
  end.

Definition BY_OPCODE : res (gmap Z command) := index_rows (COMMANDS ++ TEARDOWN) ∅.

(** ** Properties *)

(** A context a run can have: a connection handle field, an address type,
    a device address. *)
Definition ctx_ok (ctx : probe_ctx) : Prop :=
  0 ≤ c_handle ctx < 65536 ∧ is_byte (c_addr_type ctx) ∧
  length (c_public_addr ctx) = 6%nat ∧ bytes_ok (c_public_addr ctx).

(** A parameter block that fits a command packet... *)
Definition fits (p : probe_ctx → res bytes) : Prop :=
  ∀ ctx, ctx_ok ctx → ∃ bs, p ctx = Ok bs ∧ bytes_ok bs ∧ blen bs ≤ 255.

(** ...and, whatever the context, either builds or raises struct.error. *)
Definition quiet (p : probe_ctx → res bytes) : Prop :=
  ∀ ctx, p ctx ≠ Stuck ∧ ∀ e, p ctx = Exc e → e = StructError.

Definition sendable (p : probe_ctx → res bytes) : Prop := fits p ∧ quiet p.

(** A row all of whose parameter blocks can be sent. *)
Definition row_ok (c : command) : Prop :=
  0 ≤ opcode c < 65536 ∧ sendable (payload c) ∧
  match undo c with Some (op, p) => 0 ≤ op < 65536 ∧ sendable p | None => True end ∧
  Forall (λ r, 0 ≤ fst (fst r) < 65536 ∧ sendable (snd (fst r))) (retry_after c).

Lemma built_ok l : bytes_ok l → built (Ok l) (length l).
Proof. by exists l. Qed.

Lemma built_mkbytes l : bytes_ok l → built (mkbytes l) (length l).
Proof. intros Hl. rewrite mkbytes_ok by done. by apply built_ok. Qed.

Lemma built_cat a b n m : built a n → built b m → built (a +++ b) (n + m).
Proof.
  intros (x&->&Hx&<-) (y&->&Hy&<-). exists (x ++ y).
  split_and!; [done|by apply bytes_ok_app|apply length_app].
Qed.

Lemma built_conn ctx tail n : ctx_ok ctx → built tail n → built (conn ctx tail) (2 + n).
Proof.
  intros [Hh _] Ht. apply built_cat; [|done].
  apply (built_pack [FH (c_handle ctx)]). by apply Forall_singleton.
Qed.

Lemma quiet_ok (f : probe_ctx → bytes) : quiet (λ ctx, Ok (f ctx)).
Proof. by intros ctx. Qed.

Lemma quiet_pack (fs : probe_ctx → list field) : quiet (λ ctx, pack (fs ctx)).
Proof. intros ctx. split; [apply pack_not_stuck|apply pack_struct_error]. Qed.

Lemma quiet_cat p q : quiet p → quiet q → quiet (λ ctx, p ctx +++ q ctx).
Proof.
  intros Hp Hq ctx. destruct (Hp ctx) as [Hp1 Hp2]. destruct (Hq ctx) as [Hq1 Hq2].
  unfold cat. destruct (p ctx) as [a|e|]; cbn; [|by split|done].
  destruct (q ctx) as [b|e|]; cbn; [done|by split|done].
Qed.

Lemma built_sendable (p : probe_ctx → res bytes) n :
  (n ≤ 255)%nat → (∀ ctx, ctx_ok ctx → built (p ctx) n) → quiet p → sendable p.
Proof.
  intros Hn Hp Hq. split; [|done]. intros ctx Hctx. destruct (Hp ctx Hctx) as (bs&E&Hb&Hl).
  exists bs. split_and!; [done|done|]. unfold blen. lia.
Qed.

(** A parameter block that does not depend on the context is checked by
    computing it. *)
Definition constant_ok (r : res bytes) : bool :=
  match r with
  | Ok bs => bool_decide (bytes_ok bs) && (length bs <=? 255)%nat
  | _ => false
  end.

Lemma sendable_constant r : constant_ok r = true → sendable (λ _, r).
Proof.
  intros Hr. destruct r as [bs|e|]; [|done|done]. split; [|apply quiet_ok].
  intros ctx _. exists bs.
  apply andb_true_iff in Hr as [Hb Hl]. apply bool_decide_eq_true in Hb.
  apply Nat.leb_le in Hl. split_and!; [done|done|]. unfold blen. lia.
Qed.

Lemma sendable_conn r :
  constant_ok r = true → (match r with Ok bs => length bs ≤ 253 | _ => True end)%nat →
  sendable (λ ctx, conn ctx r).
Proof.
  intros Hr Hl. destruct r as [bs|e|]; [|done|done].
  apply andb_true_iff in Hr as [Hb _]. apply bool_decide_eq_true in Hb.
  apply (built_sendable _ (2 + length bs)); [lia| |apply quiet_cat; [apply quiet_pack|apply quiet_ok]].
  intros ctx Hctx.
  apply built_conn; [done|]. by apply built_ok.
Qed.

(** Every field of a literal list of fields fits its width. *)
Ltac fields_ok :=
  repeat (apply Forall_cons_2; [cbn; first [lia | apply bytes_ok_zeros]|]);
  apply Forall_nil_2.

Lemma sendable_legacy_adv t : 0 ≤ t < 256 → sendable (legacy_adv_params t).
Proof.
  intros Ht. apply (built_sendable _ 15); [lia| |apply quiet_pack]. intros ctx (_&Ha&_).
  apply (built_pack [FH 0x00A0; FH 0x00F0; FB t; FB (c_addr_type ctx); FB 0;
                     FS (zeros 6); FB 7; FB 0]).
  unfold is_byte in Ha. fields_ok.
Qed.

Lemma sendable_public_addr : sendable (λ ctx, Ok (c_public_addr ctx)).
Proof.
  apply (built_sendable _ 6); [lia| |apply quiet_ok]. intros ctx (_&_&<-&Hb). by apply built_ok.
Qed.

(** Parameter blocks packed from fields of the context. *)
Lemma sendable_pack (fs : probe_ctx → list field) n :
  (n ≤ 255)%nat →
  (∀ ctx, ctx_ok ctx → Forall field_ok (fs ctx) ∧ sum_list_with field_size (fs ctx) = n) →
  sendable (λ ctx, pack (fs ctx)).
Proof.
  intros Hn Hfs. apply (built_sendable _ n); [done| |apply quiet_pack]. intros ctx Hctx.
  destruct (Hfs ctx Hctx) as [Hf <-]. by apply built_pack.
Qed.

(** The one row that mixes a computed byte string and packed fields. *)
Lemma sendable_create_cis :
  sendable (λ ctx, mkbytes [1] +++ pack [FH UNUSED_HANDLE; FH (c_handle ctx)]).
Proof.
  apply (built_sendable _ 5); [lia| |apply quiet_cat; [apply (quiet_ok (λ _, [1]))|apply quiet_pack]].
  intros ctx (Hh&_).
  apply (built_cat _ _ 1 4).
  - apply (built_mkbytes [1]). by apply (bool_decide_unpack _).
  - apply (built_pack [FH UNUSED_HANDLE; FH (c_handle ctx)]). unfold UNUSED_HANDLE. fields_ok.
Qed.

Ltac sendable :=
  first
    [ apply sendable_constant; vm_compute; reflexivity
    | apply sendable_conn; [vm_compute; reflexivity | vm_compute; lia]
    | apply sendable_legacy_adv; lia
    | apply sendable_public_addr
    | eapply sendable_pack; [|intros ctx (Hh&Ha&_); unfold is_byte in Ha;
        split; [fields_ok | cbn; reflexivity]]; lia
    | apply sendable_create_cis ].

#[global] Arguments conn : simpl never.
#[global] Arguments pack : simpl never.
#[global] Arguments cat : simpl never.
#[global] Arguments mkbytes : simpl never.
#[global] Arguments legacy_adv_params : simpl never.
#[global] Arguments u24 : simpl never.

Lemma row_ok_intro c :
  0 ≤ opcode c < 65536 → sendable (payload c) →
  match undo c with Some (op, p) => 0 ≤ op < 65536 ∧ sendable p | None => True end →
  Forall (λ r, 0 ≤ fst (fst r) < 65536 ∧ sendable (snd (fst r))) (retry_after c) →
  row_ok c.
Proof. intros. unfold row_ok. auto. Qed.

(** Row by row: the opcodes by arithmetic, the parameter blocks by [sendable]. *)
Ltac rows_ok :=
  repeat (apply Forall_cons_2;
    [apply row_ok_intro; cbn;
      [lia | sendable | first [done | split; [lia|sendable]]
      | repeat (apply Forall_cons_2; [cbn; split; [lia|sendable]|]); apply Forall_nil_2]|]);
  apply Forall_nil_2.

Lemma CB_ok : Forall row_ok CB.
Proof. unfold CB. rows_ok. Qed.
Lemma LC_ok : Forall row_ok LC.
Proof. unfold LC. rows_ok. Qed.
Lemma INFO_ok : Forall row_ok INFO.
Proof. unfold INFO. rows_ok. Qed.
Lemma LE_BASIC_ok : Forall row_ok LE_BASIC.
Proof. unfold LE_BASIC. apply Forall_app; split; unfold LE_BASIC_1, LE_BASIC_2; rows_ok. Qed.
Lemma LE_PRIVACY_ok : Forall row_ok LE_PRIVACY.
Proof. unfold LE_PRIVACY. rows_ok. Qed.
Lemma LE_EXT_ok : Forall row_ok LE_EXT.
Proof. unfold LE_EXT. rows_ok. Qed.
Lemma LE_PERIODIC_ok : Forall row_ok LE_PERIODIC.
Proof. unfold LE_PERIODIC. rows_ok. Qed.
Lemma LE_CONN_ok : Forall row_ok LE_CONN.
Proof. unfold LE_CONN. rows_ok. Qed.
Lemma ISO_ok : Forall row_ok ISO.
Proof. unfold ISO. apply Forall_app; split; unfold ISO_1, ISO_2; rows_ok. Qed.
Lemma DTM_ok : Forall row_ok DTM.
Proof. unfold DTM. rows_ok. Qed.
Lemma VENDOR_ok : Forall row_ok VENDOR.
Proof. unfold VENDOR. rows_ok. Qed.
Lemma TEARDOWN_ok : Forall row_ok TEARDOWN.
Proof. unfold TEARDOWN. rows_ok. Qed.

Lemma catalog_rows_ok : Forall row_ok (COMMANDS ++ TEARDOWN).
Proof.
  unfold COMMANDS. rewrite !Forall_app.
  repeat split; auto using CB_ok, LC_ok, INFO_ok, LE_BASIC_ok, LE_PRIVACY_ok, LE_EXT_ok,
    LE_PERIODIC_ok, LE_CONN_ok, ISO_ok, DTM_ok, VENDOR_ok, TEARDOWN_ok.
Qed.

(** ** The index *)

(** The loop succeeds exactly when no opcode is listed twice, and then the
    table holds the rows and nothing else. *)
Lemma index_rows_spec rows table :
  NoDup (opcode <$> rows) → (∀ c, c ∈ rows → table !! opcode c = None) →
  ∃ t, index_rows rows table = Ok t ∧
       ∀ op c, t !! op = Some c ↔ (c ∈ rows ∧ opcode c = op) ∨ table !! op = Some c.
Proof.
  revert table. induction rows as [|r rows IH]; intros table Hnd Hfresh; cbn.
  { exists table. split; [done|]. intros op c. set_solver. }
  apply NoDup_cons in Hnd as [Hr Hnd].
  assert (Hne : ∀ c, c ∈ rows → opcode c ≠ opcode r).
  { intros c Hc E. apply Hr. rewrite <- E. by apply list_elem_of_fmap_2. }
  rewrite Hfresh by set_solver.
  destruct (IH (<[opcode r := r]> table) Hnd) as (t&Ht&Hspec).
  { intros c Hc. rewrite lookup_insert_ne by (intros E; by apply (Hne c Hc)).
    apply Hfresh. set_solver. }
  exists t. split; [done|]. intros op c. rewrite Hspec, elem_of_cons.
  destruct (decide (op = opcode r)) as [->|Hop].
  - rewrite lookup_insert_eq. rewrite (Hfresh r) by set_solver. naive_solver.
  - rewrite lookup_insert_ne by done. naive_solver.
Qed.

Lemma index_rows_dup rows table c :
  c ∈ rows → is_Some (table !! opcode c) → is_ok (index_rows rows table) = false.
Proof.
  revert table. induction rows as [|r rows IH]; intros table Hc Ht; [set_solver|].
  cbn. destruct (table !! opcode r) eqn:E; [done|].
  apply elem_of_cons in Hc as [->|Hc]; [by rewrite E in Ht; destruct Ht|].
  apply IH; [done|]. destruct (decide (opcode c = opcode r)) as [E'|Hne].
  - rewrite E', lookup_insert_eq. by eexists.
  - by rewrite lookup_insert_ne.
Qed.
