(* ===== verification/Commands.v ===== *)
(** * Commands: the release profile of the command table (hci_commands.py)

    The module edits rows of the catalog in place, through the catalog's
    opcode index, and appends the commands of the supplemental dispatchers.
    The edits are modelled on the shared list of rows: the catalog's own lists
    and index see them too. *)

From coqutil Require Import Datatypes.RecordSetters.
From stdpp Require Import gmap.
From S2P Require Export Catalog.
Import TriangleBracketNotations.
#[local] Open Scope Z_scope.

Definition EXTENDED_PHASE_OPCODES : list Z := [0x2047; 0x2048; 0x2049; 0x205C; 0x205D].

Definition STATUS_UNSUPPORTED_REMOTE_FEATURE : Z := 0x1A.

(** Rewriting the row of an opcode: [BY_OPCODE[opcode]] raises KeyError when
    there is none. *)
Definition edit_row (op : Z) (f : command → command) (rows : list command)
  : res (list command) :=
  if existsb (λ c, opcode c =? op) rows then
    Ok ((λ c, if opcode c =? op then f c else c) <$> rows)
  else Exc KeyError.

(** [if status not in row.expect: row.expect = row.expect + (status,)]. *)
Definition also_expect (status : Z) (c : command) : command :=
  if bool_decide (status ∈ expect c) then c else c <|expect := expect c ++ [status]|>.

(** The edits, in order. The first five come from a set, whose order Python
    does not fix; they touch different rows. *)
Definition edits : list (Z * (command → command)) :=
  ((λ op, (op, λ c : command, c <|phase := PHASE_EXTENDED|>)) <$> EXTENDED_PHASE_OPCODES) ++
  ((λ op, (op, λ c : command, c <|undo_now := true|>)) <$> [0x200C; 0x2042]) ++
  [(0x2079, λ c : command,
      c <|undo := Some (0x2079, λ ctx, pack [FH (c_handle ctx); FB 0])|> <|undo_now := true|>);
   (0x207A, λ c : command,
      c <|undo := Some (0x207A, λ ctx, pack [FH (c_handle ctx); FB 0; FB 0])|>
        <|undo_now := true|>);
   (0x2077, also_expect STATUS_UNSUPPORTED_REMOTE_FEATURE);
   (0x2085, also_expect STATUS_COMMAND_DISALLOWED)].

Fixpoint apply_edits (es : list (Z * (command → command))) (rows : list command)
  : res (list command) :=
  match es with
  | [] => Ok rows
  | (op, f) :: es' => rows' ← edit_row op f rows; apply_edits es' rows'
  end.

Definition CORE_62 : list command := [
    (row 0x209D "LE Frame Space Update" STATUS
      (λ _, pack [FH UNUSED_HANDLE; FH 150; FH 150; FB 1; FH 1]))
      <|expect := [STATUS_UNKNOWN_CONNECTION; STATUS_COMMAND_DISALLOWED;
        STATUS_INVALID_PARAMS]|>;
    (row 0x20A1 "LE Connection Rate Request" STATUS
      (λ _, pack [FH UNUSED_HANDLE] +++ Ok (zeros 18)))
      <|expect := [STATUS_UNKNOWN_CONNECTION; STATUS_COMMAND_DISALLOWED;
        STATUS_INVALID_PARAMS]|>;
    row 0x20A3 "LE Read Minimum Supported Connection Interval" COMPLETE
      (λ _, Ok []);
    (row 0x20A2 "LE Set Default Rate Parameters" COMPLETE
      (λ _, Ok (zeros 18)))
      <|expect := [STATUS_INVALID_PARAMS]|> ].

Definition SDC_VS : list command := [
    (row 0xFC1F "VS DTM Command: Test End" COMPLETE
      (λ _, Ok [0]))
      <|expect := [STATUS_COMMAND_DISALLOWED]|>;
    row 0xFD03 "VS Connection Event Extend" COMPLETE
      (λ _, Ok [0]);
    (row 0xFD05 "VS Event Length Set" COMPLETE
      (λ _, pack [FI 0x1d4c]))
      <|expect := [STATUS_COMMAND_DISALLOWED]|>;
    (row 0xFD06 "VS Periodic Advertising Event Length Set" COMPLETE
      (λ _, pack [FI 0x1d4c]))
      <|expect := [STATUS_COMMAND_DISALLOWED]|>;
    (row 0xFD09 "VS Peripheral Latency Mode Set" COMPLETE
      (λ ctx, pack [FH (c_handle ctx); FB 0]))
      <|needs := [NEEDS_CONN]|>
      <|expect := [STATUS_COMMAND_DISALLOWED]|>;
    (row 0xFD0A "VS Write Remote TX Power" STATUS
      (λ ctx, pack [FH (c_handle ctx); FB 1; Fb 0]))
      <|needs := [NEEDS_CONN]|>
      <|expect := [STATUS_COMMAND_DISALLOWED; STATUS_UNSUPPORTED_FEATURE;
        STATUS_UNSUPPORTED_REMOTE_FEATURE]|>;
    row 0xFD0D "VS Compatibility Mode Window Offset Set" COMPLETE
      (λ _, Ok [0]);
    row 0xFD10 "VS Set Power Control Request Parameters" COMPLETE
      (λ _, pack [FB 0; FB 0; FH 0x800; Fb (-70); Fb (-30); Fb (-65); Fb (-35); FH
      0x1388; FB 5]);
    (row 0xFD12 "VS Central ACL Event Spacing Set" COMPLETE
      (λ _, pack [FI 0x1d4c]))
      <|expect := [STATUS_COMMAND_DISALLOWED]|>;
    row 0xFD15 "VS Allow Parallel Connection Establishments" COMPLETE
      (λ _, Ok [0]);
    (row 0xFD16 "VS Minimum Maximum ACL TX Payload Set" COMPLETE
      (λ _, Ok [0x1b]))
      <|expect := [STATUS_COMMAND_DISALLOWED]|>;
    row 0xFD1B "VS Scan Channel Map Set" COMPLETE
      (λ _, Ok [0xff; 0xff; 0xff; 0xff; 0xff]);
    row 0xFD1C "VS Scan Accept Extended Advertising Packets Set" COMPLETE
      (λ _, Ok [1]);
    (row 0xFD1D "VS Set Role Priority" COMPLETE
      (λ _, pack [FB 4; FH 0; FB 255]))
      <|expect := [STATUS_UNKNOWN_CONNECTION; STATUS_COMMAND_DISALLOWED]|>;
    (row 0xFD1E "VS Set Event Start Task" COMPLETE
      (λ ctx, pack [FB 3; FH (c_handle ctx); FI 0]))
      <|needs := [NEEDS_CONN]|>
      <|expect := [STATUS_UNKNOWN_CONNECTION; STATUS_COMMAND_DISALLOWED]|>;
    row 0xFD20 "VS Enable Periodic Advertising Event Counter Reports" COMPLETE
      (λ _, Ok [0]) ].

Definition LOCAL : list command := [
    row 0xFFF1 "VS HciController Transport Integrity Loopback" COMPLETE
      (λ _, Ok [0; 0; 1]) ].

Definition ISYST : list command := [
    (row 0xFFF3 "VS I-SYST Read Static Address" COMPLETE
      (λ _, Ok []))
      <|expect := [STATUS_UNSUPPORTED_FEATURE]|>;
    row 0xFFF4 "VS I-SYST Crypto Supported" COMPLETE
      (λ _, Ok []);
    row 0xFFF5 "VS I-SYST AES-CMAC" COMPLETE
      (λ _, Ok (zeros 16) +++ Ok [0]);
    row 0xFFF6 "VS I-SYST AES-CCM" COMPLETE
      (λ _, Ok [0] +++ Ok (zeros 16) +++ Ok [0x0d] +++ Ok (zeros 13) +++ Ok [0] +++ Ok
      [4; 0]);
    (row 0xFFF7 "VS I-SYST Random" COMPLETE
      (λ _, Ok [8]))
      <|expect := [STATUS_UNSUPPORTED_FEATURE]|>;
    row 0xFFF8 "VS I-SYST SHA-256" COMPLETE
      (λ _, Ok [0]);
    row 0xFFF9 "VS I-SYST HMAC-SHA-256" COMPLETE
      (λ _, Ok [0; 0]);
    (row 0xFFFA "VS I-SYST ECDSA P-256 Sign" COMPLETE
      (λ _, Ok (zeros 31) +++ Ok [2] +++ Ok (zeros 32)))
      <|expect := [STATUS_UNSUPPORTED_FEATURE]|>;
    (row 0xFFFB "VS I-SYST ECDSA P-256 Verify" COMPLETE
      (λ _, Ok (zeros 64) +++ Ok (zeros 32) +++ Ok (zeros 64)))
      <|expect := [0x5]|> ].

(** ** What importing the module computes *)

Definition extra_rows : list command := CORE_62 ++ SDC_VS ++ LOCAL ++ ISYST.

(** [COMMANDS], [TEARDOWN] and [BY_OPCODE], or the exception the import
    raises. *)
Definition import_from (base : res (gmap Z command)) (es : list (Z * (command → command)))
    (cs td extra : list command) (extended : list Z)
  : res (list command * list command * gmap Z command) :=
  _ ← base;
  rows ← apply_edits es (cs ++ td);
  let n := length cs in
  index ← index_rows rows ∅;
  table ← index_rows extra index;
  if forallb (λ op, match table !! op with
                    | Some c => bool_decide (phase c = PHASE_EXTENDED)
                    | None => false
                    end) extended
  then Ok (take n rows ++ extra, drop n rows, table)
  else Exc (AssertionError (Lit "")).

Definition import_commands : res (list command * list command * gmap Z command) :=
  import_from Catalog.BY_OPCODE edits Catalog.COMMANDS Catalog.TEARDOWN extra_rows
    EXTENDED_PHASE_OPCODES.

(** The module attributes; the import succeeds ([import_ok] below). *)
Definition COMMANDS : list command :=
  match import_commands with Ok (cs, _, _) => cs | _ => [] end.
Definition TEARDOWN : list command :=
  match import_commands with Ok (_, td, _) => td | _ => [] end.
Definition BY_OPCODE : gmap Z command :=
  match import_commands with Ok (_, _, t) => t | _ => ∅ end.

(** ** Properties *)

Lemma import_ok : is_ok import_commands = true.
Proof. vm_compute. reflexivity. Qed.

(** The attributes an import result [r] gives the module. *)
Definition commands_of (r : res (list command * list command * gmap Z command)) :=
  match r with Ok (cs, _, _) => cs | _ => [] end.
Definition teardown_of (r : res (list command * list command * gmap Z command)) :=
  match r with Ok (_, td, _) => td | _ => [] end.
Definition index_of (r : res (list command * list command * gmap Z command))
  : gmap Z command := match r with Ok (_, _, t) => t | _ => ∅ end.

Lemma import_from_inv base es cs td extra ext :
  let r := import_from base es cs td extra ext in
  is_ok r = true →
  ∃ rows index,
    apply_edits es (cs ++ td) = Ok rows ∧
    index_rows rows ∅ = Ok index ∧ index_rows extra index = Ok (index_of r) ∧
    commands_of r = take (length cs) rows ++ extra ∧
    teardown_of r = drop (length cs) rows.
Proof.
  cbn zeta. unfold import_from. destruct base as [?|?|]; cbn; [|done|done].
  destruct (apply_edits _ _) as [rows|?|]; cbn; [|done|done].
  destruct (index_rows rows ∅) as [index|?|] eqn:E1; cbn; [|done|done].
  destruct (index_rows extra index) as [table|?|] eqn:E2; cbn; [|done|done].
  destruct (forallb _ _); [|done]. intros _. by exists rows, index.
Qed.

(** What the import is made of. *)
Lemma import_inv :
  ∃ rows index,
    apply_edits edits (Catalog.COMMANDS ++ Catalog.TEARDOWN) = Ok rows ∧
    index_rows rows ∅ = Ok index ∧ index_rows extra_rows index = Ok BY_OPCODE ∧
    COMMANDS = take (length Catalog.COMMANDS) rows ++ extra_rows ∧
    TEARDOWN = drop (length Catalog.COMMANDS) rows.
Proof. exact (import_from_inv _ _ _ _ _ _ import_ok). Qed.

(** An edit that keeps the opcode keeps the list of opcodes. *)
Lemma apply_edits_opcodes es rows rows' :
  Forall (λ e : Z * (command → command), ∀ c, opcode (snd e c) = opcode c) es →
  apply_edits es rows = Ok rows' → opcode <$> rows' = opcode <$> rows.
Proof.
  revert rows. induction es as [|[op f] es IH]; intros rows He; cbn.
  { by intros [= <-]. }
  apply Forall_cons in He as [Hf He]. unfold edit_row.
  destruct (existsb _ _); [|done]. cbn. intros E. rewrite (IH _ He E).
  clear E IH. induction rows as [|c rows IH]; [done|]. cbn. f_equal; [|done].
  destruct (opcode c =? op); [apply Hf|done].
Qed.

Lemma also_expect_opcode s c : opcode (also_expect s c) = opcode c.
Proof. unfold also_expect. by destruct (bool_decide _). Qed.

Lemma edits_opcode :
  Forall (λ e : Z * (command → command), ∀ c, opcode (snd e c) = opcode c) edits.
Proof.
  unfold edits. apply Forall_app; split; [|apply Forall_app; split].
  - apply Forall_fmap, Forall_true. by intros op c.
  - apply Forall_fmap, Forall_true. by intros op c.
  - repeat (apply Forall_cons_2; [intros c; first [done|apply also_expect_opcode]|]).
    apply Forall_nil_2.
Qed.

Lemma opcodes_distinct :
  NoDup ((opcode <$> Catalog.COMMANDS ++ Catalog.TEARDOWN) ++ (opcode <$> extra_rows)).
Proof. apply (bool_decide_unpack _). vm_compute. exact I. Qed.

Lemma edit_row_Forall (P : command → Prop) op f rows rows' :
  (∀ c, P c → P (f c)) → Forall P rows → edit_row op f rows = Ok rows' → Forall P rows'.
Proof.
  intros Hf HP. unfold edit_row. destruct (existsb _ _); [|done]. intros [= <-].
  apply Forall_fmap. apply (Forall_impl _ _ _ HP). intros c Hc. cbn.
  destruct (opcode c =? op); auto.
Qed.

Lemma apply_edits_Forall (P : command → Prop) es rows rows' :
  Forall (λ e, ∀ c, P c → P (snd e c)) es → Forall P rows →
  apply_edits es rows = Ok rows' → Forall P rows'.
Proof.
  revert rows. induction es as [|[op f] es IH]; intros rows He HP; cbn.
  { by intros [= <-]. }
  apply Forall_cons in He as [Hf He].
  destruct (edit_row op f rows) as [rs|?|] eqn:E; [|done|done].
  apply (IH rs He), (edit_row_Forall _ _ _ _ _ Hf HP E).
Qed.

Lemma also_expect_row_ok s c : row_ok c → row_ok (also_expect s c).
Proof. unfold also_expect. by destruct (bool_decide _). Qed.

Lemma edits_row_ok : Forall (λ e, ∀ c, row_ok c → row_ok (snd e c)) edits.
Proof.
  unfold edits. apply Forall_app; split; [|apply Forall_app; split].
  - apply Forall_fmap, Forall_true. by intros op c.
  - apply Forall_fmap, Forall_true. by intros op c.
  - repeat (apply Forall_cons_2; [|]); [..|apply Forall_nil_2];
      intros c Hc; cbn; first
        [ apply also_expect_row_ok, Hc
        | destruct Hc as (Ho&Hp&_&Hr); apply row_ok_intro; [done|done| |done];
          cbn; split; [lia|sendable] ].
Qed.

Lemma extra_rows_ok : Forall row_ok extra_rows.
Proof.
  unfold extra_rows. rewrite !Forall_app. repeat split;
    [unfold CORE_62|unfold SDC_VS|unfold LOCAL|unfold ISYST]; rows_ok.
Qed.

Lemma all_rows_ok : Forall row_ok (COMMANDS ++ TEARDOWN).
Proof.
  destruct import_inv as (rows&index&He&_&_&->&->).
  assert (Hr : Forall row_ok rows)
    by exact (apply_edits_Forall _ _ _ _ edits_row_ok catalog_rows_ok He).
  rewrite !Forall_app. repeat split;
    [by apply Forall_take|exact extra_rows_ok|by apply Forall_drop].
Qed.

(** Every parameter block of the probe's tables - commands, undos and the
    candidates of a retry - can be built and fits a command packet, whatever
    connection handle, address type and device address the run has. *)
Theorem commands_sendable c ctx :
  c ∈ COMMANDS ++ TEARDOWN → ctx_ok ctx →
  (∃ bs, build c ctx = Ok bs ∧ bytes_ok bs ∧ blen bs ≤ 255) ∧
  (∀ op p, undo c = Some (op, p) → ∃ bs, p ctx = Ok bs ∧ bytes_ok bs ∧ blen bs ≤ 255) ∧
  (∀ op p why, (op, p, why) ∈ retry_after c →
     ∃ bs, p ctx = Ok bs ∧ bytes_ok bs ∧ blen bs ≤ 255).
Proof.
  intros Hc Hctx.
  pose proof all_rows_ok as Hall.
  rewrite Forall_forall in Hall. destruct (Hall c Hc) as (_&[Hp _]&Hu&Hr).
  split; [|split].
  - apply (Hp ctx Hctx).
  - intros op p E. rewrite E in Hu. by apply Hu.
  - intros op p why Hin. rewrite Forall_forall in Hr. by apply (Hr _ Hin).
Qed.

Lemma commands_sendable_witness :
  ctx_ok (Ctx 0x0040 0 [1; 2; 3; 4; 5; 6]) ∧
  ∃ c bs, BY_OPCODE !! 0x2036 = Some c ∧
          build c (Ctx 0x0040 0 [1; 2; 3; 4; 5; 6]) = Ok bs ∧ blen bs ≤ 255.
Proof.
  assert (Hctx : ctx_ok (Ctx 0x0040 0 [1; 2; 3; 4; 5; 6])).
  { repeat split; cbn; try lia. apply (bool_decide_unpack _). by vm_compute. }
  split; [exact Hctx|].
  assert (Hlt : is_Some ((COMMANDS ++ TEARDOWN) !! 55%nat)).
  { apply lookup_lt_is_Some_2. vm_compute. lia. }
  destruct Hlt as [c Hc].
  assert (E : BY_OPCODE !! 0x2036 = (COMMANDS ++ TEARDOWN) !! 55%nat)
    by (vm_compute; reflexivity).
  destruct (commands_sendable c _ (list_elem_of_lookup_2 _ _ _ Hc) Hctx) as [(bs&Hb&_&Hl) _].
  exists c, bs. split; [by rewrite E|]. by split.
Defined.

(** Indexing two lists of rows one after the other. *)
Lemma index_two (n : nat) rows extra index table :
  NoDup ((opcode <$> rows) ++ (opcode <$> extra)) →
  index_rows rows ∅ = Ok index → index_rows extra index = Ok table →
  NoDup (opcode <$> (take n rows ++ extra) ++ drop n rows) ∧
  ∀ op c, table !! op = Some c ↔ c ∈ (take n rows ++ extra) ++ drop n rows ∧ opcode c = op.
Proof.
  intros Hnd Hi Ht. pose proof Hnd as Hnd'.
  apply NoDup_app in Hnd' as (Hrows&Hdis&Hextra).
  assert (Hperm : (take n rows ++ extra) ++ drop n rows ≡ₚ rows ++ extra).
  { rewrite <- (take_drop n rows) at 3. rewrite <- !app_assoc.
    by rewrite (Permutation_app_comm extra). }
  destruct (index_rows_spec rows ∅) as (index'&Hi'&Hspec); [done|done|].
  rewrite Hi in Hi'. injection Hi' as <-.
  destruct (index_rows_spec extra index) as (table'&Ht'&Hspec'); [done| |].
  { intros c Hc. destruct (index !! opcode c) as [d|] eqn:E; [|done].
    apply Hspec in E as [[Hd E]|E]; [|done]. destruct (Hdis (opcode c)).
    - rewrite <- E. by apply list_elem_of_fmap_2.
    - by apply list_elem_of_fmap_2. }
  rewrite Ht in Ht'. injection Ht' as <-. split.
  - by rewrite Hperm, fmap_app.
  - intros op c. rewrite Hspec', Hspec, Hperm, elem_of_app, lookup_empty. naive_solver.
Qed.

Lemma index_facts :
  NoDup (opcode <$> COMMANDS ++ TEARDOWN) ∧
  ∀ op c, BY_OPCODE !! op = Some c ↔ c ∈ COMMANDS ++ TEARDOWN ∧ opcode c = op.
Proof.
  destruct import_inv as (rows&index&He&Hi&Ht&->&->).
  pose proof opcodes_distinct as Hnd.
  rewrite <- (apply_edits_opcodes _ _ _ edits_opcode He) in Hnd.
  exact (index_two _ _ _ _ _ Hnd Hi Ht).
Qed.

(** The index and the lists agree: an opcode looks up the row of the
    command lists that has it, every listed row is found, and no opcode is
    listed twice. *)
Theorem by_opcode_complete :
  NoDup (opcode <$> COMMANDS ++ TEARDOWN) ∧
  ∀ op c, BY_OPCODE !! op = Some c ↔ c ∈ COMMANDS ++ TEARDOWN ∧ opcode c = op.
Proof. exact index_facts. Qed.

(** An opcode of the index that gets an answer. *)
Definition answered (op : Z) : bool :=
  match BY_OPCODE !! op with
  | Some d => negb (bool_decide (reply d = NONE))
  | None => false
  end.

Lemma answered_spec op :
  answered op = true → ∃ d, BY_OPCODE !! op = Some d ∧ reply d ≠ NONE.
Proof.
  unfold answered. destruct (BY_OPCODE !! op) as [d|]; [|done].
  intros H%negb_true_iff%bool_decide_eq_false. by exists d.
Qed.

Definition known_row (c : command) : bool :=
  match undo c with Some (op, _) => answered op | None => true end &&
  forallb (λ r, answered (fst (fst r))) (retry_after c).

(** The opcode that creates the probe's advertising set. *)
Definition ADV_SET_OPCODE : Z := 0x2036.

(** Rows whose needs are met by rows before them: [seen] says the
    advertising set already exists. *)
Fixpoint adv_set_first (seen : bool) (rows : list command) : bool :=
  match rows with
  | [] => true
  | c :: rows' =>
      (seen || negb (bool_decide (NEEDS_ADV_SET ∈ needs c))) &&
      adv_set_first (seen || (opcode c =? ADV_SET_OPCODE)) rows'
  end.

Lemma adv_set_first_spec seen rows pre c post :
  adv_set_first seen rows = true → rows = pre ++ c :: post → NEEDS_ADV_SET ∈ needs c →
  seen = true ∨ ADV_SET_OPCODE ∈ opcode <$> pre.
Proof.
  revert seen rows. induction pre as [|r pre IH]; intros seen rows Hf -> Hc; cbn in Hf.
  - apply andb_true_iff in Hf as [Hf _]. rewrite bool_decide_eq_true_2 in Hf by done.
    destruct seen; [by left|done].
  - apply andb_true_iff in Hf as [_ Hf].
    destruct (IH _ _ Hf eq_refl Hc) as [H|H].
    + apply orb_true_iff in H as [H|H]; [by left|]. right. apply Z.eqb_eq in H.
      rewrite fmap_cons, H. by left.
    + right. rewrite fmap_cons. by right.
Qed.

(** The table is closed and ordered: what undoes a command, and what a
    retry sends first, is itself a command of the table that is answered; and
    the row that creates the probe's advertising set comes before every row
    that needs one. *)
Theorem commands_closed_and_ordered :
  (∀ c op p, c ∈ COMMANDS → undo c = Some (op, p) →
     ∃ d, BY_OPCODE !! op = Some d ∧ reply d ≠ NONE) ∧
  (∀ c op p why, c ∈ COMMANDS → (op, p, why) ∈ retry_after c →
     ∃ d, BY_OPCODE !! op = Some d ∧ reply d ≠ NONE) ∧
  (∀ pre c post, COMMANDS = pre ++ c :: post → NEEDS_ADV_SET ∈ needs c →
     ADV_SET_OPCODE ∈ opcode <$> pre).
Proof.
  assert (Hall : forallb known_row COMMANDS = true) by (vm_compute; reflexivity).
  rewrite forallb_forall in Hall. split; [|split].
  - intros c op p Hc E. apply list_elem_of_In, Hall, andb_true_iff in Hc as [Hc _].
    rewrite E in Hc. by apply answered_spec.
  - intros c op p why Hc Hr. apply list_elem_of_In, Hall, andb_true_iff in Hc as [_ Hc].
    rewrite forallb_forall in Hc. apply list_elem_of_In in Hr.
    by apply answered_spec, (Hc (op, p, why)).
  - intros pre c post E Hc.
    assert (Hf : adv_set_first false COMMANDS = true) by (vm_compute; reflexivity).
    by destruct (adv_set_first_spec _ _ _ _ _ Hf E Hc).
Qed.
