(* ===== verification/Probe.v ===== *)
(** * Probe: the command probe (cmd_probe and its helpers in
    hci_ble_test_impl.py)

    The probe sends every row of the command tables at a controller, decides
    for each answer whether it is what the row expects, undoes what a row
    leaves behind, bisects for the row that makes another one fail, and can
    advertise for a peer to reach the rows that need a link. What it prints
    is kept as a log of one entry per line that carries a finding. *)

From coqutil Require Import Datatypes.RecordSetters.
From stdpp Require Import gmap.
From S2P Require Export Peripheral Commands.
Import TriangleBracketNotations.
#[local] Open Scope Z_scope.

Module Probe.

(** The command line of the probe. *)
Record args : Type := Args {
  a_handle : option Z; consent : bool; no_adv_set : bool; verbose : bool;
  wait_connect : Z; discover_secs : Z; wait_ltk : Z; settle_ms : Z;
  bisect_row : option Z; only : option (list Z) }.

(** One printed finding. *)
Inductive line : Type :=
  | Row (opcode : Z) (tag : string)
  | FixRefused (opcode status : Z)
  | RetryIncomplete (opcode : Z)
  | WorksAfter (opcode : Z) (applied : list string)
  | StillRefused (opcode status : Z) (applied : list string)
  | Restarted (from_count to_count : Z)
  | Attempted (rows : nat) (status : Z).

Record probe : Type := Probe {
  p_args : args;
  ctx : probe_ctx;
  identity : bytes;
  role : option Z;
  peer : option (bytes * Z);
  live_handle : bool;
  undo_list : list (Z * (probe_ctx → res bytes));
  n_ok : nat; n_expected : nat; n_silent : nat; n_refused : nat; n_unknown : nat;
  skipped : gset Z;
  restart_watch : Z;
  log : list line;
}.

Definition is_gone (e : exn) : bool := match e with HciGone _ => true | _ => false end.
Definition is_err (e : exn) : bool := match e with HciError _ => true | _ => false end.

(** [probe_available]: the first reason not to send the row. *)
Definition probe_available (c : command) (p : probe) : bool :=
  let needed n := bool_decide (n ∈ needs c) in
  if needed NEEDS_CONN && (bool_decide (a_handle (p_args p) = None) || negb (live_handle p))
  then false
  else if needed NEEDS_CENTRAL && negb (bool_decide (role p = Some 0)) then false
  else if needed NEEDS_SYNC then false
  else if needed NEEDS_CONSENT && negb (consent (p_args p)) then false
  else if needed NEEDS_ADV_SET && no_adv_set (p_args p) then false
  else true.

Section probe.
Context {T : Type} `{!Transport T}.
Definition P (X : Type) : Type := M (dev (T:=T) * probe) X.
Definition self : P probe := gets snd.
Definition update (f : probe → probe) : P unit := on_own (modify f).
Definition say (l : line) : P unit := update (λ p, p<|log := log p ++ [l]|>).

(** [hci.command(opcode, payload, timeout, allow_fail=True)]. *)
Definition ask (opcode : Z) (payload : bytes) (timeout : Z) : P (Z * bytes) :=
  on_dev (command_t opcode payload timeout true).

(** [hci.command(opcode, payload)]. *)
Definition must (opcode : Z) (payload : bytes) : P (Z * bytes) :=
  on_dev (Hci.command opcode payload false).

(** [time.sleep]. *)
Definition sleep (us : Z) : P unit :=
  if us <? 0 then raise (ValueError (Lit "sleep length must be non-negative"))
  else on_dev (modify (λ s, (fst s + us, snd s))).

Definition report (c : command) (tag : string) : P unit := say (Row (opcode c) tag).

(** *** preamble, check_alive *)

Definition preamble : P unit :=
  p ← self;
  must OP_RESET [] ;;
  must OP_SET_EVENT_MASK [255; 255; 255; 255; 255; 255; 255; 0x3f] ;;
  must OP_LE_SET_EVENT_MASK [0xff; 0xff; 0x03; 0; 0; 0; 0; 0] ;;
  when (c_addr_type (ctx p) =? 0x01)
    (must OP_LE_SET_RANDOM_ADDRESS (identity p) ;; skip).

(** Whether the command counter has fallen since it was last read. *)
Definition check_alive : P bool :=
  values ← on_dev read_counters;
  match values with
  | None => mret false
  | Some values =>
      count ← lift (idx values 0);
      p ← self;
      if count <? restart_watch p then
        say (Restarted (restart_watch p) count) ;;
        update (λ p, p<|restart_watch := count|>) ;;
        mret true
      else
        update (λ p, p<|restart_watch := count|>) ;;
        mret false
  end.

(** *** refusal *)

Inductive retried : Type := NotApplied | Incomplete | Again (status : Z).

Fixpoint retry_loop (c : command) (l : list (Z * (probe_ctx → res bytes) * string))
    (applied : list string) (again : Z) : P unit :=
  match l with
  | [] =>
      match applied with
      | [] => skip
      | _ => say (StillRefused (opcode c) again applied)
      end
  | (op, pl, why) :: l' =>
      p ← self;
      payload ← lift (pl (ctx p));
      r ← try_except is_hci_error
        (fix_ ← ask op payload (seconds 1);
         if negb (fst fix_ =? 0)
         then say (FixRefused op (fst fix_)) ;; mret NotApplied
         else
           block ← lift (build c (ctx p));
           again ← ask (opcode c) block (seconds 3);
           mret (Again (fst again)))
        (λ _, say (RetryIncomplete (opcode c)) ;; mret Incomplete);
      match r with
      | NotApplied => retry_loop c l' applied again
      | Incomplete => skip
      | Again status =>
          if status =? 0 then
            say (WorksAfter (opcode c) (applied ++ [why])) ;;
            ask (opcode c) [0] (seconds 1) ;; skip
          else retry_loop c l' (applied ++ [why]) status
      end
  end.

Definition refusal (c : command) (status : Z) : P unit :=
  if bool_decide (status ∈ expect c) then
    update (λ p, p<|n_expected := S (n_expected p)|>) ;; report c "ok"
  else
    update (λ p, p<|n_refused := S (n_refused p)|>) ;; report c "  " ;;
    retry_loop c (retry_after c) [] status.

(** *** send *)

(** [undo_payload] and the command that undoes a row. *)
Definition run_undo (u : Z * (probe_ctx → res bytes)) : P unit :=
  p ← self;
  payload ← lift (snd u (ctx p));
  ask (fst u) payload (seconds 1) ;; skip.

(** The answer to a row, [None] when there was none. *)
Definition send_row (c : command) : P (option (Z * bytes)) :=
  p ← self;
  let timeout := if bool_decide (reply c = NONE) then ms 500 else seconds 3 in
  try_except is_hci_error
    (block ← lift (build c (ctx p)); r ← ask (opcode c) block timeout; mret (Some r))
    (λ e,
      if is_gone e then report c "!!" ;; raise e
      else if bool_decide (reply c = NONE) then
        update (λ p, p<|n_silent := S (n_silent p)|>) ;; report c "ok" ;; mret None
      else
        update (λ p, p<|n_unknown := S (n_unknown p)|>) ;; report c "!!" ;; mret None).

(** What the answer counts as. *)
Definition judge (c : command) (answer : option (Z * bytes)) : P unit :=
  match answer with
  | None => skip
  | Some (status, data) =>
      if (status =? 0) && bool_decide (reply c = NONE) then
        update (λ p, p<|n_unknown := S (n_unknown p)|>) ;; report c "!!"
      else if status =? 0 then
        update (λ p, p<|n_ok := S (n_ok p)|>) ;; report c "ok"
      else if status =? 0x01 then
        update (λ p, p<|n_unknown := S (n_unknown p)|>) ;; report c "!!"
      else refusal c status
  end.

(** The row's undo: at once, or noted for [unwind]. *)
Definition arrange_undo (c : command) : P unit :=
  match undo c with
  | None => skip
  | Some u =>
      if undo_now c then
        p ← self;
        when (negb (settle_ms (p_args p) =? 0)) (sleep (ms (settle_ms (p_args p)))) ;;
        try_except is_hci_error (run_undo u)
          (λ e, if is_gone e then report c "!!" ;; raise e else skip)
      else update (λ p, p<|undo_list := undo_list p ++ [u]|>)
  end.

Definition send (c : command) : P unit :=
  p ← self;
  if negb (probe_available c p) then
    update (λ p, p<|skipped := {[opcode c]} ∪ skipped p|>) ;;
    when (verbose (p_args p)) (report c "--")
  else
    update (λ p, p<|skipped := skipped p ∖ {[opcode c]}|>) ;;
    answer ← send_row c;
    judge c answer ;;
    arrange_undo c.

(** *** unwind *)

Fixpoint unwind_loop (l : list (Z * (probe_ctx → res bytes))) : P unit :=
  match l with
  | [] => skip
  | u :: l' => try_except is_err (run_undo u) (λ _, skip) ;; unwind_loop l'
  end.

Definition unwind : P unit :=
  p ← self;
  unwind_loop (rev (undo_list p)) ;;
  update (λ p, p<|undo_list := []|>).

(** *** replay, attempt, bisect *)

Definition replay (c : command) : P bool :=
  p ← self;
  if negb (probe_available c p) || (opcode c =? 0x0C03) then mret true
  else
    let window := if bool_decide (reply c = NONE) then ms 500 else seconds 1 in
    try_except is_err
      (block ← lift (build c (ctx p));
       ask (opcode c) block window ;;
       match undo c with
       | Some u =>
           if undo_now c then
             when (negb (settle_ms (p_args p) =? 0)) (sleep (ms (settle_ms (p_args p)))) ;;
             run_undo u ;; mret true
           else mret true
       | None => mret true
       end)
      (λ _, mret (bool_decide (reply c = NONE))).

Fixpoint replay_rows (rows : list command) (quiet_run : nat) : P unit :=
  match rows with
  | [] => skip
  | c :: rows' =>
      answered ← replay c;
      if answered : bool then replay_rows rows' 0
      else if (3 <=? S quiet_run)%nat
      then raise (HciGone (Lit "controller stopped answering"))
      else replay_rows rows' (S quiet_run)
  end.

(** Does the target work after these rows and the ones it needs? *)
Definition attempt (target : command) (fixed rows : list command) : P Z :=
  preamble ;;
  replay_rows (rows ++ fixed) 0 ;;
  p ← self;
  block ← lift (build target (ctx p));
  r ← ask (opcode target) block (seconds 3);
  match undo target with Some u => run_undo u | None => skip end ;;
  mret (fst r).

(** An attempt and the line that reports it. *)
Definition try_rows (target : command) (fixed rows : list command) : P Z :=
  status ← attempt target fixed rows;
  say (Attempted (length rows) status) ;;
  mret status.

Fixpoint bisect_loop (fuel : nat) (target : command) (fixed pool : list command)
    (low high : nat) : P nat :=
  match fuel with
  | O => λ s, (Stuck, s)
  | S fuel' =>
      if (1 <? high - low)%nat then
        let mid := ((low + high) / 2)%nat in
        status ← try_rows target fixed (take mid pool);
        if status =? 0 then bisect_loop fuel' target fixed pool mid high
        else bisect_loop fuel' target fixed pool low mid
      else mret high
  end.

(** What a bisection prints in the end. *)
Inductive bisected : Type :=
  | NotInTable
  | NotAPhaseRow
  | FailsAlone (status : Z)
  | WorksWithAll
  | Culprit (high : nat) (culprit : command) (enough_alone : bool).

Definition phase_rows (target : command) : list command :=
  filter (λ c, phase c = phase target) COMMANDS.

(** [phase_rows[:phase_rows.index(target)]]. *)
Fixpoint rows_before (op : Z) (rows : list command) : list command :=
  match rows with
  | [] => []
  | c :: rows' => if opcode c =? op then [] else c :: rows_before op rows'
  end.

Definition bisect_pool (target : command) (p : probe) : list command :=
  if bool_decide (phase target = PHASE_LEGACY)
  then filter (λ c, (bool_decide (phase c = PHASE_ANY) && probe_available c p
                     && negb (opcode c =? 0x0C03)) = true) COMMANDS
  else [].

Definition bisect_with (target : command) (fixed pool : list command) : P bisected :=
  clean ← try_rows target fixed [];
  dirty ← try_rows target fixed pool;
  if negb (clean =? 0) then mret (FailsAlone clean)
  else if dirty =? 0 then mret WorksWithAll
  else
    high ← bisect_loop (S (length pool)) target fixed pool 0 (length pool);
    (* an empty pool leaves [high] at 0, and [pool[-1]] fails as [pool[0]] does *)
    culprit ← lift (idx pool (high - 1));
    alone ← attempt target fixed [culprit];
    mret (Culprit high culprit (negb (alone =? 0))).

Definition bisect (target_opcode : Z) : P bisected :=
  match BY_OPCODE !! target_opcode with
  | None => mret NotInTable
  | Some target =>
      if negb (existsb (λ c, opcode c =? opcode target) (phase_rows target))
      then mret NotAPhaseRow
      else
        p ← self;
        bisect_with target (rows_before (opcode target) (phase_rows target))
          (bisect_pool target p)
  end.

(** *** run_phase *)

Definition in_only (o : option (list Z)) (op : Z) : bool :=
  match o with Some l => bool_decide (op ∈ l) | None => true end.

Definition run_phase (ph : phase_kind) : P unit :=
  for_each COMMANDS (λ c,
    p ← self;
    if negb (bool_decide (phase c = ph)) then skip
    else if negb (in_only (only (p_args p)) (opcode c)) then skip
    else if opcode c =? 0x0C03 then skip
    else send c).

(** *** Finding a peer *)

Definition OP_EXT_ADV_PARAMS : Z := 0x2036.

(** [while hci.read_packet(0.1) is not None], then an empty queue. *)
Fixpoint drain_loop (fuel : nat) : M (dev (T:=T)) unit :=
  match fuel with
  | O => λ s, (Stuck, s)
  | S fuel' =>
      p ← read_packet (ms 100);
      match p with
      | Some _ => drain_loop fuel'
      | None => on_hci (modify (set_pending []))
      end
  end.

Definition drain : M (dev (T:=T)) unit := fuel ← gets load; drain_loop (S fuel).

(** What the wait for a connection does with a packet: [handle, role, peer,
    peer type] of the first connection that succeeded. *)
Definition connected_step (_ : unit) (pkt : packet)
  : M (dev (T:=T)) (unit + (Z * Z * bytes * Z)) :=
  if negb (is_event EVT_LE_META pkt) then mret (inl tt)
  else
    info ← lift (parse_connection (body pkt));
    match info with
    | None => mret (inl tt)
    | Some c =>
        if negb (ci_status c =? 0) then mret (inl tt)
        else
          peer_type ← lift (idx (body pkt) 5);
          mret (inr (ci_handle c, ci_role c, ci_peer c, peer_type))
    end.

Definition adv_name : bytes := [72; 67; 73; 45; 80; 82; 79; 66; 69].

Definition probe_wait_for_peer : P (option Z) :=
  let adv := [2; 0x01; 0x06; blen adv_name + 1; 0x09] ++ adv_name in
  on_dev drain ;;
  p ← self;
  addr_type ← lift (mkbytes [c_addr_type (ctx p)]);
  must OP_EXT_ADV_PARAMS
    ([0x00] ++ le_bytes 2 0x0013 ++ [0xa0; 0; 0] ++ [0xf0; 0; 0] ++ [0x07] ++ addr_type
     ++ [0x00] ++ zeros 6 ++ [0x00] ++ [0x7F] ++ [1; 0; 1; 0; 0]) ;;
  when ((c_addr_type (ctx p) =? 0x01) && negb (bool_decide (identity p = [])))
    (must 0x2035 ([0x00] ++ identity p) ;; skip) ;;
  must 0x2037 ([0x00; 0x03; 0x01; blen adv] ++ adv) ;;
  must 0x2039 ([0x01; 0x01; 0x00] ++ le_bytes 2 0 ++ [0]) ;;
  found ← on_dev (poll (λ _, ms 500) connected_step (ms 500)
                    (seconds (wait_connect (p_args p))) tt);
  handle ← (match found with
            | inr (h, r, peer_addr, peer_type) =>
                update (λ p, p<|role := Some r|><|peer := Some (peer_addr, peer_type)|>) ;;
                mret (Some h)
            | inl _ => mret None
            end);
  ask 0x2039 [0x00; 0x00] (seconds 3) ;;
  mret handle.
End probe.

(** *** The connected phase: the handlers of the peer's packets *)

Record linked : Type := Linked {
  l_probe : probe; l_att : AttServer.att; l_smp : Peripheral.per; l_answered : list Z }.

Section connected.
Context {T : Type} `{!Transport T}.
Definition L (X : Type) : Type := M (dev (T:=T) * linked) X.

Definition with_probe {X} (m : P X) : L X :=
  zoom (λ s, (fst s, l_probe (snd s)))
       (λ ds s, (fst ds, (snd s)<|l_probe := snd ds|>)) m.
Definition with_att {X} (m : AttServer.A (T:=T) X) : L X :=
  zoom (λ s, (fst s, l_att (snd s)))
       (λ ds s, (fst ds, (snd s)<|l_att := snd ds|>)) m.
Definition with_smp {X} (m : Peripheral.P (T:=T) X) : L X :=
  zoom (λ s, (fst s, l_smp (snd s)))
       (λ ds s, (fst ds, (snd s)<|l_smp := snd ds|>)) m.

(** [probe_feed]: the L2CAP payload of an ACL packet, to every handler. *)
Definition probe_feed (pkt : packet) : L unit :=
  if negb (kind pkt =? H4_ACL) || (length (body pkt) <? 8)%nat then skip
  else
    length_ ← lift (unpack_H (slice 2 4 (body pkt)));
    let l2cap := slice 4 (4 + Z.to_nat length_) (body pkt) in
    if (length l2cap <? 4)%nat then skip
    else
      plen ← lift (unpack_H (slice 0 2 l2cap));
      cid ← lift (unpack_H (slice 2 4 l2cap));
      let payload := slice 4 (4 + Z.to_nat plen) l2cap in
      with_att (AttServer.feed payload cid) ;;
      with_smp (Peripheral.feed payload cid).

(** [queued = hci.pending; hci.pending = []; for packet in queued: ...]. *)
Definition feed_pending : L unit :=
  queued ← on_dev (gets (λ s : dev (T:=T), pending (snd s)));
  on_dev (on_hci (modify (set_pending []))) ;;
  for_each queued probe_feed.

Definition feed_next : L unit :=
  pkt ← on_dev (read_packet (ms 200));
  match pkt with Some pkt => probe_feed pkt | None => skip end.

(** [while time.time() < deadline and not stop: body], each turn of which
    takes 200 ms or uses up input. *)
Fixpoint while_time (fuel : nat) (deadline : Z) (stop : hci T → bool) (body : L unit) : L unit :=
  match fuel with
  | O => λ s, (Stuck, s)
  | S fuel' =>
      s ← on_dev getS;
      if (deadline <=? fst s) || stop (snd s) then skip
      else body ;; while_time fuel' deadline stop body
  end.

Definition while_for (timeout : Z) (stop : hci T → bool) (body : L unit) : L unit :=
  s ← on_dev getS;
  while_time (poll_fuel (ms 200) timeout s) (fst s + timeout) stop body.

Definition probe_service (secs : Z) : L unit :=
  while_for (seconds secs) (λ _, false) (feed_pending ;; feed_next).

(** [probe_answer_ltk]. *)
Definition probe_answer_ltk : L unit :=
  s ← getS;
  match ltk_request (snd (fst s)), l_answered (snd s) with
  | Some handle, [] =>
      on_own (modify (λ l, l<|l_answered := [handle]|>)) ;;
      try_except is_err
        (payload ← lift (pack [FH handle]);
         on_dev (command_t 0x201B payload (seconds 1) true) ;; skip)
        (λ _, skip)
  | _, _ => skip
  end.

Definition has_request (h : hci T) : bool :=
  match ltk_request h with Some _ => true | None => false end.
Definition has_encryption (h : hci T) : bool :=
  match encryption h with Some _ => true | None => false end.

(** [probe_wait_for_ltk]. *)
Definition probe_wait_for_ltk (wait_ltk : Z) : L unit :=
  h ← on_dev (gets snd);
  if has_request h then skip
  else
    while_for (seconds wait_ltk) has_request (feed_pending ;; feed_next) ;;
    s ← getS;
    match ltk_request (snd (fst s)) with
    | None => skip
    | Some handle =>
        match Peripheral.stk (l_smp (snd s)) with
        | None =>
            payload ← lift (pack [FH handle]);
            on_dev (command_t 0x201B payload (seconds 1) true) ;; skip
        | Some key =>
            payload ← lift (pack [FH handle]);
            r ← on_dev (command_t 0x201A (payload ++ key) (seconds 2) true);
            if negb (fst r =? 0) then skip
            else while_for (seconds 3) has_encryption feed_next
        end
    end.

(** [list.sort(key=...)] for keys among [keys], which ascend: stable. *)
Definition sort_by_key {X} (keys : list Z) (key : X → Z) (l : list X) : list X :=
  concat ((λ k, filter (λ x, key x = k) l) <$> keys).

Definition reply_order (c : command) : Z :=
  if opcode c =? 0x201B then 0 else if opcode c =? 0x201A then 1 else -1.

(** The rows that need a link, in the order they are sent. *)
Definition linked_rows (request : bool) : list command :=
  let rows := filter (λ c, NEEDS_CONN ∈ needs c) COMMANDS in
  sort_by_key [0; 1] (λ c, if opcode c =? 0x0406 then 1 else 0)
    (if request then sort_by_key [-1; 0; 1] reply_order rows else rows).

Definition set_handle (h : Z) (p : probe) : probe :=
  p<|ctx := Ctx h (c_addr_type (ctx p)) (c_public_addr (ctx p))|>.

(** What [cmd_probe] does once a peer has connected. *)
Definition connected_phase (handle : Z) : L unit :=
  l ← gets snd;
  let a := p_args (l_probe l) in
  probe_service (discover_secs a) ;;
  when (negb (wait_ltk a =? 0)) (probe_wait_for_ltk (wait_ltk a)) ;;
  h ← on_dev (gets snd);
  (match ltk_request h with
   | Some request => with_probe (update (set_handle request))
   | None => skip
   end) ;;
  for_each (linked_rows (has_request h)) (λ c,
    with_probe (send c) ;; feed_pending ;; probe_answer_ltk) ;;
  with_probe unwind ;;
  payload ← lift (pack [FH handle; FB 0x13]);
  on_dev (command_t 0x0406 payload (seconds 3) true) ;; skip.

(** Creating the handlers and running the phase with them. *)
Definition run_connected (handle : Z) : P unit := λ s,
  let p := snd s in
  match AttServer.init handle adv_name, peer p with
  | Ok att, Some (peer_addr, peer_type) =>
      let smp := Peripheral.init handle (identity p) (c_addr_type (ctx p)) peer_addr peer_type in
      let '(r, (d, l)) := connected_phase handle (fst s, Linked p att smp []) in
      (r, (d, l_probe l))
  | Exc e, _ => (Exc e, s)
  | _, _ => (Exc TypeError, s)
  end.

(** *** cmd_probe *)

(** The state a run starts from, [unset] until the controller was asked. *)
Definition start_probe (a : args) (identity : bytes) (addr_type : Z) : probe :=
  Probe a (Ctx (default UNUSED_HANDLE (a_handle a)) addr_type (zeros 6)) identity
    None None false [] 0 0 0 0 0 ∅ 0 [].

(** Is there a connection behind the handle on the command line? *)
Definition ask_handle : P unit :=
  p ← self;
  match a_handle (p_args p) with
  | None => skip
  | Some h =>
      payload ← lift (pack [FH h]);
      r ← ask 0x2015 payload (seconds 3);
      update (λ p, p<|live_handle := fst r =? 0|>)
  end.

Definition ask_public_addr : P unit :=
  r ← must OP_READ_BD_ADDR [];
  update (λ p, p<|ctx := Ctx (c_handle (ctx p)) (c_addr_type (ctx p)) (take 6 (snd r))|>).

(** The three phases of the run and the teardown rows. *)
Definition run_phases : P unit :=
  check_alive ;;
  run_phase PHASE_ANY ;;
  restarted ← check_alive;
  p ← self;
  when (restarted && (c_addr_type (ctx p) =? 0x01))
    (ask OP_LE_SET_RANDOM_ADDRESS (identity p) (seconds 3) ;; skip) ;;
  run_phase PHASE_LEGACY ;;
  check_alive ;;
  unwind ;;
  preamble ;;
  check_alive ;;
  run_phase PHASE_EXTENDED ;;
  check_alive ;;
  unwind ;;
  for_each TEARDOWN send.

(** The part after the phases: reach the rows that need a link. *)
Definition run_link : P unit :=
  p ← self;
  when (negb (wait_connect (p_args p) =? 0) && negb (live_handle p))
    (handle ← probe_wait_for_peer;
     match handle with
     | None => skip
     | Some h =>
         update (λ p, (set_handle h p)<|live_handle := true|>
           <|p_args := (λ a, Args (Some h) (consent a) (no_adv_set a) (verbose a)
              (wait_connect a) (discover_secs a) (wait_ltk a) (settle_ms a) (bisect_row a)
              (only a)) (p_args p)|>) ;;
         run_connected h
     end).

(** The body of the run in the state [start_probe]; a bisection ends it early,
    and [HciGone] ends a bisection. *)
Definition run_probe : P (option Z) :=
  preamble ;;
  ask_handle ;;
  ask_public_addr ;;
  p ← self;
  match bisect_row (p_args p) with
  | Some op =>
      try_except is_gone (bisect op ;; skip) (λ _, skip) ;; mret None
  | None =>
      run_phases ;;
      run_link ;;
      p ← self;
      mret (Some (if (0 <? n_unknown p)%nat then 1 else 0))
  end.

(** [cmd_probe]: the exit code, and the probe's findings. *)
Definition cmd_probe (a : args) : M (dev (T:=T)) (option Z * probe) :=
  id ← Hci.identity None;
  let '(address, addr_type, _) := (id : bytes * Z * id_source) in
  (λ d, match run_probe (d, start_probe a address addr_type) with
        | (Ok code, (d', p)) => (Ok (code, p), d')
        | (Exc e, (d', _)) => (Exc e, d')
        | (Stuck, (d', _)) => (Stuck, d')
        end) : M (dev (T:=T)) (option Z * probe).
End connected.
End Probe.
