(* ===== verification/ProbeLaws.v ===== *)
(** * ProbeLaws: properties of the command probe

    Which commands a run can send, whatever the controller answers, and that a
    run ends. *)

From coqutil Require Import Datatypes.RecordSetters.
From stdpp Require Import gmap.
From S2P Require Export Probe.
Import TriangleBracketNotations.
#[local] Open Scope Z_scope.

Module ProbeLaws.
Import Probe.

(** ** What a run writes *)

(** The opcodes a run sends on its own account: setting up, checking that the
    controller is alive; and to reach and serve a peer. *)
Definition base_ops : list Z :=
  [OP_RESET; OP_SET_EVENT_MASK; OP_LE_SET_EVENT_MASK;
  OP_LE_SET_RANDOM_ADDRESS; OP_READ_BD_ADDR; OP_VS_READ_STATIC_ADDRESSES;
  OP_VS_READ_COUNTERS; 0x2015].
Definition link_ops : list Z :=
  [OP_EXT_ADV_PARAMS; 0x2035; 0x2037; 0x2039; 0x201A; 0x201B;
  0x2017; 0x2018; OP_DISCONNECT].

Section contained.

Context {T : Type} `{Tr : !Transport T} `{TL : !TransportLaws T}.
(** The opcodes the run may use, whether it may send ACL data, and the command
    line it was given. *)
Context (ops : list Z) (acl : bool) (a0 : args).

Definition probe_packet (pkt : bytes) : Prop :=
  (acl = true ∧ ∃ rest, pkt = H4_ACL :: rest) ∨ (∃ op payload, op ∈ ops ∧ pkt = command_packet op payload).

(** A command and parameters that may be sent to undo something. *)
Definition entry_in (u : Z * (probe_ctx → res bytes)) : Prop := fst u ∈ ops ∧ quiet (snd u).

(** A row all of whose commands are among [ops]. *)
Definition row_in (c : command) : Prop :=
  opcode c ∈ ops ∧ quiet (payload c) ∧
  (∀ u, undo c = Some u → entry_in u) ∧ Forall (λ r, entry_in (fst r)) (retry_after c).

(** The options no run changes. *)
Definition frozen (a : args) : bool * Z * option Z := (consent a, wait_connect a, bisect_row a).

(** What holds of the probe's state throughout a run. *)
Definition run_ok (p : probe) : Prop :=
  frozen (p_args p) = frozen a0 ∧ 0 ≤ settle_ms (p_args p) ∧ Forall entry_in (undo_list p) ∧
  is_byte (c_addr_type (ctx p)) ∧ from_option (λ a, is_byte (snd a)) True (peer p).

Context (Hbase : ∀ op, op ∈ base_ops → op ∈ ops).

Abbreviation safe := (runs (both_ok (T:=T) run_ok) (dev_frame (T:=T) probe_packet) engine_exn).

Lemma ask_safe op payload timeout : op ∈ ops → safe (ask (T:=T) op payload timeout).
Proof.
  intros Hop. apply runs_on_dev, command_trace. right. by exists op, payload.
Qed.

Lemma must_safe op payload : op ∈ ops → safe (must (T:=T) op payload).
Proof.
  intros Hop. apply runs_on_dev, command_trace. right. by exists op, payload.
Qed.

Lemma say_safe l : safe (say (T:=T) l).
Proof. apply runs_on_own. by intros []. Qed.

Lemma sleep_safe us : 0 ≤ us → safe (sleep (T:=T) us).
Proof.
  intros Hus. unfold sleep. rewrite (proj2 (Z.ltb_ge _ _)) by done.
  apply runs_on_dev, runs_modify. intros [now h] Hd. split; [exact Hd|].
  split; [|by apply wrote_nothing].
  unfold both_frame, load_frame, credit_frame, load, credit_balance, acl_sent; cbn.
  split_and!; lia.
Qed.

Lemma lift_safe {A} p (c : probe_ctx) (k : bytes → M (dev (T:=T) * probe) A) :
  quiet p → (∀ bs, safe (k bs)) → safe (lift (p c) ≫= k).
Proof.
  intros Hq Hk. destruct (Hq c) as [Hs He]. apply runs_bind; [apply _| |exact Hk].
  apply runs_lift; [apply _|done|]. intros e E. right; left. by apply He.
Qed.

Lemma update_safe f :
  (∀ p, p_args (f p) = p_args p) → (∀ p, undo_list (f p) = undo_list p) →
  (∀ p, c_addr_type (ctx (f p)) = c_addr_type (ctx p)) → (∀ p, peer (f p) = peer p) →
  safe (update (T:=T) f).
Proof.
  intros Ha Hu Hc Hp. apply runs_on_own. intros p (?&?&?&?). unfold run_ok.
  by rewrite Ha, Hu, Hc, Hp.
Qed.

(** One step of the proofs below, by the shape of the program. *)
Ltac safe_step :=
  lazymatch goal with
  | |- runs _ _ _ (self ≫= _) => apply runs_own_bind; intros ? ?
  | |- runs _ _ _ (lift (_ (ctx _)) ≫= _) => apply lift_safe; [|intros ?]
  | |- runs _ _ _ (lift (build _ _) ≫= _) => apply lift_safe; [|intros ?]
  | |- runs _ _ _ (mbind _ _) => apply runs_bind; [apply _| |intros ?]
  | |- runs _ _ _ (update _) => apply update_safe; intros []; reflexivity
  | |- runs _ _ _ (say _) => apply say_safe
  | |- runs _ _ _ (report _ _) => apply say_safe
  | |- runs _ _ _ (must _ _) => apply must_safe
  | |- runs _ _ _ (ask _ _ _) => apply ask_safe
  | |- runs _ _ _ (mret _) => apply runs_ret, _
  | |- runs _ _ _ (raise _) => apply runs_raise; [apply _|assumption]
  | |- runs _ _ _ skip => apply runs_skip, _
  | |- runs _ _ _ (when _ _) => apply runs_when; [apply _|intros ?]
  | |- runs _ _ _ (if ?b then _ else _) => destruct b eqn:?
  | |- runs _ _ _ (match ?x with _ => _ end) => destruct x eqn:?
  end.
Ltac safe := repeat safe_step; try done.

(** A handler of engine exceptions that is safe itself. *)
Lemma try_safe {A} catches (m : M (dev (T:=T) * probe) A) h :
  safe m → (∀ e, engine_exn e → safe (h e)) → safe (try_except catches m h).
Proof. intros Hm Hh. eapply runs_try_except; [apply _|exact Hm|auto|auto]. Qed.

Lemma base_in op : op ∈ base_ops → op ∈ ops.
Proof. apply Hbase. Qed.

Ltac base := apply base_in, list_elem_of_In; cbn [In base_ops]; auto 10.

Lemma preamble_safe : safe (preamble (T:=T)).
Proof. unfold preamble. safe; base. Qed.

Lemma read_counters_trace :
  runs engine_ok (trace_frame probe_packet) engine_exn (read_counters (T:=T)).
Proof.
  unfold read_counters. apply runs_bind; [apply _| |].
  - apply command_trace. right. exists OP_VS_READ_COUNTERS, []. split; [base|done].
  - intros [st data]. destruct (negb _); [by apply runs_ret, _|].
    destruct data; by apply runs_ret, _.
Qed.

Lemma check_alive_safe : safe (check_alive (T:=T)).
Proof.
  unfold check_alive. apply runs_bind; [apply _|apply runs_on_dev, read_counters_trace|].
  intros [values|]; [|by apply runs_ret, _].
  apply runs_bind; [apply _| |intros count; safe].
  apply runs_lift; [apply _|by unfold idx; destruct (values !! 0%nat)|].
  unfold idx. destruct (values !! 0%nat); [done|]. intros e [= <-]. by right; right.
Qed.

Lemma run_undo_safe u : entry_in u → safe (run_undo (T:=T) u).
Proof. intros [Hop Hq]. unfold run_undo. safe. Qed.

Lemma retry_loop_safe c l applied again :
  row_in c → Forall (λ r, entry_in (fst r)) l → safe (retry_loop (T:=T) c l applied again).
Proof.
  intros Hc Hl. revert applied again.
  induction Hl as [|[[op pl] why] l [Hop Hq] _ IH]; intros applied again; cbn [retry_loop].
  { safe. }
  destruct Hc as (Hco&Hcq&_).
  apply runs_own_bind; intros p Hp. apply lift_safe; [exact Hq|intros block].
  apply runs_bind; [apply _| |].
  - apply try_safe; [|intros e _; safe]. safe.
  - intros [| |status]; [by apply IH|safe|]. destruct (status =? 0); [safe|by apply IH].
Qed.

Lemma refusal_safe c status : row_in c → safe (refusal (T:=T) c status).
Proof.
  intros Hc. unfold refusal. destruct (bool_decide _); [safe|].
  apply runs_bind; [apply _|safe|intros _]. apply runs_bind; [apply _|safe|intros _].
  apply retry_loop_safe; [done|apply Hc].
Qed.

Lemma send_row_safe c : row_in c → safe (send_row (T:=T) c).
Proof.
  intros (Hop&Hq&_). unfold send_row. apply runs_own_bind; intros p Hp. cbn zeta.
  apply try_safe; [safe|]. intros e He. safe.
Qed.

Lemma judge_safe c answer : row_in c → safe (judge (T:=T) c answer).
Proof.
  intros Hc. unfold judge. destruct answer as [[status data]|]; [|safe].
  repeat case_match; try (safe; fail). by apply refusal_safe.
Qed.

Lemma arrange_undo_safe c : row_in c → safe (arrange_undo (T:=T) c).
Proof.
  intros (_&_&Hu&_). unfold arrange_undo. destruct (undo c) as [u|]; [|safe].
  specialize (Hu u eq_refl). destruct (undo_now c).
  - apply runs_own_bind; intros p (_&Hset&_). apply runs_bind; [apply _| |intros _].
    + apply runs_when; [apply _|intros _]. apply sleep_safe. unfold ms. lia.
    + apply try_safe; [by apply run_undo_safe|]. intros e He. safe.
  - apply runs_on_own. intros [] (?&?&Hl&?). cbn in *. split; [done|split; [done|split; [|done]]].
    apply Forall_app. split; [done|]. by apply Forall_singleton.
Qed.

(** Which rows a run sends: those whose needs are met. *)
Definition sendable_row (c : command) : Prop :=
  consent a0 = true ∨ NEEDS_CONSENT ∉ needs c.

Lemma available_row c p : run_ok p → probe_available c p = true → sendable_row c.
Proof.
  intros ([= Hc _ _]&_) Hav. unfold sendable_row, probe_available in *. rewrite Hc in Hav.
  destruct (consent a0); [by left|]. right. intros Hin.
  rewrite (bool_decide_eq_true_2 (NEEDS_CONSENT ∈ needs c)) in Hav by done.
  cbn in Hav. repeat case_match; done.
Qed.

Lemma send_safe c : (sendable_row c → row_in c) → safe (send (T:=T) c).
Proof.
  intros Hc. unfold send. apply runs_own_bind; intros p Hp.
  destruct (probe_available c p) eqn:Hav; cbn [negb]; [|safe].
  assert (Hr : row_in c) by (by apply Hc, (available_row c p)).
  apply runs_bind; [apply _|safe|intros _].
  apply runs_bind; [apply _|by apply send_row_safe|intros answer].
  apply runs_bind; [apply _|by apply judge_safe|intros _]. by apply arrange_undo_safe.
Qed.

Lemma unwind_loop_safe l : Forall entry_in l → safe (unwind_loop (T:=T) l).
Proof.
  induction 1 as [|u l Hu _ IH]; cbn [unwind_loop]; [safe|].
  apply runs_bind; [apply _| |intros _; exact IH].
  apply try_safe; [by apply run_undo_safe|]. intros e _. safe.
Qed.

Lemma unwind_safe : safe (unwind (T:=T)).
Proof.
  unfold unwind. apply runs_own_bind; intros p (_&_&Hl&_).
  apply runs_bind; [apply _|by apply unwind_loop_safe, Forall_rev|intros _].
  apply runs_on_own. by intros [] (?&?&_&?).
Qed.

(** *** Phases *)

Lemma run_phase_safe ph :
  (∀ c, c ∈ COMMANDS → sendable_row c → row_in c) → safe (run_phase (T:=T) ph).
Proof.
  intros Hrows. unfold run_phase. apply runs_for_each; [apply _|]. intros c Hc.
  apply runs_own_bind; intros p Hp.
  destruct (negb _); [safe|]. destruct (negb _); [safe|]. destruct (_ =? _); [safe|].
  apply send_safe. by apply Hrows.
Qed.

Lemma run_phases_safe :
  (∀ c, c ∈ COMMANDS ++ TEARDOWN → sendable_row c → row_in c) → safe (run_phases (T:=T)).
Proof.
  intros Hrows.
  assert (Hph : ∀ ph, safe (run_phase (T:=T) ph))
    by (intros ph; apply run_phase_safe; intros c Hc; apply Hrows, elem_of_app; by left).
  unfold run_phases.
  apply runs_bind; [apply _|apply check_alive_safe|intros _].
  apply runs_bind; [apply _|apply Hph|intros _].
  apply runs_bind; [apply _|apply check_alive_safe|intros restarted].
  apply runs_own_bind; intros p Hp.
  apply runs_bind; [apply _| |intros _]; [safe; base|].
  apply runs_bind; [apply _|apply Hph|intros _].
  apply runs_bind; [apply _|apply check_alive_safe|intros _].
  apply runs_bind; [apply _|apply unwind_safe|intros _].
  apply runs_bind; [apply _|apply preamble_safe|intros _].
  apply runs_bind; [apply _|apply check_alive_safe|intros _].
  apply runs_bind; [apply _|apply Hph|intros _].
  apply runs_bind; [apply _|apply check_alive_safe|intros _].
  apply runs_bind; [apply _|apply unwind_safe|intros _].
  apply runs_for_each; [apply _|]. intros c Hc. apply send_safe, Hrows, elem_of_app. by right.
Qed.

Lemma ask_handle_safe : safe (ask_handle (T:=T)).
Proof.
  unfold ask_handle. apply runs_own_bind; intros p Hp.
  destruct (a_handle (p_args p)) as [h|]; [|safe].
  apply (lift_safe (λ _, pack [FH h]) (ctx p)); [apply quiet_pack|intros bs]. safe; base.
Qed.

Lemma ask_public_addr_safe : safe (ask_public_addr (T:=T)).
Proof. unfold ask_public_addr. safe; base. Qed.

(** *** Bisection *)

Lemma replay_safe c : row_in c → safe (replay (T:=T) c).
Proof.
  intros (Hop&Hq&Hu&_). unfold replay. apply runs_own_bind; intros p (_&Hset&_).
  destruct (_ || _); [safe|]. cbn zeta. apply try_safe; [|intros e _; safe].
  apply lift_safe; [exact Hq|intros block].
  apply runs_bind; [apply _|safe|intros _]. destruct (undo c) as [u|]; [|safe].
  specialize (Hu u eq_refl). destruct (undo_now c); [|safe].
  apply runs_bind; [apply _| |intros _].
  - apply runs_when; [apply _|intros _]. apply sleep_safe. unfold ms. lia.
  - apply runs_bind; [apply _|by apply run_undo_safe|intros _]. safe.
Qed.

Lemma replay_rows_safe rows n : Forall row_in rows → safe (replay_rows (T:=T) rows n).
Proof.
  intros Hrows. revert n. induction Hrows as [|c rows Hc _ IH]; intros n; cbn [replay_rows]; [safe|].
  apply runs_bind; [apply _|by apply replay_safe|intros answered].
  destruct answered; [apply IH|]. destruct (_ <=? _)%nat; [|apply IH].
  apply runs_raise; [apply _|by left].
Qed.

Lemma attempt_safe target fixed rows :
  row_in target → Forall row_in fixed → Forall row_in rows →
  safe (attempt (T:=T) target fixed rows).
Proof.
  intros (Hop&Hq&Hu&_) Hf Hr. unfold attempt.
  apply runs_bind; [apply _|apply preamble_safe|intros _].
  apply runs_bind; [apply _|by apply replay_rows_safe, Forall_app|intros _].
  apply runs_own_bind; intros p Hp. apply lift_safe; [exact Hq|intros block].
  apply runs_bind; [apply _|safe|intros r].
  apply runs_bind; [apply _| |intros _; safe].
  destruct (undo target) as [u|]; [apply run_undo_safe; by apply Hu|safe].
Qed.

Lemma try_rows_safe target fixed rows :
  row_in target → Forall row_in fixed → Forall row_in rows →
  safe (try_rows (T:=T) target fixed rows).
Proof.
  intros Ht Hf Hr. unfold try_rows.
  apply runs_bind; [apply _|by apply attempt_safe|intros status]. safe.
Qed.

Lemma bisect_loop_safe fuel target fixed pool low high :
  row_in target → Forall row_in fixed → Forall row_in pool →
  (high - low <= fuel)%nat → (0 < fuel)%nat →
  safe (bisect_loop (T:=T) fuel target fixed pool low high).
Proof.
  intros Ht Hf Hr. revert low high. induction fuel as [|fuel IH]; intros low high Hle Hpos; [lia|].
  cbn [bisect_loop]. destruct (Nat.ltb_spec 1 (high - low)) as [Hlt|]; [|safe]. cbn zeta.
  pose proof (Nat.div_mod_eq (low + high) 2). pose proof (Nat.mod_upper_bound (low + high) 2).
  apply runs_bind; [apply _|by apply try_rows_safe, Forall_take|intros status].
  destruct (status =? 0); apply IH; lia.
Qed.

Lemma bisect_with_safe target fixed pool :
  row_in target → Forall row_in fixed → Forall row_in pool →
  safe (bisect_with (T:=T) target fixed pool).
Proof.
  intros Ht Hf Hr. unfold bisect_with.
  apply runs_bind; [apply _|by apply try_rows_safe|intros clean].
  apply runs_bind; [apply _|by apply try_rows_safe|intros dirty].
  destruct (negb _); [safe|]. destruct (dirty =? 0); [safe|].
  apply runs_bind; [apply _| |intros high].
  { apply bisect_loop_safe; try done; lia. }
  apply runs_bind_at; [apply _| |].
  { apply runs_lift; [apply _|by unfold idx; destruct (_ !! _)|].
    unfold idx. destruct (_ !! _); [done|]. intros e [= <-]. by right; right. }
  intros culprit s s' _ E. unfold lift, idx in E. injection E as E _.
  destruct (pool !! (high - 1)%nat) as [c|] eqn:Hc; [|done]. injection E as ->.
  apply list_elem_of_lookup_2 in Hc. rewrite Forall_forall in Hr.
  apply runs_bind; [apply _| |intros alone; safe].
  apply attempt_safe; [done|done|]. apply Forall_singleton. by apply Hr.
Qed.

(** *** A run that stays off the air: no bisection, no wait for a peer *)

Lemma identity_runs :
  runs engine_ok (trace_frame probe_packet) engine_exn (Hci.identity (T:=T) None).
Proof.
  apply identity_trace; right; [exists OP_READ_BD_ADDR, []|exists OP_VS_READ_STATIC_ADDRESSES, []];
    (split; [base|done]).
Qed.

Lemma start_probe_ok addr t :
  0 ≤ settle_ms a0 → is_byte t → run_ok (start_probe a0 addr t).
Proof. intros Hset Ht. by split_and!. Qed.

(** From the body of a run to the whole command. *)
Lemma cmd_probe_from d :
  engine_ok d → 0 ≤ settle_ms a0 → safe (run_probe (T:=T)) →
  let '(r, d') := cmd_probe (T:=T) a0 d in
  engine_ok d' ∧ trace_frame probe_packet d d' ∧ (∀ e, r = Exc e → engine_exn e) ∧ r ≠ Stuck.
Proof.
  intros Hd Hset Hrun. unfold cmd_probe. unfold mbind, M_bind.
  destruct (identity_runs d Hd) as (Hd1&Hf1&He1&Hs1). pose proof (identity_type d) as Hty.
  destruct (Hci.identity None d) as [[[[addr t] src]|e|] d1]; cbn [fst snd] in *; [| |done].
  2:{ split_and!; [done|done|intros ? [= <-]; by apply He1|done]. }
  pose proof (start_probe_ok addr t Hset (Hty _ _ _ _ eq_refl)) as Hp.
  destruct (Hrun (d1, start_probe a0 addr t) (conj Hd1 Hp)) as ([Hd2 _]&Hf2&He2&Hs2).
  unfold dev_frame in Hf2.
  destruct (run_probe (d1, _)) as [[code|e|] [d2 p2]]; cbn [fst snd] in *; [| |done].
  - split_and!; [done|by etrans|done|done].
  - split_and!; [done|by etrans|intros ? [= <-]; by apply He2|done].
Qed.

Lemma run_probe_quick :
  (∀ c, c ∈ COMMANDS ++ TEARDOWN → sendable_row c → row_in c) →
  wait_connect a0 = 0 → bisect_row a0 = None → safe (run_probe (T:=T)).
Proof.
  intros Hrows Hw Hb. unfold run_probe.
  apply runs_bind; [apply _|apply preamble_safe|intros _].
  apply runs_bind; [apply _|apply ask_handle_safe|intros _].
  apply runs_bind; [apply _|apply ask_public_addr_safe|intros _].
  apply runs_own_bind; intros p ([= _ _ Hb']&_). rewrite Hb', Hb.
  apply runs_bind; [apply _|by apply run_phases_safe|intros _].
  apply runs_bind; [apply _| |intros _; safe].
  unfold run_link. apply runs_own_bind; intros p' ([= _ Hw' _]&_). rewrite Hw', Hw.
  by apply runs_skip, _.
Qed.

(** *** Reaching a peer *)

Context (Hlink : ∀ op, op ∈ link_ops → op ∈ ops).

Context (Hacl : acl = true).

Lemma link_in op : op ∈ link_ops → op ∈ ops.
Proof. apply Hlink. Qed.

Ltac link := apply link_in, list_elem_of_In; cbn [In link_ops]; auto 12.

Lemma drain_runs : runs engine_ok (trace_frame probe_packet) engine_exn (drain (T:=T)).
Proof.
  assert (H : ∀ fuel d, engine_ok d → (load d < fuel)%nat →
    let '(r, d') := drain_loop fuel d in
    engine_ok d' ∧ trace_frame probe_packet d d' ∧ (∀ e, r = Exc e → engine_exn e) ∧ r ≠ Stuck).
  { induction fuel as [|fuel IH]; intros d Hd Hf; [lia|]. cbn [drain_loop].
    unfold mbind, M_bind. pose proof (read_packet_trace probe_packet (ms 100) d Hd) as Ht.
    pose proof (read_packet_cases (ms 100) d Hd) as Hc.
    destruct (read_packet (ms 100) d) as [[[p|]|e|] d1]; cbn [fst snd] in *;
      destruct Ht as (Hd1&Hfr&He&Hs);
      [| |split_and!; [done|done|intros ? [= <-]; by apply He|done]|done].
    - destruct Hc as (_&_&_&Hl&_). specialize (IH d1 Hd1 ltac:(lia)).
      destruct (drain_loop fuel d1) as [r d2]. destruct IH as (?&?&?&?).
      split_and!; try done. by etrans.
    - destruct Hd1 as [Hwf Hp]. unfold on_hci, zoom, modify. cbn.
      split_and!; [by split| |done|done].
      destruct Hfr as [[Hl Hcr] Hw]. split; [|exact Hw].
      destruct Hc as (_&_&_&_&Hpend). unfold both_frame, load_frame, load, credit_frame,
        credit_balance, acl_sent in *. cbn in *. rewrite Hpend in Hl. cbn in Hl. done. }
  intros d Hd. unfold drain, gets, mbind, M_bind.
  specialize (H (S (load d)) d Hd ltac:(lia)). by destruct (drain_loop _ d).
Qed.

Lemma connected_step_runs u pkt R `{!PreOrder R} :
  runs engine_ok R engine_exn (connected_step (T:=T) u pkt).
Proof.
  unfold connected_step. destruct (negb _); [by apply runs_ret, _|].
  destruct (parse_connection_total (body pkt)) as [info E].
  eapply runs_lift_ok; [exact E|]. destruct info as [c|]; [|by apply runs_ret, _].
  destruct (negb _); [by apply runs_ret, _|].
  apply runs_bind; [apply _|apply lift_idx_runs; apply _|intros]. by apply runs_ret, _.
Qed.

Lemma poll_connected_runs timeout :
  runs engine_ok (trace_frame probe_packet) engine_exn
    (poll (T:=T) (λ _, ms 500) connected_step (ms 500) timeout tt).
Proof.
  intros d Hd. assert (Hp : runs engine_ok both_frame engine_exn
    (poll (T:=T) (λ _, ms 500) connected_step (ms 500) timeout tt)).
  { apply poll_runs; try done; intros; try apply connected_step_runs; try apply _.
    cbn beta. lia. }
  destruct (Hp d Hd) as (?&?&?&?). split_and!; try done. split; [done|].
  unfold poll, gets, mbind, M_bind. apply (poll_loop_rel (wrote probe_packet) _ _ _ _ _ _ engine_exn).
  - intros timeout' d' Hd'. by apply wrote_nothing, read_packet_sent.
  - intros u p _. apply connected_step_runs, _.
  - done.
Qed.

(** The peer address type comes off the wire. *)
Lemma poll_connected_byte timeout d h r pa pt d' :
  engine_ok d →
  poll (T:=T) (λ _, ms 500) connected_step (ms 500) timeout tt d = (Ok (inr (h, r, pa, pt)), d') →
  is_byte pt.
Proof.
  intros Hd. unfold poll, gets, mbind, M_bind. intros Hp.
  apply (poll_loop_result (λ a : Z * Z * bytes * Z, is_byte (snd a)) _ _ (λ _ _, True) engine_exn)
    in Hp; [exact Hp| | |exact Hd].
  - intros u p _. apply connected_step_runs, _.
  - intros u p s [[[h' r'] pa'] pt'] s' [_ Hb]. unfold connected_step.
    destruct (negb _); [done|]. unfold lift, mbind, M_bind.
    destruct (parse_connection (body p)) as [[c|]|e|]; [|done|done|done].
    destruct (negb _); [done|]. unfold idx.
    destruct (body p !! 5%nat) as [x|] eqn:Hx; [|done]. intros [= <- <- <- <- <-].
    by apply (bytes_ok_lookup _ _ _ Hb Hx).
Qed.

Lemma on_dev_inv {A} (m : M (dev (T:=T)) A) (s : dev (T:=T) * probe) a s' :
  on_dev m s = (Ok a, s') → m (fst s) = (Ok a, fst s').
Proof. unfold on_dev, zoom. by destruct (m (fst s)) as [r d]; intros [= -> <-]. Qed.

Lemma probe_wait_for_peer_safe : safe (probe_wait_for_peer (T:=T)).
Proof.
  unfold probe_wait_for_peer. cbn zeta.
  apply runs_bind; [apply _|by apply runs_on_dev, drain_runs|intros _].
  apply runs_own_bind; intros p Hp.
  apply runs_bind; [apply _| |intros at_].
  { apply runs_lift; [apply _|apply mkbytes_not_stuck|].
    destruct Hp as (_&_&_&Hat&_). by rewrite mkbytes_ok by by apply Forall_singleton. }
  apply runs_bind; [apply _|apply must_safe; link|intros _].
  apply runs_bind; [apply _|safe; link|intros _].
  apply runs_bind; [apply _|apply must_safe; link|intros _].
  apply runs_bind; [apply _|apply must_safe; link|intros _].
  apply runs_bind_at; [apply _|apply runs_on_dev, poll_connected_runs|].
  intros found s s' [Hd _] Hfound.
  apply runs_bind; [apply _| |intros handle].
  { destruct found as [|[[[h r] pa] pt]]; [safe|].
    apply runs_bind; [apply _| |intros _; safe]. apply runs_on_own.
    intros [] (?&?&?&?&_). unfold run_ok; cbn in *. split_and!; try done.
    exact (poll_connected_byte _ _ _ _ _ _ _ Hd (on_dev_inv _ _ _ _ Hfound)). }
  apply runs_bind; [apply _|apply ask_safe; link|intros _]. safe.
Qed.

(** *** The connected phase *)

Definition linked_ok (l : linked) : Prop :=
  run_ok (l_probe l) ∧ AttLaws.table_ok (l_att l) ∧ PeripheralLaws.per_ok (l_smp l).

Abbreviation calm := (runs (both_ok (T:=T) linked_ok) (dev_frame (T:=T) probe_packet) engine_exn).

Lemma acl_allowed rest : probe_packet (H4_ACL :: rest).
Proof. left. split; [exact Hacl|]. by eexists. Qed.

Lemma with_probe_calm {A} (m : P A) : safe m → calm (with_probe m).
Proof.
  intros Hm. eapply runs_zoom; [exact Hm|by intros s (?&?&_)|].
  intros s [d p] (?&?&?&?) [Hd Hp] Hf. split; [|exact Hf]. split; [done|].
  cbn in *. by destruct (snd s).
Qed.

Lemma with_att_calm payload cid : calm (with_att (AttServer.feed payload cid)).
Proof.
  eapply runs_zoom; [apply AttLaws.feed_tame, acl_allowed|by intros s (?&?&?&_)|].
  intros s [d a] (?&?&?&?) [Hd Ha] Hf. split; [|exact Hf]. split; [done|].
  cbn in *. by destruct (snd s).
Qed.

Lemma with_smp_calm payload cid : calm (with_smp (Peripheral.feed payload cid)).
Proof.
  eapply runs_zoom; [apply (PeripheralLaws.feed_runs probe_packet)|by intros s (?&?&?&?)|].
  - intros pkt [[rest ->]|[pl [-> | ->]]]; [apply acl_allowed| |].
    + right. exists 0x2017, pl. split; [link|done].
    + right. exists 0x2018, pl. split; [link|done].
  - intros s [d a] (?&?&?&?) [Hd Ha] Hf. split; [|exact Hf]. split; [done|].
    cbn in *. by destruct (snd s).
Qed.

Lemma unpack_calm {A} bs (k : Z → M (dev (T:=T) * linked) A) :
  (∀ v, calm (k v)) → calm (lift (unpack_H bs) ≫= k).
Proof.
  intros Hk. apply runs_bind; [apply _| |exact Hk].
  unfold unpack_H, unpack_le. apply runs_lift; [apply _|by case_decide|].
  case_decide; [done|]. intros e [= <-]. by right; left.
Qed.

Lemma pack_calm {A} fs (k : bytes → M (dev (T:=T) * linked) A) :
  (∀ bs, calm (k bs)) → calm (lift (pack fs) ≫= k).
Proof.
  intros Hk. apply runs_bind; [apply _| |exact Hk].
  apply runs_lift; [apply _|apply pack_not_stuck|].
  intros e E. right; left. by eapply pack_struct_error.
Qed.

Lemma probe_feed_calm pkt : calm (probe_feed pkt).
Proof.
  unfold probe_feed. destruct (_ || _); [by apply runs_skip, _|].
  apply unpack_calm; intros n. cbn zeta. destruct (_ <? _)%nat; [by apply runs_skip, _|].
  apply unpack_calm; intros plen. apply unpack_calm; intros cid.
  apply runs_bind; [apply _|apply with_att_calm|intros _]. apply with_smp_calm.
Qed.

(** Emptying the queue uses up what was queued. *)
Lemma clear_pending_runs :
  runs engine_ok (trace_frame probe_packet) engine_exn
    (on_hci (T:=T) (modify (set_pending []))).
Proof.
  intros [now h] [Hwf Hp]. cbn. split_and!; [split; [done|by constructor]| |done|done].
  split; [|by apply wrote_nothing].
  unfold both_frame, load_frame, load, credit_frame, credit_balance, acl_sent. cbn.
  split_and!; lia.
Qed.

Lemma feed_pending_calm : calm (feed_pending (T:=T)).
Proof.
  unfold feed_pending.
  apply runs_bind; [apply _|by apply runs_on_dev, runs_gets, _|intros queued].
  apply runs_bind; [apply _|apply runs_on_dev, clear_pending_runs|intros _].
  apply runs_for_each; [apply _|]. intros pkt _. apply probe_feed_calm.
Qed.

(** A loop body that is calm and, when it returns, has let 200 ms pass or has
    used up input. *)
Definition advances_on (body : L unit) : Prop :=
  calm body ∧ ∀ s, both_ok linked_ok s → fst (body s) = Ok tt →
    fst (fst s) + ms 200 ≤ fst (fst (snd (body s))) ∨
    (load (fst (snd (body s))) < load (fst s))%nat.

Lemma feed_next_advances : advances_on (feed_next (T:=T)).
Proof.
  split.
  { unfold feed_next. apply runs_bind; [apply _|apply runs_on_dev, read_packet_trace|].
    intros [pkt|]; [apply probe_feed_calm|by apply runs_skip, _]. }
  intros [d l] [Hd Hl]. unfold feed_next, on_dev, zoom. unfold mbind, M_bind. cbn [fst snd].
  pose proof (read_packet_cases (ms 200) d Hd) as Hc.
  destruct (read_packet (ms 200) d) as [[[pkt|]|e|] d1]; [| |done|done].
  - destruct Hc as (Hd1&_&_&Hlt&_). intros _. right.
    destruct (probe_feed_calm pkt (d1, l) (conj Hd1 Hl)) as (_&[[[_ Hload] _] _]&_&_).
    cbn [fst snd] in *. lia.
  - destruct Hc as (_&_&Hto&_). intros _. cbn in *. apply Hto. done.
Qed.

Lemma feed_both_advances : advances_on (feed_pending (T:=T) ;; feed_next).
Proof.
  destruct feed_next_advances as [Hn Hadv]. split.
  { apply runs_bind; [apply _|apply feed_pending_calm|intros _; exact Hn]. }
  intros s Hs. destruct (feed_pending_calm s Hs) as (Hs1&[[[Ht Hl] _] _]&_&_).
  unfold mbind, M_bind. destruct (feed_pending s) as [[[]|e|] s1]; cbn [fst snd] in *;
    [|done|done].
  intros Hr. destruct (Hadv s1 Hs1 Hr); [left|right]; lia.
Qed.

Lemma while_time_eq fuel deadline stop body d l :
  while_time (T:=T) (S fuel) deadline stop body (d, l) =
  if (deadline <=? fst d) || stop (snd d) then (Ok tt, (d, l))
  else (body ;; while_time fuel deadline stop body) (d, l).
Proof.
  cbn [while_time]. unfold on_dev, zoom, getS. unfold mbind at 1, M_bind at 1. cbn [fst snd].
  by destruct (_ || _).
Qed.

(** The loop ends: every turn uses up time or input. *)
Lemma while_time_calm fuel deadline stop body s :
  advances_on body → both_ok linked_ok s →
  (load (fst s) + turns (ms 200) (deadline - fst (fst s)) < fuel)%nat →
  let '(r, s') := while_time (T:=T) fuel deadline stop body s in
  both_ok linked_ok s' ∧ dev_frame probe_packet s s' ∧
  (∀ e, r = Exc e → engine_exn e) ∧ r ≠ Stuck.
Proof.
  intros [Hcalm Hadv]. revert s. induction fuel as [|fuel IH]; intros s Hs Hf; [lia|].
  destruct s as [d l]. rewrite while_time_eq. cbn [fst snd] in Hf.
  destruct (deadline <=? fst d) eqn:Hdl; cbn [orb].
  { split_and!; done. }
  destruct (stop (snd d)); [split_and!; done|].
  apply Z.leb_gt in Hdl. unfold mbind, M_bind.
  destruct (Hcalm (d, l) Hs) as (Hs1&Hfr&He&Hst). specialize (Hadv (d, l) Hs).
  pose proof Hfr as [[[Ht Hload] _] _].
  destruct (body (d, l)) as [[[]|e|] s1]; cbn [fst snd] in *; [| |done].
  - specialize (IH s1 Hs1).
    assert (Hm : (load (fst s1) + turns (ms 200) (deadline - fst (fst s1)) < fuel)%nat).
    { destruct (Hadv eq_refl) as [Hto|Hlt].
      - pose proof (turns_step (ms 200) (deadline - fst d) (fst (fst s1) - fst d)
                      ltac:(done) ltac:(lia) ltac:(unfold ms in *; lia)) as Hst'.
        replace (deadline - fst d - (fst (fst s1) - fst d)) with (deadline - fst (fst s1))
          in Hst' by lia. lia.
      - pose proof (turns_mono (ms 200) (deadline - fst (fst s1)) (deadline - fst d)
                      ltac:(done) ltac:(lia)). lia. }
    specialize (IH Hm). destruct (while_time _ _ _ _ s1) as [r s2].
    destruct IH as (?&?&?&?). split_and!; try done. by etrans.
  - split_and!; [done|done|intros ? [= <-]; by apply He|done].
Qed.

Lemma while_for_calm timeout stop body :
  advances_on body → calm (while_for (T:=T) timeout stop body).
Proof.
  intros Hb [d l] Hs. unfold while_for, on_dev, zoom, getS. unfold mbind, M_bind. cbn [fst snd].
  pose proof (while_time_calm (poll_fuel (ms 200) timeout d) (fst d + timeout) stop body
                (d, l) Hb Hs) as H.
  cbn [fst] in H. destruct (while_time _ _ _ _ (d, l)) as [r s']. apply H.
  unfold poll_fuel, load, turns. replace (fst d + timeout - fst d) with timeout by lia. lia.
Qed.

Lemma ltk_reply_calm op payload timeout :
  op ∈ ops → calm (on_dev (T:=T) (command_t op payload timeout true)).
Proof. intros Hop. apply runs_on_dev, command_trace. right. by exists op, payload. Qed.

(** Reading the whole state changes nothing. *)
Lemma runs_getS {S A} (I : S → Prop) R `{!PreOrder R} E (k : S → M S A) :
  (∀ s, runs I R E (k s)) → runs I R E (getS ≫= k).
Proof. intros Hk s Hs. apply (Hk s s Hs). Qed.

Lemma probe_answer_ltk_calm : calm (probe_answer_ltk (T:=T)).
Proof.
  unfold probe_answer_ltk. apply runs_getS; [apply _|intros s].
  destruct (ltk_request _) as [h|]; [|by apply runs_skip, _].
  destruct (l_answered _); [|by apply runs_skip, _].
  apply runs_bind; [apply _|apply runs_on_own; by intros [] (?&?&?)|intros _].
  eapply runs_try_except; [apply _| |intros e _ _; by apply runs_skip, _|by intros e He _].
  apply pack_calm; intros payload.
  apply runs_bind; [apply _|apply ltk_reply_calm; link|intros _]. by apply runs_skip, _.
Qed.

Lemma probe_wait_for_ltk_calm n : calm (probe_wait_for_ltk (T:=T) n).
Proof.
  unfold probe_wait_for_ltk.
  apply runs_bind; [apply _|by apply runs_on_dev, runs_gets, _|intros h].
  destruct (has_request h); [by apply runs_skip, _|].
  apply runs_bind; [apply _|apply while_for_calm, feed_both_advances|intros _].
  apply runs_getS; [apply _|intros s].
  destruct (ltk_request _) as [handle|]; [|by apply runs_skip, _].
  destruct (Peripheral.stk _) as [key|]; apply pack_calm; intros payload.
  - apply runs_bind; [apply _|apply ltk_reply_calm; link|intros r].
    destruct (negb _); [by apply runs_skip, _|]. apply while_for_calm, feed_next_advances.
  - apply runs_bind; [apply _|apply ltk_reply_calm; link|intros _]. by apply runs_skip, _.
Qed.

Lemma sort_by_key_subseteq {X} keys (key : X → Z) l x : x ∈ sort_by_key keys key l → x ∈ l.
Proof.
  unfold sort_by_key. rewrite list_elem_of_In, in_concat. intros (l'&Hl'&Hx).
  apply list_elem_of_In, list_elem_of_fmap in Hl' as (k&->&_).
  apply list_elem_of_In, list_elem_of_filter in Hx. apply Hx.
Qed.

Lemma linked_rows_in request c : c ∈ linked_rows request → c ∈ COMMANDS.
Proof.
  unfold linked_rows. cbn zeta. intros H%sort_by_key_subseteq.
  destruct request; [apply sort_by_key_subseteq in H|];
    apply list_elem_of_filter in H; apply H.
Qed.

Lemma connected_phase_calm handle :
  (∀ c, c ∈ COMMANDS → sendable_row c → row_in c) → calm (connected_phase (T:=T) handle).
Proof.
  intros Hrows. unfold connected_phase. apply runs_own_bind; intros l Hl. cbn zeta.
  apply runs_bind; [apply _|apply while_for_calm, feed_both_advances|intros _].
  apply runs_bind; [apply _|apply runs_when; [apply _|intros _; apply probe_wait_for_ltk_calm]
                   |intros _].
  apply runs_bind; [apply _|by apply runs_on_dev, runs_gets, _|intros h].
  apply runs_bind; [apply _| |intros _].
  { destruct (ltk_request h); [|by apply runs_skip, _].
    apply with_probe_calm, update_safe; by intros []. }
  apply runs_bind; [apply _| |intros _].
  { apply runs_for_each; [apply _|]. intros c Hc%linked_rows_in.
    apply runs_bind; [apply _|by apply with_probe_calm, send_safe, Hrows|intros _].
    apply runs_bind; [apply _|apply feed_pending_calm|intros _]. apply probe_answer_ltk_calm. }
  apply runs_bind; [apply _|apply with_probe_calm, unwind_safe|intros _].
  apply pack_calm; intros payload.
  apply runs_bind; [apply _|apply ltk_reply_calm; link|intros _]. by apply runs_skip, _.
Qed.

(** A handle is returned only once the peer's address is known. *)
Lemma wait_for_peer_sets_peer s h s' :
  probe_wait_for_peer (T:=T) s = (Ok (Some h), s') → is_Some (peer (snd s')).
Proof.
  unfold probe_wait_for_peer. cbn zeta. intros H.
  do 7 (apply bind_ok_inv in H as (?&?&_&H)).
  apply bind_ok_inv in H as (found&s0&_&H).
  apply bind_ok_inv in H as (handle&s1&Hfound&H).
  apply bind_ok_inv in H as (r&s2&Hask&H). injection H as -> ->.
  assert (E : snd s' = snd s1).
  { revert Hask. unfold ask, on_dev, zoom. destruct (command_t _ _ _ _ _). by intros [= _ <-]. }
  rewrite E. destruct found as [|[[[h' rl] pa] pt]]; [done|].
  injection Hfound as _ <-. by destruct (snd _).
Qed.

Lemma run_connected_at handle d p :
  (∀ c, c ∈ COMMANDS → sendable_row c → row_in c) →
  engine_ok d → run_ok p → is_Some (peer p) →
  let '(r, s') := run_connected (T:=T) handle (d, p) in
  both_ok run_ok s' ∧ dev_frame probe_packet (d, p) s' ∧
  (∀ e, r = Exc e → engine_exn e) ∧ r ≠ Stuck.
Proof.
  intros Hrows Hd Hp [[pa pt] Hpeer]. unfold run_connected; cbn [fst snd].
  destruct (AttLaws.init_table handle adv_name) as (a&->&Ha&_). rewrite Hpeer.
  set (smp := Peripheral.init _ _ _ _ _).
  assert (Hl : linked_ok (Linked p a smp [])).
  { split; [done|split; [done|]]. destruct Hp as (_&_&_&Hat&Hpt). rewrite Hpeer in Hpt.
    split_and!; cbn; try done; by intros [? ?]. }
  destruct (connected_phase_calm handle Hrows (d, Linked p a smp []) (conj Hd Hl))
    as ([Hd' (Hp'&_)]&Hfr&He&Hs).
  destruct (connected_phase _ _) as [r [d' l]]. by split_and!.
Qed.

Lemma run_link_safe :
  (∀ c, c ∈ COMMANDS → sendable_row c → row_in c) → safe (run_link (T:=T)).
Proof.
  intros Hrows. unfold run_link. apply runs_own_bind; intros p Hp.
  apply runs_when; [apply _|intros _].
  apply runs_bind_post; [apply _|apply probe_wait_for_peer_safe|].
  intros [h|] s [d x] _ [Hd Hx] E; [|by apply (runs_skip (both_ok run_ok) (dev_frame probe_packet) engine_exn (d, x))].
  apply wait_for_peer_sets_peer in E. cbn [fst snd] in *.
  set (f := λ p : probe, _). set (x' := f x).
  change ((update f ;; run_connected h) (d, x)) with (run_connected (T:=T) h (d, x')).
  assert (Hx' : run_ok x') by (destruct x as [[]]; exact Hx).
  assert (Hpeer : is_Some (peer x')) by (by destruct x).
  pose proof (run_connected_at h d x' Hrows Hd Hx' Hpeer) as H.
  destruct (run_connected h (d, x')) as [r s']. exact H.
Qed.

Lemma rows_before_in op rows c : c ∈ rows_before op rows → c ∈ rows.
Proof.
  induction rows as [|r rows IH]; cbn; [done|]. destruct (_ =? _); [by intros ?%not_elem_of_nil|].
  intros [->|H]%elem_of_cons; [by left|right; by apply IH].
Qed.

Lemma bisect_safe op :
  (∀ c, c ∈ COMMANDS ++ TEARDOWN → row_in c) → safe (bisect (T:=T) op).
Proof.
  intros Hrows. unfold bisect.
  pose proof (λ c, proj1 (proj2 index_facts op c)) as Hidx.
  destruct (BY_OPCODE !! op) as [target|]; [|safe]. destruct (Hidx target eq_refl) as [Htarget _].
  destruct (existsb _ _); cbn [negb]; [|safe].
  apply runs_own_bind; intros p Hp.
  assert (Hin : ∀ c, c ∈ COMMANDS → row_in c)
    by (intros c Hc; apply Hrows, elem_of_app; by left).
  apply bisect_with_safe; [by apply Hrows| |]; apply Forall_forall; intros c Hc; apply Hin.
  - apply rows_before_in in Hc. unfold phase_rows in Hc.
    by apply list_elem_of_filter in Hc as [_ ?].
  - unfold bisect_pool in Hc.
    destruct (bool_decide _); [by apply list_elem_of_filter in Hc as [_ ?]|].
    by apply not_elem_of_nil in Hc.
Qed.

Lemma run_probe_safe :
  (∀ c, c ∈ COMMANDS ++ TEARDOWN → row_in c) → safe (run_probe (T:=T)).
Proof.
  intros Hrows. unfold run_probe.
  apply runs_bind; [apply _|apply preamble_safe|intros _].
  apply runs_bind; [apply _|apply ask_handle_safe|intros _].
  apply runs_bind; [apply _|apply ask_public_addr_safe|intros _].
  apply runs_own_bind; intros p Hp. destruct (bisect_row (p_args p)) as [op|].
  - apply runs_bind; [apply _| |intros _; safe].
    apply try_safe; [|intros e _; safe].
    apply runs_bind; [apply _|by apply bisect_safe|intros _]. safe.
  - apply runs_bind; [apply _|by apply run_phases_safe; auto|intros _].
    apply runs_bind; [apply _| |intros _; safe].
    apply run_link_safe. intros c Hc _. apply Hrows, elem_of_app. by left.
Qed.
End contained.

(** ** The theorems *)

#[local] Opaque COMMANDS TEARDOWN.

(** The opcodes of a row: its own, its undo's, its retries'. *)
Definition row_ops (c : command) : list Z :=
  opcode c :: match undo c with Some (op, _) => [op] | None => [] end
           ++ ((λ r, fst (fst r)) <$> retry_after c).

Definition needs_consent (c : command) : bool := bool_decide (NEEDS_CONSENT ∈ needs c).

Definition rows_for (consented : bool) : list command :=
  filter (λ c, (consented || negb (needs_consent c)) = true) (COMMANDS ++ TEARDOWN).

Definition allowed_ops (consented : bool) : list Z :=
  base_ops ++ link_ops ++ concat (row_ops <$> rows_for consented).
Definition quick_ops (consented : bool) : list Z :=
  base_ops ++ concat (row_ops <$> rows_for consented).

(** A row of the tables sends only its own opcodes, with blocks that build. *)
Lemma row_in_rows ops c :
  c ∈ COMMANDS ++ TEARDOWN → (∀ op, op ∈ row_ops c → op ∈ ops) → row_in ops c.
Proof.
  intros Hc Hops. pose proof all_rows_ok as Hall. rewrite Forall_forall in Hall.
  destruct (Hall c Hc) as (_&[_ Hq]&Hu&Hr). unfold row_ops in Hops. split_and!.
  - apply Hops. by left.
  - exact Hq.
  - intros [op p] E. rewrite E in Hu, Hops. split; [|apply Hu].
    apply Hops. right. by left.
  - apply Forall_forall. intros [[op p] why] Hin. rewrite Forall_forall in Hr.
    destruct (Hr _ Hin) as [_ [_ Hq']]. split; [|exact Hq']. apply Hops. right.
    apply elem_of_app. right. by apply (list_elem_of_fmap_2 (λ r, fst (fst r)) _ (op, p, why)).
Qed.

Lemma rows_for_in a c :
  c ∈ COMMANDS ++ TEARDOWN → sendable_row a c → c ∈ rows_for (consent a).
Proof.
  intros Hc Hs. unfold rows_for. generalize dependent (COMMANDS ++ TEARDOWN). intros l Hc.
  apply list_elem_of_filter. split; [|exact Hc]. unfold needs_consent.
  destruct Hs as [->|Hn]; [reflexivity|].
  rewrite bool_decide_eq_false_2 by exact Hn. apply orb_true_r.
Qed.

Lemma elem_of_ops (rows : list command) c op :
  c ∈ rows → op ∈ row_ops c → op ∈ concat (row_ops <$> rows).
Proof.
  intros Hc Hop. apply list_elem_of_In, in_concat. exists (row_ops c).
  split; apply list_elem_of_In; [|exact Hop]. by apply list_elem_of_fmap_2.
Qed.

Lemma in_row_ops b c op : c ∈ rows_for b → op ∈ row_ops c → op ∈ concat (row_ops <$> rows_for b).
Proof. exact (elem_of_ops (rows_for b) c op). Qed.

Lemma quick_ops_no_consent :
  forallb (λ op, negb (bool_decide (op ∈ opcode <$> filter (λ c, needs_consent c = true)
                                       (COMMANDS ++ TEARDOWN)))) (quick_ops false) = true.
Proof. vm_compute. reflexivity. Qed.

Section theorems.
Context {T : Type} `{Tr : !Transport T} `{TL : !TransportLaws T}.

(** C13: without consent the probe leaves alone what needs it: a run with neither
    --consent, --bisect nor --wait-connect ends, and no command it writes has
    the opcode of a row that changes the identity of the board, transmits on
    its own or drops the link - not as a row, an undo or a retry. *)
Theorem probe_without_consent (a : args) (d : dev (T:=T)) :
  engine_ok d → consent a = false → wait_connect a = 0 → bisect_row a = None →
  0 ≤ settle_ms a →
  let '(r, d') := Probe.cmd_probe a d in
  r ≠ Stuck ∧
  ∃ ps, sent d' = sent d ++ ps ∧
    Forall (λ pkt, ∃ op payload, pkt = command_packet op payload ∧
      ∀ c, c ∈ COMMANDS ++ TEARDOWN → NEEDS_CONSENT ∈ needs c → opcode c ≠ op) ps.
Proof.
  intros Hd Hc Hw Hb Hset.
  assert (Hbase : ∀ op, op ∈ base_ops → op ∈ quick_ops (consent a))
    by (intros op Hop; apply elem_of_app; by left).
  pose proof (cmd_probe_from (quick_ops (consent a)) false a Hbase d Hd Hset) as H.
  destruct (cmd_probe a d) as [r d'].
  destruct H as (_&[_ (ps&Hsent&Hps)]&_&Hs).
  { apply run_probe_quick; [exact Hbase| |exact Hw|exact Hb]. intros c Hin Hrow.
    apply row_in_rows; [exact Hin|]. intros op Hop. apply elem_of_app. right.
    apply (in_row_ops _ c); [by apply rows_for_in|exact Hop]. }
  split; [exact Hs|]. exists ps. split; [exact Hsent|]. apply (Forall_impl _ _ _ Hps).
  intros pkt [[[=] _]|(op&payload&Hop&->)]. exists op, payload. split; [done|].
  intros c Hin Hneed <-. rewrite Hc in Hop.
  pose proof quick_ops_no_consent as Hno. rewrite forallb_forall in Hno.
  apply list_elem_of_In, Hno, negb_true_iff, bool_decide_eq_false in Hop. apply Hop.
  apply list_elem_of_fmap_2. revert Hin. generalize (COMMANDS ++ TEARDOWN). intros l Hin.
  apply list_elem_of_filter. split; [|exact Hin].
  unfold needs_consent. by apply bool_decide_eq_true.
Qed.

(** Whatever the controller and the peer answer, a probe run ends - rows,
    retries, bisection, the wait for a peer and the connected phase included
    - and lets nothing through but the engine's exceptions. *)
Theorem probe_ends (a : args) (d : dev (T:=T)) :
  engine_ok d → 0 ≤ settle_ms a →
  let '(r, d') := Probe.cmd_probe a d in
  engine_ok d' ∧ r ≠ Stuck ∧ (∀ e, r = Exc e → engine_exn e) ∧
  ∃ ps, sent d' = sent d ++ ps ∧
    Forall (λ pkt, (∃ rest, pkt = H4_ACL :: rest) ∨
      ∃ op payload, op ∈ allowed_ops true ∧ pkt = command_packet op payload) ps.
Proof.
  intros Hd Hset. set (ops := allowed_ops true).
  assert (Hbase : ∀ op, op ∈ base_ops → op ∈ ops)
    by (intros op Hop; apply elem_of_app; by left).
  assert (Hlink : ∀ op, op ∈ link_ops → op ∈ ops)
    by (intros op Hop; apply elem_of_app; right; apply elem_of_app; by left).
  pose proof (cmd_probe_from ops true a Hbase d Hd Hset) as H.
  destruct (cmd_probe a d) as [r d'].
  destruct H as (Hd'&[_ (ps&Hsent&Hps)]&He&Hs).
  { apply run_probe_safe; [exact Hbase|exact Hlink|done|]. intros c Hin. apply row_in_rows; [exact Hin|].
    intros op Hop. do 2 (apply elem_of_app; right). apply (in_row_ops true c); [|exact Hop].
    revert Hin. unfold rows_for. generalize (COMMANDS ++ TEARDOWN). intros l Hin.
    by apply list_elem_of_filter. }
  split_and!; [exact Hd'|exact Hs|exact He|].
  exists ps. split; [exact Hsent|]. apply (Forall_impl _ _ _ Hps).
  intros pkt [[_ H]|(op&payload&Hop&->)]; [by left|right]. by exists op, payload.
Qed.
End theorems.
End ProbeLaws.
