(* ===== verification/ProbeVerdict.v ===== *)
(** * ProbeVerdict: what the probe's findings say

    A row is counted once and reported once; the undo commands are replayed
    last first; and the row a bisection names was seen to make the difference,
    after a number of attempts logarithmic in the rows under suspicion. *)

From coqutil Require Import Datatypes.RecordSetters.
From stdpp Require Import gmap.
From S2P Require Export ProbeLaws.
Import TriangleBracketNotations.
#[local] Open Scope Z_scope.

(** ** What a program does to its own part, whatever the engine does *)

Section own.
Context {D X : Type} (R : relation X) `{!PreOrder R}.

Definition own_rel {A} (m : M (D * X) A) : Prop := ∀ s, R (snd s) (snd (snd (m s))).

Lemma own_ret {A} (a : A) : own_rel (mret a).
Proof. by intros s. Qed.

Lemma own_raise {A} e : own_rel (raise (A:=A) e).
Proof. by intros s. Qed.

Lemma own_lift {A} (r : res A) : own_rel (lift r).
Proof. by intros s. Qed.

Lemma own_self : own_rel (gets snd).
Proof. by intros s. Qed.

Lemma own_bind {A B} (m : M (D * X) A) (f : A → M (D * X) B) :
  own_rel m → (∀ a, own_rel (f a)) → own_rel (m ≫= f).
Proof.
  intros Hm Hf s. specialize (Hm s). unfold mbind, M_bind.
  destruct (m s) as [[a|e|] s1]; cbn in *; [|done|done]. etrans; [exact Hm|apply Hf].
Qed.

Lemma own_when (b : bool) m : own_rel m → own_rel (when b m).
Proof. destruct b; [done|]. intros _. by intros s. Qed.

Lemma own_try {A} catches (m : M (D * X) A) h :
  own_rel m → (∀ e, own_rel (h e)) → own_rel (try_except catches m h).
Proof.
  intros Hm Hh s. specialize (Hm s). unfold try_except.
  destruct (m s) as [[a|e|] s1]; cbn in *; try done. destruct (catches e); [|done].
  etrans; [exact Hm|apply Hh].
Qed.
End own.

Lemma own_on_dev {T X A} (R : relation X) `{!PreOrder R} (m : M (dev (T:=T)) A) :
  own_rel R (on_dev m).
Proof. intros [d x]. unfold on_dev, zoom. by destruct (m _). Qed.

Lemma own_modify {T X} (R : relation X) f :
  (∀ x, R x (f x)) → own_rel (D:=dev (T:=T)) R (on_own (modify f)).
Proof. intros Hf [d x]. apply Hf. Qed.

Module ProbeVerdict.
Import Probe ProbeLaws.

Section verdict.
Context {T : Type} `{Tr : !Transport T} `{TL : !TransportLaws T}.

Ltac own_step :=
  lazymatch goal with
  | |- own_rel _ (mret _) => apply own_ret, _
  | |- own_rel _ skip => apply (own_ret _ tt)
  | |- own_rel _ (raise _) => apply own_raise, _
  | |- own_rel _ (lift _) => apply own_lift, _
  | |- own_rel _ self => apply own_self, _
  | |- own_rel _ (ask _ _ _) => apply own_on_dev, _
  | |- own_rel _ (must _ _) => apply own_on_dev, _
  | |- own_rel _ (sleep _) => unfold sleep
  | |- own_rel _ (run_undo _) => unfold run_undo
  | |- own_rel _ (on_dev _) => apply own_on_dev, _
  | |- own_rel _ (mbind _ _) => apply own_bind; [apply _| |intros ?]
  | |- own_rel _ (when _ _) => apply own_when; [apply _|]
  | |- own_rel _ (try_except _ _ _) => apply own_try; [apply _| |intros ?]
  | |- own_rel _ (if ?b then _ else _) => destruct b
  | |- own_rel _ (match ?x with _ => _ end) => destruct x
  end.
Ltac own := repeat own_step.

(** ** Counting *)

(** The rows a run has given a verdict on. *)
Definition counted (p : probe) : nat :=
  n_ok p + n_expected p + n_silent p + n_refused p + n_unknown p.

Definition is_row (l : line) : bool := match l with Row _ _ => true | _ => false end.

(** Comments on a row: no counter moves, no row is reported. *)
Definition remarks (p p' : probe) : Prop :=
  counted p' = counted p ∧ skipped p' = skipped p ∧
  ∃ rest, log p' = log p ++ rest ∧ forallb (λ l, negb (is_row l)) rest = true.

#[local] Instance remarks_preorder : PreOrder remarks.
Proof.
  split.
  - intros p. split_and!; try done. exists []. by rewrite app_nil_r.
  - intros p1 p2 p3 (C1&S1&r1&L1&N1) (C2&S2&r2&L2&N2). split_and!; [congruence..|].
    exists (r1 ++ r2). by rewrite L2, L1, <- app_assoc, forallb_app, N1, N2.
Qed.

Lemma say_remarks l : is_row l = false → own_rel remarks (say (T:=T) l).
Proof.
  intros Hl. apply own_modify. intros []. split_and!; try done. exists [l]. cbn. by rewrite Hl.
Qed.

Lemma retry_loop_remarks c l applied again :
  own_rel remarks (retry_loop (T:=T) c l applied again).
Proof.
  revert applied again. induction l as [|[[op pl] why] l IH]; intros applied again; cbn [retry_loop].
  { destruct applied; [own|by apply say_remarks]. }
  apply own_bind; [apply _|own|intros p].
  apply own_bind; [apply _|own|intros payload].
  apply own_bind; [apply _| |].
  - own; by apply say_remarks.
  - intros [| |status]; [apply IH|own|]. destruct (status =? 0); [|apply IH].
    own. by apply say_remarks.
Qed.

Lemma arrange_undo_remarks c s :
  fst (arrange_undo (T:=T) c s) = Ok tt → remarks (snd s) (snd (snd (arrange_undo c s))).
Proof.
  unfold arrange_undo. destruct (undo c) as [u|]; [|done]. destruct (undo_now c).
  - assert (Hs : own_rel remarks
      (p ← self (T:=T); when (negb (settle_ms (p_args p) =? 0)) (sleep (ms (settle_ms (p_args p))))))
      by own.
    specialize (Hs s). revert Hs. unfold mbind, M_bind, self, gets at 1 2 3.
    destruct (when _ _ s) as [[[]|e|] s1]; [|done|done]. cbn [fst snd]. intros Hs.
    assert (Hu : own_rel remarks (run_undo (T:=T) u)) by own. specialize (Hu s1).
    unfold try_except. destruct (run_undo u s1) as [[[]|e|] s2]; cbn [fst snd] in *; [|  |done].
    + intros _. by etrans.
    + destruct (is_hci_error e); [|done]. destruct (is_gone e); [done|]. intros _. by etrans.
  - intros _. destruct s as [d []]. cbn. split_and!; try done. exists []. by rewrite app_nil_r.
Qed.

(** One verdict: one counter up, one row reported, and remarks. *)
Definition one_verdict (c : command) (p p' : probe) : Prop :=
  counted p' = S (counted p) ∧ skipped p' = skipped p ∧
  ∃ tag rest, log p' = log p ++ Row (opcode c) tag :: rest ∧
    forallb (λ l, negb (is_row l)) rest = true.

Lemma verdict_remarks c p1 p2 p3 : one_verdict c p1 p2 → remarks p2 p3 → one_verdict c p1 p3.
Proof.
  intros (C1&S1&tag&r1&L1&N1) (C2&S2&r2&L2&N2). split_and!; [congruence..|].
  exists tag, (r1 ++ r2). by rewrite L2, L1, <- app_assoc, forallb_app, N1, N2.
Qed.

Lemma say_fields l p :
  let p' := p<|log := log p ++ [l]|> in
  counted p' = counted p ∧ skipped p' = skipped p ∧ log p' = log p ++ [l].
Proof. by destruct p. Qed.

Lemma report_verdict c tag f (s : dev (T:=T) * probe) :
  (∀ p, counted (f p) = S (counted p)) → (∀ p, skipped (f p) = skipped p) →
  (∀ p, log (f p) = log p) →
  let '(r, s') := (update f ;; report c tag) s in r = Ok tt ∧ one_verdict c (snd s) (snd s').
Proof.
  intros Hc Hs Hl. destruct s as [d p]. split; [done|]. change (one_verdict c p
    ((f p)<|log := log (f p) ++ [Row (opcode c) tag]|>)).
  destruct (say_fields (Row (opcode c) tag) (f p)) as (Cs&Ss&Ls).
  split; [by rewrite Cs|split; [by rewrite Ss|]]. exists tag, []. by rewrite Ls, Hl.
Qed.

Lemma report_remarked c tag f (k : P (T:=T) unit) (s : dev (T:=T) * probe) :
  (∀ p, counted (f p) = S (counted p)) → (∀ p, skipped (f p) = skipped p) →
  (∀ p, log (f p) = log p) → own_rel remarks k →
  one_verdict c (snd s) (snd (snd ((update f ;; report c tag ;; k : P unit) s))).
Proof.
  intros Hc Hs Hl Hk. pose proof (report_verdict c tag f s Hc Hs Hl) as Hr.
  eapply verdict_remarks; [|apply Hk].
  destruct s as [d p]. exact (proj2 Hr).
Qed.

Lemma send_row_verdict c (s : dev (T:=T) * probe) answer s' :
  send_row c s = (Ok answer, s') →
  match answer with Some _ => snd s' = snd s | None => one_verdict c (snd s) (snd s') end.
Proof.
  unfold send_row, self, gets. unfold mbind at 1, M_bind at 1. cbn zeta.
  lazymatch goal with |- context [try_except _ ?x _] => set (m := x) end.
  assert (Hm : own_rel eq m) by (subst m; own). specialize (Hm s).
  unfold try_except. assert (Ha : ∀ a s1, m s = (Ok a, s1) → a ≠ None).
  { intros a s1 E. apply bind_ok_inv in E as (?&?&_&E).
    apply bind_ok_inv in E as (?&?&_&E). by injection E as <- _. }
  destruct (m s) as [[a|e|] s1]; cbn [fst snd] in Hm; [| |done].
  { intros [= <- <-]. destruct a; [done|]. by destruct (Ha None s1). }
  destruct (is_hci_error e); [|done]. destruct (is_gone e); [done|].
  rewrite Hm. destruct (bool_decide (reply c = NONE)); intros H;
    apply bind_ok_inv in H as (u&s2&E1&H); apply bind_ok_inv in H as (u2&s3&E2&H);
    injection H as <- <-.
  all: lazymatch type of E1 with update ?f _ = _ =>
    lazymatch type of E2 with report _ ?tag _ = _ =>
      pose proof (report_verdict c tag f s1 ltac:(intros []; unfold counted, constant; cbn; lia)
        ltac:(by intros []) ltac:(by intros [])) as Hr end end.
  all: unfold mbind, M_bind in Hr; rewrite E1, E2 in Hr; apply Hr.
Qed.

Lemma judge_verdict c answer (s : dev (T:=T) * probe) :
  match answer with
  | Some _ => one_verdict c (snd s) (snd (snd (judge c answer s)))
  | None => judge c answer s = (Ok tt, s)
  end.
Proof.
  destruct answer as [[status data]|]; [|done]. unfold judge.
  assert (Hok : ∀ tag f, (∀ p, counted (f p) = S (counted p)) → (∀ p, skipped (f p) = skipped p) →
    (∀ p, log (f p) = log p) →
    one_verdict c (snd s) (snd (snd ((update f ;; report c tag) s)))).
  { intros tag f Hc Hs Hl. pose proof (report_verdict c tag f s Hc Hs Hl) as Hr.
    destruct s as [d p]. exact (proj2 Hr). }
  destruct (_ && _); [apply Hok; intros []; unfold counted, constant; cbn; (done || lia)|].
  destruct (_ =? 0); [apply Hok; intros []; unfold counted, constant; cbn; (done || lia)|].
  destruct (_ =? _); [apply Hok; intros []; unfold counted, constant; cbn; (done || lia)|].
  unfold refusal. destruct (bool_decide _); [apply Hok; intros []; unfold counted, constant; cbn; (done || lia)|].
  apply report_remarked; [intros []; unfold counted, constant; cbn; lia|by intros []|by intros []|apply retry_loop_remarks].
Qed.

(** A row is either skipped or judged exactly once. Skipped, nothing is
    written, no counter moves and its opcode is noted; sent, exactly one of
    the five counters rises, exactly one line reports the row, and its opcode
    is no longer noted as skipped. *)
Theorem send_accounts (c : command) (d d' : dev (T:=T)) (p p' : probe) :
  Probe.send c (d, p) = (Ok tt, (d', p')) →
  if probe_available c p
  then counted p' = S (counted p) ∧ skipped p' = skipped p ∖ {[opcode c]} ∧
       ∃ tag rest, log p' = log p ++ Row (opcode c) tag :: rest ∧
         forallb (λ l, negb (is_row l)) rest = true
  else d' = d ∧ counted p' = counted p ∧ skipped p' = {[opcode c]} ∪ skipped p.
Proof.
  unfold Probe.send, self, gets. unfold mbind at 1, M_bind at 1. cbn [snd].
  destruct (probe_available c p) eqn:Hav; cbn [negb].
  - intros H. apply bind_ok_inv in H as ([]&[d0 p0]&E0&H).
    apply bind_ok_inv in H as (answer&s1&E1&H). apply bind_ok_inv in H as ([]&s2&E2&H).
    apply send_row_verdict in E1. pose proof (judge_verdict c answer s1) as Hj.
    pose proof (arrange_undo_remarks c s2) as Hu. rewrite H in Hu. specialize (Hu eq_refl).
    assert (Hp : counted p0 = counted p ∧ skipped p0 = skipped p ∖ {[opcode c]} ∧ log p0 = log p)
      by (injection E0 as _ <-; by destruct p).
    assert (Hv : one_verdict c p0 p').
    { destruct answer as [a|].
      - rewrite E1, E2 in Hj. by eapply verdict_remarks.
      - rewrite Hj in E2. injection E2 as ->. by eapply verdict_remarks. }
    destruct Hp as (<-&<-&<-). destruct Hv as (?&?&?). by split_and!.
  - intros H. apply bind_ok_inv in H as ([]&[d0 p0]&E0&H). injection E0 as <- <-.
    destruct (verbose _); injection H as <- <-; by destruct p.
Qed.

(** ** Undoing *)

(** The command that undoes a row, as it is written in context [c]. *)
Definition undo_packet (c : probe_ctx) (u : Z * (probe_ctx → res bytes)) : option bytes :=
  match snd u c with Ok bs => Some (command_packet (fst u) bs) | _ => None end.

Lemma run_undo_sent u d p :
  engine_ok d →
  let '(r, (d', p')) := run_undo u (d, p) in
  engine_ok d' ∧ p' = p ∧
  (sent d' = sent d ∨ ∃ pkt, undo_packet (ctx p) u = Some pkt ∧ sent d' = sent d ++ [pkt]).
Proof.
  intros Hd. unfold run_undo, self, gets, lift, undo_packet. unfold mbind at 1, M_bind at 1.
  cbn [snd fst]. unfold mbind at 1, M_bind at 1. destruct (snd u (ctx p)) as [bs|e|]; [|by auto..].
  unfold ask, on_dev, zoom. unfold mbind, M_bind. cbn [fst snd].
  pose proof (command_sent (fst u) bs (seconds 1) true d Hd) as Hs.
  destruct (command_trace (λ _, True) (fst u) bs (seconds 1) true I d Hd) as (Hok&_).
  destruct (command_t _ _ _ _ d) as [[a|e|] d1]; cbn in *; split_and!; try done;
    destruct Hs as [Hs|[Hs _]]; eauto.
Qed.

Lemma unwind_loop_sent l d p :
  engine_ok d →
  let '(_, (d', p')) := unwind_loop l (d, p) in
  p' = p ∧ ∃ ps, sent d' = sent d ++ ps ∧ ps `sublist_of` omap (undo_packet (ctx p)) l.
Proof.
  revert d. induction l as [|u l IH]; intros d Hd; cbn [unwind_loop].
  { split; [done|]. exists []. by rewrite app_nil_r. }
  pose proof (run_undo_sent u d p Hd) as Hu.
  unfold mbind, M_bind, try_except. destruct (run_undo u (d, p)) as [r [d1 p1]].
  destruct Hu as (Hd1&->&Hs1).
  assert (Hgo : ∀ d2 p2 ps, p2 = p → sent d2 = sent d1 ++ ps →
    ps `sublist_of` omap (undo_packet (ctx p)) l →
    p2 = p ∧ ∃ ps, sent d2 = sent d ++ ps ∧ ps `sublist_of` omap (undo_packet (ctx p)) (u :: l)).
  { intros d2 p2 ps -> -> Hps. split; [done|]. cbn. destruct Hs1 as [->|(pkt&Hpkt&->)].
    - exists ps. split; [done|]. case_match; [by constructor|done].
    - exists (pkt :: ps). rewrite <- app_assoc. split; [done|].
      unfold undo_packet in *. rewrite Hpkt. by constructor. }
  specialize (IH d1 Hd1).
  assert (Hstop : p = p ∧ ∃ ps, sent d1 = sent d ++ ps ∧
    ps `sublist_of` omap (undo_packet (ctx p)) (u :: l)).
  { apply (Hgo d1 p []); [done|by rewrite app_nil_r|apply sublist_nil_l]. }
  destruct r as [[]|e|]; [|destruct (is_err e); [|exact Hstop]|exact Hstop]; cbn;
    destruct (unwind_loop l (d1, p)) as [r2 [d2 p2]]; destruct IH as (?&ps&?&?); eauto.
Qed.

(** Undoing runs backwards: what [unwind] writes are undo commands of the
    rows noted since the last one, the last noted first, none twice; one that
    fails does not keep the others from being tried, and after a run that
    returns nothing is left to undo. *)
Theorem unwind_reverses (d : dev (T:=T)) (p : probe) :
  engine_ok d →
  let '(r, (d', p')) := Probe.unwind (d, p) in
  (r = Ok tt → undo_list p' = []) ∧
  ∃ ps, sent d' = sent d ++ ps ∧
    ps `sublist_of` omap (undo_packet (ctx p)) (rev (undo_list p)).
Proof.
  intros Hd. unfold Probe.unwind, self, gets. unfold mbind at 1, M_bind at 1. cbn [snd].
  pose proof (unwind_loop_sent (rev (undo_list p)) d p Hd) as H.
  unfold mbind, M_bind. destruct (unwind_loop _ (d, p)) as [[[]|e|] [d1 p1]];
    destruct H as (_&H); cbn; by split.
Qed.

(** ** Bisection *)

(** The target was tried after these rows, and answered with [status]. *)
Definition tried (target : command) (fixed rows : list command) (status : Z) : Prop :=
  ∃ s s' : dev (T:=T) * probe, Probe.attempt target fixed rows s = (Ok status, s').

Lemma replay_rows_log rows n : own_rel eq (replay_rows (T:=T) rows n).
Proof.
  revert n. induction rows as [|c rows IH]; intros n; cbn [replay_rows]; [own|].
  apply own_bind; [apply _|unfold replay; own|intros [|]; [apply IH|]].
  destruct (_ <=? _)%nat; [own|apply IH].
Qed.

Lemma attempt_log target fixed rows : own_rel eq (attempt (T:=T) target fixed rows).
Proof. unfold attempt, preamble. own. apply replay_rows_log. Qed.

(** One attempt is one line of the log. *)
Lemma try_rows_ok target fixed rows s status s' :
  try_rows target fixed rows s = (Ok status, s') →
  tried target fixed rows status ∧
  log (snd s') = log (snd s) ++ [Attempted (length rows) status].
Proof.
  unfold try_rows. intros H. apply bind_ok_inv in H as (st&s1&E1&H).
  apply bind_ok_inv in H as (u&s2&E2&H). injection H as <- <-. split; [by exists s, s1|].
  pose proof (attempt_log target fixed rows s) as Hl. rewrite E1 in Hl. cbn in Hl. rewrite Hl.
  destruct s1 as [d1 p1]. injection E2 as _ <-. by destruct p1.
Qed.

Lemma log2_up_half n m : (1 < n)%nat → (2 * m <= n + 1)%nat →
  (S (Nat.log2_up m) <= Nat.log2_up n)%nat.
Proof.
  intros Hn Hm. pose proof (Nat.log2_up_pos n Hn) as Hpos.
  destruct (Nat.log2_up_spec n Hn) as [_ Hpow].
  destruct (Nat.log2_up n) as [|k] eqn:Ek; [lia|]. cbn in Hpow.
  destruct (decide (m = 0%nat)) as [->|Hm0]; [cbn; lia|].
  apply le_n_S, Nat.log2_up_le_pow2; lia.
Qed.

(** [h] rows are the least found to make the target fail, in at most [n] more
    attempts. *)
Definition narrowed (target : command) (fixed pool : list command) (h n : nat)
    (s s' : dev (T:=T) * probe) : Prop :=
  (0 < h <= length pool)%nat ∧ tried target fixed (take (h - 1) pool) 0 ∧
  (∃ st, tried target fixed (take h pool) st ∧ st ≠ 0) ∧
  ∃ trail, log (snd s') = log (snd s) ++ trail ∧ (length trail <= n)%nat.

Lemma narrowed_after target fixed pool h n m s s1 s' l :
  narrowed target fixed pool h m s1 s' → log (snd s1) = log (snd s) ++ [l] → (S m <= n)%nat →
  narrowed target fixed pool h n s s'.
Proof.
  intros (Hh&Hw&Hf&trail&Ht&Hlen) Hl Hn. split_and!; try done; [lia|lia|].
  exists (l :: trail). rewrite Ht, Hl, <- app_assoc. split; [done|cbn; lia].
Qed.

Lemma bisect_loop_narrows fuel target fixed pool low high st0 s h s' :
  bisect_loop fuel target fixed pool low high s = (Ok h, s') →
  (low < high <= length pool)%nat →
  tried target fixed (take low pool) 0 → tried target fixed (take high pool) st0 → st0 ≠ 0 →
  narrowed target fixed pool h (Nat.log2_up (high - low)) s s'.
Proof.
  revert low high st0 s. induction fuel as [|fuel IH]; intros low high st0 s; cbn [bisect_loop]; [done|].
  intros Hrun Hb Hlow Hhigh Hst. destruct (Nat.ltb_spec 1 (high - low)) as [Hlt|Hge].
  - apply bind_ok_inv in Hrun as (status&s1&E1&Hrun). apply try_rows_ok in E1 as [Htried Hlog].
    pose proof (Nat.div_mod_eq (low + high) 2).
    pose proof (Nat.mod_upper_bound (low + high) 2 ltac:(lia)).
    destruct (Z.eqb_spec status 0) as [->|Hne]; eapply narrowed_after; try exact Hlog.
    + eapply IH; [exact Hrun|lia|exact Htried|exact Hhigh|exact Hst].
    + apply log2_up_half; lia.
    + eapply IH; [exact Hrun|lia|exact Hlow|exact Htried|exact Hne].
    + apply log2_up_half; lia.
  - injection Hrun as <- <-. assert (low = (high - 1)%nat) as -> by lia.
    split_and!; try done; [lia|lia|by exists st0|].
    exists []. rewrite app_nil_r. split; [done|cbn; lia].
Qed.

(** C14: the row a bisection names makes the difference: with the rows before it
    in the pool the target was seen to work, with it added the target was seen
    to fail; and no more than two attempts more than the binary logarithm of
    the size of the pool were logged to find it. *)
Theorem bisect_names_culprit op (s s' : dev (T:=T) * probe) high culprit alone :
  Probe.bisect op s = (Ok (Culprit high culprit alone), s') →
  ∃ target, BY_OPCODE !! op = Some target ∧
    let fixed := rows_before (opcode target) (phase_rows target) in
    let pool := bisect_pool target (snd s) in
    pool !! (high - 1)%nat = Some culprit ∧
    tried target fixed (take (high - 1) pool) 0 ∧
    (∃ st, tried target fixed (take (high - 1) pool ++ [culprit]) st ∧ st ≠ 0) ∧
    ∃ trail, log (snd s') = log (snd s) ++ trail ∧
      (length trail <= 2 + Nat.log2_up (length pool))%nat.
Proof.
  unfold Probe.bisect. destruct (BY_OPCODE !! op) as [target|]; [|done].
  destruct (negb _); [done|]. intros H. apply bind_ok_inv in H as (p&s0&E0&H).
  injection E0 as <- <-. exists target. split; [done|]. cbn zeta.
  generalize dependent (bisect_pool target (snd s)). intros pool H.
  generalize dependent (rows_before (opcode target) (phase_rows target)). intros fixed H.
  unfold bisect_with in H. apply bind_ok_inv in H as (clean&s1&E1&H).
  apply bind_ok_inv in H as (dirty&s2&E2&H).
  apply try_rows_ok in E1 as [Hclean L1]. apply try_rows_ok in E2 as [Hdirty L2].
  destruct (Z.eqb_spec clean 0) as [->|]; [|done]. cbn [negb] in H.
  destruct (Z.eqb_spec dirty 0) as [|Hne]; [done|].
  apply bind_ok_inv in H as (h&s3&E3&H). apply bind_ok_inv in H as (c&s4&E4&H).
  apply bind_ok_inv in H as (al&s5&E5&H). injection H as -> -> _ <-.
  pose proof (attempt_log target fixed [culprit] s4) as L5. rewrite E5 in L5. cbn [fst snd] in L5.
  injection E4 as E4 <-. unfold idx in E4.
  destruct (pool !! (high - 1)%nat) as [c|] eqn:Hc; [|done]. injection E4 as ->.
  assert (Hlen : (0 < length pool)%nat) by (apply lookup_lt_Some in Hc; lia).
  rewrite <- (firstn_all pool) in Hdirty.
  destruct (bisect_loop_narrows _ _ _ _ _ _ _ _ _ _ E3 ltac:(lia) Hclean Hdirty Hne)
    as (Hh&Hw&(st&Hf&Hst)&trail&L3&Htr).
  split_and!; [done|done| |].
  - exists st. split; [|done]. rewrite <- (take_S_r pool _ culprit Hc).
    by replace (S (high - 1)) with high by lia.
  - rewrite Nat.sub_0_r in Htr. eexists. rewrite <- L5, L3, L2, L1, <- !app_assoc.
    split; [done|]. cbn. lia.
Qed.
End verdict.

(** ** A concrete controller *)

(** It answers every command with success, except [target] once it has seen
    [trigger] since the last reset. *)
Record controller : Type := Controller {
  k_seen : bool; k_replies : list packet; k_sent : list bytes }.

Definition success (op status : Z) : packet :=
  Pkt H4_EVENT (Some EVT_COMMAND_COMPLETE) ([1] ++ le_bytes 2 op ++ [status]).

Section controller.
Context (target trigger : Z).

Definition controller_write (bs : bytes) (k : controller) : controller :=
  let op := match unpack_H (slice 1 3 bs) with Ok op => op | _ => 0 end in
  let seen := if op =? OP_RESET then false else (op =? trigger) || k_seen k in
  let status := if (op =? target) && k_seen k then 0x0C else 0 in
  Controller seen (k_replies k ++ [success op status]) (k_sent k ++ [bs]).

#[local] Instance controller_transport : Transport controller := {|
  t_read_packet timeout s :=
    match k_replies (snd s) with
    | p :: ps => (Ok (Some p), (fst s, Controller (k_seen (snd s)) ps (k_sent (snd s))))
    | [] => (Ok None, (fst s + timeout, snd s))
    end;
  t_write_packet bs := modify (controller_write bs);
  t_has_pending_input s := (Ok (bool_decide (k_replies (snd s) ≠ [])), s);
  t_sent := k_sent;
  t_backlog k := length (k_replies k);
  t_wf _ := True;
|}.
End controller.

Definition controller_dev : dev (T:=controller) := (0, init_hci (Controller false [] [])).
Definition demo_args : args := Args None false true false 0 0 0 0 None None.
Definition demo_probe : probe := start_probe demo_args (zeros 6) 0.

(** LE Set Advertising Parameters, refused after Read Local Supported Features. *)
Definition demo_bisect :=
  @Probe.bisect _ (controller_transport 0x2006 0x1003) 0x2006 (controller_dev, demo_probe).

#[local] Opaque COMMANDS.

Lemma bisect_names_culprit_witness :
  ∃ target culprit, BY_OPCODE !! 0x2006 = Some target ∧ opcode culprit = 0x1003 ∧
    let fixed := rows_before (opcode target) (phase_rows target) in
    let pool := bisect_pool target demo_probe in
    @tried _ (controller_transport 0x2006 0x1003) target fixed (take 4 pool) 0 ∧
    ∃ st, @tried _ (controller_transport 0x2006 0x1003) target fixed (take 4 pool ++ [culprit]) st
          ∧ st ≠ 0.
Proof.
  assert (E : ∃ culprit s', demo_bisect = (Ok (Culprit 5 culprit true), s') ∧ opcode culprit = 0x1003)
    by (do 2 eexists; split; vm_compute; reflexivity).
  destruct E as (culprit&s'&E&Hop).
  pose proof (@bisect_names_culprit _ (controller_transport 0x2006 0x1003) 0x2006
    (controller_dev, demo_probe) s' 5 culprit true E) as (target&Ht&_&Hw&Hf&_).
  exists target, culprit. split; [exact Ht|]. split; [exact Hop|]. split; [exact Hw|exact Hf].
Defined.

Lemma send_accounts_witness :
  ∃ c d' p', BY_OPCODE !! 0x1003 = Some c ∧
    @Probe.send _ (controller_transport 0x2006 0x1003) c (controller_dev, demo_probe)
      = (Ok tt, (d', p')) ∧ counted p' = 1%nat.
Proof.
  assert (E : ∃ c, BY_OPCODE !! 0x1003 = Some c ∧ probe_available c demo_probe = true ∧
    fst (@Probe.send _ (controller_transport 0x2006 0x1003) c (controller_dev, demo_probe)) = Ok tt)
    by (eexists; split; [vm_compute; reflexivity|split; vm_compute; reflexivity]).
  destruct E as (c&Hc&Hav&Hr). exists c.
  destruct (@Probe.send _ _ c (controller_dev, demo_probe)) as [r [d' p']] eqn:E.
  cbn in Hr. subst r. exists d', p'. split; [exact Hc|]. split; [reflexivity|].
  pose proof (@send_accounts _ (controller_transport 0x2006 0x1003) c _ _ _ _ E) as H.
  rewrite Hav in H. exact (proj1 H).
Defined.

(** Two rows to undo, on a line that stays silent: both are written. *)
Definition undo_probe : probe :=
  demo_probe<|undo_list := [(0x200A, λ _, Ok [0]); (0x2039, λ _, Ok [0; 0])]|>.

Lemma unwind_reverses_witness :
  let '(r, (d', p')) := Probe.unwind (AttLaws.demo_dev, undo_probe) in
  r = Ok tt ∧ undo_list p' = [] ∧
  sent d' = [command_packet 0x2039 [0; 0]; command_packet 0x200A [0]] ∧
  ∃ ps, sent d' = ps ∧ ps `sublist_of` [command_packet 0x2039 [0; 0]; command_packet 0x200A [0]].
Proof.
  pose proof (unwind_reverses AttLaws.demo_dev undo_probe AttLaws.demo_dev_ok) as H.
  assert (E : let '(r, (d', p')) := Probe.unwind (AttLaws.demo_dev, undo_probe) in
    r = Ok tt ∧ sent d' = [command_packet 0x2039 [0; 0]; command_packet 0x200A [0]])
    by (vm_compute; by split).
  destruct (Probe.unwind _) as [r [d' p']]. destruct E as [-> E]. destruct H as [Hu (ps&Hs&Hp)].
  split_and!; [done|by apply Hu|done|]. exists ps. split; [exact Hs|]. exact Hp.
Defined.

Lemma probe_without_consent_witness :
  let '(r, d') := Probe.cmd_probe demo_args AttLaws.demo_dev in
  r ≠ Stuck ∧
  ∃ ps, sent d' = ps ∧
    Forall (λ pkt, ∃ op payload, pkt = command_packet op payload ∧
      ∀ c, c ∈ COMMANDS ++ TEARDOWN → NEEDS_CONSENT ∈ needs c → opcode c ≠ op) ps.
Proof.
  exact (probe_without_consent demo_args AttLaws.demo_dev AttLaws.demo_dev_ok
           eq_refl eq_refl eq_refl (Z.le_refl 0)).
Defined.

Lemma probe_ends_witness :
  let '(r, d') := Probe.cmd_probe demo_args AttLaws.demo_dev in engine_ok d' ∧ r ≠ Stuck.
Proof.
  pose proof (probe_ends demo_args AttLaws.demo_dev AttLaws.demo_dev_ok (Z.le_refl 0)) as H.
  destruct (Probe.cmd_probe _ _). by destruct H as (?&?&_).
Defined.
End ProbeVerdict.
