(* ===== verification/Guard.v ===== *)
(** * Guard: what the probe's commands wait for (hci_ble_test.py)

    Some commands are not over at their Command Status: the probe runs with a
    [command] that waits for the event that ends them, retries a busy
    controller, and remembers a cancelled initiator until its connection event
    arrives; a row is offered only when none of these is outstanding. *)

From S2P Require Export Ends Probe.
#[local] Open Scope Z_scope.

Module Guard.

Definition STATUS_CONTROLLER_BUSY : Z := 0x3A.
Definition OP_LE_SET_PHY : Z := 0x2032.
Definition OP_LE_READ_REMOTE_TX_POWER : Z := 0x2077.
Definition OP_VS_WRITE_REMOTE_TX_POWER : Z := 0xFD0A.
Definition OP_LE_CREATE_CONNECTION_CANCEL : Z := 0x200E.
Definition LE_PHY_UPDATE_COMPLETE : Z := 0x0C.
Definition LE_TRANSMIT_POWER_REPORTING : Z := 0x21.
Definition LE_EVENT_MASK_PHY_UPDATE : Z := Z.shiftl 1 11.
Definition LE_EVENT_MASK_TRANSMIT_POWER_REPORTING : Z := Z.shiftl 1 32.
Definition POWER_REPORT_REASON_READ_REMOTE : Z := 0x02.
Definition PHY_UPDATE_TIMEOUT : Z := seconds 5.
Definition REMOTE_TX_POWER_TIMEOUT : Z := seconds 5.
Definition FD0A_BUSY_RETRIES : nat := 10.
Definition FD0A_BUSY_DELAY : Z := ms 100.

(** The event that ends a cancelled initiator. *)
Definition match_connection (p : packet) : res (option conn_info) :=
  if is_event EVT_LE_META p then parse_connection (body p) else Ok None.

(** (status, tx PHY, rx PHY) of the handle's PHY update. *)
Definition match_phy (handle : Z) (p : packet) : res (option (Z * Z * Z)) :=
  if is_event EVT_LE_META p && (6 <=? length (body p))%nat
     && bool_decide (head (body p) = Some LE_PHY_UPDATE_COMPLETE) then
    event_handle ← unpack_H (slice 2 4 (body p));
    if mask12 event_handle =? handle then
      status ← idx (body p) 1; tx ← idx (body p) 4; rx ← idx (body p) 5;
      Ok (Some (status, tx, rx))
    else Ok None
  else Ok None.

(** The status of the handle's remote power read. *)
Definition match_power (handle : Z) (p : packet) : res (option Z) :=
  if is_event EVT_LE_META p && (5 <=? length (body p))%nat
     && bool_decide (head (body p) = Some LE_TRANSMIT_POWER_REPORTING) then
    event_handle ← unpack_H (slice 2 4 (body p));
    reason ← idx (body p) 4;
    if (mask12 event_handle =? handle) && (reason =? POWER_REPORT_REASON_READ_REMOTE)
    then status ← idx (body p) 1; Ok (Some status)
    else Ok None
  else Ok None.

(** [_link_down_for]. *)
Definition link_down_for {T} (h : hci T) (handle : Z) : bool :=
  match link_down h with
  | Some (status, down, _) => (status =? 0) && (down =? handle)
  | None => false
  end.

(** A set event mask keeps the events the guard waits for unmasked. *)
Definition guarded_payload (opcode : Z) (payload : bytes) : bytes :=
  if (opcode =? OP_LE_SET_EVENT_MASK) && (length payload =? 8)%nat
  then le_bytes 8 (Z.lor (le_Z payload)
         (Z.lor LE_EVENT_MASK_PHY_UPDATE LE_EVENT_MASK_TRANSMIT_POWER_REPORTING))
  else payload.

Section guard.
Context {T : Type} `{!Transport T}.

(** [_cancel_pending]; [_deferred_pairing] is kept as the call it stands for. *)
Record guard : Type := GuardState {
  cancel_pending : bool; deferred_pairing : option (M (dev (T:=T)) unit) }.

Definition set_cancel b g := GuardState b (deferred_pairing g).
Definition set_deferred m g := GuardState (cancel_pending g) m.

Abbreviation G X := (M (dev (T:=T) * guard) X).

(** [_wait_for_cancel_terminal], [_wait_for_phy_update],
    [_wait_for_remote_tx_power_report]. *)
Definition wait_for_cancel_terminal (timeout : Z) : M (dev (T:=T)) (option conn_info) :=
  wait_for match_connection timeout.
Definition wait_for_phy_update (handle timeout : Z) : M (dev (T:=T)) (option (Z * Z * Z)) :=
  wait_for (match_phy handle) timeout.
Definition wait_for_remote_tx_power_report (handle timeout : Z) : M (dev (T:=T)) (option Z) :=
  wait_for (match_power handle) timeout.

(** [_poll_ready_events]: on fuel, one turn per packet still to come. *)
Fixpoint poll_ready_loop (fuel : nat) : M (dev (T:=T)) unit :=
  match fuel with
  | O => λ s, (Stuck, s)
  | S fuel' =>
      more ← has_pending_input;
      if more : bool then
        p ← read_wire (ms 100);
        match p with
        | Some p => extend_pending [p] ;; poll_ready_loop fuel'
        | None => skip
        end
      else skip
  end.

Definition poll_ready_events : M (dev (T:=T)) unit :=
  fuel ← gets (λ s : dev (T:=T), t_backlog (transport (snd s)));
  poll_ready_loop (S fuel).

(** [probe_wait_for_peer] and [probe_wait_for_ltk] around what they wrap. *)
Definition forget_link : M (dev (T:=T)) unit :=
  on_hci (modify (λ h, set_encryption None (set_ltk_request None (set_link_down None h)))).

Definition probe_wait_for_peer (original : M (dev (T:=T)) (option Z)) : M (dev (T:=T)) (option Z) :=
  handle ← original;
  match handle with
  | Some h => forget_link ;; mret (Some h)
  | None => mret None
  end.

Definition probe_wait_for_ltk (original : M (dev (T:=T)) unit) : G unit :=
  on_own (modify (set_deferred (Some original))).

(** *** guarded_command *)

Definition raw_command opcode payload timeout allow_fail : G (Z * bytes) :=
  on_dev (command_t opcode payload timeout allow_fail).

(** [struct.unpack("<H", payload[:2])[0] & 0x0FFF]. *)
Definition payload_handle (payload : bytes) : res Z :=
  h ← unpack_H (take 2 payload); Ok (mask12 h).

(** LE Set PHY is over at its update event, whose status is the result. *)
Definition after_set_phy (opcode : Z) (payload : bytes) (result : Z * bytes) : G (Z * bytes) :=
  if (opcode =? OP_LE_SET_PHY) && (fst result =? 0) && (2 <=? length payload)%nat then
    handle ← lift (payload_handle payload);
    terminal ← on_dev (wait_for_phy_update handle PHY_UPDATE_TIMEOUT);
    match terminal with
    | None => raise (HciError (Fmt "no LE PHY Update Complete for 0x2032 handle 0x%04X" [AInt handle]))
    | Some (status, _, _) => mret (if negb (status =? 0) then (status, []) else result)
    end
  else mret result.

Definition after_read_power (opcode : Z) (payload : bytes) (result : Z * bytes) : G (Z * bytes) :=
  if (opcode =? OP_LE_READ_REMOTE_TX_POWER) && (fst result =? 0) && (2 <=? length payload)%nat then
    handle ← lift (payload_handle payload);
    terminal ← on_dev (wait_for_remote_tx_power_report handle REMOTE_TX_POWER_TIMEOUT);
    match terminal with
    | None => raise (HciError (Fmt
        "no LE Transmit Power Reporting reason 0x02 for 0x2077 handle 0x%04X" [AInt handle]))
    | Some status => mret (if negb (status =? 0) then (status, []) else result)
    end
  else mret result.

(** [while busy and retries < _FD0A_BUSY_RETRIES]. *)
Fixpoint busy_loop (retries : nat) (opcode : Z) (payload : bytes) (timeout : Z)
    (result : Z * bytes) : G (Z * bytes) :=
  match retries with
  | O => mret result
  | S n =>
      if fst result =? STATUS_CONTROLLER_BUSY then
        on_dev (modify (λ s, (fst s + FD0A_BUSY_DELAY, snd s))) ;;
        result ← raw_command opcode payload timeout true;
        busy_loop n opcode payload timeout result
      else mret result
  end.

Definition retry_busy (opcode : Z) (payload : bytes) (timeout : Z) (allow_fail : bool)
    (result : Z * bytes) : G (Z * bytes) :=
  if (opcode =? OP_VS_WRITE_REMOTE_TX_POWER) && allow_fail
  then busy_loop FD0A_BUSY_RETRIES opcode payload timeout result
  else mret result.

(** A cancelled initiator ends in a connection event; a connection it made
    after all is closed. *)
Definition after_cancel (opcode : Z) (result : Z * bytes) : G unit :=
  when ((opcode =? OP_LE_CREATE_CONNECTION_CANCEL) && (fst result =? 0))
    (on_own (modify (set_cancel true)) ;;
     terminal ← on_dev (wait_for_cancel_terminal (seconds 2));
     match terminal with
     | None => skip
     | Some c =>
         on_own (modify (set_cancel false)) ;;
         when (ci_status c =? 0)
           (payload ← lift (pack [FH (ci_handle c); FB 0x13]);
            raw_command OP_DISCONNECT payload (seconds 1) true ;; skip)
     end).

(** Is this a Disconnect of a link that is already down? *)
Definition already_down (opcode : Z) (payload : bytes) : G (option Z) :=
  if (opcode =? OP_DISCONNECT) && (2 <=? length payload)%nat then
    handle ← lift (unpack_H (take 2 payload));
    s ← on_dev (gets snd);
    mret (if link_down_for s handle then Some handle else None)
  else mret None.

(** What follows the first answer. *)
Definition finish_command (opcode : Z) (payload : bytes) (timeout : Z) (allow_fail : bool)
    (result : Z * bytes) : G (Z * bytes) :=
  result ← after_set_phy opcode payload result;
  result ← after_read_power opcode payload result;
  result ← retry_busy opcode payload timeout allow_fail result;
  after_cancel opcode result ;;
  mret result.

Definition guarded_command (opcode : Z) (payload : bytes) (timeout : Z) (allow_fail : bool)
  : G (Z * bytes) :=
  let payload := guarded_payload opcode payload in
  down ← already_down opcode payload;
  match down with
  | Some handle =>
      if allow_fail then mret (0x02, [])
      else raise (HciError (Fmt "connection 0x%04X is already down" [AInt handle]))
  | None =>
      result ← raw_command opcode payload timeout allow_fail;
      finish_command opcode payload timeout allow_fail result
  end.

(** *** probe_available *)

(** [_cancel_pending] and its event: may the row go on? *)
Definition cancel_settled : G bool :=
  g ← gets snd;
  if cancel_pending g then
    terminal ← on_dev (wait_for_cancel_terminal (seconds 3));
    match terminal with
    | None => mret false
    | Some _ => on_own (modify (set_cancel false)) ;; mret true
    end
  else mret true.

(** A row of the link, once what has arrived is looked at. *)
Definition link_is_up (handle : Z) : G bool :=
  on_dev poll_ready_events ;;
  h ← on_dev (gets snd);
  mret (negb (link_down_for h handle)).

(** The deferred pairing runs before the link is closed. *)
Definition pairing_done (handle : Z) : G bool :=
  g ← gets snd;
  match deferred_pairing g with
  | None => mret true
  | Some pairing =>
      on_own (modify (set_deferred None)) ;;
      h ← on_dev (gets snd);
      when (negb (link_down_for h handle)) (on_dev pairing) ;;
      link_is_up handle
  end.

Definition probe_available (c : command) (p : Probe.probe) : G bool :=
  settled ← cancel_settled;
  if negb settled then mret false
  else
    up ← (if bool_decide (NEEDS_CONN ∈ needs c) then link_is_up (c_handle (Probe.ctx p))
          else mret true);
    if negb up then mret false
    else
      paired ← (if opcode c =? OP_DISCONNECT then pairing_done (c_handle (Probe.ctx p))
                else mret true);
      if negb paired then mret false
      else mret (Probe.probe_available c p).
End guard.

(** *** cmd_probe around the probe it wraps *)

(** [--only] narrows the tables before the run. *)
Definition select_rows (only : option (list Z)) (rows : list command) : list command :=
  match only with
  | Some selected => filter (λ c, opcode c ∈ selected) rows
  | None => rows
  end.

(** A run that refused rows otherwise has failed. *)
Definition strict_result (result refused_otherwise : Z) : Z :=
  if (result =? 0) && negb (refused_otherwise =? 0) then 1 else result.
End Guard.

(** ** Properties *)

Module GuardLaws.
Import Guard.

Lemma match_connection_total p : ∃ r, match_connection p = Ok r.
Proof. unfold match_connection. case_match; [apply parse_connection_total|eauto]. Qed.

Lemma match_connection_decodes p : decodes (match_connection p).
Proof. destruct (match_connection_total p) as [r ->]. apply decodes_ok. Qed.

Lemma match_phy_decodes h p : decodes (match_phy h p).
Proof. unfold match_phy. decode. Qed.

Lemma match_power_decodes h p : decodes (match_power h p).
Proof. unfold match_power. decode. Qed.

Section laws.
Context {T : Type} `{Tr : !Transport T, TL : !TransportLaws T}.
Implicit Types (d : dev (T:=T)) (g : guard (T:=T)).

(** A wait for something that decodes. *)
Lemma wait_cases {A} (f : packet → res (option A)) timeout d :
  (∀ p, decodes (f p)) → engine_ok d →
  let '(r, d') := wait_for f timeout d in
  engine_ok d' ∧ both_frame d d' ∧ sent d' = sent d ∧
  match r with
  | Ok found => ∃ wire, kept f found (pending (snd d) ++ wire) (pending (snd d'))
  | Exc e => engine_exn e
  | Stuck => False
  end.
Proof.
  intros Hf Hd. apply wait_for_cases; [apply Hf| |done].
  intros p e _ He. right. by apply (Hf p).
Qed.

Lemma wait_trace {A} P (f : packet → res (option A)) timeout :
  (∀ p, decodes (f p)) → runs engine_ok (trace_frame P) engine_exn (wait_for f timeout).
Proof.
  intros Hf d Hd. pose proof (wait_cases f timeout d Hf Hd) as H.
  destruct (wait_for f timeout d) as [r d']. destruct H as (?&?&?&Hr). cbn.
  split_and!; [done|split; [done|by apply wrote_nothing]|by intros ? ->|by intros ->].
Qed.

Lemma has_pending_cases P d :
  engine_ok d →
  let '(r, d') := has_pending_input (T:=T) d in
  engine_ok d' ∧ trace_frame P d d' ∧ pending (snd d') = pending (snd d) ∧
  (∀ e, r = Exc e → engine_exn e) ∧ r ≠ Stuck.
Proof.
  intros Hd. pose proof (has_pending_runs d Hd) as (Hd'&Hfr&He&Hs). revert Hd' Hfr He Hs.
  unfold has_pending_input, on_wire, zoom. destruct d as [now h]. cbn.
  pose proof (as_hci_errors_runs _ _ _ pending_runs (now, transport h) (proj1 Hd)) as (_&(_&Hsent&_)&_).
  destruct (as_hci_errors _ _) as [r [now' t']]. cbn in *. intros. split_and!; try done.
  split; [done|]. by apply wrote_nothing.
Qed.

Lemma poll_ready_loop_trace P fuel d :
  engine_ok d → (t_backlog (transport (snd d)) < fuel)%nat →
  let '(r, d') := poll_ready_loop fuel d in
  engine_ok d' ∧ trace_frame P d d' ∧ (∀ e, r = Exc e → engine_exn e) ∧ r ≠ Stuck.
Proof.
  revert d. induction fuel as [|fuel IH]; intros d Hd Hf; [lia|]. cbn [poll_ready_loop].
  unfold mbind at 1, M_bind at 1. pose proof (has_pending_cases P d Hd) as H1.
  destruct (has_pending_input d) as [[[|]|e|] d1]; destruct H1 as (Hd1&Ht1&Hp1&He1&Hs1);
    [|by split_and!|split_and!; [done|done|intros ? [= <-]; by apply He1|done]|done].
  unfold mbind at 1, M_bind at 1.
  pose proof (read_wire_cases (ms 100) d1 Hd1) as H2.
  pose proof (read_wire_sent (ms 100) d1 Hd1) as Hw2.
  destruct (read_wire (ms 100) d1) as [[[p|]|e|] d2]; cbn [snd] in *; destruct H2 as (Hd2&Hfr2&Hp2&H2).
  4: done.
  3: { split_and!; [done|etrans; [exact Ht1|split; [done|by apply wrote_nothing]]|by intros ? [= <-]|done]. }
  2: { split_and!; [done|etrans; [exact Ht1|split; [done|by apply wrote_nothing]]|done|done]. }
  destruct H2 as [Hpk Hl]. set (d3 := (fst d2, set_pending (pending (snd d2) ++ [p]) (snd d2))).
  change ((extend_pending [p] ;; poll_ready_loop fuel) d2) with (poll_ready_loop (T:=T) fuel d3).
  assert (Hd3 : engine_ok d3).
  { destruct Hd2 as [? ?]. split; [done|]. cbn. apply Forall_app. split; [done|by constructor]. }
  assert (H13 : trace_frame P d1 d3).
  { destruct Hfr2 as [[Ht _] Hc]. split; [|by apply wrote_nothing].
    unfold both_frame, load_frame, load, credit_frame, credit_balance, acl_sent in *. cbn.
    rewrite length_app. cbn. split; [split; [done|lia]|exact Hc]. }
  specialize (IH d3 Hd3). destruct (poll_ready_loop fuel d3) as [r d'].
  destruct IH as (?&?&?&?).
  { cbn. destruct Ht1 as [[[_ Hl1] _] _]. unfold load in *. rewrite Hp1, Hp2 in *. lia. }
  split_and!; try done. etrans; [exact Ht1|]. by etrans.
Qed.

Lemma poll_ready_trace P : runs engine_ok (trace_frame P) engine_exn (poll_ready_events (T:=T)).
Proof.
  intros d Hd. unfold poll_ready_events, gets, mbind, M_bind.
  pose proof (poll_ready_loop_trace P (S (t_backlog (transport (snd d)))) d Hd ltac:(lia)) as H.
  by destruct (poll_ready_loop _ d).
Qed.

(** *** A row is offered when nothing is outstanding *)

(** The deferred pairing is an engine program. *)
Definition guard_ok g : Prop :=
  match deferred_pairing g with
  | Some pairing => runs engine_ok (trace_frame (λ _, True)) engine_exn pairing
  | None => True
  end.

Definition guarded_ok (s : dev (T:=T) * guard (T:=T)) : Prop := engine_ok (fst s) ∧ guard_ok (snd s).

(** A check: when it says yes, [holds] is true of the state it leaves. *)
Definition checks (holds : dev (T:=T) * guard → Prop) (before : dev (T:=T) * guard → Prop)
    (m : M (dev (T:=T) * guard) bool) : Prop :=
  ∀ s, guarded_ok s → before s → let '(r, s') := m s in
    guarded_ok s' ∧
    match r with
    | Ok b => b = true → holds s'
    | Exc e => engine_exn e
    | Stuck => False
    end.

(** [if not check: return False], then the next one. *)
Lemma checks_then before mid holds m k :
  checks mid before m → checks holds mid k →
  checks holds before (b ← m; if negb b then mret false else k).
Proof.
  intros Hm Hk s Hs Hb. specialize (Hm s Hs Hb). unfold mbind, M_bind.
  destruct (m s) as [[[|]|e|] s1]; destruct Hm as [Hs1 Hr]; try done.
  by apply (Hk s1 Hs1), Hr.
Qed.

Lemma checks_yes (holds : dev (T:=T) * guard → Prop) : checks holds holds (mret true).
Proof. by intros s Hs Hh. Qed.

Abbreviation settled := (λ s : dev (T:=T) * guard, cancel_pending (snd s) = false).
Abbreviation up h := (λ s : dev (T:=T) * guard, link_down_for (snd (fst s)) h = false).

Lemma cancel_settled_checks : checks settled (λ _, True) cancel_settled.
Proof.
  intros [d g] [Hd Hg] _. unfold cancel_settled, gets, mbind, M_bind. cbn.
  destruct (cancel_pending g) eqn:Hc; [|by split].
  pose proof (wait_cases match_connection (seconds 3) d match_connection_decodes Hd) as H.
  unfold on_dev, zoom. cbn. change (wait_for_cancel_terminal (seconds 3) d)
    with (wait_for match_connection (seconds 3) d).
  destruct (wait_for _ _ d) as [[[x|]|e|] d']; destruct H as (?&_&_&Hr); cbn; try done; by split.
Qed.

Lemma link_is_up_checks h : checks (λ s, settled s ∧ up h s) settled (link_is_up h).
Proof.
  intros [d g] [Hd Hg] Hc. unfold link_is_up, on_dev, zoom, gets, mbind, M_bind. cbn.
  destruct (poll_ready_trace (λ _, True) d Hd) as (?&_&He&Hst).
  destruct (poll_ready_events d) as [[u|e|] d']; cbn in *; [|split; [done|by apply He]|done].
  split; [done|]. intros ?%negb_true_iff. by split.
Qed.

Lemma pairing_done_checks h (P : Prop) :
  checks (λ s, (settled s ∧ (P → up h s)) ∧ deferred_pairing (snd s) = None)
    (λ s, settled s ∧ (P → up h s)) (pairing_done h).
Proof.
  intros [d g] [Hd Hg] [Hc Hup]. unfold pairing_done, gets, mbind at 1, M_bind at 1. cbn.
  destruct (deferred_pairing g) as [pairing|] eqn:Hp; [|by split].
  assert (Hpair : runs engine_ok (trace_frame (λ _, True)) engine_exn pairing).
  { unfold guard_ok in Hg. cbn in Hg. by rewrite Hp in Hg. }
  set (g' := set_deferred None g).
  unfold when, on_own, on_dev, zoom, modify, gets, mbind, M_bind. cbn -[link_is_up].
  assert (Hlink : ∀ d1, engine_ok d1 → let '(r, s') := link_is_up h (d1, g') in
    guarded_ok s' ∧ match r with
      | Ok b => b = true → (settled s' ∧ (P → up h s')) ∧ deferred_pairing (snd s') = None
      | Exc e => engine_exn e | Stuck => False end).
  { intros d1 Hd1. pose proof (link_is_up_checks h (d1, g')) as H.
    unfold link_is_up, on_dev, zoom, gets, mbind, M_bind in *. cbn in *.
    specialize (H ltac:(by split) Hc). destruct (poll_ready_events d1) as [[u|e|] d2]; cbn in *; try done.
    destruct H as [? H]. split; [done|]. intros Hb. destruct (H Hb). by split_and!. }
  fold g'. destruct (link_down_for (snd d) h); cbn -[link_is_up]; [by apply Hlink|].
  destruct (Hpair d Hd) as (Hd1&_&He&Hst).
  destruct (pairing d) as [[u|e|] d1]; cbn -[link_is_up] in *; [by apply Hlink|split; [done|by apply He]|done].
Qed.

(** When the probe offers a row, no cancelled initiator is outstanding, the
    link a row needs was not seen to go down, a Disconnect comes after the
    deferred pairing, and the row's own prerequisites hold; the check ends,
    and raises only engine exceptions. *)
Theorem row_offered (c : command) (p : Probe.probe) s :
  guarded_ok s →
  let '(r, s') := probe_available c p s in
  guarded_ok s' ∧
  match r with
  | Ok true =>
      cancel_pending (snd s') = false ∧
      (NEEDS_CONN ∈ needs c → link_down_for (snd (fst s')) (c_handle (Probe.ctx p)) = false) ∧
      (opcode c = OP_DISCONNECT → deferred_pairing (snd s') = None) ∧
      Probe.probe_available c p = true
  | Ok false => True
  | Exc e => engine_exn e
  | Stuck => False
  end.
Proof.
  intros Hs. set (h := c_handle (Probe.ctx p)).
  assert (H : checks (λ s, ((settled s ∧ (NEEDS_CONN ∈ needs c → up h s)) ∧
      (opcode c = OP_DISCONNECT → deferred_pairing (snd s) = None)) ∧ Probe.probe_available c p = true)
    (λ _, True) (probe_available c p)).
  { unfold probe_available. apply (checks_then _ settled); [apply cancel_settled_checks|].
    apply (checks_then _ (λ s, settled s ∧ (NEEDS_CONN ∈ needs c → up h s))).
    { case_bool_decide; [|by intros s1 Hs1 Hc; cbn; auto].
      intros s1 Hs1 Hc. pose proof (link_is_up_checks h s1 Hs1 Hc) as Hl. fold h.
      destruct (link_is_up h s1) as [[b|e|] s2]; destruct Hl as [? Hl]; [|done|done].
      split; [done|]. intros Hb. destruct (Hl Hb). by split. }
    apply (checks_then _ (λ s, (settled s ∧ (NEEDS_CONN ∈ needs c → up h s)) ∧
      (opcode c = OP_DISCONNECT → deferred_pairing (snd s) = None))).
    { destruct (Z.eqb_spec (opcode c) OP_DISCONNECT) as [Ho|Hn].
      - intros s1 Hs1 Hc. pose proof (pairing_done_checks h (NEEDS_CONN ∈ needs c) s1 Hs1 Hc) as Hl.
        fold h. destruct (pairing_done h s1) as [[b|e|] s2]; destruct Hl as [? Hl]; [|done|done].
        split; [done|]. intros Hb. destruct (Hl Hb). by split.
      - intros s1 Hs1 Hc. cbn. by split_and!. }
    intros s1 Hs1 Hc. cbn. by split. }
  specialize (H s Hs I). destruct (probe_available c p s) as [[[|]|e|] s']; destruct H as [? H]; try done.
  destruct (H eq_refl) as [[[? ?] ?] ?]. by split_and!.
Qed.

(** *** A command is over when its event has come *)

(** The event that ends a command for a link, with a good status. *)
Definition ends_well (opcode handle : Z) (p : packet) : Prop :=
  if opcode =? OP_LE_SET_PHY then ∃ tx rx, match_phy handle p = Ok (Some (0, tx, rx))
  else match_power handle p = Ok (Some 0).

Lemma finish_set_phy payload timeout allow_fail result (s : dev (T:=T) * guard) :
  finish_command OP_LE_SET_PHY payload timeout allow_fail result s
    = after_set_phy OP_LE_SET_PHY payload result s.
Proof.
  unfold finish_command, mbind, M_bind. by destruct (after_set_phy _ _ _ _) as [[r|e|] s'].
Qed.

Lemma finish_read_power payload timeout allow_fail result (s : dev (T:=T) * guard) :
  finish_command OP_LE_READ_REMOTE_TX_POWER payload timeout allow_fail result s
    = after_read_power OP_LE_READ_REMOTE_TX_POWER payload result s.
Proof.
  unfold finish_command, mbind at 1, M_bind at 1. cbn -[after_read_power].
  unfold mbind, M_bind. by destruct (after_read_power _ _ _ _) as [[r|e|] s'].
Qed.

(** The wait for the event of an accepted command. *)
Lemma after_set_phy_cases payload h d g :
  engine_ok d → (2 <= length payload)%nat → payload_handle payload = Ok h → ∀ st dat data s',
  after_set_phy OP_LE_SET_PHY payload (st, dat) (d, g) = (Ok (0, data), s') →
  snd s' = g ∧ st = 0 ∧ dat = data ∧ ∃ wire ps p rest,
    pending (snd d) ++ wire = ps ++ p :: rest ∧ pending (snd (fst s')) = ps ++ rest ∧
    ∃ tx rx, match_phy h p = Ok (Some (0, tx, rx)).
Proof.
  intros Hd Hl Hh st dat data s'. unfold after_set_phy. rewrite Z.eqb_refl, (proj2 (Nat.leb_le _ _) Hl).
  cbn [fst andb]. destruct (Z.eqb_spec st 0) as [->|Hn]; cbn [andb]; [|by intros [= ->]].
  rewrite Hh. unfold lift, on_dev, zoom, mbind, M_bind. cbn [fst snd].
  pose proof (wait_cases (match_phy h) PHY_UPDATE_TIMEOUT d (match_phy_decodes h) Hd) as H.
  change (wait_for_phy_update h PHY_UPDATE_TIMEOUT d) with (wait_for (match_phy h) PHY_UPDATE_TIMEOUT d).
  destruct (wait_for _ _ d) as [[[[[x tx] rx]|]|e|] d']; destruct H as (_&_&_&H); [|done..].
  destruct H as (wire&ps&p&rest&E&E'&_&Hp). destruct (Z.eqb_spec x 0) as [->|]; cbn; [|by intros [= ?]].
  intros [= <- <-]. cbn. split_and!; [done..|]. exists wire, ps, p, rest. eauto.
Qed.

Lemma after_read_power_cases payload h d g :
  engine_ok d → (2 <= length payload)%nat → payload_handle payload = Ok h → ∀ st dat data s',
  after_read_power OP_LE_READ_REMOTE_TX_POWER payload (st, dat) (d, g) = (Ok (0, data), s') →
  snd s' = g ∧ st = 0 ∧ dat = data ∧ ∃ wire ps p rest,
    pending (snd d) ++ wire = ps ++ p :: rest ∧ pending (snd (fst s')) = ps ++ rest ∧
    match_power h p = Ok (Some 0).
Proof.
  intros Hd Hl Hh st dat data s'. unfold after_read_power. rewrite Z.eqb_refl, (proj2 (Nat.leb_le _ _) Hl).
  cbn [fst andb]. destruct (Z.eqb_spec st 0) as [->|Hn]; cbn [andb]; [|by intros [= ->]].
  rewrite Hh. unfold lift, on_dev, zoom, mbind, M_bind. cbn [fst snd].
  pose proof (wait_cases (match_power h) REMOTE_TX_POWER_TIMEOUT d (match_power_decodes h) Hd) as H.
  change (wait_for_remote_tx_power_report h REMOTE_TX_POWER_TIMEOUT d)
    with (wait_for (match_power h) REMOTE_TX_POWER_TIMEOUT d).
  destruct (wait_for _ _ d) as [[[x|]|e|] d']; destruct H as (_&_&_&H); [|done..].
  destruct H as (wire&ps&p&rest&E&E'&_&Hp). destruct (Z.eqb_spec x 0) as [->|]; cbn; [|by intros [= ?]].
  intros [= <- <-]. cbn. split_and!; [done..|]. by exists wire, ps, p, rest.
Qed.


(** *** What a guarded command writes *)

Abbreviation G X := (M (dev (T:=T) * guard (T:=T)) X).

(** [m] ends, raises only engine exceptions, and writes packets in [Q]. *)
Definition writes {A} (Q : list bytes → Prop) (m : G A) : Prop :=
  ∀ s, engine_ok (fst s) → let '(r, s') := m s in
    engine_ok (fst s') ∧ (∃ ps, sent (fst s') = sent (fst s) ++ ps ∧ Q ps) ∧
    match r with Ok _ => True | Exc e => engine_exn e | Stuck => False end.

Lemma writes_bind {A B} Q1 Q2 (Q : list bytes → Prop) (m : G A) (k : A → G B) :
  writes Q1 m → (∀ x, writes Q2 (k x)) → (∀ a, Q1 a → Q a) →
  (∀ a b, Q1 a → Q2 b → Q (a ++ b)) → writes Q (m ≫= k).
Proof.
  intros Hm Hk H1 H12 s Hs. specialize (Hm s Hs). unfold mbind, M_bind.
  destruct (m s) as [[x|e|] s1]; destruct Hm as (Hs1&(ps&E1&Hps)&Hr); [| |done].
  - specialize (Hk x s1 Hs1). destruct (k x s1) as [r s2]. destruct Hk as (Hs2&(qs&E2&Hqs)&Hr2).
    split_and!; [done| |done]. exists (ps ++ qs). rewrite E2, E1, app_assoc. auto.
  - split_and!; [done| |done]. eauto.
Qed.

(** After a step that writes nothing. *)
Lemma writes_then {A B} (Q : list bytes → Prop) (m : G A) (k : A → G B) :
  writes (λ ps, ps = []) m → (∀ x, writes Q (k x)) → Q [] → writes Q (m ≫= k).
Proof. intros Hm Hk HQ. by apply (writes_bind _ _ _ _ _ Hm Hk); [intros ? ->|intros ? ? ->]. Qed.

Lemma writes_before {A B} (Q : list bytes → Prop) (m : G A) (k : A → G B) :
  writes Q m → (∀ x, writes (λ ps, ps = []) (k x)) → writes Q (m ≫= k).
Proof. intros Hm Hk. apply (writes_bind _ _ _ _ _ Hm Hk); [done|]. intros a b Ha ->. by rewrite app_nil_r. Qed.

Lemma writes_pure {A} Q (m : G A) :
  Q [] → (∀ s, fst (snd (m s)) = fst s ∧
    match fst (m s) with Ok _ => True | Exc e => engine_exn e | Stuck => False end) → writes Q m.
Proof.
  intros HQ Hm s Hs. destruct (Hm s) as [E Hr]. destruct (m s) as [r s']. cbn in *. rewrite E.
  split_and!; [done| |done]. exists []. by rewrite app_nil_r.
Qed.

Lemma writes_weaken {A} (Q Q' : list bytes → Prop) (m : G A) :
  (∀ ps, Q ps → Q' ps) → writes Q m → writes Q' m.
Proof.
  intros HQ Hm s Hs. specialize (Hm s Hs). destruct (m s) as [r s'].
  destruct Hm as (?&(ps&?&?)&?). split_and!; [done| |done]. eauto.
Qed.

Lemma writes_wait {A} (f : packet → res (option A)) timeout :
  (∀ p, decodes (f p)) → writes (λ ps, ps = []) (on_dev (wait_for f timeout)).
Proof.
  intros Hf [d g] Hd. unfold on_dev, zoom. cbn in *. pose proof (wait_cases f timeout d Hf Hd) as H.
  destruct (wait_for f timeout d) as [[x|e|] d']; destruct H as (?&_&E&Hr); cbn;
    (split_and!; [done|exists []; by rewrite app_nil_r|done]).
Qed.

(** At most [n] copies of the packet. *)
Definition upto (n : nat) (pkt : bytes) (ps : list bytes) : Prop :=
  ∃ k, ps = replicate k pkt ∧ (k <= n)%nat.

Lemma upto_nil n pkt : upto n pkt [].
Proof. exists 0%nat. split; [done|lia]. Qed.

Lemma upto_app n m pkt ps qs : upto n pkt ps → upto m pkt qs → upto (n + m) pkt (ps ++ qs).
Proof.
  intros (k&->&Hk) (j&->&Hj). exists (k + j)%nat. by split; [rewrite replicate_add|lia].
Qed.

Lemma writes_raw opcode payload timeout allow_fail :
  writes (upto 1 (command_packet opcode payload)) (raw_command opcode payload timeout allow_fail).
Proof.
  intros [d g] Hd. unfold raw_command, on_dev, zoom. cbn in *.
  pose proof (command_cases opcode payload timeout allow_fail d Hd) as Hc.
  pose proof (command_sent opcode payload timeout allow_fail d Hd) as Ht.
  destruct (command_t opcode payload timeout allow_fail d) as [r d']. cbn in *.
  destruct Hc as (?&_&Hr). split_and!; [done| |by destruct r].
  destruct Ht as [E|[E _]]; [exists [command_packet opcode payload]|exists []].
  - split; [done|]. exists 1%nat. by split.
  - rewrite app_nil_r. split; [done|apply upto_nil].
Qed.

Lemma writes_busy n opcode payload timeout result :
  writes (upto n (command_packet opcode payload)) (busy_loop n opcode payload timeout result).
Proof.
  revert result. induction n as [|n IH]; intros result; cbn [busy_loop].
  { apply writes_pure; [apply upto_nil|done]. }
  destruct (fst result =? _); [|apply writes_pure; [apply upto_nil|done]].
  apply writes_then; [|intros _|apply upto_nil].
  { intros [[now h] g] [? ?]. cbn. split_and!; [done|exists []; by rewrite app_nil_r|done]. }
  eapply writes_bind; [apply writes_raw|intros x; apply IH| |].
  - intros a (k&->&?). exists k. split; [done|lia].
  - intros a b Ha Hb. apply (upto_app 1 n _ _ _ Ha Hb).
Qed.

Lemma writes_end {A} (P : A → G (Z * bytes)) (f : packet → res (option A)) timeout handle t :
  (∀ p, decodes (f p)) → (∀ a, ∃ r, P a = mret r) →
  writes (λ ps, ps = [])
    (terminal ← on_dev (wait_for f timeout);
     match terminal with Some a => P a | None => raise (HciError (Fmt t [AInt handle])) end).
Proof.
  intros Hf HP. apply writes_then; [by apply writes_wait|intros [a|]|done].
  - destruct (HP a) as [r ->]. by apply writes_pure.
  - apply writes_pure; [done|]. intros s. split; [done|]. by left.
Qed.

Lemma writes_set_phy opcode payload result :
  writes (λ ps, ps = []) (after_set_phy opcode payload result).
Proof.
  unfold after_set_phy. destruct (_ && _) eqn:E; [|by apply writes_pure].
  apply writes_then; [|intros h|done].
  { apply writes_pure; [done|]. intros s. split; [done|]. unfold payload_handle.
    rewrite unpack_H_ok; [done|]. rewrite length_take. apply andb_true_iff in E as [_ E%Nat.leb_le]. lia. }
  apply (writes_end (λ x, let '(status, _, _) := x in _)); [apply match_phy_decodes|].
  intros [[status ?] ?]. eauto.
Qed.

Lemma writes_read_power opcode payload result :
  writes (λ ps, ps = []) (after_read_power opcode payload result).
Proof.
  unfold after_read_power. destruct (_ && _) eqn:E; [|by apply writes_pure].
  apply writes_then; [|intros h|done].
  { apply writes_pure; [done|]. intros s. split; [done|]. unfold payload_handle.
    rewrite unpack_H_ok; [done|]. rewrite length_take. apply andb_true_iff in E as [_ E%Nat.leb_le]. lia. }
  apply (writes_end (λ status, _)); [apply match_power_decodes|eauto].
Qed.

Lemma writes_cancel opcode result :
  writes (λ ps, ps = [] ∨ opcode = OP_LE_CREATE_CONNECTION_CANCEL ∧
                ∃ body, ps = [command_packet OP_DISCONNECT body]) (after_cancel opcode result).
Proof.
  unfold after_cancel, when. destruct (Z.eqb_spec opcode OP_LE_CREATE_CONNECTION_CANCEL) as [->|];
    cbn [andb]; [|apply writes_pure; [by left|done]].
  destruct (fst result =? 0); [|apply writes_pure; [by left|done]].
  apply writes_then; [by apply writes_pure|intros _|by left].
  apply writes_then; [apply writes_wait, match_connection_decodes|intros [c|]|by left].
  2: { apply writes_pure; [by left|done]. }
  apply writes_then; [by apply writes_pure|intros _|by left].
  destruct (ci_status c =? 0); [|apply writes_pure; [by left|done]].
  apply writes_then; [|intros payload|by left].
  { apply writes_pure; [done|]. intros s. split; [done|]. unfold lift. cbn [fst].
    destruct (pack _) as [|e|] eqn:E; [done| |by destruct (pack_not_stuck _ E)].
    right; left. by eapply pack_struct_error. }
  apply writes_before; [|by intros ?; apply writes_pure].
  eapply writes_weaken; [|apply writes_raw]. intros ps (k&->&Hk).
  destruct k as [|[|]]; [by left|right; split; [done|by exists payload]|lia].
Qed.

Lemma writes_already_down opcode payload :
  writes (λ ps, ps = []) (already_down (T:=T) opcode payload).
Proof.
  unfold already_down. destruct (_ && _) eqn:E; [|by apply writes_pure].
  apply writes_then; [|intros h|done].
  { apply writes_pure; [done|]. intros s. split; [done|].
    rewrite unpack_H_ok; [done|]. rewrite length_take. apply andb_true_iff in E as [_ E%Nat.leb_le]. lia. }
  apply writes_then; [by apply writes_pure|intros x; by apply writes_pure|done].
Qed.

(** How often a command may be sent. *)
Definition command_bound (opcode : Z) (allow_fail : bool) : nat :=
  if (opcode =? OP_VS_WRITE_REMOTE_TX_POWER) && allow_fail then 1 + FD0A_BUSY_RETRIES else 1.

(** A guarded command ends, raises only engine exceptions, and writes its own
    packet, with the events it waits for unmasked, at most once, or at most
    eleven times when a busy controller is retried; besides it writes at most
    one Disconnect, after a cancelled initiator had connected. *)
Theorem guarded_command_bounded (opcode timeout : Z) (payload : bytes) (allow_fail : bool) d g :
  engine_ok d →
  let '(r, (d', g')) := guarded_command opcode payload timeout allow_fail (d, g) in
  engine_ok d' ∧
  (∃ k last,
     sent d' = sent d ++ replicate k (command_packet opcode (guarded_payload opcode payload)) ++ last ∧
     (k <= command_bound opcode allow_fail)%nat ∧
     (last = [] ∨ opcode = OP_LE_CREATE_CONNECTION_CANCEL ∧
                  ∃ body, last = [command_packet OP_DISCONNECT body])) ∧
  match r with Ok _ => True | Exc e => engine_exn e | Stuck => False end.
Proof.
  intros Hd. set (pkt := command_packet opcode (guarded_payload opcode payload)).
  set (Q := λ ps, ∃ k last, ps = replicate k pkt ++ last ∧ (k <= command_bound opcode allow_fail)%nat ∧
     (last = [] ∨ opcode = OP_LE_CREATE_CONNECTION_CANCEL ∧
                  ∃ body, last = [command_packet OP_DISCONNECT body])).
  assert (H0 : Q []) by (exists 0%nat, []; split; [done|]; split; [lia|by left]).
  enough (H : writes Q (guarded_command opcode payload timeout allow_fail)).
  { specialize (H (d, g) Hd). destruct (guarded_command _ _ _ _ _) as [r [d' g']].
    destruct H as (?&(ps&E&k&last&->&?&?)&?). split_and!; [done| |done]. by exists k, last. }
  unfold guarded_command. apply writes_then; [apply writes_already_down| |done]. intros [h|].
  { destruct allow_fail; [by apply writes_pure|]. apply writes_pure; [done|]. intros s.
    split; [done|]. by left. }
  fold pkt. eapply (writes_bind (upto 1 pkt)
    (λ ps, ∃ k last, ps = replicate k pkt ++ last ∧ (S k <= command_bound opcode allow_fail)%nat ∧
       (last = [] ∨ opcode = OP_LE_CREATE_CONNECTION_CANCEL ∧
                    ∃ body, last = [command_packet OP_DISCONNECT body])));
    [apply writes_raw|intros result; unfold finish_command| |].
  - assert (Hb : (1 <= command_bound opcode allow_fail)%nat)
      by (unfold command_bound; case_match; lia).
    apply writes_then; [apply writes_set_phy|intros r1|by exists 0%nat, []; eauto].
    apply writes_then; [apply writes_read_power|intros r2|by exists 0%nat, []; eauto].
    eapply (writes_bind (upto (command_bound opcode allow_fail - 1) pkt));
      [|intros r3; apply writes_before; [apply writes_cancel|by intros ?; apply writes_pure]| |].
    + unfold retry_busy, command_bound. destruct (_ && _); [apply writes_busy|].
      apply writes_pure; [apply upto_nil|done].
    + intros a (k&->&?). exists k, []. rewrite app_nil_r. split_and!; [done|lia|by left].
    + intros a b (k&->&?) Hb2. exists k, b. split_and!; [done|lia|done].
  - intros a (k&->&?). exists k, []. rewrite app_nil_r. split_and!; [done| |by left].
    unfold command_bound. case_match; lia.
  - intros a b (k&->&?) (j&last&->&?&?). exists (k + j)%nat, last.
    rewrite replicate_add, <- app_assoc. split_and!; [done|lia|done].
Qed.
End laws.

(** ** Concrete runs *)

(** A set PHY that is accepted, data of the link, then its update event. *)
Definition phy_events : list bytes :=
  [[H4_EVENT; EVT_COMMAND_STATUS; 4; 0; 1; 0x32; 0x20];
   [H4_ACL; 0x40; 0; 2; 0; 7; 9];
   [H4_EVENT; EVT_LE_META; 6; LE_PHY_UPDATE_COMPLETE; 0; 0x40; 0; 2; 2]].
Definition phy_payload : bytes := [0x40; 0; 0; 2; 2; 0; 0].
Definition phy_dev := serial_dev [] phy_events.
Abbreviation phy_run :=
  (guarded_command OP_LE_SET_PHY phy_payload (seconds 3) true (phy_dev, GuardState false None)).


(** A power write refused as busy once. *)
Definition busy_events : list bytes :=
  [[H4_EVENT; EVT_COMMAND_COMPLETE; 4; 1; 0x0A; 0xFD; STATUS_CONTROLLER_BUSY];
   [H4_EVENT; EVT_COMMAND_COMPLETE; 4; 1; 0x0A; 0xFD; 0]].
Abbreviation busy_run :=
  (guarded_command OP_VS_WRITE_REMOTE_TX_POWER [0x40; 0; 1] (seconds 3) true
     (serial_dev [] busy_events, GuardState false None)).

Lemma guarded_command_bounded_witness :
  fst busy_run = Ok (0, []) ∧
  sent (fst (snd busy_run)) = replicate 2 (command_packet OP_VS_WRITE_REMOTE_TX_POWER [0x40; 0; 1]) ∧
  engine_ok (fst (snd busy_run)).
Proof.
  pose proof (guarded_command_bounded OP_VS_WRITE_REMOTE_TX_POWER (seconds 3) [0x40; 0; 1] true
    (serial_dev [] busy_events) (GuardState false None)) as H.
  assert (E : fst busy_run = Ok (0, [])) by by vm_compute.
  assert (E' : sent (fst (snd busy_run))
    = replicate 2 (command_packet OP_VS_WRITE_REMOTE_TX_POWER [0x40; 0; 1])) by by vm_compute.
  destruct busy_run as [r [d g]]. cbn [fst snd] in *.
  destruct H as (?&_&_); [apply serial_dev_ok; vm_compute; reflexivity|done].
Defined.

(** A row offered once the event of a cancelled initiator has come. *)
Definition plain_row : command := row OP_RESET "Reset" COMPLETE (λ _, Ok []).
Definition idle_args : Probe.args := Probe.Args None false false false 0 0 0 0 None None.
Definition idle_probe : Probe.probe := Probe.start_probe idle_args (zeros 6) 0.
Definition cancelled_event : list bytes :=
  [[H4_EVENT; EVT_LE_META; 19; 0x01; 0x02] ++ zeros 17].
Abbreviation offer_run :=
  (probe_available plain_row idle_probe (serial_dev [] cancelled_event, GuardState true None)).

Lemma row_offered_witness :
  fst offer_run = Ok true ∧ cancel_pending (snd (snd offer_run)) = false.
Proof.
  pose proof (row_offered plain_row idle_probe (serial_dev [] cancelled_event, GuardState true None)) as H.
  assert (E : fst offer_run = Ok true) by by vm_compute.
  destruct offer_run as [r s']. cbn [fst snd] in *. subst r.
  destruct H as (_&?&_); [split; [apply serial_dev_ok; vm_compute; reflexivity|done]|by split].
Defined.
End GuardLaws.
