(* ===== verification/Conditions.v ===== *)
(** * Conditions: commands required by feature bits (hci_core_conditions.py)

    The Core specification makes groups of commands mandatory when a controller
    advertises a feature. The check collects an error per missing command and
    the labels of the conditions that are active. *)

From S2P Require Export Commands.
#[local] Open Scope Z_scope.

Module Conditions.

Definition FEAT_CONN_PARAM_REQ : Z := 1.
Definition FEAT_SCA_UPDATES : Z := 26.
Definition FEAT_CIS_CENTRAL : Z := 28.
Definition FEAT_CIS_PERIPHERAL : Z := 29.
Definition FEAT_ISO_BROADCASTER : Z := 30.
Definition FEAT_SYNC_RECEIVER : Z := 31.
Definition FEAT_POWER_CONTROL_1 : Z := 33.
Definition FEAT_POWER_CONTROL_2 : Z := 34.
Definition FEAT_PATH_LOSS : Z := 35.
Definition FEAT_CONN_SUBRATING : Z := 37.
Definition FEAT_CHANNEL_CLASSIFICATION : Z := 39.
Definition FEAT_ADV_CODING_SELECTION : Z := 40.
Definition FEAT_PAWR_ADVERTISER : Z := 43.
Definition FEAT_PAWR_SCANNER : Z := 44.

(** [bool(commands[octet] & (1 << bit))]. *)
Definition command_bit (commands : bytes) (octet bit : Z) : res bool :=
  b ← idx commands (Z.to_nat octet);
  Ok (negb (Z.land b (Z.shiftl 1 bit) =? 0)).

Definition feature (features : bytes) (bit : Z) : res bool :=
  b ← idx features (Z.to_nat (bit / 8));
  Ok (negb (Z.land b (Z.shiftl 1 (bit mod 8)) =? 0)).

(** (octet, bit, opcode, name). *)
Definition requirement : Type := Z * Z * Z * string.

Definition require_command_bit (commands : bytes) (condition : string) (r : requirement)
    (errors : list text) : res (list text) :=
  let '(octet, bit, opcode, name) := r in
  present ← command_bit commands octet bit;
  Ok (if (present : bool) then errors
      else errors ++ [Fmt "%s: %s (0x%04X) missing from Supported Commands octet %d bit %d"
                        [AStr condition; AStr name; AInt opcode; AInt octet; AInt bit]]).

Fixpoint require_group (commands : bytes) (condition : string) (rows : list requirement)
    (errors : list text) : res (list text) :=
  match rows with
  | [] => Ok errors
  | r :: rows' =>
      errors ← require_command_bit commands condition r errors;
      require_group commands condition rows' errors
  end.

(** [if active: require_group(...)]. *)
Definition require_if (active : bool) (commands : bytes) (condition : string)
    (rows : list requirement) (errors : list text) : res (list text) :=
  if active then require_group commands condition rows errors else Ok errors.

Definition C6 : list requirement :=
  [(33, 4, 0x2020, "LE Remote Connection Parameter Request Reply");
   (33, 5, 0x2021, "LE Remote Connection Parameter Request Negative Reply")]%string.
Definition C39 : list requirement :=
  [(41, 7, 0x2062, "LE Set CIG Parameters"); (42, 0, 0x2063, "LE Set CIG Parameters Test");
   (42, 1, 0x2064, "LE Create CIS"); (42, 2, 0x2065, "LE Remove CIG")]%string.
Definition C40 : list requirement :=
  [(42, 3, 0x2066, "LE Accept CIS Request"); (42, 4, 0x2067, "LE Reject CIS Request")]%string.
Definition C41 : list requirement :=
  [(42, 5, 0x2068, "LE Create BIG"); (42, 6, 0x2069, "LE Create BIG Test");
   (42, 7, 0x206A, "LE Terminate BIG")]%string.
Definition C42 : list requirement :=
  [(43, 0, 0x206B, "LE BIG Create Sync"); (43, 1, 0x206C, "LE BIG Terminate Sync")]%string.
Definition C44 : list requirement := [(43, 2, 0x206D, "LE Request Peer SCA")]%string.
Definition C45 : list requirement :=
  [(41, 6, 0x2061, "LE Read ISO TX Sync"); (43, 5, 0x2070, "LE ISO Transmit Test")]%string.
Definition C46 : list requirement :=
  [(43, 6, 0x2071, "LE ISO Receive Test"); (43, 7, 0x2072, "LE ISO Read Test Counters")]%string.
Definition C47 : list requirement :=
  [(43, 3, 0x206E, "LE Setup ISO Data Path"); (43, 4, 0x206F, "LE Remove ISO Data Path");
   (44, 0, 0x2073, "LE ISO Test End")]%string.
Definition C49 : list requirement := [(44, 1, 0x2074, "LE Set Host Feature")]%string.
Definition C51 : list requirement :=
  [(44, 3, 0x2076, "LE Enhanced Read Transmit Power Level");
   (44, 4, 0x2077, "LE Read Remote Transmit Power Level");
   (44, 7, 0x207A, "LE Set Transmit Power Reporting Enable")]%string.
Definition C52 : list requirement :=
  [(44, 5, 0x2078, "LE Set Path Loss Reporting Parameters");
   (44, 6, 0x2079, "LE Set Path Loss Reporting Enable")]%string.
Definition C55 : list requirement := [(41, 5, 0x2060, "LE Read Buffer Size v2")]%string.
Definition C57 : list requirement :=
  [(46, 0, 0x207D, "LE Set Default Subrate"); (46, 1, 0x207E, "LE Subrate Request")]%string.
Definition C66 : list requirement :=
  [(46, 2, 0x207F, "LE Set Extended Advertising Parameters v2")]%string.
Definition C67 : list requirement :=
  [(46, 5, 0x2082, "LE Set Periodic Advertising Subevent Data");
   (47, 0, 0x2085, "LE Extended Create Connection v2");
   (47, 1, 0x2086, "LE Set Periodic Advertising Parameters v2")]%string.
Definition C68 : list requirement :=
  [(46, 6, 0x2083, "LE Set Periodic Advertising Response Data");
   (46, 7, 0x2084, "LE Set Periodic Sync Subevent")]%string.

(** The errors, those given first, and the labels of the active conditions. *)
Definition validate_conditional_commands (commands features : bytes) (errors : list text)
  : res (list text * list string) :=
  conn_param ← feature features FEAT_CONN_PARAM_REQ;
  sca ← feature features FEAT_SCA_UPDATES;
  cis_central ← feature features FEAT_CIS_CENTRAL;
  cis_peripheral ← feature features FEAT_CIS_PERIPHERAL;
  iso_broadcaster ← feature features FEAT_ISO_BROADCASTER;
  sync_receiver ← feature features FEAT_SYNC_RECEIVER;
  power1 ← feature features FEAT_POWER_CONTROL_1;
  power2 ← feature features FEAT_POWER_CONTROL_2;
  path_loss ← feature features FEAT_PATH_LOSS;
  subrating ← feature features FEAT_CONN_SUBRATING;
  channel_class ← feature features FEAT_CHANNEL_CLASSIFICATION;
  adv_coding ← feature features FEAT_ADV_CODING_SELECTION;
  pawr_adv ← feature features FEAT_PAWR_ADVERTISER;
  pawr_scan ← feature features FEAT_PAWR_SCANNER;
  let errors := if xorb power1 power2
    then errors ++ [Lit "LE Power Control Request feature bits 33 and 34 disagree"] else errors in
  let power_control := power1 && power2 in
  errors ← require_if conn_param commands "C.6" C6 errors;
  errors ← require_if cis_central commands "C.39 CIS Central" C39 errors;
  errors ← require_if cis_peripheral commands "C.40 CIS Peripheral" C40 errors;
  errors ← require_if iso_broadcaster commands "C.41 Isochronous Broadcaster" C41 errors;
  errors ← require_if sync_receiver commands "C.42 Synchronized Receiver" C42 errors;
  errors ← require_if (sca && (cis_central || cis_peripheral)) commands
             "C.44 SCA Updates with CIS" C44 errors;
  let tx_iso := cis_central || cis_peripheral || iso_broadcaster in
  let rx_iso := cis_central || cis_peripheral || sync_receiver in
  let any_iso := tx_iso || sync_receiver in
  errors ← require_if tx_iso commands "C.45 ISO transmit" C45 errors;
  errors ← require_if rx_iso commands "C.46 ISO receive" C46 errors;
  errors ← require_if any_iso commands "C.47 ISO data path/test" C47 errors;
  errors ← require_if (cis_central || cis_peripheral || subrating || adv_coding) commands
             "C.49 Host-set feature bits" C49 errors;
  errors ← require_if tx_iso commands "C.55 ISO HCI buffers" C55 errors;
  errors ← require_if power_control commands "C.51 LE Power Control Request" C51 errors;
  errors ← require_if path_loss commands "C.52 LE Path Loss Monitoring" C52 errors;
  errors ← require_if subrating commands "C.57 Connection Subrating" C57 errors;
  errors ← require_if adv_coding commands "C.66 Advertising Coding Selection" C66 errors;
  errors ← require_if pawr_adv commands "C.67 PAwR Advertiser" C67 errors;
  errors ← require_if pawr_scan commands "C.68 PAwR Scanner" C68 errors;
  let labels : list (string * bool) :=
    [("C.6", conn_param); ("C.39", cis_central); ("C.40", cis_peripheral);
     ("C.41", iso_broadcaster); ("C.42", sync_receiver);
     ("C.44", sca && (cis_central || cis_peripheral));
     ("C.45", tx_iso); ("C.46", rx_iso); ("C.47", any_iso);
     ("C.49", cis_central || cis_peripheral || subrating || adv_coding);
     ("C.51", power_control); ("C.52", path_loss); ("C.55", tx_iso); ("C.57", subrating);
     ("C.58", channel_class); ("C.66", adv_coding); ("C.67", pawr_adv); ("C.68", pawr_scan);
     ("C.69", pawr_adv || pawr_scan)]%string in
  Ok (errors, fst <$> filter (λ l, snd l = true) labels).
End Conditions.

(** ** What the check decides *)

Module ConditionsLaws.
Import Conditions.

(** *** Bits of octets *)

Lemma land_bit b k : 0 ≤ k → negb (Z.land b (Z.shiftl 1 k) =? 0) = Z.testbit b k.
Proof.
  intros Hk. rewrite Z.shiftl_1_l. destruct (Z.testbit b k) eqn:Hb.
  - apply negb_true_iff, Z.eqb_neq. intros E.
    assert (Z.testbit (Z.land b (2 ^ k)) k = true) as Hx
      by (by rewrite Z.land_spec, Hb, Z.pow2_bits_true).
    by rewrite E, Z.bits_0 in Hx.
  - apply negb_false_iff, Z.eqb_eq, Z.bits_inj_0. intros n. rewrite Z.land_spec.
    destruct (decide (n = k)) as [->|Hn]; [by rewrite Hb|].
    by rewrite Z.pow2_bits_false, andb_false_r by done.
Qed.

Lemma testbit_cons b x n : is_byte b → 0 ≤ n →
  Z.testbit (b + 256 * x) n = if n <? 8 then Z.testbit b n else Z.testbit x (n - 8).
Proof.
  intros Hb Hn. destruct (Z.ltb_spec n 8) as [Hl|Hl].
  - rewrite <- (Z.mod_pow2_bits_low (b + 256 * x) 8 n) by lia. change (2 ^ 8) with 256.
    rewrite Z.mul_comm, Z.mod_add by lia. unfold is_byte in Hb. by rewrite Z.mod_small by lia.
  - replace n with ((n - 8) + 8) at 1 by lia. rewrite <- Z.shiftr_spec by lia.
    rewrite Z.shiftr_div_pow2 by lia. change (2 ^ 8) with 256.
    rewrite Z.mul_comm, Z.div_add by lia. unfold is_byte in Hb. by rewrite (Z.div_small b) by lia.
Qed.

(** Bit [k] of octet [i] is bit [8 i + k] of the little-endian number. *)
Lemma testbit_le_Z bs i b k : bytes_ok bs → bs !! i = Some b → 0 ≤ k < 8 →
  Z.testbit (le_Z bs) (8 * Z.of_nat i + k) = Z.testbit b k.
Proof.
  revert i. induction bs as [|c bs IH]; intros i Hok Hi Hk; [done|].
  apply Forall_cons in Hok as [Hc Hok]. cbn [le_Z]. rewrite testbit_cons by (done || lia).
  destruct i as [|i]; cbn in Hi.
  - injection Hi as ->. by rewrite (proj2 (Z.ltb_lt _ _)) by lia.
  - rewrite (proj2 (Z.ltb_ge _ _)) by lia. rewrite <- (IH i Hok Hi Hk). f_equal. lia.
Qed.

(** *** The specification *)

(** Bit [n] of a feature set or of the supported commands. *)
Definition has_bit (bs : bytes) (n : Z) : bool := Z.testbit (le_Z bs) n.

(** The conditions of the Core specification: a label, when it is active in a
    feature set, and the commands it requires. *)
Definition condition : Type := string * ((Z → bool) → bool) * list requirement.

Definition conditions : list condition :=
  [("C.6", λ f, f 1, C6);
   ("C.39", λ f, f 28, C39);
   ("C.40", λ f, f 29, C40);
   ("C.41", λ f, f 30, C41);
   ("C.42", λ f, f 31, C42);
   ("C.44", λ f, f 26 && (f 28 || f 29), C44);
   ("C.45", λ f, f 28 || f 29 || f 30, C45);
   ("C.46", λ f, f 28 || f 29 || f 31, C46);
   ("C.47", λ f, f 28 || f 29 || f 30 || f 31, C47);
   ("C.49", λ f, f 28 || f 29 || f 37 || f 40, C49);
   ("C.51", λ f, f 33 && f 34, C51);
   ("C.52", λ f, f 35, C52);
   ("C.55", λ f, f 28 || f 29 || f 30, C55);
   ("C.57", λ f, f 37, C57);
   ("C.58", λ f, f 39, []);
   ("C.66", λ f, f 40, C66);
   ("C.67", λ f, f 43, C67);
   ("C.68", λ f, f 44, C68);
   ("C.69", λ f, f 43 || f 44, [])]%string.

(** The supported commands have the rows of an active group. *)
Definition supported (active : bool) (commands : bytes) (rows : list requirement) : Prop :=
  active = true →
  Forall (λ r : requirement, let '(octet, bit, _, _) := r in
    has_bit commands (8 * octet + bit) = true) rows.

(** They meet a condition. *)
Definition meets (f : Z → bool) (commands : bytes) (c : condition) : Prop :=
  supported (snd (fst c) f) commands (snd c).

Definition active_labels (f : Z → bool) : list string :=
  (λ c : condition, fst (fst c)) <$> filter (λ c : condition, snd (fst c) f = true) conditions.

(** *** The check in one row, one group *)

Lemma feature_bit features n : bytes_ok features → length features = 8%nat → 0 ≤ n < 64 →
  feature features n = Ok (has_bit features n).
Proof.
  intros Hok Hl Hn. unfold feature.
  destruct (lookup_lt_is_Some_2 features (Z.to_nat (n / 8))) as [b Hb].
  { pose proof (Z.div_lt_upper_bound n 8 8). pose proof (Z.div_pos n 8). lia. }
  unfold idx. rewrite Hb. cbn [mbind res_bind].
  pose proof (Z.mod_pos_bound n 8 ltac:(lia)). rewrite land_bit by lia. unfold has_bit.
  rewrite <- (testbit_le_Z features _ b (n mod 8) Hok Hb) by lia. do 2 f_equal.
  rewrite Z2Nat.id by (apply Z.div_pos; lia). symmetry. apply Z.div_mod. lia.
Qed.

(** Where a row's bit is. *)
Definition row_ok (r : requirement) : Prop :=
  let '(octet, bit, _, _) := r in 0 ≤ octet < 64 ∧ 0 ≤ bit < 8.
#[export] Instance row_ok_dec r : Decision (row_ok r).
Proof. destruct r as [[[? ?] ?] ?]. unfold row_ok. apply _. Defined.

Lemma require_if_spec (a : bool) commands condition rows errors :
  bytes_ok commands → length commands = 64%nat → Forall row_ok rows →
  ∃ new, require_if a commands condition rows errors = Ok (errors ++ new) ∧
    (new = [] ↔ supported a commands rows).
Proof.
  intros Hok Hl Hrows. unfold supported. destruct a; cbn [require_if].
  2: { exists []. rewrite app_nil_r. by split. }
  revert errors. induction Hrows as [|r rows Hr Hrows IH]; intros errors; cbn [require_group].
  { exists []. rewrite app_nil_r. by split. }
  destruct r as [[[octet bit] op] name]. destruct Hr as [Ho Hb]. cbn [require_command_bit].
  destruct (lookup_lt_is_Some_2 commands (Z.to_nat octet)) as [b Hb']; [lia|].
  assert (E : command_bit commands octet bit = Ok (has_bit commands (8 * octet + bit))).
  { unfold command_bit, idx. rewrite Hb'. cbn [mbind res_bind]. rewrite land_bit by lia.
    unfold has_bit. rewrite <- (testbit_le_Z commands _ b bit Hok Hb') by lia. do 3 f_equal. lia. }
  rewrite E. cbn [mbind res_bind]. destruct (has_bit commands (8 * octet + bit)) eqn:Hbit.
  - destruct (IH errors) as (new&->&Hnew). exists new. split; [done|]. rewrite Forall_cons, Hbit.
    rewrite Hnew. tauto.
  - match goal with |- context [errors ++ [?t]] => destruct (IH (errors ++ [t])) as (new&->&_); exists (t :: new) end.
    rewrite <- app_assoc. split; [done|]. split; [done|]. intros Hf. specialize (Hf eq_refl).
    rewrite Forall_cons, Hbit in Hf. by destruct Hf.
Qed.

Lemma app_nil_iff {A} (xs ys : list A) : xs ++ ys = [] ↔ xs = [] ∧ ys = [].
Proof. split; [apply app_eq_nil|by intros [-> ->]]. Qed.

Lemma labels_filter (f : Z → bool) (cs : list condition) :
  fst <$> filter (λ l : string * bool, snd l = true)
            ((λ c : condition, (fst (fst c), snd (fst c) f)) <$> cs)
    = (λ c : condition, fst (fst c)) <$> filter (λ c : condition, snd (fst c) f = true) cs.
Proof.
  induction cs as [|c cs IH]; [done|]. rewrite fmap_cons, !filter_cons. cbn [snd].
  case_decide; cbn; by rewrite IH.
Qed.


(** The commands the conditions require are rows of the probe's tables, but for
    the two replies to a request that only a peer can provoke. *)
Lemma required_rows_probed : Forall (λ r : requirement, let '(_, _, op, _) := r in
    op = 0x2020 ∨ op = 0x2021 ∨ op ∈ opcode <$> COMMANDS) (concat (snd <$> conditions)).
Proof.
  set (ops := opcode <$> COMMANDS).
  assert (H : forallb (λ r : requirement, let '(_, _, op, _) := r in
      (op =? 0x2020) || (op =? 0x2021) || existsb (Z.eqb op) ops) (concat (snd <$> conditions)) = true)
    by by vm_compute.
  rewrite Forall_forall. intros r Hr. apply list_elem_of_In in Hr.
  rewrite forallb_forall in H. specialize (H r Hr). destruct r as [[[? ?] op] ?].
  rewrite !orb_true_iff, !Z.eqb_eq in H. destruct H as [[?|?]|H]; [by left|by right; left|right; right].
  apply existsb_exists in H as (x&Hx&->%Z.eqb_eq). by apply list_elem_of_In.
Qed.

(** ** A concrete controller: connection parameter requests, and both replies
    but for one. *)
Definition demo_features : bytes := [2; 0; 0; 0; 0; 0; 0; 0].
Definition demo_commands (octet33 : Z) : bytes := <[33%nat := octet33]> (replicate 64 0).

End ConditionsLaws.
