(* ===== verification/Cis.v ===== *)
(** * Cis: connected isochronous streams over two controllers
    (hci_cis_pair_test.py and hci_cis_cleanup.py)

    Opening a pair of ports and retrying a connection that failed to be
    established, creating a CIS, moving one SDU each way, and the teardown. The
    run remembers what it has opened and created, its clean-up uses it; opening
    a port is a function of the attempt, and what has been opened and closed is
    logged. The ISO helpers of the test are copies of those of hci_iso.py. *)

From S2P Require Export Phases Commands.
From coqutil Require Import Datatypes.RecordSetters.
Import TriangleBracketNotations.
#[local] Open Scope Z_scope.

Module Cis.

Definition LE_CIS_ESTABLISHED_SUBEVENTS : list Z := [0x19; 0x2A].
Definition LE_CIS_REQUEST : Z := 0x1A.
Definition OP_LE_SET_CIG_PARAMS : Z := 0x2062.
Definition OP_LE_CREATE_CIS : Z := 0x2064.
Definition OP_LE_REMOVE_CIG : Z := 0x2065.
Definition OP_LE_ACCEPT_CIS_REQUEST : Z := 0x2066.
Definition CIS_HOST_SUPPORT_BIT : Z := 32.
Definition LE_EVENT_MASK_WITH_CIS : bytes := [0xff; 0xff; 0xff; 0xff; 0xff; 0xff; 0xff; 0x1f].
Definition ESTABLISHMENT_ATTEMPTS : nat := 3.
Definition DISCONNECT_REASON : Z := 0x13.

(** [row.build(None)]: the context of a row that looks at none. *)
Definition no_context : probe_ctx := Ctx 0 0 [].

(** ** Decoding *)

(** The two-octet handles of a CIG return, from the [i]-th on. *)
Fixpoint cig_handles (count i : nat) (data : bytes) : res (list Z) :=
  match count with
  | O => Ok []
  | S count' =>
      raw ← unpack_H (slice (2 + 2 * i) (4 + 2 * i) data);
      handles ← cig_handles count' (S i) data;
      Ok (mask12 raw :: handles)
  end.

Definition parse_cig_return (data : bytes) : res (Z * list Z) :=
  if (length data <? 2)%nat then
    Exc (HciError (Fmt "LE Set CIG Parameters returned only %d bytes" [AInt (blen data)]))
  else
    cig_id ← idx data 0; count ← idx data 1;
    if negb (blen data =? 2 + count * 2) then
      Exc (HciError (Fmt "CIG return says %d CIS but returned %d bytes"
                       [AInt count; AInt (blen data)]))
    else
      handles ← cig_handles (Z.to_nat count) 0 data;
      Ok (cig_id, handles).

(** One side's look at a packet while the ACL connects. *)
Definition acl_event (label : string) (expected_role : Z) (p : option packet) : res (option Z) :=
  match p with
  | None => Ok None
  | Some p =>
      if negb (is_event EVT_LE_META p) then Ok None
      else
        info ← parse_connection (body p);
        match info with
        | None => Ok None
        | Some c =>
            if negb (ci_status c =? 0)
            then Exc (HciError (Fmt "%s ACL connection failed: %s"
                                  (AStr label :: status_text (ci_status c))))
            else if negb (ci_role c =? expected_role)
            then Exc (HciError (Fmt "%s ACL connection reported role %u, expected %u"
                        [AStr label; AInt (ci_role c); AInt expected_role]))
            else Ok (Some (ci_handle c))
        end
  end.

(** ** One controller *)

Section single.
Context {T : Type} `{!Transport T}.
Abbreviation D := (M (dev (T:=T))).

Definition send_iso : Z → Z → bytes → D unit := Iso.send_iso.
Definition setup_iso_path : Z → Z → D unit := Iso.setup_iso_path.
Definition read_iso_buffers : string → D Z := Iso.read_iso_buffers.
Definition wait_iso (label : string) (cis : Z) (sdu : bytes) (timeout : Z) : D unit :=
  Iso.wait_iso label cis sdu timeout ;; skip.
Definition counter_snapshot : D (option (list Z)) := read_counters.

Definition host_support (on : bool) : D Z :=
  payload ← lift (mkbytes [CIS_HOST_SUPPORT_BIT; if on then 1 else 0]);
  r ← Hci.command OP_LE_SET_HOST_FEATURE payload true;
  mret (fst r).

Definition prepare : D (bytes * Z * id_source) :=
  setup ;;
  Hci.command OP_LE_SET_EVENT_MASK LE_EVENT_MASK_WITH_CIS false ;;
  status ← host_support true;
  when (negb (status =? 0))
    (raise (HciError (Fmt "LE Set Host Feature bit 32 returned %s" (status_text status)))) ;;
  id ← Hci.identity None;
  let '(identity, addr_type, source) := (id : bytes * Z * id_source) in
  when (addr_type =? 0x01) (Hci.command OP_LE_SET_RANDOM_ADDRESS identity false ;; skip) ;;
  mret (identity, addr_type, source).

Definition start_advertising (identity : bytes) (addr_type : Z) : D unit :=
  start_legacy_advertising identity addr_type true.

Definition start_connection (central_type : Z) (peer_addr : bytes) (peer_type : Z) : D unit :=
  p ← lift (pack [FH 0x0060; FH 0x0030]);
  t ← lift (mkbytes [0x00; peer_type]);
  o ← lift (mkbytes [central_type]);
  i ← lift (pack [FH 0x0018; FH 0x0028]);
  l ← lift (pack [FH 0; FH 400]);
  e ← lift (pack [FH 0; FH 0]);
  r ← Hci.command OP_LE_CREATE_CONNECTION (p ++ t ++ peer_addr ++ o ++ i ++ l ++ e) true;
  check_status "LE Create Connection" (fst r).

(** The CIG, the handle of its CIS at the central, and the CIS's identifier.
    The row builds the same parameters in every context. *)
Definition create_cig : D (Z * Z * Z) :=
  row ← lift (match BY_OPCODE !! OP_LE_SET_CIG_PARAMS with
              | Some row => Ok row | None => Exc KeyError end);
  payload ← lift (build row no_context);
  if (length payload <? 16)%nat || negb (bool_decide (payload !! 14%nat = Some 1)) then
    raise (HciError (Lit "CIG test row does not describe exactly one CIS"))
  else
    expected_cis_id ← lift (idx payload 15);
    r ← Hci.command OP_LE_SET_CIG_PARAMS payload true;
    let '(status, data) := (r : Z * bytes) in
    check_status "LE Set CIG Parameters" status ;;
    g ← lift (parse_cig_return data);
    match g with
    | (cig_id, [cis]) => mret (cig_id, cis, expected_cis_id)
    | (_, handles) => raise (HciError (Fmt "expected one CIS handle, got %d" [AInt (blen handles)]))
    end.

Definition cis_request_step (expected_acl expected_cig expected_cis_id : Z) (_ : unit) (p : packet)
  : D (unit + Z) :=
  if is_event EVT_DISCONNECTION_COMPLETE p
  then raise (HciError (Lit "ACL disconnected while waiting for CIS Request"))
  else if negb (is_event EVT_LE_META p) then mret (inl tt)
  else if (length (body p) <? 7)%nat || negb (bool_decide (head (body p) = Some LE_CIS_REQUEST))
  then mret (inl tt)
  else
    acl ← lift (unpack_H (slice 1 3 (body p)));
    cis ← lift (unpack_H (slice 3 5 (body p)));
    if negb (mask12 acl =? expected_acl) then mret (inl tt)
    else
      cig ← lift (idx (body p) 5); cis_id ← lift (idx (body p) 6);
      if negb (cig =? expected_cig) || negb (cis_id =? expected_cis_id)
      then raise (HciError (Fmt "CIS Request reported CIG %u CIS_ID %u, expected %u/%u"
             [AInt cig; AInt cis_id; AInt expected_cig; AInt expected_cis_id]))
      else mret (inr (mask12 cis)).

Definition wait_cis_request (expected_acl expected_cig expected_cis_id timeout : Z) : D Z :=
  r ← poll (λ _, ms 100) (cis_request_step expected_acl expected_cig expected_cis_id)
        (ms 100) timeout tt;
  match r with
  | inr cis => mret cis
  | inl _ => raise (HciError (Lit "timed out waiting for LE CIS Request"))
  end.

Definition cis_established_step (label : string) (expected_cis : Z) (_ : unit) (p : packet)
  : D (unit + unit) :=
  if is_event EVT_DISCONNECTION_COMPLETE p
  then raise (HciError (Fmt "%s disconnected while establishing CIS" [AStr label]))
  else if negb (is_event EVT_LE_META p) then mret (inl tt)
  else if (length (body p) <? 4)%nat
          || negb (existsb (λ s, bool_decide (head (body p) = Some s)) LE_CIS_ESTABLISHED_SUBEVENTS)
  then mret (inl tt)
  else
    status ← lift (idx (body p) 1);
    cis ← lift (unpack_H (slice 2 4 (body p)));
    if negb (mask12 cis =? expected_cis) then mret (inl tt)
    else if negb (status =? 0)
    then raise (HciError (Fmt "%s LE CIS Established returned %s" (AStr label :: status_text status)))
    else mret (inr tt).

Definition wait_cis_established (label : string) (expected_cis timeout : Z) : D unit :=
  r ← poll (λ _, ms 100) (cis_established_step label expected_cis) (ms 100) timeout tt;
  match r with
  | inr _ => skip
  | inl _ => raise (HciError (Fmt "timed out waiting for %s LE CIS Established" [AStr label]))
  end.

(** *** Teardown *)

Definition remove_iso_paths (cis : Z) : D unit :=
  payload ← lift (pack [FH cis; FB 0x03]);
  Hci.command OP_LE_REMOVE_ISO_DATA_PATH payload true ;; skip.

Definition disconnect (handle : Z) : D unit :=
  payload ← lift (pack [FH handle; FB DISCONNECT_REASON]);
  Hci.command OP_DISCONNECT payload true ;; skip.

Definition remove_cig (cig_id : Z) : D unit :=
  payload ← lift (mkbytes [cig_id]);
  Hci.command OP_LE_REMOVE_CIG payload true ;; skip.

(** Until the disconnection of [handle]; an engine error while reading, the
    only kind this loop raises, counts as not seen. *)
Definition wait_disconnected (handle timeout : Z) : D bool :=
  try_except is_hci_error (Pair.wait_disconnected handle timeout) (λ _, mret false).

(** The warning printed when the controller refuses, or none. *)
Definition clear_host_support (label : string) : D (list text) :=
  try_except is_hci_error
    (status ← host_support false;
     mret (if negb (status =? 0)
           then [Fmt "Warning: %s left CIS Host Support set, clear returned %s"
                   (AStr label :: status_text status)]
           else []))
    (λ _, mret []).
End single.

(** ** Two controllers *)

Section pair.
Context {T1 T2 : Type} `{!Transport T1, !Transport T2}.
Abbreviation M2 := (M (pair (T1:=T1) (T2:=T2))).

Definition wait_acl_pair : Z → M2 (Z * Z) := wait_acl_pair_by acl_event.

(** [drain]: reads and discards on both sides, errors included. A turn takes a
    microsecond besides what its reads take, so a loop over dead ports ends. *)
Fixpoint drain_loop (fuel : nat) (end_ : Z) : M2 unit :=
  match fuel with
  | O => λ s, (Stuck, s)
  | S fuel' =>
      now ← gets fst;
      if end_ <=? now then skip
      else
        quietly (on_central (read_packet (ms 20) ;; skip)) ;;
        quietly (on_peripheral (read_packet (ms 20) ;; skip)) ;;
        modify (λ s, (fst s + 1, snd s)) ;;
        drain_loop fuel' end_
  end.

Definition drain (duration : Z) : M2 unit :=
  now ← gets fst;
  drain_loop (S (Z.to_nat duration)) (now + duration).

(** [if x is not None: ...]. *)
Definition given {X} (x : option X) (m : X → M2 unit) : M2 unit :=
  match x with Some v => m v | None => skip end.

(** The warnings it prints are its result. *)
Definition cleanup (cig_id central_cis peripheral_cis central_acl peripheral_acl : option Z)
  : M2 (list text) :=
  given central_cis (λ cis, quietly (on_central (remove_iso_paths cis))) ;;
  given peripheral_cis (λ cis, quietly (on_peripheral (remove_iso_paths cis))) ;;
  given central_cis (λ cis, quietly (on_central (disconnect cis))) ;;
  drain (ms 500) ;;
  given cig_id (λ cig, quietly (on_central (remove_cig cig))) ;;
  given central_acl (λ acl, quietly (on_central (disconnect acl))) ;;
  given peripheral_acl (λ acl, quietly (on_peripheral (disconnect acl))) ;;
  quietly (on_peripheral (Hci.command OP_LE_SET_ADV_ENABLE [0x00] true ;; skip)) ;;
  given central_acl (λ acl, on_central (wait_disconnected acl (seconds 5)) ;; skip) ;;
  given peripheral_acl (λ acl, on_peripheral (wait_disconnected acl (seconds 5)) ;; skip) ;;
  w1 ← on_central (clear_host_support "central");
  w2 ← on_peripheral (clear_host_support "peripheral");
  mret (w1 ++ w2).
End pair.

(** ** A run over two ports *)

Inductive side : Type := CentralSide | PeripheralSide.
#[export] Instance side_eq_dec : EqDecision side.
Proof. solve_decision. Defined.

Inductive port_event : Type := Opened (s : side) | Closed (s : side).
#[export] Instance port_event_eq_dec : EqDecision port_event.
Proof. solve_decision. Defined.

(** The local variables of a run, [opened] for [central is not None and
    peripheral is not None], and the log of ports. *)
Record cis_run : Type := CisRun {
  port_log : list port_event; opened : bool;
  cig_id : option Z; central_cis : option Z; peripheral_cis : option Z;
  central_acl : option Z; peripheral_acl : option Z;
  central_before : option (list Z); peripheral_before : option (list Z) }.

Definition init_run : cis_run := CisRun [] false None None None None None None None.

(** [phrase in str(err)], for a phrase that formatting does not split: it is in
    the format or in one of the arguments. *)
Definition says (phrase : string) (t : text) : bool :=
  str_contains phrase (fmt t)
  || existsb (λ a, match a with AStr s => str_contains phrase s | _ => false end) (fargs t).

(** A status 0x3E is always rendered with its name, the second phrase. *)
Definition says_failed_to_be_established (t : text) : bool :=
  says "ACL connection failed: 0x3E" t || says "Connection Failed To Be Established" t.

Definition retryable_acl_establishment (e : exn) : bool :=
  says_failed_to_be_established (str e)
  || says "timed out waiting for both ACL connection events" (str e).

Section runs.
Context {T1 T2 : Type} `{!Transport T1, !Transport T2}.
(** What opening a port gives, attempt by attempt. *)
Context (open_central : nat → res T1) (open_peripheral : nat → res T2).
Abbreviation R X := (M (pair (T1:=T1) (T2:=T2) * book * cis_run) X).

Definition log_port (e : port_event) : R unit :=
  note (λ l, l<|port_log := port_log l ++ [e]|>).

(** [IsoHci(port)]: a fresh engine over an opened port. *)
Definition open_central_port (attempt : nat) : R unit :=
  wire ← lift (open_central attempt);
  on_pair (modify (λ s, (fst s, (init_hci wire, snd (snd s))))) ;;
  log_port (Opened CentralSide).
Definition open_peripheral_port (attempt : nat) : R unit :=
  wire ← lift (open_peripheral attempt);
  on_pair (modify (λ s, (fst s, (fst (snd s), init_hci wire)))) ;;
  log_port (Opened PeripheralSide).

Definition close_ports : R unit :=
  log_port (Closed CentralSide) ;; log_port (Closed PeripheralSide).

Definition close_acl_setup_attempt : R unit :=
  on_pair (cleanup None None None None None) ;; close_ports.

(** One attempt, once the ports are open. *)
Definition setup_acl_pair : R (Z * Z) :=
  p ← second prepare;
  let '(peripheral_id, peripheral_type, _) := (p : bytes * Z * id_source) in
  c ← first prepare;
  let '(_, central_type, _) := (c : bytes * Z * id_source) in
  second (start_advertising peripheral_id peripheral_type) ;;
  first (start_connection central_type peripheral_id peripheral_type) ;;
  on_pair (wait_acl_pair (seconds 10)).

(** The outcome of a [try] whose [except (HciError, HciGone)] goes on. *)
Definition attempt_of {A} (m : R A) : R (exn + A) :=
  try_except is_hci_error (a ← m; mret (inr a)) (λ e, mret (inl e)).

(** [for attempt in range(1, attempts + 1)], [left] of them still to make.
    [retryable] sees the error and the two engines. *)
Fixpoint establish (retryable : exn → pair (T1:=T1) (T2:=T2) → bool) (unreachable : string)
    (left attempt : nat) : R (Z * Z) :=
  match left with
  | O => raise (HciError (Lit unreachable))
  | S left' =>
      open_central_port attempt ;;
      open_peripheral_port attempt ;;
      r ← attempt_of setup_acl_pair;
      match r with
      | inr handles => mret handles
      | inl err =>
          engines ← on_pair getS;
          close_acl_setup_attempt ;;
          match left' with
          | S _ => if retryable err engines
                   then establish retryable unreachable left' (S attempt) else raise err
          | O => raise err
          end
      end
  end.

Definition establish_acl_pair (attempts : nat) : R (Z * Z) :=
  establish (λ e _, retryable_acl_establishment e) "unreachable CIS ACL establishment retry state"
    attempts 1.

(** The CIS on an established ACL, with its data paths. *)
Definition open_cis (central_acl peripheral_acl : Z) : R (Z * Z) :=
  g ← first create_cig;
  let '(cig, c_cis, cis_id) := (g : Z * Z * Z) in
  note (λ l, l<|cig_id := Some cig|><|central_cis := Some c_cis|>) ;;
  payload ← lift (pack [FB 1; FH c_cis; FH central_acl]);
  r ← first (Hci.command OP_LE_CREATE_CIS payload true);
  first (check_status "LE Create CIS" (fst r)) ;;
  p_cis ← second (wait_cis_request peripheral_acl cig cis_id (seconds 5));
  note (λ l, l<|peripheral_cis := Some p_cis|>) ;;
  payload ← lift (pack [FH p_cis]);
  r ← second (Hci.command OP_LE_ACCEPT_CIS_REQUEST payload true);
  second (check_status "LE Accept CIS Request" (fst r)) ;;
  second (wait_cis_established "peripheral" p_cis (seconds 5)) ;;
  first (wait_cis_established "central" c_cis (seconds 5)) ;;
  first (setup_iso_path c_cis ISO_DIRECTION_INPUT ;; setup_iso_path c_cis ISO_DIRECTION_OUTPUT) ;;
  second (setup_iso_path p_cis ISO_DIRECTION_INPUT ;; setup_iso_path p_cis ISO_DIRECTION_OUTPUT) ;;
  mret (c_cis, p_cis).

(** b"CIS central->peripheral" and b"CIS peripheral->central". *)
Definition C2P : bytes :=
  [67; 73; 83; 32; 99; 101; 110; 116; 114; 97; 108; 45; 62; 112; 101; 114; 105; 112; 104; 101; 114; 97; 108].
Definition P2C : bytes :=
  [67; 73; 83; 32; 112; 101; 114; 105; 112; 104; 101; 114; 97; 108; 45; 62; 99; 101; 110; 116; 114; 97; 108].

(** [x not in (None, 0)] and [x is not None and x < 1]. *)
Definition moved (d : option Z) : bool := match d with Some n => negb (n =? 0) | None => false end.
Definition stayed (d : option Z) : bool := match d with Some n => n <? 1 | None => false end.

Definition check_iso_counters (cb ca pb pa : option (list Z)) : res unit :=
  if moved (counter_delta cb ca 14) || moved (counter_delta pb pa 14)
  then Exc (HciError (Lit "the routing layer dropped an ISO packet"))
  else if stayed (counter_delta cb ca 17)
  then Exc (HciError (Lit "central ISO packet never reached SDC"))
  else if stayed (counter_delta pb pa 17)
  then Exc (HciError (Lit "peripheral ISO packet never reached SDC"))
  else Ok tt.

(** One SDU each way, and what the counters say of them. *)
Definition move_sdus (c_cis p_cis : Z) : R unit :=
  cb ← first counter_snapshot;
  pb ← second counter_snapshot;
  note (λ l, l<|central_before := cb|><|peripheral_before := pb|>) ;;
  first (send_iso c_cis 0 C2P) ;;
  second (wait_iso "peripheral" p_cis C2P (seconds 5)) ;;
  second (send_iso p_cis 0 P2C) ;;
  first (wait_iso "central" c_cis P2C (seconds 5)) ;;
  ca ← first counter_snapshot;
  pa ← second counter_snapshot;
  lift (check_iso_counters cb ca pb pa).

(** The test behind an established ACL. *)
Definition use_cis (c_acl p_acl : Z) : R unit :=
  cis ← open_cis c_acl p_acl;
  let '(c_cis, p_cis) := (cis : Z * Z) in
  central_iso ← first (read_iso_buffers "central");
  peripheral_iso ← second (read_iso_buffers "peripheral");
  let needed := Z.max (blen C2P) (blen P2C) + 4 in
  if (central_iso <? needed) || (peripheral_iso <? needed)
  then raise (HciError (Lit "HCI ISO buffer is too small for the test SDUs"))
  else move_sdus c_cis p_cis.

(** What [central, peripheral, central_acl, peripheral_acl = ...] assigns. *)
Definition note_opened (c_acl p_acl : Z) : R unit :=
  note (λ l, l<|opened := true|><|central_acl := Some c_acl|><|peripheral_acl := Some p_acl|>).

Definition cis_body : R unit :=
  h ← establish_acl_pair ESTABLISHMENT_ATTEMPTS;
  let '(c_acl, p_acl) := (h : Z * Z) in
  note_opened c_acl p_acl ;;
  use_cis c_acl p_acl.

(** The [finally] of a run: the teardown, then the ports. *)
Definition tear_down : R unit :=
  l ← locals;
  when (opened l)
    (on_pair (cleanup (cig_id l) (central_cis l) (peripheral_cis l) (central_acl l)
                (peripheral_acl l)) ;;
     close_ports).

(** [main] once the ports are chosen: the exit code. *)
Definition run_cis_test : R Z :=
  try_finally (try_except is_hci_error (cis_body ;; mret 0) (λ _, mret 1)) tear_down.
End runs.
End Cis.
