(* ===== verification/CisLaws.v ===== *)
(** * CisLaws: what a CIS run and its teardown guarantee

    The procedures end; the teardown writes its commands in order on both
    sides and lets no engine error out; establishing retries a bounded number
    of times and closes what it opened; a run of the test ends with an exit
    code and no port left open. *)

From S2P Require Export Logs Cis.
From coqutil Require Import Datatypes.RecordSetters.
Import TriangleBracketNotations.
#[local] Open Scope Z_scope.

Module CisLaws.
Import Cis.

(** ** Decoding *)

Lemma cig_handles_decodes count i data : decodes (cig_handles count i data).
Proof. revert i. induction count as [|count IH]; intros i; cbn [cig_handles]; decode. apply IH. Qed.

Lemma parse_cig_decodes data : parse_cig_return data ≠ Stuck.
Proof.
  unfold parse_cig_return. case_match; [done|]. apply bind_total; [by apply (proj1 (decodes_idx _ _))|].
  intros cig. apply bind_total; [by apply (proj1 (decodes_idx _ _))|]. intros count.
  case_match; [done|]. apply bind_total; [apply cig_handles_decodes|done].
Qed.

(** The return parameters of LE Set CIG Parameters. *)
Definition cig_return (cig : Z) (handles : list Z) : bytes :=
  [cig; blen handles] ++ concat (le_bytes 2 <$> handles).

Lemma cig_handles_cut handles pre :
  length pre = 2%nat → Forall (λ h, 0 ≤ h < 4096) handles →
  ∀ done_, Forall (λ h, 0 ≤ h < 4096) done_ →
  cig_handles (length handles) (length done_) (pre ++ concat (le_bytes 2 <$> (done_ ++ handles)))
    = Ok handles.
Proof.
  intros Hpre. induction handles as [|h hs IH]; intros Hh done_ Hd; [done|].
  apply Forall_cons in Hh as [Hh Hhs]. cbn [length cig_handles].
  assert (Hlen : ∀ l : list Z, length (concat (le_bytes 2 <$> l)) = (2 * length l)%nat).
  { intros l. induction l as [|x l IHl]; [done|]. cbn [fmap list_fmap concat]. rewrite length_app, length_le_bytes, IHl. cbn. lia. }
  assert (Hs : slice (2 + 2 * length done_) (4 + 2 * length done_)
      (pre ++ concat (le_bytes 2 <$> (done_ ++ h :: hs))) = le_bytes 2 h).
  { rewrite fmap_app, concat_app. cbn [fmap list_fmap concat]. rewrite app_assoc.
    unfold slice. rewrite drop_app_length' by (rewrite length_app, Hlen; lia).
    replace (4 + 2 * length done_ - (2 + 2 * length done_))%nat with 2%nat by lia.
    by rewrite take_app_length' by by rewrite length_le_bytes. }
  rewrite Hs. rewrite unpack_H_ok by by rewrite length_le_bytes. cbn [mbind res_bind].
  replace (S (length done_)) with (length (done_ ++ [h])) by (rewrite length_app; cbn; lia).
  replace (done_ ++ h :: hs) with ((done_ ++ [h]) ++ hs) by by rewrite <- app_assoc.
  rewrite IH; [|done|by apply Forall_app; split; [|repeat constructor; lia]]. cbn [mbind res_bind].
  rewrite le_Z_le_bytes_small by (cbn; lia). by rewrite mask12_spec, Z.mod_small by lia.
Qed.

(** The return of a CIG decodes to its identifier and connection handles. *)
Theorem cig_return_roundtrip (cig : Z) (handles : list Z) :
  Forall (λ h, 0 ≤ h < 4096) handles →
  parse_cig_return (cig_return cig handles) = Ok (cig, handles).
Proof.
  intros Hh. unfold parse_cig_return, cig_return.
  assert (Hlen : length (concat (le_bytes 2 <$> handles)) = (2 * length handles)%nat).
  { clear Hh. induction handles as [|x l IHl]; [done|]. cbn [fmap list_fmap concat].
    rewrite length_app, length_le_bytes, IHl. cbn. lia. }
  rewrite (proj2 (Nat.ltb_ge _ _)) by (cbn; lia). cbn [idx lookup list_lookup mbind res_bind app].
  unfold idx. cbn [lookup list_lookup mbind res_bind].
  replace (blen _ =? 2 + blen handles * 2) with true
    by (symmetry; apply Z.eqb_eq; unfold blen; cbn [length]; rewrite Hlen; lia). cbn [negb].
  unfold blen. rewrite Nat2Z.id.
  pose proof (cig_handles_cut handles [cig; Z.of_nat (length handles)] eq_refl Hh [] (Forall_nil_2 _)) as H.
  cbn [length app] in H. by rewrite H.
Qed.

(** ** One controller *)

Section single.
Context {T : Type} `{Tr : !Transport T, TL : !TransportLaws T}.
Abbreviation some := (ends (T:=T) any_exn).

(** The ports of a run let out no engine error once it is swallowed. *)
Lemma ends_host_support on : some (host_support on).
Proof. unfold host_support. ends_auto. Qed.
#[local] Hint Resolve ends_host_support : ends.

Lemma ends_prepare_cis : some prepare.
Proof. unfold prepare. ends_auto. Qed.

Lemma ends_cis_connection ty addr pty : some (start_connection ty addr pty).
Proof. unfold start_connection. ends_auto. Qed.

Lemma ends_iso_path cis d : some (setup_iso_path cis d).
Proof. unfold setup_iso_path, Iso.setup_iso_path. ends_auto. Qed.

Lemma ends_iso_buffers label : some (read_iso_buffers label).
Proof. unfold read_iso_buffers, Iso.read_iso_buffers. ends_auto. Qed.

Lemma ends_wait_iso label cis sdu t : some (wait_iso label cis sdu t).
Proof. unfold wait_iso. ends_auto. Qed.

Lemma ends_cis_send_iso cis n sdu : some (send_iso cis n sdu).
Proof. unfold send_iso, Iso.send_iso. ends_auto. Qed.

Lemma ends_snapshot : some counter_snapshot.
Proof. unfold counter_snapshot, read_counters. ends_auto. Qed.

Lemma ends_parse_cig data : some (lift (parse_cig_return data)).
Proof. apply ends_lift, parse_cig_decodes. Qed.

(** What the CIG row of the table holds: one CIS, of identifier 0. *)
Lemma cig_row :
  match BY_OPCODE !! OP_LE_SET_CIG_PARAMS with
  | Some row => build row no_context
  | None => Stuck
  end = Ok [0; 0x10; 0x27; 0; 0x10; 0x27; 0; 0; 0; 0; 20; 0; 20; 0; 1; 0; 40; 0; 40; 0; 1; 1; 2; 2].
Proof. by vm_compute. Qed.

Lemma ends_create_cig : some create_cig.
Proof.
  unfold create_cig. pose proof cig_row as E. destruct (BY_OPCODE !! _) as [row|]; [|done].
  eapply runs_lift_ok; [reflexivity|]. eapply runs_lift_ok; [exact E|]. ends_auto.
  apply parse_cig_decodes.
Qed.

(** A step of a wait: it decodes, goes on, returns or raises an engine error. *)
Ltac step_runs :=
  repeat first
    [ apply runs_ret, _ | apply runs_raise; [apply _|by left]
    | apply runs_bind; [apply _|apply decodes_runs; [apply _|decode]|intros ?] | case_match ].


Lemma ends_cis_request acl cig cis_id t : some (wait_cis_request acl cig cis_id t).
Proof.
  unfold wait_cis_request. apply runs_bind; [apply _| |intros ?; ends_auto].
  apply ends_poll; [done|unfold ms; lia|]. intros R ? d p Hp. unfold cis_request_step.
  step_runs.
Qed.

Lemma ends_cis_established label cis t : some (wait_cis_established label cis t).
Proof.
  unfold wait_cis_established. apply runs_bind; [apply _| |intros ?; ends_auto].
  apply ends_poll; [done|unfold ms; lia|]. intros R ? d p Hp. unfold cis_established_step.
  step_runs.
Qed.

(** *** What the teardown writes *)

(** One command, or none when its parameters do not pack. *)
Definition one (op : Z) (payload : res bytes) : list bytes :=
  match payload with Ok bs => [command_packet op bs] | _ => [] end.

Lemma sends_lift {A B} (r : res A) (k : A → M (dev (T:=T)) B) pkts :
  r ≠ Stuck → (∀ a, r = Ok a → sends pkts (k a)) → sends pkts (lift r ≫= k).
Proof.
  intros Hr Hk. destruct r as [a|e|]; [|intros s Hs; cbn|done]; [by apply Hk|].
  split_and!; [done|done|]. exists []. by rewrite app_nil_r; split; [|apply sublist_nil_l].
Qed.

Lemma sends_one op payload af (r : res bytes) :
  r ≠ Stuck → r = payload →
  sends (one op payload) (bs ← lift r; Hci.command (T:=T) op bs af).
Proof.
  intros Hr <-. apply sends_lift; [done|]. intros bs ->. apply sends_command.
Qed.

Lemma sends_paths cis : sends (one OP_LE_REMOVE_ISO_DATA_PATH (pack [FH cis; FB 0x03]))
  (remove_iso_paths (T:=T) cis).
Proof.
  unfold remove_iso_paths. apply sends_lift; [total|]. intros bs ->. apply (sends_skip (Hci.command _ _ _)), sends_command.
Qed.

Lemma sends_disconnect h : sends (one OP_DISCONNECT (pack [FH h; FB DISCONNECT_REASON]))
  (disconnect (T:=T) h).
Proof.
  unfold disconnect. apply sends_lift; [total|]. intros bs ->. apply (sends_skip (Hci.command _ _ _)), sends_command.
Qed.

Lemma sends_remove_cig cig : sends (one OP_LE_REMOVE_CIG (mkbytes [cig])) (remove_cig (T:=T) cig).
Proof.
  unfold remove_cig. apply sends_lift; [total|]. intros bs ->. apply (sends_skip (Hci.command _ _ _)), sends_command.
Qed.

Lemma sends_clear label :
  sends (one OP_LE_SET_HOST_FEATURE (mkbytes [CIS_HOST_SUPPORT_BIT; 0])) (clear_host_support (T:=T) label).
Proof.
  unfold clear_host_support, host_support. apply sends_try; [|intros e; by apply sends_none].
  rewrite <- (app_nil_r (one _ _)). apply sends_bind; [|intros st; by apply sends_none].
  apply sends_lift; [total|]. intros bs ->. cbn [one].
  rewrite <- (app_nil_r [_]). apply sends_bind; [apply sends_command|intros st; by apply sends_none].
Qed.

Lemma sends_wait_disconnected h t : sends [] (wait_disconnected (T:=T) h t).
Proof.
  unfold wait_disconnected. apply sends_try; [|intros e; by apply sends_none].
  unfold Pair.wait_disconnected. apply (sends_bind [] []); [|intros r; by apply sends_none].
  intros s Hs. pose proof (poll_pure (λ _ : unit, True) (λ _, ms 100) (disconnected_step h) (ms 100) t tt s) as H.
  destruct (poll _ _ _ _ _ s) as [r s']. destruct H as (?&_&E&Hr); [done|unfold ms; lia| |done|done|].
  { intros R ? d p _. unfold disconnected_step. step_runs. }
  cbn. split_and!; [done|by intros ->|]. exists []. by rewrite app_nil_r, E.
Qed.

Lemma sends_read w : sends [] (read_packet (T:=T) w).
Proof. apply (sends_silent engine_exn), read_packet_trace. Qed.

(** What they raise, besides engine errors. *)
Lemma ends_wait_disconnected h t : ends not_hci (wait_disconnected (T:=T) h t).
Proof. apply ends_quiet; [ends_auto|intros e; apply runs_ret, _]. Qed.

Lemma ends_clear label : ends not_hci (clear_host_support (T:=T) label).
Proof. apply ends_quiet; [ends_auto|intros e; apply runs_ret, _]. Qed.

Lemma ends_teardown_steps x :
  some (remove_iso_paths (T:=T) x) ∧ some (disconnect (T:=T) x) ∧ some (remove_cig (T:=T) x).
Proof. unfold remove_iso_paths, disconnect, remove_cig. split_and!; ends_auto. Qed.

Lemma ends_read w : some (read_packet (T:=T) w ;; skip).
Proof. apply runs_bind; [apply _| |intros ?; ends_auto]. by eapply ends_runs, (read_packet_trace (λ _, True)). Qed.
End single.

#[export] Hint Resolve ends_prepare_cis ends_cis_connection ends_iso_path ends_iso_buffers
  ends_wait_iso ends_cis_send_iso ends_snapshot ends_create_cig ends_cis_request
  ends_cis_established ends_wait_disconnected ends_clear : ends.

(** ** Two controllers *)

Section pair.
Context {T1 T2 : Type} `{Tr1 : !Transport T1, Tr2 : !Transport T2}.
Context `{TL1 : !TransportLaws T1, TL2 : !TransportLaws T2}.
Implicit Types s : pair (T1:=T1) (T2:=T2).
Abbreviation M2 := (M (pair (T1:=T1) (T2:=T2))).

(** A program over both that writes some of [l1] and some of [l2], in order. *)
Definition both_send {A} (l1 l2 : list bytes) (E : exn → Prop) (m : M2 A) : Prop :=
  ∀ s, pair_ok s → let '(r, s') := m s in
    pair_ok s' ∧
    (∃ ps, sent (central_of s') = sent (central_of s) ++ ps ∧ ps `sublist_of` l1) ∧
    (∃ ps, sent (peripheral_of s') = sent (peripheral_of s) ++ ps ∧ ps `sublist_of` l2) ∧
    (∀ e, r = Exc e → E e) ∧ r ≠ Stuck.

Lemma both_send_runs {A} l1 l2 E (m : M2 A) : both_send l1 l2 E m → runs pair_ok anything E m.
Proof. intros Hm s Hs. specialize (Hm s Hs). destruct (m s) as [r s']. by destruct Hm as (?&_&_&?&?). Qed.

Lemma both_send_bind {A B} l1 l2 k1 k2 E (m : M2 A) (f : A → M2 B) :
  both_send l1 l2 E m → (∀ a, both_send k1 k2 E (f a)) →
  both_send (l1 ++ k1) (l2 ++ k2) E (m ≫= f).
Proof.
  intros Hm Hf s Hs. specialize (Hm s Hs). unfold mbind, M_bind. destruct (m s) as [r s1].
  destruct Hm as (Hs1&(p1&E1&H1)&(p2&E2&H2)&He&Hst). destruct r as [a|e|]; [| |done].
  - specialize (Hf a s1 Hs1). destruct (f a s1) as [r s2].
    destruct Hf as (?&(q1&F1&?)&(q2&F2&?)&?&?). split_and!; [done| | |done|done].
    + exists (p1 ++ q1). rewrite F1, E1, app_assoc. split; [done|by apply sublist_app].
    + exists (p2 ++ q2). rewrite F2, E2, app_assoc. split; [done|by apply sublist_app].
  - split_and!; [done| | |intros ? [= <-]; by apply He|done].
    + exists p1. split; [done|by apply sublist_inserts_r].
    + exists p2. split; [done|by apply sublist_inserts_r].
Qed.

Lemma both_send_pure {A} E (m : M2 A) :
  (∀ s, snd (m s) = s ∧ match fst (m s) with Ok _ => True | Exc e => E e | Stuck => False end) →
  both_send [] [] E m.
Proof.
  intros Hm s Hs. destruct (Hm s) as [E1 E2]. destruct (m s) as [r s']. cbn in *. subst s'.
  split_and!; [done|exists []; by rewrite app_nil_r|exists []; by rewrite app_nil_r|by intros e ->|by intros ->].
Qed.

Lemma both_send_central {A} l E (m : M (dev (T:=T1)) A) :
  sends l m → ends E m → both_send l [] E (on_central (T2:=T2) m).
Proof.
  intros Hl He [t [h1 h2]] [H1 H2]. specialize (Hl (t, h1) H1). specialize (He (t, h1) H1).
  unfold on_central, zoom, sent, central_of, peripheral_of in *. cbn in *.
  destruct (m (t, h1)) as [r [t' h']]. cbn in *. destruct Hl as (?&?&?). destruct He as (_&_&?&_).
  split_and!; try done. exists []. by rewrite app_nil_r.
Qed.

Lemma both_send_peripheral {A} l E (m : M (dev (T:=T2)) A) :
  sends l m → ends E m → both_send [] l E (on_peripheral (T1:=T1) m).
Proof.
  intros Hl He [t [h1 h2]] [H1 H2]. specialize (Hl (t, h2) H2). specialize (He (t, h2) H2).
  unfold on_peripheral, zoom, sent, central_of, peripheral_of in *. cbn in *.
  destruct (m (t, h2)) as [r [t' h']]. cbn in *. destruct Hl as (?&?&?). destruct He as (_&_&?&_).
  split_and!; try done. exists []. by rewrite app_nil_r.
Qed.

Lemma both_send_quietly l1 l2 (m : M2 unit) :
  both_send l1 l2 any_exn m → both_send l1 l2 not_hci (quietly m).
Proof.
  intros Hm s Hs. specialize (Hm s Hs). unfold quietly, try_except. destruct (m s) as [r s'].
  destruct Hm as (?&?&?&?&?). destruct r as [u|e|]; [by split_and!| |done].
  destruct (is_hci_error e) eqn:Ee; cbn; split_and!; try done. by intros ? [= <-].
Qed.

Lemma both_send_given_first {X} (x : option X) (l : X → list bytes) E (m : X → M2 unit) :
  (∀ v, both_send (l v) [] E (m v)) → both_send (from_option l [] x) [] E (given x m).
Proof. intros Hm. destruct x as [v|]; [apply Hm|by apply both_send_pure]. Qed.
Lemma both_send_given_second {X} (x : option X) (l : X → list bytes) E (m : X → M2 unit) :
  (∀ v, both_send [] (l v) E (m v)) → both_send [] (from_option l [] x) E (given x m).
Proof. intros Hm. destruct x as [v|]; [apply Hm|by apply both_send_pure]. Qed.

(** Reading and discarding on one side. *)
Lemma quiet_read_central w s :
  pair_ok s → let '(r, s') := quietly (on_central (read_packet w ;; skip)) s in
  pair_ok s' ∧ pair_frame s s' ∧ match r with Ok _ => True | Exc e => not_hci e | Stuck => False end.
Proof.
  intros Hs. pose proof (pair_read_central w s Hs) as H.
  pose proof (read_packet_cases w (central_of s) (proj1 Hs)) as Hc.
  assert (E : on_central (read_packet w ;; skip) s =
    match on_central (T2:=T2) (read_packet w) s with (Ok _, s') => (Ok tt, s') | (Exc e, s') => (Exc e, s') | (Stuck, s') => (Stuck, s') end).
  { unfold on_central, zoom, mbind, M_bind. by destruct (read_packet w _) as [[a|e|] d]. }
  unfold quietly, try_except. rewrite E. destruct (on_central _ s) as [r s1].
  destruct (read_packet w (central_of s)) as [r1 d1]. destruct H as (->&_&_&?&?).
  destruct Hc as (_&_&Hr). destruct r1 as [a|e|]; [done| |done].
  destruct (is_hci_error e) eqn:Ee; cbn; by split_and!.
Qed.

Lemma quiet_read_peripheral w s :
  pair_ok s → let '(r, s') := quietly (on_peripheral (read_packet w ;; skip)) s in
  pair_ok s' ∧ pair_frame s s' ∧ match r with Ok _ => True | Exc e => not_hci e | Stuck => False end.
Proof.
  intros Hs. pose proof (pair_read_peripheral w s Hs) as H.
  pose proof (read_packet_cases w (peripheral_of s) (proj2 Hs)) as Hc.
  assert (E : on_peripheral (read_packet w ;; skip) s =
    match on_peripheral (T1:=T1) (read_packet w) s with (Ok _, s') => (Ok tt, s') | (Exc e, s') => (Exc e, s') | (Stuck, s') => (Stuck, s') end).
  { unfold on_peripheral, zoom, mbind, M_bind. by destruct (read_packet w _) as [[a|e|] d]. }
  unfold quietly, try_except. rewrite E. destruct (on_peripheral _ s) as [r s1].
  destruct (read_packet w (peripheral_of s)) as [r1 d1]. destruct H as (->&_&_&?&?).
  destruct Hc as (_&_&Hr). destruct r1 as [a|e|]; [done| |done].
  destruct (is_hci_error e) eqn:Ee; cbn; by split_and!.
Qed.

(** Draining ends, and takes its duration unless something else than an engine
    error is raised. *)
Lemma drain_loop_cases fuel end_ s :
  pair_ok s → (Z.to_nat (end_ - fst s) < fuel)%nat →
  let '(r, s') := drain_loop fuel end_ s in
  pair_ok s' ∧ pair_frame s s' ∧
  match r with Ok _ => end_ ≤ fst s' | Exc e => not_hci e | Stuck => False end.
Proof.
  revert s. induction fuel as [|fuel IH]; intros s Hs Hf; [lia|]. cbn [drain_loop].
  unfold gets. unfold mbind at 1, M_bind at 1. destruct (Z.leb_spec end_ (fst s)); [by cbn|].
  unfold mbind at 1, M_bind at 1. pose proof (quiet_read_central (ms 20) s Hs) as H1.
  destruct (quietly _ s) as [[[]|e|] s1]; destruct H1 as (Hs1&Hf1&?); [|by split_and!|done].
  unfold mbind at 1, M_bind at 1. pose proof (quiet_read_peripheral (ms 20) s1 Hs1) as H2.
  destruct (quietly _ s1) as [[[]|e|] s2]; destruct H2 as (Hs2&Hf2&?);
    [|split; [done|]; split; [by etrans|done]|done].
  unfold mbind at 1, M_bind at 1, modify.
  assert (Hf3 : pair_frame s2 (fst s2 + 1, snd s2)).
  { unfold pair_frame, central_of, peripheral_of. cbn. split_and!; [by apply both_frame_later; lia..|done|done]. }
  assert (Hf' : pair_frame s (fst s2 + 1, snd s2)) by (etrans; [exact Hf1|]; by etrans).
  pose proof Hf1 as ([[Ht1 _] _]&_). pose proof Hf2 as ([[Ht2 _] _]&_). cbn in Ht1, Ht2.
  specialize (IH (fst s2 + 1, snd s2)). destruct (drain_loop fuel end_ _) as [r s'].
  destruct IH as (?&?&?); [done|cbn; lia|]. split; [done|]. split; [by etrans|done].
Qed.

Lemma drain_cases d s :
  pair_ok s → let '(r, s') := drain d s in
  pair_ok s' ∧ pair_frame s s' ∧
  match r with Ok _ => fst s + d ≤ fst s' | Exc e => not_hci e | Stuck => False end.
Proof.
  intros Hs. unfold drain, gets, mbind, M_bind. apply drain_loop_cases; [done|cbn; lia].
Qed.

Lemma both_send_drain d : both_send [] [] not_hci (drain (T1:=T1) (T2:=T2) d).
Proof.
  intros s Hs. pose proof (drain_cases d s Hs) as H. destruct (drain d s) as [r s'].
  destruct H as (?&(_&_&E1&E2)&Hr). split_and!; [done| | |by intros ? ->|by intros ->].
  - exists []. rewrite app_nil_r. split; [done|apply sublist_nil_l].
  - exists []. rewrite app_nil_r. split; [done|apply sublist_nil_l].
Qed.

(** What the teardown may write on either side, in order. *)
Definition central_teardown (cig_id central_cis central_acl : option Z) : list bytes :=
  from_option (λ cis, one OP_LE_REMOVE_ISO_DATA_PATH (pack [FH cis; FB 0x03])) [] central_cis
  ++ from_option (λ cis, one OP_DISCONNECT (pack [FH cis; FB DISCONNECT_REASON])) [] central_cis
  ++ from_option (λ cig, one OP_LE_REMOVE_CIG (mkbytes [cig])) [] cig_id
  ++ from_option (λ acl, one OP_DISCONNECT (pack [FH acl; FB DISCONNECT_REASON])) [] central_acl
  ++ one OP_LE_SET_HOST_FEATURE (mkbytes [CIS_HOST_SUPPORT_BIT; 0]).

Definition peripheral_teardown (peripheral_cis peripheral_acl : option Z) : list bytes :=
  from_option (λ cis, one OP_LE_REMOVE_ISO_DATA_PATH (pack [FH cis; FB 0x03])) [] peripheral_cis
  ++ from_option (λ acl, one OP_DISCONNECT (pack [FH acl; FB DISCONNECT_REASON])) [] peripheral_acl
  ++ [command_packet OP_LE_SET_ADV_ENABLE [0x00]]
  ++ one OP_LE_SET_HOST_FEATURE (mkbytes [CIS_HOST_SUPPORT_BIT; 0]).

(** A step of the central, of the peripheral, of neither. *)
Lemma both_send_first {A B} l1 k1 k2 E (m : M2 A) (f : A → M2 B) :
  both_send l1 [] E m → (∀ a, both_send k1 k2 E (f a)) → both_send (l1 ++ k1) k2 E (m ≫= f).
Proof. apply (both_send_bind l1 [] k1 k2). Qed.
Lemma both_send_second {A B} l2 k1 k2 E (m : M2 A) (f : A → M2 B) :
  both_send [] l2 E m → (∀ a, both_send k1 k2 E (f a)) → both_send k1 (l2 ++ k2) E (m ≫= f).
Proof. apply (both_send_bind [] l2 k1 k2). Qed.
Lemma both_send_silent {A B} k1 k2 E (m : M2 A) (f : A → M2 B) :
  both_send [] [] E m → (∀ a, both_send k1 k2 E (f a)) → both_send k1 k2 E (m ≫= f).
Proof. apply (both_send_bind [] [] k1 k2). Qed.

Lemma cleanup_sends cig c_cis p_cis c_acl p_acl :
  both_send (central_teardown cig c_cis c_acl) (peripheral_teardown p_cis p_acl) not_hci
    (cleanup (T1:=T1) (T2:=T2) cig c_cis p_cis c_acl p_acl).
Proof.
  assert (Hwait : ∀ (x : option Z), both_send [] [] not_hci
    (given x (λ acl, on_central (T2:=T2) (wait_disconnected (T:=T1) acl (seconds 5)) ;; skip))).
  { intros [acl|]; [|by apply both_send_pure]. apply both_send_silent; [|intros _; by apply both_send_pure].
    apply both_send_central; [apply sends_wait_disconnected|apply ends_wait_disconnected]. }
  assert (Hwait' : ∀ (x : option Z), both_send [] [] not_hci
    (given x (λ acl, on_peripheral (T1:=T1) (wait_disconnected (T:=T2) acl (seconds 5)) ;; skip))).
  { intros [acl|]; [|by apply both_send_pure]. apply both_send_silent; [|intros _; by apply both_send_pure].
    apply both_send_peripheral; [apply sends_wait_disconnected|apply ends_wait_disconnected]. }
  unfold cleanup, central_teardown, peripheral_teardown.
  apply both_send_first; [|intros _].
  { apply both_send_given_first. intros v. apply both_send_quietly, both_send_central;
      [apply sends_paths|apply ends_teardown_steps]. }
  apply both_send_second; [|intros _].
  { apply both_send_given_second. intros v. apply both_send_quietly, both_send_peripheral;
      [apply sends_paths|apply ends_teardown_steps]. }
  apply both_send_first; [|intros _].
  { apply both_send_given_first. intros v. apply both_send_quietly, both_send_central;
      [apply sends_disconnect|apply ends_teardown_steps]. }
  apply both_send_silent; [apply both_send_drain|intros _].
  apply both_send_first; [|intros _].
  { apply both_send_given_first. intros v. apply both_send_quietly, both_send_central;
      [apply sends_remove_cig|apply ends_teardown_steps]. }
  apply both_send_first; [|intros _].
  { apply both_send_given_first. intros v. apply both_send_quietly, both_send_central;
      [apply sends_disconnect|apply ends_teardown_steps]. }
  apply both_send_second; [|intros _].
  { apply both_send_given_second. intros v. apply both_send_quietly, both_send_peripheral;
      [apply sends_disconnect|apply ends_teardown_steps]. }
  apply both_send_second; [|intros _].
  { apply both_send_quietly, both_send_peripheral; [apply sends_skip, sends_command|ends_auto]. }
  apply both_send_silent; [apply Hwait|intros _].
  apply both_send_silent; [apply Hwait'|intros _].
  rewrite <- (app_nil_r (one _ _)) at 1. apply both_send_first; [|intros w1].
  { apply both_send_central; [apply sends_clear|apply ends_clear]. }
  rewrite <- (app_nil_r (one _ _)). apply both_send_second; [|intros w2; by apply both_send_pure].
  apply both_send_peripheral; [apply sends_clear|apply ends_clear].
Qed.

Lemma cis_event_cases : sees_reports acl_event.
Proof.
  intros label role p. unfold acl_event. destruct p as [p|]; [|done].
  destruct (is_event EVT_LE_META p) eqn:He; [|done]. cbn [negb].
  destruct (parse_connection_total (body p)) as [[c|] E]; rewrite E; cbn [mbind res_bind]; [|done].
  destruct (Z.eqb_spec (ci_status c) 0); cbn [negb]; [|done].
  destruct (Z.eqb_spec (ci_role c) role); cbn [negb]; [|done].
  exists p. split; [done|]. split; [done|]. by exists c.
Qed.

(** Whatever the controllers answer, the teardown ends with both engines
    intact and lets no engine error out. On each side it writes only its own
    commands, in this order: the data paths, the CIS and the CIG, the ACL, and
    last the clearing of CIS Host Support. *)
Theorem cleanup_in_order (cig central_cis peripheral_cis central_acl peripheral_acl : option Z) s :
  pair_ok s →
  let '(r, s') := cleanup cig central_cis peripheral_cis central_acl peripheral_acl s in
  pair_ok s' ∧
  (∃ ps, sent (central_of s') = sent (central_of s) ++ ps ∧
         ps `sublist_of` central_teardown cig central_cis central_acl) ∧
  (∃ ps, sent (peripheral_of s') = sent (peripheral_of s) ++ ps ∧
         ps `sublist_of` peripheral_teardown peripheral_cis peripheral_acl) ∧
  (∀ e, r = Exc e → is_hci_error e = false) ∧ r ≠ Stuck.
Proof. apply cleanup_sends. Qed.
End pair.

(** ** Runs over two ports *)

Section still.
Context {T1 T2 : Type} `{Tr1 : !Transport T1, Tr2 : !Transport T2}.
Context `{TL1 : !TransportLaws T1, TL2 : !TransportLaws T2}.
Abbreviation bench := (pair (T1:=T1) (T2:=T2) * book * cis_run)%type.
Abbreviation R X := (M bench X).
Implicit Types s : bench.

Definition bench_ok s : Prop := pair_ok (fst (fst s)).

(** The ports do not change. *)
Definition steady s s' : Prop :=
  port_log (snd s') = port_log (snd s) ∧ opened (snd s') = opened (snd s).
#[global] Instance steady_preorder : PreOrder steady.
Proof. split; [by intros s|]. intros x y z [] []. unfold steady. split; congruence. Qed.

Abbreviation still E := (runs bench_ok steady E).

Lemma still_on_pair {X} E (m : M (pair (T1:=T1) (T2:=T2)) X) :
  runs pair_ok anything E m → still E (on_pair m).
Proof. intros Hm. eapply runs_zoom; [exact Hm|done|]. by intros [[d b] l] d' _ Hd _. Qed.

Lemma still_first {X} E (m : M (dev (T:=T1)) X) : ends E m → still E (first m).
Proof. intros Hm. by apply still_on_pair, on_central_runs. Qed.
Lemma still_second {X} E (m : M (dev (T:=T2)) X) : ends E m → still E (second m).
Proof. intros Hm. by apply still_on_pair, on_peripheral_runs. Qed.

Lemma still_note E (f : cis_run → cis_run) :
  (∀ l, port_log (f l) = port_log l ∧ opened (f l) = opened l) → still E (note f).
Proof. intros Hf. apply runs_modify. intros [s l] Hs. destruct (Hf l). by split. Qed.

End still.

(** A run after the ports are open. *)
Ltac still_step :=
  lazymatch goal with
  | |- runs _ _ _ (mbind _ _) => apply runs_bind; [apply _| |intros ?]
  | |- runs _ _ _ (first _) => apply still_first; solve [ends_auto | auto with ends]
  | |- runs _ _ _ (second _) => apply still_second; solve [ends_auto | auto with ends]
  | |- runs _ _ _ (note _) => apply still_note; by intros []
  | |- runs _ _ _ (lift _) => apply runs_lift; [apply _|solve [total]|done]
  | |- runs _ _ _ (mret _) => apply runs_ret, _
  | |- runs _ _ _ (raise _) => apply runs_raise; [apply _|done]
  | |- runs _ _ _ (let '(_, _) := ?x in _) => destruct x
  | |- runs _ _ _ (if ?x then _ else _) => destruct x
  end.

(** Opening a port gives a well-formed wire or raises something else than an
    engine error. *)
Definition opens {T} `{!Transport T} (open : nat → res T) : Prop := ∀ k,
  match open k with Ok w => t_wf w | Exc e => is_hci_error e = false | Stuck => False end.
Section ports.
Context {T1 T2 : Type} `{Tr1 : !Transport T1, Tr2 : !Transport T2}.
Context `{TL1 : !TransportLaws T1, TL2 : !TransportLaws T2}.
Context (open_central : nat → res T1) (open_peripheral : nat → res T2).

Hypothesis Hcentral : opens open_central.
Hypothesis Hperipheral : opens open_peripheral.

Abbreviation bench := (pair (T1:=T1) (T2:=T2) * book * cis_run)%type.
Abbreviation R X := (M bench X).
Abbreviation still E := (runs bench_ok steady E).
Implicit Types s : bench.

(** What a run has logged since [s]. *)
Definition logged s s' (evs : list port_event) : Prop :=
  bench_ok s' ∧ opened (snd s') = opened (snd s) ∧
  port_log (snd s') = port_log (snd s) ++ evs.

Definition both_opened : list port_event := [Opened CentralSide; Opened PeripheralSide].
Definition both_closed : list port_event := [Closed CentralSide; Closed PeripheralSide].
Definition round : list port_event := both_opened ++ both_closed.

Lemma still_logged s s' s'' evs : logged s s' evs → bench_ok s'' → steady s' s'' → logged s s'' evs.
Proof. intros (?&?&?) ? (?&?). unfold logged. split_and!; [done|congruence..]. Qed.

Lemma logged_trans s s' s'' e1 e2 : logged s s' e1 → logged s' s'' e2 → logged s s'' (e1 ++ e2).
Proof. intros (?&?&E1) (?&?&E2). unfold logged. rewrite app_assoc, <- E1. split_and!; [done|congruence..]. Qed.

Lemma setup_still : still any_exn (setup_acl_pair (T1:=T1) (T2:=T2)).
Proof.
  unfold setup_acl_pair.
  apply runs_bind; [apply _|apply still_second; auto with ends|intros [[pid pty] ?]].
  apply runs_bind; [apply _|apply still_first; auto with ends|intros [[? cty] ?]].
  apply runs_bind; [apply _|apply still_second; unfold start_advertising; auto with ends|intros _].
  apply runs_bind; [apply _|apply still_first; auto with ends|intros _].
  apply still_on_pair, acl_pair_by_ends, cis_event_cases.
Qed.

Lemma cleanup_still a b c d e : still not_hci (on_pair (cleanup (T1:=T1) (T2:=T2) a b c d e)).
Proof. eapply still_on_pair, both_send_runs, cleanup_sends. Qed.

Lemma open_central_cases k s :
  bench_ok s → let '(r, s') := open_central_port (T2:=T2) open_central k s in
  match r with
  | Ok _ => logged s s' [Opened CentralSide]
  | Exc e => s' = s ∧ is_hci_error e = false
  | Stuck => False
  end.
Proof.
  intros [H1 H2]. pose proof (Hcentral k) as Hk. destruct s as [[[t [h1 h2]] b] l].
  unfold open_central_port, lift, mbind, M_bind. destruct (open_central k) as [w|e|]; [|done|done].
  cbn. unfold logged, bench_ok, pair_ok, central_of, peripheral_of, engine_ok in *. cbn in *.
  split_and!; try done; apply H2.
Qed.

Lemma open_peripheral_cases k s :
  bench_ok s → let '(r, s') := open_peripheral_port (T1:=T1) open_peripheral k s in
  match r with
  | Ok _ => logged s s' [Opened PeripheralSide]
  | Exc e => s' = s ∧ is_hci_error e = false
  | Stuck => False
  end.
Proof.
  intros [H1 H2]. pose proof (Hperipheral k) as Hk. destruct s as [[[t [h1 h2]] b] l].
  unfold open_peripheral_port, lift, mbind, M_bind. destruct (open_peripheral k) as [w|e|]; [|done|done].
  cbn. unfold logged, bench_ok, pair_ok, central_of, peripheral_of, engine_ok in *. cbn in *.
  split_and!; try done; apply H1.
Qed.

Lemma close_cases s : bench_ok s →
  ∃ s', close_ports (T1:=T1) (T2:=T2) s = (Ok tt, s') ∧ logged s s' both_closed.
Proof.
  intros Hs. destruct s as [s [log op ? ? ? ? ? ? ?]]. eexists. split; [reflexivity|].
  unfold logged. cbn. split_and!; [done|done|]. apply (eq_sym (app_assoc log [_] [_])).
Qed.

(** The teardown of a set of devices, then the ports. *)
Lemma close_after_cases a b c d e s : bench_ok s →
  let '(r, s') := (on_pair (cleanup (T1:=T1) (T2:=T2) a b c d e) ;; close_ports) s in
  match r with
  | Ok _ => logged s s' both_closed
  | Exc e => not_hci e ∧ logged s s' []
  | Stuck => False
  end.
Proof.
  intros Hs. unfold mbind, M_bind. destruct (cleanup_still a b c d e s Hs) as (Hs1&Hst&He&Hk).
  assert (Hl : logged s (on_pair (cleanup (T1:=T1) (T2:=T2) a b c d e) s).2 []).
  { destruct Hst. unfold logged. rewrite app_nil_r. by split_and!. }
  destruct (on_pair _ s) as [[ws|x|] s1]; cbn in *; [|split; [by apply He|done]|done].
  destruct (close_cases s1 Hs1) as (s2&->&Hc). exact (logged_trans _ _ _ [] _ Hl Hc).
Qed.

(** The outcome of establishing a pair: rounds of ports opened and closed
    again, then what is left open. *)
Definition established (left : nat) (r : res (Z * Z)) s s' : Prop :=
  ∃ k tail, logged s s' (concat (replicate k round) ++ tail) ∧
  match r with
  | Ok _ => tail = both_opened ∧ (k < left)%nat
  | Exc e => tail `prefix_of` both_opened ∧ (k <= left)%nat ∧ (is_hci_error e = true → tail = [])
  | Stuck => False
  end.

Lemma established_exc left e s s' tail :
  logged s s' tail → tail `prefix_of` both_opened → (is_hci_error e = true → tail = []) →
  established left (Exc e) s s'.
Proof. intros. exists 0%nat, tail. split; [done|]. split_and!; [done|lia|done]. Qed.

Lemma establish_cases retryable unreachable left attempt s :
  bench_ok s →
  let '(r, s') := establish open_central open_peripheral retryable unreachable left attempt s in
  established left r s s'.
Proof.
  revert attempt s. induction left as [|left IH]; intros attempt s Hs; cbn [establish].
  { apply established_exc with []; [|apply prefix_nil|done]. unfold logged. by rewrite app_nil_r. }
  unfold mbind at 1, M_bind at 1. pose proof (open_central_cases attempt s Hs) as H1.
  destruct (open_central_port _ _ s) as [[[]|e|] s1]; [| |done].
  2: { destruct H1 as [-> He]. apply established_exc with []; [|apply prefix_nil|done]. unfold logged. by rewrite app_nil_r. }
  unfold mbind at 1, M_bind at 1. pose proof (open_peripheral_cases attempt s1 (proj1 H1)) as H2.
  destruct (open_peripheral_port _ _ s1) as [[[]|e|] s2]; [| |done].
  2: { destruct H2 as [-> He]. apply established_exc with [Opened CentralSide]; [done|by exists [Opened PeripheralSide]|].
    by rewrite He. }
  assert (H12 : logged s s2 both_opened) by exact (logged_trans _ _ _ _ _ H1 H2).
  unfold attempt_of. unfold mbind at 1, M_bind at 1. unfold try_except. unfold mbind at 1, M_bind at 1.
  destruct (setup_still s2 (proj1 H2)) as (Hs3&Hst&_&Hk).
  destruct (setup_acl_pair s2) as [[handles|e|] s3]; cbn [fst snd] in *; [| |done].
  { exists 0%nat, both_opened. split; [by eapply still_logged|]. split; [done|lia]. }
  assert (H13 : logged s s3 both_opened) by by eapply still_logged.
  destruct (is_hci_error e) eqn:Ee.
  2: { apply established_exc with both_opened; [done|done|by rewrite Ee]. }
  cbn [mret M_ret]. unfold mbind at 1, M_bind at 1. unfold on_pair at 1, zoom at 1, getS at 1.
  replace (s3.1.1, s3.1.2, s3.2) with s3 by by destruct s3 as [[? ?] ?].
  unfold mbind at 1, M_bind at 1. pose proof (close_after_cases None None None None None s3 Hs3) as H4.
  unfold close_acl_setup_attempt. destruct ((_ ;; close_ports) s3) as [[[]|x|] s4]; [| |done].
  2: { destruct H4 as [Hx H4]. apply established_exc with both_opened; [|done|by rewrite Hx].
    rewrite <- (app_nil_r both_opened). by eapply logged_trans. }
  assert (H14 : logged s s4 round) by exact (logged_trans _ _ _ _ _ H13 H4).
  assert (Hraise : established (S left) (Exc e) s s4).
  { exists 1%nat, []. split; [by rewrite app_nil_r|]. split_and!; [apply prefix_nil|lia|done]. }
  destruct left as [|left]; [exact Hraise|]. destruct (retryable e _); [|exact Hraise].
  specialize (IH (S attempt) s4 (proj1 H4)). destruct (establish _ _ _ _ _ _ s4) as [r s5].
  destruct IH as (k&tail&Hl&Hr). exists (S k), tail. cbn [replicate concat].
  split; [rewrite <- app_assoc; by eapply logged_trans|].
  destruct r; [destruct Hr; split; [done|lia]|destruct Hr as (?&?&?); split_and!; [done|lia|done]|done].
Qed.

Lemma open_cis_still c p : still any_exn (open_cis (T1:=T1) (T2:=T2) c p).
Proof. unfold open_cis. repeat still_step. Qed.

Lemma check_iso_counters_total a b c d : check_iso_counters a b c d ≠ Stuck.
Proof. unfold check_iso_counters. by repeat case_match. Qed.

Lemma move_sdus_still c p : still any_exn (move_sdus (T1:=T1) (T2:=T2) c p).
Proof.
  unfold move_sdus. repeat ((apply runs_lift; [apply _|apply check_iso_counters_total|done]) || still_step).
Qed.

Lemma use_cis_still c p : still any_exn (use_cis (T1:=T1) (T2:=T2) c p).
Proof.
  unfold use_cis. apply runs_bind; [apply _|apply open_cis_still|intros [cc pc]].
  repeat (still_step || apply move_sdus_still).
Qed.

(** Everything a run opened is closed again. *)
Definition balanced (attempts : nat) s s' : Prop :=
  ∃ k, (k <= attempts)%nat ∧ port_log (snd s') = port_log (snd s) ++ concat (replicate k round).

Lemma tear_down_cases s : bench_ok s →
  let '(r, s') := tear_down (T1:=T1) (T2:=T2) s in
  match r with
  | Ok _ => logged s s' (if opened (snd s) then both_closed else [])
  | Exc e => not_hci e ∧ logged s s' []
  | Stuck => False
  end.
Proof.
  intros Hs. unfold tear_down, locals, gets. unfold mbind at 1, M_bind at 1.
  destruct (opened (snd s)) eqn:Ho; cbn [when].
  - apply (close_after_cases _ _ _ _ _ s Hs).
  - unfold skip, logged. by rewrite app_nil_r.
Qed.

(** A body that leaves the ports alone, its handler and the teardown. *)
Lemma torn_down {X} (m : R X) (handler : exn → R X) s :
  bench_ok s → still any_exn m → (∀ e, still not_hci (handler e)) →
  let '(r, s') := try_finally (try_except is_hci_error m handler) tear_down s in
  match r with
  | Ok _ => logged s s' (if opened (snd s) then both_closed else [])
  | Exc e => not_hci e ∧ bench_ok s'
  | Stuck => False
  end.
Proof.
  intros Hs Hm Hh.
  assert (Hmid : still not_hci (try_except is_hci_error m handler)).
  { eapply runs_try_except; [apply _|exact Hm| |by intros e _ ?].
    intros e _ _. apply Hh. }
  unfold try_finally. destruct (Hmid s Hs) as (Hs1&Hst&He&Hk).
  destruct (try_except _ _ _ s) as [r s1]. cbn in *.
  pose proof (tear_down_cases s1 Hs1) as Ht. destruct Hst as [E1 E2].
  destruct (tear_down s1) as [[[]|e|] s2]; [|split; [apply Ht|apply Ht]|done].
  rewrite E2 in Ht. assert (Hl : logged s s1 []) by (unfold logged; by rewrite app_nil_r).
  destruct r as [x|e|]; [exact (logged_trans _ _ _ [] _ Hl Ht)| |done].
  split; [by apply He|apply Ht].
Qed.

(** A run behind [establish]: everything it opened is closed again, unless
    something else than an engine error cuts it short. *)
Lemma run_cases {X} retryable unreachable left (rest : Z → Z → R X) (handler : exn → R X) s :
  bench_ok s → opened (snd s) = false →
  (∀ c p, still any_exn (rest c p)) → (∀ e, still not_hci (handler e)) →
  let '(r, s') :=
    try_finally (try_except is_hci_error
      (h ← establish open_central open_peripheral retryable unreachable left 1;
       let '(c_acl, p_acl) := (h : Z * Z) in note_opened c_acl p_acl ;; rest c_acl p_acl)
      handler) tear_down s in
  bench_ok s' ∧ match r with
  | Ok _ => balanced left s s'
  | Exc e => is_hci_error e = false
  | Stuck => False
  end.
Proof.
  intros Hs Ho Hrest Hh. pose proof (establish_cases retryable unreachable left 1 s Hs) as Hest.
  set (body := (h ← _; _)). destruct (establish _ _ _ _ left 1 s) as [r s1] eqn:Er.
  destruct Hest as (k&tail&Hl&Hr). pose proof Hl as (Hs1&Ho1&Hlog). destruct r as [[c p]|e|]; [| |done].
  - destruct Hr as [-> Hk]. set (s1' := (fst s1, (snd s1)<|opened := true|><|central_acl := Some c|><|peripheral_acl := Some p|>)).
    assert (Hb : try_finally (try_except is_hci_error body handler) tear_down s =
                 try_finally (try_except is_hci_error (rest c p) handler) tear_down s1').
    { unfold try_finally, try_except, body. unfold mbind at 1, M_bind at 1. rewrite Er. done. }
    rewrite Hb. pose proof (torn_down (rest c p) handler s1' Hs1 (Hrest c p) Hh) as H.
    destruct (try_finally _ _ s1') as [r s2]. destruct r as [x|e|]; [|by destruct H|done].
    destruct H as (Hs2&_&E2). split; [done|]. exists (S k). split; [lia|].
    rewrite E2. subst s1'. cbn [snd port_log opened]. rewrite replicate_S_end, concat_app.
    destruct (snd s1). cbn in Hlog |- *. rewrite Hlog. cbn. by rewrite <- !app_assoc.
  - destruct Hr as (Hpre&Hk&Htail).
    assert (Hb : try_finally (try_except is_hci_error body handler) tear_down s =
                 try_finally (try_except is_hci_error (raise e) handler) tear_down s1).
    { unfold try_finally, try_except, body. unfold mbind at 1, M_bind at 1. by rewrite Er. }
    rewrite Hb. clear Hb.
    assert (Hr' : still any_exn (raise (S:=bench) (A:=X) e)) by by apply runs_raise; [apply _|].
    pose proof (torn_down (raise e) handler s1 Hs1 Hr' Hh) as H.
    destruct (is_hci_error e) eqn:Ee.
    + destruct (try_finally _ _ s1) as [r s2]. destruct r as [x|e'|]; [|by destruct H|done].
      rewrite Ho1, Ho in H. destruct H as (Hs2&_&E2). split; [done|]. exists k. split; [lia|].
      by rewrite E2, Hlog, (Htail eq_refl), !app_nil_r.
    + assert (Hx : ∀ x, fst (try_finally (try_except is_hci_error (raise e) handler) tear_down s1) ≠ Ok x).
      { unfold try_finally, try_except, raise. rewrite Ee. by destruct (tear_down s1) as [[]]. }
      destruct (try_finally _ _ s1) as [r s2]. cbn in Hx. destruct r as [x|e'|]; [by destruct (Hx x)| |done].
      by destruct H.
Qed.

Lemma cis_test_code s code s' :
  run_cis_test open_central open_peripheral s = (Ok code, s') → code = 0 ∨ code = 1.
Proof.
  unfold run_cis_test, try_finally, try_except, mbind, M_bind.
  destruct (cis_body _ _ s) as [[u|e|] s1]; cbn.
  - destruct (tear_down s1) as [[?|?|] ?]; intros [= <- _]; by left.
  - destruct (is_hci_error e); [|by destruct (tear_down s1) as [[?|?|] ?]].
    cbn. destruct (tear_down s1) as [[?|?|] ?]; intros [= <- _]; by right.
  - by destruct (tear_down s1) as [[?|?|] ?].
Qed.

(** The test with its parts in the order of [run_cases]. *)
Lemma cis_test_eq s :
  run_cis_test open_central open_peripheral s =
  try_finally (try_except is_hci_error
    (h ← establish open_central open_peripheral (λ e _, retryable_acl_establishment e)
           "unreachable CIS ACL establishment retry state" ESTABLISHMENT_ATTEMPTS 1;
     let '(c_acl, p_acl) := (h : Z * Z) in note_opened c_acl p_acl ;; use_cis c_acl p_acl ;; mret 0)
    (λ _, mret 1)) tear_down s.
Proof.
  unfold run_cis_test, cis_body, try_finally, try_except. unfold establish_acl_pair.
  unfold mbind, M_bind. by destruct (establish _ _ _ _ _ _ s) as [[[c p]|e|] s1].
Qed.

End ports.

(** ** A concrete run *)

(** An answered command, a started one, and an LE event. *)
Definition answer (op : Z) (ret : bytes) : bytes :=
  [H4_EVENT; EVT_COMMAND_COMPLETE; 4 + blen ret; 1; op mod 256; op / 256; 0] ++ ret.
Definition accepted (op : Z) : bytes :=
  [H4_EVENT; EVT_COMMAND_STATUS; 4; 0; 1; op mod 256; op / 256].
Definition le_event (b : bytes) : bytes := [H4_EVENT; EVT_LE_META; blen b] ++ b.
Definition disconnected (handle : Z) : bytes :=
  [H4_EVENT; EVT_DISCONNECTION_COMPLETE; 4; 0] ++ le_bytes 2 handle ++ [0x13].
Definition iso_rx (handle : Z) (sdu : bytes) : bytes := H4_ISO :: iso_body (sent_iso handle 0 sdu).
Definition connected (handle role : Z) : bytes :=
  le_event (legacy_connection 0 handle role 0 [1; 2; 3; 4; 5; 6] 24 0 400 []).

Definition prepared (addr : bytes) : list bytes :=
  [answer OP_RESET []; answer OP_SET_EVENT_MASK []; answer OP_LE_SET_EVENT_MASK [];
   answer OP_LE_READ_BUFFER_SIZE [251; 0; 3]; answer OP_LE_SET_EVENT_MASK [];
   answer OP_LE_SET_HOST_FEATURE []; answer OP_READ_BD_ADDR addr].

Definition central_script : list bytes :=
  prepared [6; 6; 6; 6; 6; 6] ++
  [accepted OP_LE_CREATE_CONNECTION; connected 0x40 0;
   answer OP_LE_SET_CIG_PARAMS (cig_return 0 [0x60]); accepted OP_LE_CREATE_CIS;
   le_event ([0x19; 0] ++ le_bytes 2 0x60);
   answer OP_LE_SETUP_ISO_DATA_PATH []; answer OP_LE_SETUP_ISO_DATA_PATH [];
   answer OP_LE_READ_BUFFER_SIZE_V2 [251; 0; 3; 60; 0; 2];
   answer OP_VS_READ_COUNTERS []; iso_rx 0x60 P2C; answer OP_VS_READ_COUNTERS [];
   answer OP_LE_REMOVE_ISO_DATA_PATH []; accepted OP_DISCONNECT; answer OP_LE_REMOVE_CIG [];
   accepted OP_DISCONNECT; disconnected 0x40; answer OP_LE_SET_HOST_FEATURE []].

Definition peripheral_script : list bytes :=
  prepared [1; 2; 3; 4; 5; 6] ++
  [answer OP_LE_SET_ADV_PARAMS []; answer OP_LE_SET_ADV_DATA []; answer OP_LE_SET_SCAN_RSP_DATA [];
   answer OP_LE_SET_ADV_ENABLE []; connected 0x41 1;
   le_event ([LE_CIS_REQUEST] ++ le_bytes 2 0x41 ++ le_bytes 2 0x61 ++ [0; 0]);
   accepted OP_LE_ACCEPT_CIS_REQUEST; le_event ([0x19; 0] ++ le_bytes 2 0x61);
   answer OP_LE_SETUP_ISO_DATA_PATH []; answer OP_LE_SETUP_ISO_DATA_PATH [];
   answer OP_LE_READ_BUFFER_SIZE_V2 [251; 0; 3; 60; 0; 2];
   answer OP_VS_READ_COUNTERS []; iso_rx 0x61 C2P; answer OP_VS_READ_COUNTERS [];
   answer OP_LE_REMOVE_ISO_DATA_PATH []; accepted OP_DISCONNECT; answer OP_LE_SET_ADV_ENABLE [];
   disconnected 0x41; answer OP_LE_SET_HOST_FEATURE []].

Definition wire_of (chunks : list bytes) : SerialH4.state := transport (snd (serial_dev [] chunks)).
Definition no_wire : pair (T1:=SerialH4.state) (T2:=SerialH4.state) :=
  (0, (init_hci (wire_of []), init_hci (wire_of []))).

(** The first attempt ends in a connection that failed to be established. *)
Definition failed_script : list bytes :=
  prepared [6; 6; 6; 6; 6; 6] ++
  [accepted OP_LE_CREATE_CONNECTION;
   le_event (legacy_connection 0x3E 0x40 0 0 [1; 2; 3; 4; 5; 6] 24 0 400 []);
   answer OP_LE_SET_HOST_FEATURE []].
Definition failed_peripheral_script : list bytes :=
  prepared [1; 2; 3; 4; 5; 6] ++
  [answer OP_LE_SET_ADV_PARAMS []; answer OP_LE_SET_ADV_DATA []; answer OP_LE_SET_SCAN_RSP_DATA [];
   answer OP_LE_SET_ADV_ENABLE []; answer OP_LE_SET_ADV_ENABLE []; answer OP_LE_SET_HOST_FEATURE []].
Definition open_demo (failed script : list bytes) (k : nat) : res SerialH4.state :=
  Ok (wire_of (if (k =? 1)%nat then failed else script)).

Lemma wire_of_ok chunks : serial_devb (serial_dev [] chunks) = true → t_wf (wire_of chunks).
Proof. intros H. apply serial_dev_ok in H. apply H. Qed.

Lemma open_demo_ok failed script :
  serial_devb (serial_dev [] failed) = true → serial_devb (serial_dev [] script) = true →
  opens (open_demo failed script).
Proof. intros Hf Hs k. unfold open_demo. by destruct (k =? 1)%nat; apply wire_of_ok. Qed.

Definition open_first := open_demo failed_script central_script.
Definition open_second := open_demo failed_peripheral_script peripheral_script.
Abbreviation demo_run := (run_cis_test open_first open_second (no_wire, [], init_run)).


(** A teardown that writes all of its commands. *)
Definition torn_central : list bytes :=
  [answer OP_LE_REMOVE_ISO_DATA_PATH []; accepted OP_DISCONNECT; answer OP_LE_REMOVE_CIG [];
   accepted OP_DISCONNECT; disconnected 0x40; answer OP_LE_SET_HOST_FEATURE []].
Definition torn_peripheral : list bytes :=
  [answer OP_LE_REMOVE_ISO_DATA_PATH []; accepted OP_DISCONNECT; answer OP_LE_SET_ADV_ENABLE [];
   disconnected 0x41; answer OP_LE_SET_HOST_FEATURE []].
Definition torn_pair : pair (T1:=SerialH4.state) (T2:=SerialH4.state) :=
  (0, (init_hci (wire_of torn_central), init_hci (wire_of torn_peripheral))).
Abbreviation torn_run := (cleanup (Some 0) (Some 0x60) (Some 0x61) (Some 0x40) (Some 0x41) torn_pair).

Lemma cleanup_in_order_witness :
  fst torn_run = Ok [] ∧
  sent (central_of (snd torn_run)) = central_teardown (Some 0) (Some 0x60) (Some 0x40) ∧
  sent (peripheral_of (snd torn_run)) = peripheral_teardown (Some 0x61) (Some 0x41) ∧
  pair_ok (snd torn_run).
Proof.
  pose proof (cleanup_in_order (Some 0) (Some 0x60) (Some 0x61) (Some 0x40) (Some 0x41) torn_pair) as H.
  assert (E : fst torn_run = Ok []) by by vm_compute.
  assert (E1 : sent (central_of (snd torn_run)) = central_teardown (Some 0) (Some 0x60) (Some 0x40))
    by by vm_compute.
  assert (E2 : sent (peripheral_of (snd torn_run)) = peripheral_teardown (Some 0x61) (Some 0x41))
    by by vm_compute.
  destruct torn_run as [r s']. cbn [fst snd] in *.
  destruct H as [Hok _]; [split; apply serial_dev_ok; by vm_compute|]. by split_and!.
Defined.
End CisLaws.
