(* ===== verification/Stress.v ===== *)
(** * Stress: concurrent ACL, ISO and event traffic over one ACL and CIS pair
    (stress_features.py)

    Every iteration sends a marker each way and waits for it and for the
    credits it used; every tenth one moves an SDU over the CIS as well. The
    waits share one queue: what they do not look for is kept, background ISO
    data is dropped, and a Number Of Completed Packets event that reports other
    handles too is split. *)

From S2P Require Export CisLaws Reassembly.
From coqutil Require Import Datatypes.RecordSetters.
Import TriangleBracketNotations.
#[local] Open Scope Z_scope.

Module Stress.
Import Cis.

Definition STRESS_CID : Z := 0x0040.
Definition DEFAULT_STRESS_COUNT : nat := 10000.
Definition ISO_EVERY : nat := 10.
Definition ESTABLISHMENT_REASON : Z := 0x3E.

Definition ERROR_COUNTERS : list (nat * string) :=
  [(5, "event backpressure"); (6, "ACL refused by controller"); (7, "ISO refused by controller");
   (9, "controller queue errors"); (10, "unknown output types"); (11, "bad output lengths");
   (13, "oversize ACL from host"); (14, "ISO dropped"); (15, "credit table overflow");
   (18, "H4 bad packet indicator"); (19, "H4 oversize packet"); (21, "transport read errors");
   (22, "transport write errors"); (24, "transport tx oversize"); (26, "host packet rejected");
   (27, "controller get errors"); (28, "controller packet rejected");
   (29, "controller packet unsendable"); (30, "host over its ACL credits");
   (31, "link table overflow")]%nat%string.

(** ** Completed packets *)

(** The four-octet entries of an event, [n] of them. *)
Fixpoint entries (n : nat) (data : bytes) : list bytes :=
  match n with
  | O => []
  | S n' => take 4 data :: entries n' (drop 4 data)
  end.
Definition entry_handle (e : bytes) : Z := mask12 (le_Z (take 2 e)).
Definition entry_done (e : bytes) : Z := le_Z (slice 2 4 e).

(** One packet of [_wait_completed]: what is put back, and whether the credits
    have come. *)
Definition completed_step (target : Z) (p : packet) : list packet * bool :=
  match is_event EVT_NUM_COMPLETED_PACKETS p, body p with
  | true, num_handles :: rest =>
      if negb (blen (body p) =? 1 + 4 * num_handles) then ([p], false)
      else
        let es := entries (Z.to_nat num_handles) rest in
        let other := filter (λ e, entry_handle e ≠ target) es in
        let completed := existsb (λ e, (entry_handle e =? target) && negb (entry_done e =? 0)) es in
        (match other with
         | [] => []
         | _ => [Pkt (kind p) (code p) (blen other :: concat other)]
         end, completed)
  | _, _ => (if negb (kind p =? H4_ISO) then [p] else [], false)
  end.

(** ** One controller *)

Section single.
Context {T : Type} `{!Transport T}.
Abbreviation D := (M (dev (T:=T))).

Definition discard_pending_iso : D unit :=
  on_hci (modify (λ h, set_pending (filter (λ p, kind p ≠ H4_ISO) (pending h)) h)).

Definition wait_stress_acl_marker (handle cid : Z) (payload : bytes) (timeout : Z) : D bool :=
  try_finally (r ← Reassembly.wait_acl_marker handle cid payload timeout; mret (fst r))
    discard_pending_iso.

(** The loop of [_wait_completed], with what is to be put back. *)
Fixpoint completed_loop (fuel : nat) (target deadline : Z)
  : M (dev (T:=T) * list packet) unit :=
  match fuel with
  | O => λ s, (Stuck, s)
  | S fuel' =>
      now ← on_dev (gets fst);
      if deadline <=? now then
        raise (HciError (Fmt "no Number Of Completed Packets for handle 0x%04X" [AInt target]))
      else
        p ← on_dev (read_packet (short_wait (deadline - now)));
        match p with
        | None => completed_loop fuel' target deadline
        | Some p =>
            let '(kept, completed) := completed_step target p in
            on_own (modify (λ deferred, deferred ++ kept)) ;;
            if completed then skip else completed_loop fuel' target deadline
        end
  end.

(** [_wait_completed]: what was put aside is put back on every way out. *)
Definition wait_completed (expected_handle timeout : Z) : D unit := λ s,
  let '(r, (s', deferred)) :=
    completed_loop (poll_fuel (ms 200) timeout s) (mask12 expected_handle) (fst s + timeout) (s, []) in
  (r, snd (restore deferred s')).
End single.

(** [delta not in (None, 0)], counter by counter. *)
Definition counter_error (label : string) (before after : option (list Z)) (c : nat * string)
  : option text :=
  match counter_delta before after (fst c) with
  | None | Some 0 => None
  | Some delta => Some (Fmt "%s counter %s increased by %d" [AStr label; AStr (snd c); AInt delta])
  end.

Definition check_counter_deltas (before after : option (list Z)) (label : string) : res unit :=
  match before, after with
  | Some _, Some _ =>
      match omap (counter_error label before after) ERROR_COUNTERS with
      | [] => Ok tt
      | t :: _ => Exc (HciError t)
      end
  | _, _ => Exc (HciError (Fmt "%s HciController counters unavailable" [AStr label]))
  end.

(** ** The run *)

Section stress.
Context {T1 T2 : Type} `{!Transport T1, !Transport T2}.
Context (open_central : nat → res T1) (open_peripheral : nat → res T2).
Abbreviation R X := (M (pair (T1:=T1) (T2:=T2) * book * cis_run) X).

Definition link_establishment_failed {T} (h : hci T) : bool :=
  match link_down h with
  | Some (_, _, reason) => reason =? ESTABLISHMENT_REASON
  | None => false
  end.

Definition retryable_acl_establishment (e : exn) (engines : pair (T1:=T1) (T2:=T2)) : bool :=
  says_failed_to_be_established (str e)
  || (says "timed out waiting for both ACL connection events" (str e)
      && (link_establishment_failed (fst (snd engines))
          || link_establishment_failed (snd (snd engines)))).

Definition establish_acl_with_retry (attempts : nat) : R (Z * Z) :=
  establish open_central open_peripheral retryable_acl_establishment
    "unreachable stress ACL establishment retry state" attempts 1.

(** [b"C" + seq] and the like. *)
Definition marker (prefix : bytes) (i : nat) : res bytes :=
  seq ← pack [FI (Z.of_nat i)]; Ok (prefix ++ seq).

Definition need_marker (what : string) (i : nat) (found : bool) : R unit :=
  when (negb found) (raise (HciError (Fmt "ACL %s marker %u missing" [AStr what; AInt (Z.of_nat i)]))).

Definition exchange_acl (c_acl p_acl : Z) (i : nat) : R unit :=
  c_data ← lift (marker [67] i);
  p_data ← lift (marker [80] i);
  first (send_acl c_acl STRESS_CID c_data) ;;
  found ← second (wait_stress_acl_marker p_acl STRESS_CID c_data (seconds 3));
  need_marker "C->P" i found ;;
  first (wait_completed c_acl (seconds 3)) ;;
  second (send_acl p_acl STRESS_CID p_data) ;;
  found ← first (wait_stress_acl_marker c_acl STRESS_CID p_data (seconds 3));
  need_marker "P->C" i found ;;
  second (wait_completed p_acl (seconds 3)).

Definition exchange_iso (c_cis p_cis : Z) (i : nat) : R unit :=
  c_data ← lift (marker [67; 73] i);
  p_data ← lift (marker [80; 73] i);
  first (send_iso c_cis (Z.of_nat i) c_data) ;;
  second (wait_iso "stress peripheral" p_cis c_data (seconds 3)) ;;
  first (wait_completed c_cis (seconds 3)) ;;
  second (send_iso p_cis (Z.of_nat i) p_data) ;;
  first (wait_iso "stress central" c_cis p_data (seconds 3)) ;;
  second (wait_completed p_cis (seconds 3)).

Definition iteration (c_acl p_acl c_cis p_cis : Z) (i : nat) : R unit :=
  exchange_acl c_acl p_acl i ;;
  when (i mod ISO_EVERY =? 0)%nat (exchange_iso c_cis p_cis i).

(** The traffic over an established pair, between two readings of the
    counters. *)
Definition run_traffic (label : string) (count : nat) (c_acl p_acl : Z) : R unit :=
  cis ← open_cis c_acl p_acl;
  let '(c_cis, p_cis) := (cis : Z * Z) in
  first (read_iso_buffers "stress central") ;;
  second (read_iso_buffers "stress peripheral") ;;
  cb ← first counter_snapshot;
  note (λ l, l<|central_before := cb|>) ;;
  pb ← second counter_snapshot;
  note (λ l, l<|peripheral_before := pb|>) ;;
  for_each (seq 0 count) (iteration c_acl p_acl c_cis p_cis) ;;
  ca ← first counter_snapshot;
  pa ← second counter_snapshot;
  lift (check_counter_deltas cb ca "central") ;;
  lift (check_counter_deltas pb pa "peripheral") ;;
  record (passed "Stress" "concurrent ACL/ISO/event traffic"
    (Fmt "%s %u bidirectional ACL iterations + %u bidirectional ISO iterations"
       [AStr label; AInt (Z.of_nat count); AInt (Z.of_nat ((count + ISO_EVERY - 1) / ISO_EVERY))])).

(** [except (HciError, HciGone)]: the counters are read once more for the
    printed diagnostics, then the failure is recorded. *)
Definition stress_failed (e : exn) : R unit :=
  l ← locals;
  if_some (central_before l) (λ _, quietly (first (counter_snapshot ;; skip))) ;;
  if_some (peripheral_before l) (λ _, quietly (second (counter_snapshot ;; skip))) ;;
  record (failed "Stress" "concurrent ACL/ISO/event traffic" (str e)).

Definition stress_run (label : string) (count : nat) : R unit :=
  try_finally (try_except is_hci_error
    (h ← establish_acl_with_retry ESTABLISHMENT_ATTEMPTS;
     let '(c_acl, p_acl) := (h : Z * Z) in
     note_opened c_acl p_acl ;; run_traffic label count c_acl p_acl)
    stress_failed) tear_down.

Definition run_stress_phase (label : string) (count : nat)
  : M (pair (T1:=T1) (T2:=T2) * book) unit := λ s,
  let '(r, (s', _)) := stress_run label count (s, init_run) in (r, s').
End stress.
End Stress.
