(* ===== verification/StressLaws.v ===== *)
(** * StressLaws: waiting for credits keeps the reports of other handles; the
    stress run closes its ports and records its row *)

From S2P Require Export Stress PhasesLaws.
From coqutil Require Import Datatypes.RecordSetters.
Import TriangleBracketNotations.
#[local] Open Scope Z_scope.

Module StressLaws.
Import Cis CisLaws Stress.

(** ** What an event reports *)

(** The entries of a well-formed Number Of Completed Packets event. *)
Definition reported (p : packet) : list bytes :=
  match is_event EVT_NUM_COMPLETED_PACKETS p, body p with
  | true, num_handles :: rest =>
      if blen (body p) =? 1 + 4 * num_handles then entries (Z.to_nat num_handles) rest else []
  | _, _ => []
  end.

(** The packets of [handle] that these events report completed. *)
Definition credits (handle : Z) (ps : list packet) : Z :=
  foldr (λ e n, (if entry_handle e =? handle then entry_done e else 0) + n) 0
    (concat (reported <$> ps)).

Lemma entries_concat es :
  Forall (λ e, length e = 4%nat) es → entries (length es) (concat es) = es.
Proof.
  induction 1 as [|e es He _ IH]; [done|]. cbn [length entries concat].
  rewrite take_app_length', drop_app_length' by done. by rewrite IH.
Qed.

Lemma entries_lengths n data :
  length data = (4 * n)%nat → Forall (λ e, length e = 4%nat) (entries n data).
Proof.
  revert data. induction n as [|n IH]; intros data Hl; cbn [entries]; constructor.
  - rewrite length_take. lia.
  - apply IH. rewrite length_drop. lia.
Qed.

Lemma entries_bytes n data : bytes_ok data → Forall bytes_ok (entries n data).
Proof.
  revert data. induction n as [|n IH]; intros data Hb; cbn [entries]; constructor.
  - by apply Forall_take.
  - apply IH. by apply Forall_drop.
Qed.

Lemma entries_length n data : length (entries n data) = n.
Proof. revert data. induction n as [|n IH]; intros data; cbn; [done|by rewrite IH]. Qed.

Lemma concat_length4 es : Forall (λ e : bytes, length e = 4%nat) es → length (concat es) = (4 * length es)%nat.
Proof. induction 1 as [|e es He _ IH]; [done|]. cbn [concat length]. rewrite length_app. lia. Qed.

Lemma Forall_filter {A} (P Q : A → Prop) `{∀ x, Decision (Q x)} l :
  Forall P l → Forall P (filter Q l).
Proof.
  rewrite !Forall_forall. intros Hp x Hx. apply Hp. by apply list_elem_of_filter in Hx as [_ ?].
Qed.

(** Rebuilding an event from entries reports those entries. *)
Lemma reported_rebuilt p es :
  is_event EVT_NUM_COMPLETED_PACKETS p = true → Forall (λ e, length e = 4%nat) es →
  reported (Pkt (kind p) (code p) (blen es :: concat es)) = es.
Proof.
  intros Hp Hes. unfold reported. cbn [body].
  change (is_event EVT_NUM_COMPLETED_PACKETS (Pkt (kind p) (code p) _))
    with (is_event EVT_NUM_COMPLETED_PACKETS p). rewrite Hp.
  rewrite (proj2 (Z.eqb_eq _ _)) by (unfold blen; cbn [length]; rewrite concat_length4 by done; lia).
  unfold blen. rewrite Nat2Z.id. by apply entries_concat.
Qed.

(** Neither ISO data nor a report of completed packets. *)
Definition plain_packet (p : packet) : Prop :=
  kind p ≠ H4_ISO ∧ is_event EVT_NUM_COMPLETED_PACKETS p = false.
#[export] Instance plain_packet_dec p : Decision (plain_packet p).
Proof. unfold plain_packet. apply _. Defined.

Definition kept (target : Z) (p : packet) : list packet := fst (completed_step target p).

Lemma is_event_kind c p : is_event c p = true → kind p = H4_EVENT.
Proof. unfold is_event. rewrite andb_true_iff. intros [E _]. by apply Z.eqb_eq. Qed.

(** What is put back of a packet, case by case. *)
Lemma kept_cases target p :
  (kept target p = [p] ∧ (kind p ≠ H4_ISO)) ∨
  (kept target p = [] ∧ kind p = H4_ISO ∧ reported p = []) ∨
  (is_event EVT_NUM_COMPLETED_PACKETS p = true ∧ ∃ n rest, body p = n :: rest ∧
     blen (body p) = 1 + 4 * n ∧ reported p = entries (Z.to_nat n) rest ∧
     Forall (λ e, length e = 4%nat) (reported p) ∧
     let other := filter (λ e, entry_handle e ≠ target) (reported p) in
     kept target p = match other with [] => [] | _ => [Pkt (kind p) (code p) (blen other :: concat other)] end).
Proof.
  unfold kept, completed_step, reported. destruct (is_event EVT_NUM_COMPLETED_PACKETS p) eqn:He.
  - pose proof (is_event_kind _ _ He) as Hk. assert (Hiso : kind p ≠ H4_ISO) by by rewrite Hk.
    destruct (body p) as [|n rest] eqn:Hb.
    { left. by rewrite (proj2 (Z.eqb_neq _ _)). }
    destruct (Z.eqb_spec (blen (n :: rest)) (1 + 4 * n)) as [Hl|]; cbn [negb]; [|by left].
    right; right. split; [done|]. exists n, rest. unfold blen in Hl. cbn [length] in Hl.
    split_and!; [done|unfold blen; cbn [length]; lia|done|apply entries_lengths; lia|done].
  - destruct (Z.eqb_spec (kind p) H4_ISO) as [Hk|]; cbn [negb]; [right; left|by left].
    split; [done|]. by destruct (body p).
Qed.

Lemma kept_credits target handle p :
  handle ≠ target → credits handle (kept target p) = credits handle [p].
Proof.
  intros Hh. destruct (kept_cases target p) as [[-> _]|[(->&_&E)|(He&n&rest&Hb&Hl&E&H4&->)]]; [done| |].
  { unfold credits. cbn. by rewrite E. }
  unfold credits. cbn [fmap list_fmap concat]. rewrite app_nil_r.
  set (f := λ e m, _). set (es := reported p) in *.
  assert (Hf : foldr f 0 (filter (λ e, entry_handle e ≠ target) es) = foldr f 0 es).
  { clear -Hh. induction es as [|e es IH]; [done|]. rewrite filter_cons. case_decide as Hd; cbn; rewrite IH; [done|].
    subst f. cbn. by rewrite (proj2 (Z.eqb_neq _ _)) by congruence. }
  rewrite <- Hf. destruct (filter _ es) as [|e other] eqn:Ef; [done|].
  cbn [fmap list_fmap concat]. rewrite app_nil_r, reported_rebuilt; [done|done|].
  rewrite <- Ef. by apply Forall_filter.
Qed.

Lemma kept_plain target p :
  filter plain_packet (kept target p) = filter plain_packet [p].
Proof.
  destruct (kept_cases target p) as [[-> _]|[(->&Hk&_)|(He&n&rest&_&_&_&_&->)]]; [done| |].
  - rewrite filter_cons_False; [done|]. by intros [? _].
  - assert (Hn : ∀ bs, ¬ plain_packet (Pkt (kind p) (code p) bs)).
    { intros bs [_ Hx]. unfold is_event in *. cbn in Hx. congruence. }
    rewrite (filter_cons_False _ p) by (intros [_ Hx]; congruence). rewrite filter_nil.
    case_match; [done|]. by rewrite filter_cons_False.
Qed.

Lemma kept_ok target p : packet_ok p → Forall packet_ok (kept target p).
Proof.
  intros Hp. destruct (kept_cases target p) as [[-> _]|[(->&_&_)|(He&n&rest&Hb&Hl&E&H4&->)]];
    [by constructor|constructor|].
  set (other := filter _ _). destruct Hp as [Hwf Hbs].
  assert (Ho : (length other <= Z.to_nat n)%nat).
  { subst other. rewrite <- (entries_length (Z.to_nat n) rest), <- E. apply length_filter. }
  rewrite Hb in Hbs. apply Forall_cons in Hbs as [Hn Hrest].
  pose proof (is_event_kind _ _ He) as Hk.
  assert (Hcat : bytes_ok (concat other)).
  { apply Forall_concat, Forall_filter. rewrite E. by apply entries_bytes. }
  assert (Hlen : length (concat other) = (4 * length other)%nat) by by apply concat_length4, Forall_filter.
  destruct other as [|e es] eqn:Eo; [constructor|]. rewrite <- Eo in *. constructor; [|constructor].
  split.
  - left. destruct Hwf as [(?&?&?)|[(Hx&_)|(Hx&_)]]; [|by rewrite Hk in Hx|by rewrite Hk in Hx]. cbn [kind code body].
    split_and!; [done|done|]. unfold blen in *. cbn [length]. rewrite Hlen. rewrite Hb in *. cbn [length] in *. lia.
  - cbn [body]. constructor; [|done]. unfold is_byte, blen in *. lia.
Qed.

Section wait.
Context {T : Type} `{Tr : !Transport T, TL : !TransportLaws T}.
Implicit Types s : dev (T:=T).

(** What the loop has read and what it puts back, on every way out. *)
Lemma completed_loop_cases fuel target deadline s l :
  engine_ok s → (load s + turns (ms 200) (deadline - fst s) < fuel)%nat →
  let '(r, (s', l')) := completed_loop fuel target deadline (s, l) in
  ∃ ps s1, reads s ps s1 ∧ engine_ok s' ∧ sent s' = sent s ∧
    pending (snd s') = pending (snd s1) ∧ l' = l ++ concat (kept target <$> ps) ∧
    match r with
    | Ok _ => ∃ ps' p, ps = ps' ++ [p] ∧ snd (completed_step target p) = true
    | Exc e => engine_exn e
    | Stuck => False
    end.
Proof.
  revert s l. induction fuel as [|fuel IH]; intros s l Hs Hf; [lia|]. cbn [completed_loop].
  unfold on_dev, zoom, gets, on_own, mbind, M_bind, modify. cbn [fst snd].
  destruct (Z.leb_spec deadline (fst s)) as [Hd|Hd].
  { exists [], s. cbn. rewrite app_nil_r. split_and!; try done; [constructor|by left]. }
  cbv beta iota. cbn [fst snd]. set (w := short_wait (deadline - fst s)).
  assert (Hw : Z.min (ms 200) (deadline - fst s) ≤ w) by (unfold w, short_wait; lia).
  pose proof (read_packet_cases w s Hs) as Hr. pose proof (read_packet_sent w s Hs) as Hsent.
  destruct (read_packet w s) as [[[p|]|e|] s1] eqn:Er; destruct Hr as (Hs1&Hfr&Hr); [| | |done].
  - destruct Hr as (Hp&Hl&_). pose proof Hfr as [[Ht _] _].
    pose proof (turns_mono (ms 200) (deadline - fst s1) (deadline - fst s) ltac:(done) ltac:(lia)).
    unfold kept in *. destruct (completed_step target p) as [back completed] eqn:Ec.
    destruct completed; unfold skip, zoom; cbn [fst snd].
    + exists [p], s1. cbn [fmap list_fmap concat]. rewrite Ec, app_nil_r. split_and!; try done.
      * eapply reads_some; [exact Er|constructor].
      * exists [], p. by rewrite Ec.
    + specialize (IH s1 (l ++ back) Hs1). destruct (completed_loop _ _ _ _) as [r [s2 l2]].
      destruct IH as (ps&s3&Hrd&?&Hs2&?&->&Hr2); [lia|]. exists (p :: ps), s3.
      cbn [fmap list_fmap concat]. rewrite Ec, app_assoc. split_and!; try done.
      * by eapply reads_some.
      * by rewrite Hs2.
      * destruct r; [|done|done]. destruct Hr2 as (ps'&q&->&?). by exists (p :: ps'), q.
  - destruct Hr as (Hto&_). pose proof Hfr as [[Ht Hl] _].
    assert (Hm : (load s1 + turns (ms 200) (deadline - fst s1) < fuel)%nat).
    { destruct (Hto ltac:(unfold ms in *; lia)) as [Ht'|Hl'].
      - pose proof (turns_step (ms 200) (deadline - fst s) (fst s1 - fst s) ltac:(done) ltac:(lia) ltac:(lia)) as Hst.
        replace (deadline - fst s - (fst s1 - fst s)) with (deadline - fst s1) in Hst by lia. lia.
      - pose proof (turns_mono (ms 200) (deadline - fst s1) (deadline - fst s) ltac:(done) ltac:(lia)). lia. }
    specialize (IH s1 l Hs1 Hm). destruct (completed_loop _ _ _ _) as [r [s2 l2]].
    destruct IH as (ps&s3&Hrd&?&Hs2&?&?&?). exists ps, s3. split_and!; try done; [by eapply reads_none|by rewrite Hs2].
  - exists [], s. cbn. rewrite app_nil_r. split_and!; try done; [constructor|].
    unfold read_packet, gets in Er. unfold mbind at 1, M_bind at 1 in Er. cbn in Er.
    destruct (pending (snd s)) eqn:Hp; [|done]. pose proof (read_wire_cases w s Hs) as Hc.
    rewrite Er in Hc. destruct Hc as (_&_&E&_). congruence.
Qed.

Lemma kept_all target ps : Forall packet_ok ps → Forall packet_ok (concat (kept target <$> ps)).
Proof.
  intros Hps. apply Forall_concat, Forall_fmap. eapply Forall_impl; [exact Hps|]. intros p. apply kept_ok.
Qed.

Lemma credits_app h ps qs : credits h (ps ++ qs) = credits h ps + credits h qs.
Proof.
  unfold credits. rewrite fmap_app, concat_app, foldr_app.
  induction (concat (reported <$> ps)) as [|e es IH]; cbn; [lia|]. rewrite IH. lia.
Qed.

Lemma kept_all_credits target h ps : h ≠ target → credits h (concat (kept target <$> ps)) = credits h ps.
Proof.
  intros Hh. induction ps as [|p ps IH]; [done|]. cbn [fmap list_fmap concat].
  rewrite credits_app, IH, kept_credits, <- credits_app by done. done.
Qed.

Lemma kept_all_plain target ps :
  filter plain_packet (concat (kept target <$> ps)) = filter plain_packet ps.
Proof.
  induction ps as [|p ps IH]; [done|]. cbn [fmap list_fmap concat].
  rewrite filter_app, IH, kept_plain, <- filter_app. done.
Qed.

(** Which packets complete a wait. *)
Lemma completes target p :
  snd (completed_step target p) = true →
  ∃ e, e ∈ reported p ∧ entry_handle e = target ∧ entry_done e ≠ 0.
Proof.
  unfold completed_step, reported. destruct (is_event _ p); [|done]. destruct (body p) as [|n rest]; [done|].
  destruct (_ =? _); cbn [negb snd]; [|done]. intros H%existsb_exists. destruct H as (e&Hin&He).
  apply andb_true_iff in He as [He%Z.eqb_eq Hd]. exists e. split; [by apply list_elem_of_In|].
  split; [done|]. intros E. by rewrite E in Hd.
Qed.

End wait.

(** ** The run *)

Section run.
Context {T1 T2 : Type} `{Tr1 : !Transport T1, Tr2 : !Transport T2}.
Context `{TL1 : !TransportLaws T1, TL2 : !TransportLaws T2}.
Context (open_central : nat → res T1) (open_peripheral : nat → res T2).
Hypothesis Hcentral : opens open_central.
Hypothesis Hperipheral : opens open_peripheral.

Abbreviation bench := (pair (T1:=T1) (T2:=T2) * book * cis_run)%type.
Abbreviation R X := (M bench X).
Implicit Types s : bench.

Lemma ends_completed {T} `{Tr : !Transport T, TL : !TransportLaws T} handle t :
  ends any_exn (wait_completed (T:=T) handle t).
Proof.
  intros s Hs. pose proof (completed_loop_cases (poll_fuel (ms 200) t s) (mask12 handle) (fst s + t) s [] Hs) as H.
  unfold wait_completed. destruct (completed_loop _ _ _ _) as [r [s1 l]].
  destruct H as (ps&s2&Hrd&Hs1&_&_&->&Hr).
  { unfold poll_fuel, load, turns. replace (fst s + t - fst s) with t by lia. lia. }
  destruct (reads_ok s ps s2 Hs Hrd) as (_&_&Hps&_).
  rewrite restore_run. cbn. split_and!; [by apply restored_ok; [|apply kept_all]|done|done|by intros ->].
Qed.

Lemma ends_discarding {T} `{Tr : !Transport T, TL : !TransportLaws T} E :
  ends E (discard_pending_iso (T:=T)).
Proof.
  intros [now h] [? Hp]. cbn. split; [split; [done|by apply Forall_filter]|by split_and!].
Qed.

Lemma ends_stress_marker {T} `{Tr : !Transport T, TL : !TransportLaws T} handle cid payload t :
  ends any_exn (wait_stress_acl_marker (T:=T) handle cid payload t).
Proof.
  unfold wait_stress_acl_marker. apply runs_try_finally; [apply _| |apply ends_discarding].
  apply runs_bind; [apply _|apply ends_marker|intros ?; apply runs_ret, _].
Qed.
#[local] Hint Resolve ends_completed ends_stress_marker : ends.

(** The body's steps record nothing but its last. *)
Definition untouched s s' : Prop := snd (fst s') = snd (fst s).
#[export] Instance untouched_preorder : PreOrder untouched.
Proof. split; [done|]. intros x y z. unfold untouched. congruence. Qed.

Lemma logs_untouched {X} E (m : R X) : runs bench_ok untouched E m → logs (λ _, True) E [] m.
Proof.
  intros Hm s Hs _. destruct (Hm s Hs) as (?&Hu&He&Hk). destruct (m s) as [r s']. cbn in *.
  split; [done|]. split; [done|]. exists []. rewrite app_nil_r. split; [done|].
  destruct r; [apply covers_nil|by apply He|done].
Qed.

Lemma untouched_on_pair {X} E (m : M (pair (T1:=T1) (T2:=T2)) X) :
  runs pair_ok anything E m → runs bench_ok untouched E (on_pair m).
Proof. intros Hm. eapply runs_zoom; [exact Hm|done|]. by intros [[d b] l] d' _ Hd _. Qed.

Lemma untouched_note E f : runs bench_ok untouched E (note f).
Proof. apply runs_modify. by intros [s l] Hs. Qed.

Lemma setup_untouched : runs bench_ok untouched any_exn (setup_acl_pair (T1:=T1) (T2:=T2)).
Proof.
  unfold setup_acl_pair.
  repeat first
    [ apply runs_bind; [apply _| |intros ?]
    | apply untouched_on_pair, acl_pair_by_ends, cis_event_cases
    | apply untouched_on_pair, on_central_runs; solve [auto with ends]
    | apply untouched_on_pair, on_peripheral_runs; unfold start_advertising; solve [auto with ends]
    | case_match ].
Qed.

Lemma open_untouched k : 
  runs bench_ok untouched any_exn (open_central_port (T2:=T2) open_central k) ∧
  runs bench_ok untouched any_exn (open_peripheral_port (T1:=T1) open_peripheral k).
Proof.
  split; intros s Hs.
  - pose proof (open_central_cases open_central Hcentral k s Hs) as H.
    assert (Hu : untouched s (snd (open_central_port open_central k s))).
    { unfold open_central_port, lift, mbind, M_bind. by destruct (open_central k). }
    destruct (open_central_port _ _ s) as [r s']. cbn in *.
    destruct r as [u|e|]; [by destruct H|by destruct H as [-> _]|done].
  - pose proof (open_peripheral_cases open_peripheral Hperipheral k s Hs) as H.
    assert (Hu : untouched s (snd (open_peripheral_port open_peripheral k s))).
    { unfold open_peripheral_port, lift, mbind, M_bind. by destruct (open_peripheral k). }
    destruct (open_peripheral_port _ _ s) as [r s']. cbn in *.
    destruct r as [u|e|]; [by destruct H|by destruct H as [-> _]|done].
Qed.

Lemma establish_untouched retryable unreachable left attempt :
  runs bench_ok untouched any_exn
    (establish open_central open_peripheral retryable unreachable left attempt).
Proof.
  revert attempt. induction left as [|left IH]; intros attempt; cbn [establish];
    [by apply runs_raise; [apply _|]|].
  apply runs_bind; [apply _|apply open_untouched|intros _].
  apply runs_bind; [apply _|apply open_untouched|intros _].
  apply runs_bind; [apply _| |intros [e|handles]; [|apply runs_ret, _]].
  { unfold attempt_of. eapply runs_try_except; [apply _| |intros e _ _; apply runs_ret, _|done].
    apply runs_bind; [apply _|apply setup_untouched|intros ?; apply runs_ret, _]. }
  apply runs_bind; [apply _|by apply untouched_on_pair, runs_gets; apply _|intros engines].
  apply runs_bind; [apply _| |intros _].
  { unfold close_acl_setup_attempt, close_ports, log_port. apply runs_bind; [apply _| |intros ?].
    - eapply runs_weaken; [|eapply untouched_on_pair, both_send_runs, cleanup_sends]. done.
    - apply runs_bind; [apply _|apply untouched_note|intros _; apply untouched_note]. }
  destruct left; [by apply runs_raise; [apply _|]|].
  destruct (retryable e engines); [apply IH|by apply runs_raise; [apply _|]].
Qed.

Abbreviation free := (λ _ : cis_run, True).

Definition stress_row : row_id := ("Stress", "concurrent ACL/ISO/event traffic")%string.

Lemma iteration_logs a b c d i : logs free any_exn [] (iteration (T1:=T1) (T2:=T2) a b c d i).
Proof. unfold iteration, exchange_acl, exchange_iso, marker, need_marker. silent. Qed.

Lemma check_counters_total b a label : check_counter_deltas b a label ≠ Stuck.
Proof. unfold check_counter_deltas. by repeat case_match. Qed.

Lemma no_rows {X} (l : list X) : concat ((λ _, [] : list row_id) <$> l) = [].
Proof. by induction l. Qed.

Lemma run_traffic_logs label count c p :
  logs free any_exn [stress_row] (run_traffic (T1:=T1) (T2:=T2) label count c p).
Proof.
  unfold run_traffic. apply logs_then; [unfold open_cis; silent|intros [cc pc]].
  do 6 (apply logs_then; [silent|intros ?]).
  apply logs_then; [|intros _].
  { rewrite <- (no_rows (seq 0 count)). apply (logs_for_each free any_exn (λ _, [])).
    intros i _. apply iteration_logs. }
  do 2 (apply logs_then; [silent|intros ?]).
  do 2 (apply logs_then; [apply logs_lift, check_counters_total|intros _]).
  by apply logs_add.
Qed.

Lemma stress_failed_fails e : fails free not_hci (stress_failed (T1:=T1) (T2:=T2) e).
Proof.
  unfold stress_failed. apply fails_then; [apply logs_locals|intros l].
  apply fails_then; [apply logs_if_some; intros ?; apply logs_quietly_first; ends_auto|intros _].
  apply fails_then; [apply logs_if_some; intros ?; apply logs_quietly_second; ends_auto|intros _].
  apply fails_record.
Qed.

Lemma tear_down_logs : logs free not_hci [] (tear_down (T1:=T1) (T2:=T2)).
Proof.
  unfold tear_down. apply logs_then; [apply logs_locals|intros l]. apply logs_when.
  apply logs_then; [apply logs_on_pair, (both_send_runs _ _ _ _ (cleanup_sends _ _ _ _ _))|intros ws].
  unfold close_ports, log_port. silent.
Qed.

Lemma stress_logs label count :
  logs free not_hci [stress_row] (stress_run open_central open_peripheral label count).
Proof.
  unfold stress_run. apply logs_finally; [|apply tear_down_logs].
  apply logs_catch with any_exn; [|done|apply stress_failed_fails].
  apply logs_then; [apply logs_untouched, establish_untouched|intros [c p]].
  apply logs_then; [unfold note_opened; silent|intros _]. apply run_traffic_logs.
Qed.

(** What a stress run does to its ports. *)
Lemma traffic_still label count c p :
  runs bench_ok steady any_exn (run_traffic (T1:=T1) (T2:=T2) label count c p).
Proof.
  unfold run_traffic. apply runs_bind; [apply _|apply open_cis_still|intros [cc pc]].
  repeat first
    [ apply runs_for_each; [apply _|intros i _; unfold iteration, exchange_acl, exchange_iso, marker, need_marker, when]
    | apply runs_lift; [apply _|apply check_counters_total|done]
    | apply runs_skip, _ | by apply runs_modify; intros [[? ?] ?] ? | still_step ].
Qed.

(** What the handler does is caught or cannot fail. *)
Lemma failed_still e : runs bench_ok steady not_hci (stress_failed (T1:=T1) (T2:=T2) e).
Proof.
  assert (Hq : ∀ (m : R unit), runs bench_ok steady any_exn m → runs bench_ok steady not_hci (quietly m)).
  { intros m Hm. eapply runs_try_except; [apply _|exact Hm|intros ? _ _; apply runs_skip, _|by intros]. }
  unfold stress_failed. apply runs_bind; [apply _|apply runs_gets, _|intros l].
  apply runs_bind; [apply _| |intros _].
  { destruct (central_before l); [|apply runs_skip, _]. apply Hq, still_first. ends_auto. }
  apply runs_bind; [apply _| |intros _].
  { destruct (peripheral_before l); [|apply runs_skip, _]. apply Hq, still_second. ends_auto. }
  apply runs_modify. by intros [[? ?] ?] ?.
Qed.

End run.

(** ** Concrete runs *)

(** A report of two handles, behind data of another link and background ISO. *)
Definition report_two : packet :=
  Pkt H4_EVENT (Some EVT_NUM_COMPLETED_PACKETS) [2; 0x40; 0; 1; 0; 0x60; 0; 2; 0].
Definition credit_dev : dev (T:=SerialH4.state) :=
  serial_dev [stray_packet; Pkt H4_ISO None (iso_body (sent_iso 0x60 0 [1])); report_two; reset_packet] [].
Abbreviation credit_run := (wait_completed 0x40 (seconds 3) credit_dev).


(** One iteration over a pair that answers everything. *)
Definition completed (handle : Z) : bytes :=
  [H4_EVENT; EVT_NUM_COMPLETED_PACKETS; 5; 1] ++ le_bytes 2 handle ++ [1; 0].
Definition seq0 : bytes := [0; 0; 0; 0].

Definition busy_central : list bytes :=
  CisLaws.prepared [6; 6; 6; 6; 6; 6] ++
  [accepted OP_LE_CREATE_CONNECTION; connected 0x40 0;
   answer OP_LE_SET_CIG_PARAMS (cig_return 0 [0x60]); accepted OP_LE_CREATE_CIS;
   le_event ([0x19; 0] ++ le_bytes 2 0x60);
   answer OP_LE_SETUP_ISO_DATA_PATH []; answer OP_LE_SETUP_ISO_DATA_PATH [];
   answer OP_LE_READ_BUFFER_SIZE_V2 [251; 0; 3; 60; 0; 2]; answer OP_VS_READ_COUNTERS [8];
   completed 0x40; acl_packet 0x40 STRESS_CID (80 :: seq0); completed 0x60;
   iso_rx 0x60 (80 :: 73 :: seq0); answer OP_VS_READ_COUNTERS [8]] ++ torn_central.

Definition busy_peripheral : list bytes :=
  CisLaws.prepared [1; 2; 3; 4; 5; 6] ++
  [answer OP_LE_SET_ADV_PARAMS []; answer OP_LE_SET_ADV_DATA []; answer OP_LE_SET_SCAN_RSP_DATA [];
   answer OP_LE_SET_ADV_ENABLE []; connected 0x41 1;
   le_event ([LE_CIS_REQUEST] ++ le_bytes 2 0x41 ++ le_bytes 2 0x61 ++ [0; 0]);
   accepted OP_LE_ACCEPT_CIS_REQUEST; le_event ([0x19; 0] ++ le_bytes 2 0x61);
   answer OP_LE_SETUP_ISO_DATA_PATH []; answer OP_LE_SETUP_ISO_DATA_PATH [];
   answer OP_LE_READ_BUFFER_SIZE_V2 [251; 0; 3; 60; 0; 2]; answer OP_VS_READ_COUNTERS [8];
   acl_packet 0x41 STRESS_CID (67 :: seq0); completed 0x41;
   iso_rx 0x61 (67 :: 73 :: seq0); completed 0x61; answer OP_VS_READ_COUNTERS [8]] ++ torn_peripheral.

Definition open_busy_central (_ : nat) : res SerialH4.state := Ok (wire_of busy_central).
Definition open_busy_peripheral (_ : nat) : res SerialH4.state := Ok (wire_of busy_peripheral).
Abbreviation busy_run :=
  (stress_run open_busy_central open_busy_peripheral "A/B" 1 (no_wire, [], init_run)).

End StressLaws.
