(* ===== verification/Discovery.v ===== *)
(** * Discovery: finding the controllers (hci_transport.py, pair_transport.py
    and hci_cis_usb_pair_test.py)

    Which serial ports and USB devices are HciController boards, which of them
    a selector names, and the choice of one controller ([discover]) or of two
    ([resolve_pair], [controllers]). What the operating system enumerates is an
    argument; strings of the operating system are ASCII, and the descriptors of
    one enumerated device read the same each time. *)

From Stdlib Require Import Ascii String.
From S2P Require Export Sorting Transport.
#[local] Open Scope Z_scope.

Module Discovery.

Definition I_SYST_VID : Z := 0xCAFE.
Definition PID_CDC_H4 : Z := 0x4070.
Definition PID_NATIVE_HCI : Z := 0x4071.
Definition PID_LOG_ONLY : Z := 0x4072.
Definition BT_CLASS : Z := 0xE0.
Definition BT_SUBCLASS : Z := 0x01.
Definition BT_PROTOCOL : Z := 0x01.

(** ** Strings *)

(** [bool(s)]. *)
Definition truthy (s : string) : bool := negb (String.eqb s "").

(** [s or ""], for an attribute that may be None. *)
Definition or_empty (s : option string) : string := default ""%string s.

Definition upper_ascii (c : ascii) : ascii :=
  let n := nat_of_ascii c in
  if (97 <=? n)%nat && (n <=? 122)%nat then ascii_of_nat (n - 32) else c.

Fixpoint upper (s : string) : string :=
  match s with "" => "" | String c s' => String (upper_ascii c) (upper s') end%string.

(** [_upper(value)]. *)
Definition upper_of (value : option string) : string := upper (or_empty value).

(** ["%04X" % z], for the sixteen bits of an identifier. *)
Definition hex_char (d : Z) : ascii :=
  ascii_of_nat (Z.to_nat (if d <? 10 then 48 + d else 55 + d)).
Fixpoint hex_fixed (n : nat) (z : Z) : string :=
  match n with
  | O => ""
  | S n' => String (hex_char (z / 16 ^ Z.of_nat n' mod 16)) (hex_fixed n' z)
  end%string.
Definition hex04 (z : Z) : string := hex_fixed 4 z.

(** The characters [int] strips from an ASCII string. *)
Definition is_space (c : ascii) : bool :=
  let n := nat_of_ascii c in ((9 <=? n) && (n <=? 13))%nat || (n =? 32)%nat.

Fixpoint lstrip (s : string) : string :=
  match s with
  | String c s' => if is_space c then lstrip s' else s
  | EmptyString => EmptyString
  end.

Definition hex_value (c : ascii) : option Z :=
  let n := Z.of_nat (nat_of_ascii c) in
  if (48 <=? n) && (n <=? 57) then Some (n - 48)
  else if (65 <=? n) && (n <=? 70) then Some (n - 55)
  else if (97 <=? n) && (n <=? 102) then Some (n - 87)
  else None.

(** The digits at the front of [s] and what follows them; single underscores
    may stand between two digits. *)
Fixpoint hex_digits (acc : Z) (underscore : bool) (s : string) : option (Z * string) :=
  match s with
  | EmptyString => if underscore then None else Some (acc, s)
  | String c s' =>
      if Ascii.eqb c "_" then
        if underscore then None else hex_digits acc true s'
      else
        match hex_value c with
        | Some d => hex_digits (acc * 16 + d) false s'
        | None => if underscore then None else Some (acc, s)
        end
  end.

Definition sign (s : string) : bool * string :=
  match s with
  | String "+" s' => (false, s')
  | String "-" s' => (true, s')
  | _ => (false, s)
  end.

(** The prefix 0x, and one underscore after it. *)
Definition hex_prefix (s : string) : string :=
  match s with
  | String "0" (String ("x" | "X") s') =>
      match s' with String "_" s'' => s'' | _ => s' end
  | _ => s
  end.

(** [int(text, 16)], None for ValueError. *)
Definition int16 (text : string) : option Z :=
  let '(negative, s) := sign (lstrip text) in
  match hex_prefix s with
  | String c _ as digits =>
      match hex_value c with
      | None => None
      | Some _ =>
          match hex_digits 0 false digits with
          | Some (v, rest) =>
              if String.eqb (lstrip rest) "" then Some (if negative then - v else v)
              else None
          | None => None
          end
      end
  | EmptyString => None
  end.

(** [text.split(":")]. *)
Fixpoint split_colon (s : string) : list string :=
  match s with
  | EmptyString => [""%string]
  | String c s' =>
      if Ascii.eqb c ":" then ""%string :: split_colon s'
      else match split_colon s' with
           | part :: parts => String c part :: parts
           | [] => []
           end
  end.

(** [_parse_vid_pid(text)]. *)
Definition parse_vid_pid (text : string) : option (Z * Z) :=
  match split_colon text with
  | [vid; pid] =>
      match int16 vid, int16 pid with
      | Some v, Some p => Some (v, p)
      | _, _ => None
      end
  | _ => None
  end.

(** ** Controllers *)

(** A port of [serial.tools.list_ports]. *)
Record port_info : Type := PortInfo {
  p_vid : option Z; p_pid : option Z; p_serial_number : option string;
  p_location : option string; p_manufacturer : option string;
  p_product : option string; p_interface : option string; p_device : option string }.

(** Reading a string descriptor of a PyUSB device: it may raise. *)
Definition reading : Type := exn + option string.

(** A PyUSB device. Listing its configurations, or the interfaces of one, may
    raise as well (None); an interface is its class, subclass and protocol. *)
Record usb_device : Type := UsbDevice {
  id_vendor : Z; id_product : Z;
  d_manufacturer : reading; d_product : reading; d_serial_number : reading;
  d_configurations : option (list (option (list (Z * Z * Z)))) }.

Record identity : Type := Identity { i_vid : Z; i_pid : Z; i_serial : string }.

Inductive target : Type := SerialPort (device : string) | UsbTarget (d : usb_device).

(** [TransportSpec]. Its kind is that of its target: the code builds no other
    combination. Every label it is given is non-empty, so [label or
    str(target)] is the label. *)
Record transport_spec : Type := Spec {
  s_target : target; label : string;
  bulk_serialization : bool; usb_identity : option identity }.

Definition s_kind (spec : transport_spec) : string :=
  match s_target spec with SerialPort _ => "serial" | UsbTarget _ => "usb" end.

Definition serial_spec (device label : string) : transport_spec :=
  Spec (SerialPort device) label false None.

(** *** Serial ports *)

(** [str(x)] of an attribute. *)
Definition str_attr (x : option string) : string := default "None"%string x.

(** [_serial_identity(info)]. *)
Definition serial_identity (info : port_info) : string :=
  match p_serial_number info with
  | Some (String _ _ as s) => "serial:" +:+ s
  | _ =>
      match p_location info with
      | Some (String _ _ as s) => "location:" +:+ s
      | _ => "device:" +:+ str_attr (p_device info)
      end
  end%string.

Section platform.
Context (darwin : bool).   (* sys.platform.startswith("darwin") *)

(** [_serial_score(info)]. *)
Definition serial_score (info : port_info) : option Z :=
  let i_syst := bool_decide (p_vid info = Some I_SYST_VID) in
  let has_pid pid := bool_decide (p_pid info = Some pid) in
  let manufacturer := upper_of (p_manufacturer info) in
  let product := upper_of (p_product info) in
  let interface := upper_of (p_interface info) in
  let device := str_attr (p_device info) in
  if i_syst && (has_pid PID_NATIVE_HCI || has_pid PID_LOG_ONLY) then None
  else if str_contains "LOG" interface then None
  else
    let exact := i_syst && has_pid PID_CDC_H4 in
    let is_i_syst := str_contains "I-SYST" manufacturer || str_contains "I-SYST" product in
    let hci_interface := str_contains "HCI" interface && negb (str_contains "LOG" interface) in
    score ← (if exact then
               if hci_interface then Some (100 + 30)
               else if truthy interface then None
               else Some 100
             else if is_i_syst && hci_interface then Some 70
             else None);
    Some (if darwin && str_contains "/cu." device then score + 5 else score).

(** What [serial_candidates] ranks: (score, identity, device, spec). *)
Record ranked : Type := Ranked {
  r_score : Z; r_identity : string; r_device : string; r_spec : transport_spec }.

Definition rank (info : port_info) : option ranked :=
  match serial_score info, p_device info with
  | Some score, Some (String _ _ as device) =>
      let label := "serial H:4 " +:+ device in
      let label := match p_interface info with
                   | Some (String _ _ as i) => label +:+ " (" +:+ i +:+ ")"
                   | _ => label
                   end in
      Some (Ranked score (serial_identity info) device (serial_spec device label))
  | _, _ => None
  end%string.

(** A higher score wins, the smaller device name among equal scores. *)
Definition better (item b : ranked) : bool :=
  (r_score b <? r_score item)
  || ((r_score item =? r_score b) && String.ltb (r_device item) (r_device b)).

(** [best[key] = item] when it is the first or a better one; a dict keeps the
    place of a key. *)
Fixpoint keep_best (best : list ranked) (item : ranked) : list ranked :=
  match best with
  | [] => [item]
  | b :: rest =>
      if String.eqb (r_identity b) (r_identity item)
      then (if better item b then item else b) :: rest
      else b :: keep_best rest item
  end.

Definition rank_before (x y : ranked) : bool :=
  lex Z.ltb String.ltb (- r_score x, r_device x) (- r_score y, r_device y).

Definition best_ports (ports : list port_info) : list ranked :=
  sort_by rank_before (fold_left keep_best (omap rank ports) []).

(** [serial_candidates(ports)]; the ports of the system are None when pyserial
    is missing. *)
Definition serial_candidates (os_ports ports : option (list port_info)) : list transport_spec :=
  match ports with
  | Some ports => map r_spec (best_ports ports)
  | None =>
      match os_ports with
      | Some ports => map r_spec (best_ports ports)
      | None => []
      end
  end.
End platform.

(** *** USB devices *)

(** [_safe_usb_string(device, name)]. *)
Definition safe_usb_string (s : reading) : string :=
  match s with inr value => or_empty value | inl _ => "" end.

Definition is_bt_interface (i : Z * Z * Z) : bool :=
  bool_decide (i = (BT_CLASS, BT_SUBCLASS, BT_PROTOCOL)).

(** [_usb_has_bt_interface(device)]. *)
Definition usb_has_bt_interface (d : usb_device) : bool :=
  match d_configurations d with
  | Some configs =>
      existsb (λ c, match c with Some interfaces => existsb is_bt_interface interfaces
                            | None => false end) configs
  | None => false
  end.

(** [_usb_candidate(device)]: score, serial number, label. *)
Definition usb_candidate (d : usb_device) : option (Z * string * string) :=
  let i_syst := id_vendor d =? I_SYST_VID in
  if i_syst && ((id_product d =? PID_CDC_H4) || (id_product d =? PID_LOG_ONLY)) then None
  else if negb (usb_has_bt_interface d) then None
  else
    let manufacturer := safe_usb_string (d_manufacturer d) in
    let product := safe_usb_string (d_product d) in
    let serial_number := safe_usb_string (d_serial_number d) in
    let known := i_syst && (id_product d =? PID_NATIVE_HCI) in
    let is_i_syst := str_contains "I-SYST" (upper manufacturer)
                     || str_contains "I-SYST" (upper product) in
    if negb known && negb is_i_syst then None
    else
      let score := if known then 100 else 70 in
      let label := ("native USB " +:+ hex04 (id_vendor d) +:+ ":" +:+ hex04 (id_product d))%string in
      let label :=
        if truthy serial_number then (label +:+ " serial=" +:+ serial_number)%string
        else if truthy product then (label +:+ " " +:+ product)%string
        else label in
      Some (score, serial_number, label).

(** How [usb.core.find(find_all=True)] ends. *)
Inductive enumeration : Type :=
  | NoPyUsb                         (* ImportError *)
  | NoBackend                       (* usb.core.NoBackendError *)
  | Failed (err : string)           (* any other exception *)
  | Found (devices : option (list usb_device)).

(** [_enumerate_usb_devices()]. *)
Definition enumerate_usb_devices (e : enumeration) : res (list usb_device) :=
  match e with
  | NoPyUsb => Exc (SelectionError (Lit "PyUSB is missing; install pyusb and a libusb backend"))
  | NoBackend => Exc (SelectionError (Lit "PyUSB cannot find a libusb backend; install libusb"))
  | Failed err => Exc (SelectionError (Fmt "native USB enumeration failed: %s" [AStr err]))
  | Found devices => Ok (default [] devices)
  end.

(** [_make_usb_identity(device)]. *)
Definition make_usb_identity (d : usb_device) : identity :=
  Identity (id_vendor d) (id_product d) (safe_usb_string (d_serial_number d)).

Definition identity_name (i : identity) : string :=
  (if truthy (i_serial i) then i_serial i else hex04 (i_vid i) +:+ ":" +:+ hex04 (i_pid i))%string.

(** The loop of [_resolve_usb_identity]. *)
Definition same_identity (i : identity) (d : usb_device) : bool :=
  bool_decide ((id_vendor d, id_product d) = (i_vid i, i_pid i))
  && bool_decide (is_Some (usb_candidate d))
  && negb (truthy (i_serial i)
           && negb (String.eqb (safe_usb_string (d_serial_number d)) (i_serial i))).

(** [_resolve_usb_identity(identity)]. *)
Definition resolve_usb_identity (e : enumeration) (i : option identity) : res usb_device :=
  match i with
  | None => Exc (SelectionError (Lit "native USB controller has no stable identity"))
  | Some i =>
      devices ← enumerate_usb_devices e;
      match List.filter (same_identity i) devices with
      | [] => Exc (SelectionError (Fmt "native USB controller %s was not found"
                                     [AStr (identity_name i)]))
      | [d] => Ok d
      | _ => Exc (SelectionError (Fmt "multiple native USB controllers match %s"
                                    [AStr (identity_name i)]))
      end
  end.

(** What [usb_candidates] ranks: (score, serial number, label, spec). *)
Definition usb_ranked (bulk : bool) (d : usb_device) : option (Z * string * string * transport_spec) :=
  match usb_candidate d with
  | None => None
  | Some (score, serial_number, label) =>
      Some (score, serial_number, label,
            Spec (UsbTarget d) label bulk (Some (make_usb_identity d)))
  end.

Definition usb_key (x : Z * string * string * transport_spec) : Z * (string * string) :=
  let '(score, serial_number, label, _) := x in (- score, (serial_number, label)).
Definition usb_before (x y : Z * string * string * transport_spec) : bool :=
  lex Z.ltb (lex String.ltb String.ltb) (usb_key x) (usb_key y).

(** [usb_candidates(devices, bulk_serialization)]. *)
Definition usb_candidates (os_usb : enumeration) (devices : option (list usb_device))
    (bulk : bool) : res (list transport_spec) :=
  devices ← match devices with Some ds => Ok ds | None => enumerate_usb_devices os_usb end;
  Ok (map snd (sort_by usb_before (omap (usb_ranked bulk) devices))).

(** *** Opening *)

Inductive opening : Type := OpenSerial (device : string) | OpenUsb (d : usb_device) (bulk : bool).

(** [TransportSpec.open], up to the constructors of the two transports. *)
Definition spec_open (spec : transport_spec) (e : enumeration) : res opening :=
  match s_target spec with
  | SerialPort device => Ok (OpenSerial device)
  | UsbTarget _ =>
      d ← resolve_usb_identity e (usb_identity spec);
      Ok (OpenUsb d (bulk_serialization spec))
  end.

(** ** Choosing one controller *)

(** [_usb_matches_selector(spec, selector)]. *)
Definition usb_matches_selector (spec : transport_spec) (selector : string) : bool :=
  match s_target spec with
  | UsbTarget d =>
      match parse_vid_pid selector with
      | Some ids => bool_decide ((id_vendor d, id_product d) = ids)
      | None =>
          let serial_number := safe_usb_string (d_serial_number d) in
          truthy serial_number && String.eqb serial_number selector
      end
  | SerialPort _ => false
  end.

Definition newline : string := String (ascii_of_nat 10) "".

(** [_one_or_error(candidates, description)]. *)
Definition one_or_error (candidates : list transport_spec) (description : string)
  : res (option transport_spec) :=
  match candidates with
  | [] => Ok None
  | [spec] => Ok (Some spec)
  | _ => Exc (SelectionError (Fmt
           ("multiple %s controllers found:" +:+ newline +:+ "   %s" +:+ newline
            +:+ "select one explicitly")
           [AStr description;
            AStr (String.concat (newline +:+ "   ") (map label candidates))]))
  end%string.

Definition is_selection_error (e : exn) : bool :=
  match e with SelectionError _ => true | _ => false end.

Definition known_kind (kind : string) : bool :=
  String.eqb kind "auto" || String.eqb kind "serial" || String.eqb kind "usb".

Definition on_usb (kind : string) : bool := String.eqb kind "auto" || String.eqb kind "usb".

(** The enumeration of USB, whose failure is kept aside when USB is not
    required: the candidates, and that failure. *)
Definition usb_side (required : bool) (found : res (list transport_spec))
  : res (list transport_spec * option exn) :=
  match found with
  | Ok specs => Ok (specs, None)
  | Exc e => if is_selection_error e && negb required then Ok ([], Some e) else Exc e
  | Stuck => Stuck
  end.

(** [if usb_selector: ...]. *)
Definition select_usb (usb_selector : option string) (specs : list transport_spec)
  : res (list transport_spec) :=
  match usb_selector with
  | Some (String _ _ as selector) =>
      match List.filter (λ spec, usb_matches_selector spec selector) specs with
      | [] => Exc (SelectionError (Fmt "no native USB HCI controller matches %s" [AStr selector]))
      | specs => Ok specs
      end
  | _ => Ok specs
  end.

(** The objects of a list of candidates: [is] compares positions. *)
Definition object : Type := nat * transport_spec.

Section system.
(** What the operating system shows: its serial ports (None without
    pyserial) and how an enumeration of USB ends. *)
Context (darwin : bool) (os_ports : option (list port_info)) (os_usb : enumeration).

(** The second half of [discover]. *)
Definition discover_serial (kind : string) (ports : option (list port_info))
    (usb_error : option exn) : res (option transport_spec) :=
  selected ← one_or_error (serial_candidates darwin os_ports ports) "serial H:4";
  match selected with
  | Some spec => Ok (Some spec)
  | None =>
      if String.eqb kind "serial" && bool_decide (os_ports = None)
      then Exc (SelectionError (Lit "pyserial is missing; install pyserial"))
      else match usb_error with Some e => Exc e | None => Ok None end
  end.

(** [discover(kind, usb_selector, bulk_serialization, ports, usb_devices)]. *)
Definition discover (kind : string) (usb_selector : option string) (bulk : bool)
    (ports : option (list port_info)) (usb_devices : option (list usb_device))
  : res (option transport_spec) :=
  if negb (known_kind kind)
  then Exc (SelectionError (Lit "transport must be auto, serial or usb"))
  else
    let require_usb :=
      String.eqb kind "usb" || bool_decide (is_Some usb_selector) || bulk in
    if on_usb kind then
      found ← usb_side require_usb (usb_candidates os_usb usb_devices bulk);
      usb_specs ← select_usb usb_selector (fst found);
      selected ← one_or_error usb_specs "native USB";
      match selected with
      | Some spec => Ok (Some spec)
      | None =>
          if require_usb
          then Exc (SelectionError (Lit "no native USB HCI controller found"))
          else discover_serial kind ports (snd found)
      end
    else discover_serial kind ports None.

(** ** Choosing two controllers (pair_transport.py) *)

(** [getattr(spec.target, "serial_number", None)]: a serial target is a plain
    string, a USB device reads its descriptor, which may raise. *)
Definition target_serial (spec : transport_spec) : res (option string) :=
  match s_target spec with
  | SerialPort _ => Ok None
  | UsbTarget d => match d_serial_number d with inr s => Ok s | inl e => Exc e end
  end.

Definition target_ids (spec : transport_spec) : option (Z * Z) :=
  match s_target spec with
  | SerialPort _ => None
  | UsbTarget d => Some (id_vendor d, id_product d)
  end.

Definition no_serial_number (spec : transport_spec) : exn :=
  SelectionError (Fmt
    "native USB controller %s has no serial number; pair selection needs a stable selector"
    [AStr (label spec)]).

Definition identity_serial (spec : transport_spec) : string :=
  match usb_identity spec with Some i => i_serial i | None => "" end.

(** [_usb_selector(spec)]. *)
Definition usb_selector_of (spec : transport_spec) : res string :=
  if truthy (identity_serial spec) then Ok (identity_serial spec)
  else
    serial_number ← target_serial spec;
    if truthy (or_empty serial_number) then Ok (or_empty serial_number)
    else Exc (no_serial_number spec).

(** [spec_selector(spec)]. *)
Definition spec_selector (spec : transport_spec) : res string :=
  match s_target spec with
  | SerialPort device => Ok device
  | UsbTarget _ => usb_selector_of spec
  end.

(** [transport_cli_args(spec)]. *)
Definition transport_cli_args (spec : transport_spec) : res (list string) :=
  match s_target spec with
  | SerialPort device => Ok ["--transport"; "serial"; "--port"; device]
  | UsbTarget _ => s ← usb_selector_of spec; Ok ["--transport"; "usb"; "--usb"; s]
  end%string.

(** [bulk_spec(spec)]. *)
Definition bulk_spec (spec : transport_spec) : transport_spec :=
  match s_target spec with
  | SerialPort _ => spec
  | UsbTarget _ =>
      if bulk_serialization spec then spec
      else Spec (s_target spec) (label spec +:+ " bulk serialization")%string true
             (usb_identity spec)
  end.

(** [_usb_matches(spec, selector)]. *)
Definition usb_matches (spec : transport_spec) (selector : string) : res bool :=
  serial_number ← target_serial spec;
  if truthy (or_empty serial_number) && String.eqb (or_empty serial_number) selector
  then Ok true
  else match parse_vid_pid selector with
       | None => Ok false
       | Some ids => Ok (bool_decide (target_ids spec = Some ids))
       end.

(** [_matches(spec, selector)]. *)
Definition matches (spec : transport_spec) (selector : string) : res bool :=
  match s_target spec with
  | SerialPort device => Ok (String.eqb device selector)
  | UsbTarget _ => usb_matches spec selector
  end.

(** A list comprehension whose condition may raise. *)
Fixpoint filter_res {A} (f : A → res bool) (l : list A) : res (list A) :=
  match l with
  | [] => Ok []
  | x :: l' => keep ← f x; rest ← filter_res f l'; Ok (if (keep : bool) then x :: rest else rest)
  end.

Definition objects (candidates : list transport_spec) : list object := imap pair candidates.

(** [_select(candidates, selector, label)]. *)
Definition select (candidates : list object) (selector : option string) (role : string)
  : res (option object) :=
  match selector with
  | None => Ok None
  | Some selector =>
      found ← filter_res (λ c, matches (snd c) selector) candidates;
      match found with
      | [] => Exc (SelectionError (Fmt "%s controller %s was not found"
                                     [AStr role; AStr selector]))
      | [c] => Ok (Some c)
      | _ => Exc (SelectionError (Fmt "%s selector %s matched %d controllers"
                                    [AStr role; AStr selector; AInt (blen found)]))
      end
  end.

(** [_candidates(kind, bulk_serialization, ports, usb_devices)]. *)
Definition candidates (kind : string) (bulk : bool) (ports : option (list port_info))
    (usb_devices : option (list usb_device)) : res (list transport_spec) :=
  let serial := serial_candidates darwin os_ports ports in
  if negb (known_kind kind)
  then Exc (SelectionError (Lit "transport must be auto, serial or usb"))
  else if String.eqb kind "serial" then
    match serial with
    | [] => Exc (SelectionError (Lit "no serial H:4 HciController ports found"))
    | _ => Ok serial
    end
  else
    found ← usb_side (String.eqb kind "usb") (usb_candidates os_usb usb_devices bulk);
    let '(usb, usb_error) := found in
    if String.eqb kind "usb" then
      match usb with
      | [] => Exc (SelectionError (Lit "no native USB HCI controllers found"))
      | _ => Ok usb
      end
    else
      match usb ++ serial, usb_error with
      | [], Some e => Exc e
      | specs, _ => Ok specs
      end.

Definition labels (candidates : list object) : arg :=
  AStr (match candidates with
        | [] => "none"
        | _ => String.concat ", " (map (λ c, label (snd c)) candidates)
        end).

(** [[spec for spec in candidates if spec is not x ...]]. *)
Definition is_not (x : option object) (c : object) : bool :=
  match x with Some x => negb (fst x =? fst c)%nat | None => true end.
Definition without (x y : option object) (candidates : list object) : list object :=
  List.filter (λ c, is_not x c && is_not y c) candidates.

Definition the_other (which : string) (remaining : list object) : res object :=
  match remaining with
  | [c] => Ok c
  | _ => Exc (SelectionError (Fmt ("cannot choose the " +:+ which +:+
                                   " controller; candidates are %s") [labels remaining]))
  end%string.

(** [resolve_pair] up to the check that both controllers answer. *)
Definition choose_pair (first second : option string) (specs : list transport_spec)
  : res (object * object) :=
  let candidates := objects specs in
  first_spec ← select candidates first "first";
  second_spec ← select candidates second "second";
  chosen ←
    match first_spec, second_spec with
    | None, None =>
        match candidates with
        | [a; b] => Ok (a, b)
        | _ => Exc (SelectionError (Fmt
                 "need exactly two HciController controllers; detected %s" [labels candidates]))
        end
    | _, _ =>
        a ← match first_spec with
            | Some a => Ok a
            | None => the_other "first" (without first_spec second_spec candidates)
            end;
        b ← match second_spec with
            | Some b => Ok b
            | None => the_other "second" (without (Some a) None candidates)
            end;
        Ok (a, b)
    end;
  if (fst (fst chosen) =? fst (snd chosen))%nat
  then Exc (SelectionError (Lit "the two HciController controllers must differ"))
  else Ok chosen.

(** ** Readiness of a native USB controller *)

Definition USB_READY_OPCODE : Z := 0x1009.
Definition USB_READY_EVENT_COMPLETE : Z := 0x0E.
Definition USB_READY_EVENT_STATUS : Z := 0x0F.
(** Seconds of the source, in the microseconds of the clock. *)
Definition USB_READY_TIMEOUT : Z := 5000000.
Definition USB_READY_ATTEMPT_TIMEOUT : Z := 500000.
Definition USB_READY_RETRY_DELAY : Z := 100000.
Definition READ_SLICE : Z := 100000.

Definition names_opcode (field : bytes) : bool := le_Z field =? USB_READY_OPCODE.

(** What the probe makes of a packet: None to read on. *)
Definition ready_verdict (p : packet) : res (option (bool * text)) :=
  let '(Pkt kind code body) := p in
  let evt c := bool_decide (code = Some c) && (4 <=? length body)%nat in
  if negb (kind =? H4_EVENT) then Ok None
  else if evt USB_READY_EVENT_COMPLETE && names_opcode (slice 1 3 body) then
    status ← idx body 3;
    if negb (status =? 0)
    then Ok (Some (false, Fmt "Read BD_ADDR returned 0x%02X" [AInt status]))
    else if (length body <? 10)%nat
    then Ok (Some (false, Lit "short Read BD_ADDR Command Complete"))
    else Ok (Some (true, Lit ""))
  else if evt USB_READY_EVENT_STATUS && names_opcode (slice 2 4 body) then
    status ← idx body 0;
    Ok (Some (false, Fmt "Read BD_ADDR returned Command Status 0x%02X" [AInt status]))
  else Ok None.

(** [except (TransportError, OSError)]. *)
Definition is_probe_error (e : exn) : bool :=
  is_transport_error e || match e with OSError => true | _ => false end.

Section ready.
Context {T : Type} `{!Transport T}.
(** The system at the attempt [n] to open the object [i]: how an enumeration
    ends, how the constructor of a transport and its [close] do. *)
Context (enumerate : nat → nat → enumeration) (connect : nat → nat → opening → M Z T)
  (close : nat → nat → T → M Z unit).

Fixpoint ready_loop (fuel : nat) (deadline : Z) : M (Z * T) (bool * text) :=
  match fuel with
  | O => λ s, (Stuck, s)
  | S fuel' =>
      now ← gets fst;
      if deadline <=? now
      then mret (false, Fmt "no event for opcode 0x%04X" [AInt USB_READY_OPCODE])
      else
        p ← t_read_packet (Z.min READ_SLICE (Z.max 0 (deadline - now)));
        match p with
        | None => ready_loop fuel' deadline
        | Some p =>
            verdict ← lift (ready_verdict p);
            match verdict with
            | Some v => mret v
            | None => ready_loop fuel' deadline
            end
        end
  end.

(** One turn per packet still to come and one per slice of the attempt. *)
Definition ready_fuel (t : T) : nat := (t_backlog t + 6)%nat.

Definition ready_session : M (Z * T) (bool * text) :=
  command ← lift (pack [FB H4_COMMAND; FH USB_READY_OPCODE; FB 0]);
  zoom snd (λ t s, (fst s, t)) (t_write_packet command) ;;
  now ← gets fst;
  fuel ← gets (λ s, ready_fuel (snd s));
  ready_loop fuel (now + USB_READY_ATTEMPT_TIMEOUT).

Definition open_object (n : nat) (c : object) : M Z T :=
  o ← lift (spec_open (snd c) (enumerate (fst c) n));
  connect (fst c) n o.

(** Work on an opened transport, closed at the end whatever happens, the
    errors of closing it ignored. *)
Definition with_transport {A} (open : M Z T) (close : T → M Z unit) (m : M (Z * T) A) : M Z A :=
  λ now,
    match open now with
    | (Ok t, now1) =>
        let '(r, (now2, t2)) := m (now1, t) in (r, snd (close t2 now2))
    | (Exc e, now1) => (Exc e, now1)
    | (Stuck, now1) => (Stuck, now1)
    end.

(** [_probe_native_usb_ready(spec)]. *)
Definition probe_native_usb_ready (n : nat) (c : object) : M Z (bool * text) :=
  try_except is_probe_error
    (with_transport (open_object n c) (close (fst c) n) ready_session)
    (λ e, mret (false, str e)).

Definition not_ready (c : object) (detail : text) : exn :=
  SelectionError (Fmt ("%s enumerated but did not become HCI-ready after wake: " +:+ fmt detail)
                    (AStr (label (snd c)) :: fargs detail))%string.

Fixpoint wait_ready_loop (fuel : nat) (deadline : Z) (attempt : nat) (c : object) : M Z nat :=
  match fuel with
  | O => λ s, (Stuck, s)
  | S fuel' =>
      let attempt := S attempt in
      r ← probe_native_usb_ready attempt c;
      let '(ready, detail) := r in
      if (ready : bool) then mret attempt
      else
        now ← getS;
        let remaining := deadline - now in
        if remaining <=? 0 then raise (not_ready c detail)
        else
          modify (Z.add (Z.min USB_READY_RETRY_DELAY remaining)) ;;
          wait_ready_loop fuel' deadline attempt c
  end.

(** The attempts that fit before the deadline, a delay apart, and the last. *)
Definition wait_ready_fuel : nat := 51.

(** [_wait_native_usb_ready(spec)], with the attempts it took. *)
Definition wait_native_usb_ready (c : object) : M Z nat :=
  match s_target (snd c) with
  | SerialPort _ => mret 0%nat
  | UsbTarget _ =>
      now ← getS;
      wait_ready_loop wait_ready_fuel (now + USB_READY_TIMEOUT) 0 c
  end.

(** [resolve_pair(first, second, kind, bulk_serialization, ports, usb_devices)]. *)
Definition resolve_pair (first second : option string) (kind : string) (bulk : bool)
    (ports : option (list port_info)) (usb_devices : option (list usb_device))
  : M Z (object * object) :=
  specs ← lift (candidates kind bulk ports usb_devices);
  chosen ← lift (choose_pair first second specs);
  when (bool_decide (ports = None) && bool_decide (usb_devices = None)) (
    wait_native_usb_ready (fst chosen) ;; wait_native_usb_ready (snd chosen) ;; skip) ;;
  mret chosen.
End ready.

(** ** The CIS test over two USB controllers (hci_cis_usb_pair_test.py) *)

(** [_bulk_spec(spec)]. *)
Definition cis_bulk_spec (spec : transport_spec) : transport_spec :=
  Spec (s_target spec) (label spec +:+ " bulk serialization")%string true (usb_identity spec).

(** [_serial_number(spec)]. *)
Definition cis_serial_number (spec : transport_spec) : res string :=
  if truthy (identity_serial spec) then Ok (identity_serial spec)
  else s ← target_serial spec; Ok (or_empty s).

(** [_select(specs, selector, role)]. *)
Definition cis_select (specs : list object) (selector : option string) (role : string)
  : res (option object) :=
  match selector with
  | None => Ok None
  | Some selector =>
      found ← filter_res (λ c, s ← cis_serial_number (snd c); Ok (String.eqb s selector)) specs;
      match found with
      | [] => Exc (HciError (Fmt "%s native USB controller %s was not found"
                               [AStr role; AStr selector]))
      | [c] => Ok (Some c)
      | _ => Exc (HciError (Fmt "%s USB serial %s matched %d controllers"
                              [AStr role; AStr selector; AInt (blen found)]))
      end
  end.

Definition only_one (role : string) (remaining : list object) : res object :=
  match remaining with
  | [c] => Ok c
  | _ => Exc (HciError (Lit ("need exactly one controller besides the " +:+ role)))
  end%string.

(** [_controllers(args)]. *)
Definition controllers (central peripheral : option string) : res (object * object) :=
  specs ← match usb_candidates os_usb None false with
          | Exc (SelectionError t) => Exc (HciError t)
          | r => r
          end;
  let specs := objects (map cis_bulk_spec specs) in
  c ← cis_select specs central "central";
  p ← cis_select specs peripheral "peripheral";
  let remaining := without c p specs in
  let differ a b :=
    if (fst a =? fst b)%nat
    then Exc (HciError (Lit "central and peripheral controllers must differ"))
    else Ok (a, b) in
  match c, p with
  | None, None =>
      match specs with
      | [a; b] => Ok (a, b)
      | _ => Exc (HciError (Fmt "need exactly two native USB HCI controllers; detected %s"
                              [labels specs]))
      end
  | None, Some b => a ← only_one "peripheral" remaining; differ a b
  | Some a, None => b ← only_one "central" remaining; differ a b
  | Some a, Some b => differ a b
  end.
End system.

End Discovery.
