(* ===== verification/DiscoveryLaws.v ===== *)
(** * DiscoveryLaws: what the selection of controllers guarantees

    The list of serial candidates holds the best port of every board; [discover]
    returns a controller only when it is the only one that qualifies;
    [resolve_pair] returns two different controllers, those the selectors name,
    and, on a real system, only after each USB one answered a command; waiting
    for that answer ends. *)

From Stdlib Require Import Ascii String Sorting.Sorted.
From stdpp Require Import sets.
From S2P Require Import Discovery.
Import Discovery.
#[local] Open Scope Z_scope.

Module DiscoveryLaws.

(** ** Serial candidates *)

Lemma better_before item b : better item b = rank_before item b.
Proof.
  unfold better, rank_before, lex; cbn.
  destruct (r_score b <? r_score item) eqn:E1, (r_score item =? r_score b) eqn:E2,
    (- r_score item <? - r_score b) eqn:E3, (- r_score b <? - r_score item) eqn:E4;
    cbn; try done; exfalso; lia.
Qed.

#[global] Instance rank_strict_weak : StrictWeak rank_before.
Proof. apply (strict_weak_key (lex Z.ltb String.ltb) (λ x, (- r_score x, r_device x))), _. Qed.

#[global] Instance better_strict_weak : StrictWeak better.
Proof.
  pose proof rank_strict_weak as [Ha Ht].
  split; intros *; rewrite !better_before; [apply Ha|apply Ht].
Qed.

(** [best] holds exactly one entry per identity of [seen], a best one. *)
Definition best_of (seen best : list ranked) : Prop :=
  NoDup (map r_identity best) ∧ (∀ b, b ∈ best → b ∈ seen) ∧
  (∀ r, r ∈ seen → ∃ b, b ∈ best ∧ r_identity b = r_identity r ∧ better r b = false).

Lemma keep_best_identities best item :
  map r_identity (keep_best best item) = map r_identity best ∨
  map r_identity (keep_best best item) = map r_identity best ++ [r_identity item]
  ∧ r_identity item ∉ map r_identity best.
Proof.
  induction best as [|b best IH]; cbn; [right; split; [done|set_solver]|].
  destruct (String.eqb_spec (r_identity b) (r_identity item)) as [E|E]; cbn.
  - left. f_equal. by destruct (better item b).
  - destruct IH as [->|[-> Hn]]; [by left|right]. split; [done|].
    rewrite not_elem_of_cons. by split; [congruence|].
Qed.

Lemma keep_best_from best item b : b ∈ keep_best best item → b ∈ best ∨ b = item.
Proof.
  induction best as [|x best IH]; cbn; [intros ->%list_elem_of_singleton; by right|].
  destruct (String.eqb _ _).
  - intros [->|Hb]%elem_of_cons; [destruct (better item x)|]; set_solver.
  - intros [->|[]%IH]%elem_of_cons; set_solver.
Qed.

(** No entry becomes worse, and the item has one. *)
Lemma keep_best_keeps best item b : b ∈ best →
  ∃ b', b' ∈ keep_best best item ∧ r_identity b' = r_identity b ∧ better b b' = false.
Proof.
  assert (Hr : ∀ x, better x x = false).
  { intros x. destruct (better x x) eqn:E; [|done]. by rewrite (before_asym better _ _ E) in E. }
  induction best as [|x best IH]; cbn; [by intros ?%elem_of_nil|].
  destruct (String.eqb_spec (r_identity x) (r_identity item)) as [E|E];
    intros [->|Hb]%elem_of_cons.
  - exists (if better item x then item else x). split; [by left|].
    destruct (better item x) eqn:Eb; [|done]. split; [done|]. by apply (before_asym better).
  - exists b. split; [by right|done].
  - exists x. split; [by left|done].
  - destruct (IH Hb) as (b'&?&?). exists b'. split; [by right|done].
Qed.

Lemma keep_best_item best item :
  ∃ b, b ∈ keep_best best item ∧ r_identity b = r_identity item ∧ better item b = false.
Proof.
  assert (Hr : ∀ x, better x x = false).
  { intros x. destruct (better x x) eqn:E; [|done]. by rewrite (before_asym better _ _ E) in E. }
  induction best as [|x best IH]; cbn.
  - exists item. split; [by left|done].
  - destruct (String.eqb_spec (r_identity x) (r_identity item)) as [E|E].
    + exists (if better item x then item else x). split; [by left|].
      by destruct (better item x) eqn:Eb.
    + destruct IH as (b&?&?). exists b. split; [by right|done].
Qed.

Lemma keep_best_ok seen best item :
  best_of seen best → best_of (seen ++ [item]) (keep_best best item).
Proof.
  intros (Hnd&Hin&Hbest). split_and!.
  - destruct (keep_best_identities best item) as [->|[-> Hn]]; [done|].
    apply NoDup_app. split_and!; [done| |apply NoDup_singleton].
    intros x Hx ->%list_elem_of_singleton. done.
  - intros b [Hb| ->]%keep_best_from; set_solver.
  - intros r [Hr| ->%list_elem_of_singleton]%elem_of_app; [|by apply keep_best_item].
    destruct (Hbest r Hr) as (b&Hb&Hib&Hrb).
    destruct (keep_best_keeps best item b Hb) as (b'&Hb'&Hib'&Hbb').
    exists b'. split_and!; [done|congruence|]. by eapply (not_before_trans better).
Qed.

Lemma fold_keep_best l : ∀ seen best,
  best_of seen best → best_of (seen ++ l) (fold_left keep_best l best).
Proof.
  induction l as [|item l IH]; intros seen best H; cbn; [by rewrite app_nil_r|].
  replace (seen ++ item :: l) with ((seen ++ [item]) ++ l) by by rewrite <- app_assoc.
  by apply IH, keep_best_ok.
Qed.

Lemma best_ports_best darwin ports :
  best_of (omap (rank darwin) ports) (best_ports darwin ports).
Proof.
  destruct (fold_keep_best (omap (rank darwin) ports) [] []) as (Hnd&Hin&Hall).
  { split_and!; [constructor|done|by intros ? ?%elem_of_nil]. }
  unfold best_ports. split_and!.
  - by rewrite sort_by_perm.
  - intros b Hb. apply Hin. by apply elem_of_sort_by in Hb.
  - intros r Hr. destruct (Hall r Hr) as (b&?&?). exists b. by rewrite elem_of_sort_by.
Qed.

(** Among the ports that qualify, those of one board (the same identity)
    leave exactly one entry, and no port of that board has a higher score, or
    the same score and a smaller device name; the entries are ordered by score,
    then by device name. *)
Theorem serial_candidates_best darwin os_ports ports :
  let best := best_ports darwin ports in
  let qualified := omap (rank darwin) ports in
  serial_candidates darwin os_ports (Some ports) = map r_spec best ∧
  NoDup (map r_identity best) ∧
  (∀ b, b ∈ best → b ∈ qualified) ∧
  (∀ r, r ∈ qualified → ∃ b, b ∈ best ∧ r_identity b = r_identity r ∧ better r b = false) ∧
  StronglySorted (λ x y, better y x = false) best.
Proof.
  intros best qualified. split; [done|].
  destruct (best_ports_best darwin ports) as (?&?&?). split_and!; [done..|].
  unfold best, best_ports.
  induction (sort_by_sorted rank_before (fold_left keep_best (omap (rank darwin) ports) []))
    as [|x l _ IH Hx]; constructor; [done|].
  eapply Forall_impl; [exact Hx|]. intros y. unfold in_order. by rewrite better_before.
Qed.

(** ** Identifiers *)

Fixpoint has_colon (s : string) : bool :=
  match s with EmptyString => false | String c s' => Ascii.eqb c ":" || has_colon s' end.

Lemma split_colon_none s : has_colon s = false → split_colon s = [s].
Proof.
  induction s as [|c s IH]; [done|]. cbn. destruct (Ascii.eqb c ":"); [done|].
  cbn. intros H. by rewrite IH.
Qed.

Lemma split_colon_app s u : has_colon s = false → split_colon (s +:+ ":" +:+ u) = s :: split_colon u.
Proof.
  induction s as [|c s IH]; [done|]. intros H.
  change (String c s +:+ ":" +:+ u) with (String c (s +:+ ":" +:+ u)). cbn in *.
  destruct (Ascii.eqb c ":"); [done|]. by rewrite (IH H).
Qed.

(** A property of the sixteen digits. *)
Lemma all_digits (P : Z → Prop) d :
  0 ≤ d < 16 → P 0 → P 1 → P 2 → P 3 → P 4 → P 5 → P 6 → P 7 → P 8 → P 9 → P 10 → P 11 →
  P 12 → P 13 → P 14 → P 15 → P d.
Proof.
  intros Hd **.
  assert (d = 0 ∨ d = 1 ∨ d = 2 ∨ d = 3 ∨ d = 4 ∨ d = 5 ∨ d = 6 ∨ d = 7 ∨ d = 8 ∨ d = 9 ∨ d = 10
    ∨ d = 11 ∨ d = 12 ∨ d = 13 ∨ d = 14 ∨ d = 15) by lia.
  naive_solver.
Qed.

Lemma hex_char_value d : 0 ≤ d < 16 → hex_value (hex_char d) = Some d.
Proof. intros Hd. by apply (all_digits (λ d, hex_value (hex_char d) = Some d)). Qed.

Lemma hex_char_plain d : 0 ≤ d < 16 →
  Ascii.eqb (hex_char d) "_" = false ∧ Ascii.eqb (hex_char d) ":" = false
  ∧ is_space (hex_char d) = false.
Proof.
  intros Hd. by apply (all_digits (λ d, Ascii.eqb (hex_char d) "_" = false
    ∧ Ascii.eqb (hex_char d) ":" = false ∧ is_space (hex_char d) = false)).
Qed.

Lemma digit_range n z : 0 ≤ z / 16 ^ Z.of_nat n mod 16 < 16.
Proof. by apply Z.mod_pos_bound. Qed.

Lemma hex_digits_fixed n z : ∀ acc,
  0 ≤ z → hex_digits acc false (hex_fixed n z) = Some (acc * 16 ^ Z.of_nat n + z mod 16 ^ Z.of_nat n, ""%string).
Proof.
  induction n as [|n IH]; intros acc Hz.
  { cbn [hex_fixed hex_digits]. change (16 ^ Z.of_nat 0) with 1. rewrite Z.mod_1_r. do 2 f_equal. lia. }
  cbn [hex_fixed hex_digits]. pose proof (digit_range n z) as Hd.
  destruct (hex_char_plain _ Hd) as (->&_&_). rewrite (hex_char_value _ Hd), IH by done.
  do 2 f_equal. rewrite Nat2Z.inj_succ, Z.pow_succ_r by lia.
  assert (0 < 16 ^ Z.of_nat n) by (apply Z.pow_pos_nonneg; lia).
  rewrite (Z.mul_comm 16 (16 ^ _)), Z.rem_mul_r by lia. lia.
Qed.

Lemma no_colon_fixed n z : has_colon (hex_fixed n z) = false.
Proof.
  induction n as [|n IH]; [done|]. cbn. destruct (hex_char_plain _ (digit_range n z)) as (_&->&_). done.
Qed.

(** Two digits at the front are no sign and no prefix. *)
Lemma no_prefix d e s : 0 ≤ d < 16 → 0 ≤ e < 16 →
  let text := String (hex_char d) (String (hex_char e) s) in
  sign text = (false, text) ∧ hex_prefix text = text.
Proof.
  intros Hd He. revert s. apply (all_digits (λ d, ∀ s, let text := String (hex_char d) (String (hex_char e) s) in
    sign text = (false, text) ∧ hex_prefix text = text) d); [done|..|by split]; try by split.
  intros s. apply (all_digits (λ e, let text := String (hex_char 0) (String (hex_char e) s) in
    sign text = (false, text) ∧ hex_prefix text = text) e); done.
Qed.

Lemma hex04_reads v : 0 ≤ v < 65536 → int16 (hex04 v) = Some v.
Proof.
  intros Hv. unfold int16, hex04. cbn [hex_fixed lstrip].
  set (d := v / 16 ^ Z.of_nat 3 mod 16). set (e := v / 16 ^ Z.of_nat 2 mod 16).
  assert (Hd : 0 ≤ d < 16) by apply digit_range. assert (He : 0 ≤ e < 16) by apply digit_range.
  destruct (hex_char_plain d Hd) as (_&_&->).
  match goal with |- context [sign (String _ (String _ ?s))] =>
    destruct (no_prefix d e s Hd He) as [-> ->] end.
  rewrite (hex_char_value d Hd).
  pose proof (hex_digits_fixed 4 v 0 ltac:(lia)) as H. cbn [hex_fixed] in H. fold d e in H. rewrite H.
  cbn [lstrip String.eqb]. f_equal. rewrite Z.mod_small; [lia|]. change (16 ^ Z.of_nat 4) with 65536. lia.
Qed.

(** The identifiers a label shows select the device they were read from. *)
Lemma vid_pid_reads v p :
  0 ≤ v < 65536 → 0 ≤ p < 65536 → parse_vid_pid (hex04 v +:+ ":" +:+ hex04 p) = Some (v, p).
Proof.
  intros Hv Hp. unfold parse_vid_pid.
  rewrite split_colon_app, (split_colon_none (hex04 p)) by apply no_colon_fixed.
  by rewrite !hex04_reads.
Qed.

(** ** Selecting one controller *)

(** What can be raised while choosing: nothing but a selection error. *)
Definition selects {A} (Q : A → Prop) (r : res A) : Prop :=
  match r with Ok a => Q a | Exc e => is_selection_error e = true | Stuck => False end.

Lemma selects_bind {A B} (Q : A → Prop) (Q' : B → Prop) r (f : A → res B) :
  selects Q r → (∀ a, Q a → selects Q' (f a)) → selects Q' (r ≫= f).
Proof. by destruct r; cbn; auto. Qed.

Lemma selects_weaken {A} (Q Q' : A → Prop) r :
  selects Q r → (∀ a, Q a → Q' a) → selects Q' r.
Proof. by destruct r; cbn; auto. Qed.

Lemma usb_candidates_selects os_usb devices bulk :
  selects (λ specs, usb_candidates os_usb devices bulk = Ok specs)
    (usb_candidates os_usb devices bulk).
Proof. unfold usb_candidates. destruct devices as [ds|]; cbn; [done|]. by destruct os_usb. Qed.

(** The candidates left by the selector. *)
Definition selected_by (sel : option string) (spec : transport_spec) : bool :=
  match sel with
  | Some (String _ _ as s) => usb_matches_selector spec s
  | _ => true
  end.

Lemma select_usb_selects sel specs :
  selects (λ l, l = List.filter (selected_by sel) specs) (select_usb sel specs).
Proof.
  assert (Hall : specs = List.filter (λ _, true) specs)
    by (induction specs; cbn; by f_equal).
  destruct sel as [[|c s]|]; [done| |done]. clear Hall.
  change (selected_by (Some (String c s))) with (λ spec, usb_matches_selector spec (String c s)).
  unfold select_usb. by destruct (List.filter _ specs).
Qed.

Lemma one_or_error_selects specs d :
  selects (λ r, match r with Some s => specs = [s] | None => specs = [] end)
    (one_or_error specs d).
Proof. by destruct specs as [|? [|]]. Qed.

Section system.
Context (darwin : bool) (os_ports : option (list port_info)) (os_usb : enumeration).
Abbreviation serial_of ports := (serial_candidates darwin os_ports ports).

Lemma discover_serial_selects kind ports usb_error :
  (∀ e, usb_error = Some e → is_selection_error e = true) →
  selects (λ r, match r with
                | Some s => serial_of ports = [s]
                | None => serial_of ports = [] ∧ usb_error = None
                end) (discover_serial darwin os_ports kind ports usb_error).
Proof.
  intros He. unfold discover_serial.
  eapply selects_bind; [apply one_or_error_selects|]. intros [s|] Hs; [done|].
  destruct (_ && _); [done|]. destruct usb_error as [e|]; [by apply He|done].
Qed.

(** Neither the kind nor an option asks for USB. *)
Definition usb_optional (kind : string) (sel : option string) (bulk : bool) : Prop :=
  kind = "auto"%string ∧ sel = None ∧ bulk = false.

(** The candidates [usb_side] goes on with, and the failure it keeps aside. *)
Lemma usb_side_selects req devices bulk :
  let usb := usb_candidates os_usb devices bulk in
  selects (λ f, usb = Ok f.1 ∧ f.2 = None ∨
     req = false ∧ ∃ e, usb = Exc e ∧ is_selection_error e = true ∧ f = ([], Some e))
    (usb_side req usb).
Proof.
  intros usb. pose proof (usb_candidates_selects os_usb devices bulk) as Hc. fold usb in Hc.
  destruct usb as [specs|e|]; cbn in Hc |- *; [by left| |done]. rewrite Hc.
  destruct req; cbn; [done|]. right. split; [done|]. by exists e.
Qed.

(** The only USB candidate the selector leaves, or none. *)
Lemma usb_choice sel specs :
  selects (λ r, match r with
                | Some s => List.filter (selected_by sel) specs = [s]
                | None => List.filter (selected_by sel) specs = []
                end)
    (l ← select_usb sel specs; one_or_error l "native USB").
Proof.
  eapply selects_bind; [apply select_usb_selects|]. intros l ->. apply one_or_error_selects.
Qed.

(** What [discover] may return. *)
Definition discovered kind sel bulk ports devices (r : option transport_spec) : Prop :=
  let usb := usb_candidates os_usb devices bulk in
  match r with
  | Some spec =>
      (on_usb kind = true ∧
       ∃ specs, usb = Ok specs ∧ List.filter (selected_by sel) specs = [spec])
      ∨ serial_of ports = [spec] ∧
        (kind = "serial"%string ∨
         usb_optional kind sel bulk ∧ (usb = Ok [] ∨ ∃ e, usb = Exc e))
  | None =>
      serial_of ports = [] ∧
      (kind = "serial"%string ∨ usb_optional kind sel bulk ∧ usb = Ok [])
  end.

Lemma discover_usb_selects kind sel bulk ports devices req :
  on_usb kind = true → (req = false → usb_optional kind sel bulk) →
  selects (discovered kind sel bulk ports devices)
    (found ← usb_side req (usb_candidates os_usb devices bulk);
     specs ← select_usb sel (fst found);
     selected ← one_or_error specs "native USB";
     match selected with
     | Some spec => Ok (Some spec)
     | None => if req : bool
               then Exc (SelectionError (Lit "no native USB HCI controller found"))
               else discover_serial darwin os_ports kind ports (snd found)
     end).
Proof.
  intros Hon Hreq. eapply selects_bind; [apply usb_side_selects|]. intros [specs err] Hside.
  cbn [fst snd] in *. pose proof (usb_choice sel specs) as Hc.
  destruct (select_usb sel specs) as [l|e|]; [|done|done]. cbn in Hc |- *.
  destruct (one_or_error l _) as [[s|]|e|]; [| |done|done]; cbn in Hc |- *.
  { destruct Hside as [[Hu _]|(_&e&_&_&[= -> _])]; [|by destruct sel as [[]|]].
    left. split; [done|]. by exists specs. }
  destruct req; [done|]. specialize (Hreq eq_refl).
  assert (Hnone : usb_candidates os_usb devices bulk = Ok [] ∧ err = None ∨
    ∃ e, usb_candidates os_usb devices bulk = Exc e ∧ is_selection_error e = true ∧ err = Some e).
  { destruct Hside as [[Hu ->]|(_&e&He&Hse&[= -> ->])]; [left|right; by exists e].
    destruct Hreq as (_&->&_). rewrite Hu. split; [|done]. f_equal.
    clear -Hc. induction specs; [done|]. by cbn in Hc. }
  eapply selects_weaken; [apply discover_serial_selects|].
  - destruct Hnone as [[_ ->]|(e&_&?&->)]; [done|]. by intros ? [= <-].
  - intros [s|] Hs; cbn.
    + right. split; [done|]. right. split; [done|].
      destruct Hnone as [[? _]|(e&?&_)]; [by left|right; by exists e].
    + destruct Hs as [? ->]. split; [done|]. right. split; [done|].
      by destruct Hnone as [[]|(e&_&_&?)].
Qed.

Lemma discover_selects kind sel bulk ports devices :
  selects (discovered kind sel bulk ports devices)
    (discover darwin os_ports os_usb kind sel bulk ports devices).
Proof.
  unfold discover. destruct (known_kind kind) eqn:Hk; [|done]. cbn [negb].
  destruct (on_usb kind) eqn:Hon.
  - apply discover_usb_selects; [done|]. intros Hreq.
    apply orb_false_iff in Hreq as [[Hu%String.eqb_neq Hsel]%orb_false_iff ->].
    apply bool_decide_eq_false in Hsel. split_and!; [|by apply eq_None_not_Some|done].
    unfold on_usb in Hon. apply orb_true_iff in Hon as [H|H]; by apply String.eqb_eq in H.
  - assert (kind = "serial"%string) as ->.
    { unfold known_kind, on_usb in *. destruct (String.eqb_spec kind "serial"); [done|].
      destruct (String.eqb kind "auto"), (String.eqb kind "usb"); done. }
    eapply selects_weaken; [by apply discover_serial_selects|].
    intros [s|]; cbn; [by right; auto|]. intros [? _]; auto.
Qed.

Lemma discover_finds kind sel bulk ports devices spec :
  discovered kind sel bulk ports devices (Some spec) →
  discover darwin os_ports os_usb kind sel bulk ports devices = Ok (Some spec).
Proof.
  assert (Hserial : ∀ kind err, serial_of ports = [spec] →
      discover_serial darwin os_ports kind ports err = Ok (Some spec))
    by (intros ? ? Hs; unfold discover_serial; by rewrite Hs).
  intros [[Hon (specs&Hu&Hf)]|[Hs [->|[(->&->&->) Hu]]]].
  - assert (Hsel : select_usb sel specs = Ok [spec]).
    { destruct sel as [[|c s]|]; cbn [selected_by] in Hf.
      1,3: replace specs with [spec]; [done|]; rewrite <- Hf; clear; induction specs; cbn; congruence.
      change (selected_by (Some (String c s)))
        with (λ spec, usb_matches_selector spec (String c s)) in Hf.
      unfold select_usb. by rewrite Hf. }
    unfold discover. rewrite Hon, Hu. cbn [usb_side mbind res_bind fst snd]. rewrite Hsel.
    cbn. replace (known_kind kind) with true; [done|].
    unfold known_kind, on_usb in *. by destruct (String.eqb kind "auto"), (String.eqb kind "serial").
  - by apply Hserial.
  - destruct Hu as [Hu|[e Hu]]; unfold discover; cbn; rewrite Hu; cbn; [by apply Hserial|].
    pose proof (usb_candidates_selects os_usb devices false) as Hc.
    rewrite Hu in Hc. cbn in Hc. rewrite Hc. cbn. by apply Hserial.
Qed.

(** C30: [discover] returns a controller exactly when it is the only one that
    qualifies: the only USB candidate the selector leaves, or, where USB is not
    asked for and gives no candidate, the only serial one. It returns nothing
    only when there is no candidate at all, and otherwise raises a selection
    error. *)
Theorem discover_unambiguous kind sel bulk ports devices :
  let found := discover darwin os_ports os_usb kind sel bulk ports devices in
  (∀ spec, found = Ok (Some spec) ↔ discovered kind sel bulk ports devices (Some spec)) ∧
  (found = Ok None → discovered kind sel bulk ports devices None) ∧
  (∀ e, found = Exc e → is_selection_error e = true) ∧ found ≠ Stuck.
Proof.
  intros found. pose proof (discover_selects kind sel bulk ports devices) as H.
  fold found in H. split_and!; [|by intros E; rewrite E in H|by intros e E; rewrite E in H|].
  - intros spec. split; [by intros E; rewrite E in H|]. apply discover_finds.
  - intros E. by rewrite E in H.
Qed.

(** ** Selecting two controllers *)

Definition at_ (specs : list transport_spec) (o : object) : Prop := specs !! fst o = Some (snd o).

Lemma elem_of_objects specs o : o ∈ objects specs ↔ at_ specs o.
Proof.
  unfold objects, at_. rewrite list_elem_of_lookup. destruct o as [i spec]; cbn. split.
  - intros (k&Hk). rewrite list_lookup_imap in Hk.
    destruct (specs !! k) eqn:E; cbn in Hk; [|done]. by simplify_eq.
  - intros Hi. exists i. by rewrite list_lookup_imap, Hi.
Qed.

Lemma NoDup_objects specs : NoDup (objects specs).
Proof.
  apply NoDup_alt. intros i j o. unfold objects. rewrite !list_lookup_imap.
  destruct (specs !! i), (specs !! j); cbn; intros; by simplify_eq.
Qed.

Lemma singleton_of {A} (l : list A) c : NoDup l → (∀ x, x ∈ l ↔ x = c) → l = [c].
Proof.
  intros Hnd Hl. destruct l as [|x l]; [by destruct (proj1 (elem_of_nil _) (proj2 (Hl c) eq_refl))|].
  assert (x = c) as -> by (apply Hl; by left). apply NoDup_cons in Hnd as [Hc _].
  destruct l as [|y l]; [done|]. destruct Hc.
  assert (y = c) as -> by (apply Hl; set_solver). by left.
Qed.

(** A comprehension over the candidates leaves one object. *)
Lemma only_object (f : object → bool) specs c :
  List.filter f (objects specs) = [c] ↔
  at_ specs c ∧ ∀ o, at_ specs o → f o = bool_decide (fst o = fst c).
Proof.
  assert (Hin : ∀ o, o ∈ List.filter f (objects specs) ↔ at_ specs o ∧ f o = true).
  { intros o. rewrite <- elem_of_objects, !list_elem_of_In, List.filter_In. done. }
  split.
  - intros E. rewrite E in Hin. assert (at_ specs c ∧ f c = true) as [Hc Hfc] by (apply Hin; by left).
    split; [done|]. intros o Ho. case_bool_decide as Hi.
    + assert (o = c) as ->; [|done]. unfold at_ in *. destruct o, c; cbn in *. congruence.
    + destruct (f o) eqn:Hf; [|done]. destruct Hi. f_equal.
      apply list_elem_of_singleton. by apply Hin.
  - intros [Hc Hf]. apply singleton_of; [apply NoDup_ListNoDup, List.NoDup_filter, NoDup_ListNoDup, NoDup_objects|].
    intros o. rewrite Hin. split.
    + intros [Ho Hfo]. rewrite (Hf o Ho), bool_decide_eq_true in Hfo.
      unfold at_ in *. destruct o, c; cbn in *. congruence.
    + intros ->. split; [done|]. rewrite (Hf c Hc). by apply bool_decide_eq_true.
Qed.

Lemma filter_res_ok {A} (f : A → res bool) l l' :
  filter_res f l = Ok l' ↔
  (∀ x, x ∈ l → ∃ b, f x = Ok b) ∧
  l' = List.filter (λ x, match f x with Ok b => b | _ => false end) l.
Proof.
  revert l'. induction l as [|x l IH]; intros l'; cbn.
  { split; [intros [= <-]; split; [by intros ? ?%elem_of_nil|done]|by intros [_ ->]]. }
  destruct (f x) as [b|e|] eqn:Ef; cbn.
  - destruct (filter_res f l) as [r|e|]; cbn.
    + destruct (proj1 (IH r) eq_refl) as [Hall Hr]. split.
      * intros [= <-]. split; [|by rewrite Hr].
        intros y [->|Hy]%elem_of_cons; [by exists b|by apply Hall].
      * intros [_ ->]. by rewrite Hr.
    + split; [done|]. intros [Hall _].
      discriminate (proj2 (IH _) (conj (λ y Hy, Hall y (list_elem_of_further _ _ _ Hy)) eq_refl)).
    + split; [done|]. intros [Hall _].
      discriminate (proj2 (IH _) (conj (λ y Hy, Hall y (list_elem_of_further _ _ _ Hy)) eq_refl)).
  - split; [done|]. intros [Hall _]. destruct (Hall x ltac:(by left)) as [b Hb]. congruence.
  - split; [done|]. intros [Hall _]. destruct (Hall x ltac:(by left)) as [b Hb]. congruence.
Qed.

(** The selector, where one is given, names the object and no other. *)
Definition named (sel : option string) (specs : list transport_spec) (c : object) : Prop :=
  match sel with
  | None => True
  | Some s => ∀ o, at_ specs o → matches (snd o) s = Ok (bool_decide (fst o = fst c))
  end.

Lemma filter_res_one (f : object → res bool) specs c :
  filter_res f (objects specs) = Ok [c] ↔
  at_ specs c ∧ ∀ o, at_ specs o → f o = Ok (bool_decide (fst o = fst c)).
Proof.
  rewrite filter_res_ok, (eq_comm [c]), only_object. split.
  - intros (Hall&Hc&Hf). split; [done|]. intros o Ho. specialize (Hf o Ho).
    destruct (Hall o) as [b Hb]; [by apply elem_of_objects|]. rewrite Hb in *. by rewrite Hf.
  - intros (Hc&Hf). split_and!; [|done|].
    + intros o Ho%elem_of_objects. eexists. by apply Hf.
    + intros o Ho. by rewrite (Hf o Ho).
Qed.

Lemma select_one s role specs c :
  select (objects specs) (Some s) role = Ok (Some c) ↔ at_ specs c ∧ named (Some s) specs c.
Proof.
  unfold select, named. rewrite <- (filter_res_one (λ o, matches (snd o) s)).
  destruct (filter_res _ _) as [[|x [|y l]]|e|]; cbn; split; intros; by simplify_eq.
Qed.

Lemma select_some s role specs r :
  select (objects specs) (Some s) role = Ok r → ∃ c, r = Some c.
Proof.
  unfold select. destruct (filter_res _ _) as [[|x [|y l]]|e|]; cbn; intros [= <-]. by exists x.
Qed.

Lemma two_left specs a b (f : object → bool) :
  (∀ o, f o = is_not (Some a) o) → at_ specs a →
  List.filter f (objects specs) = [b] ↔ at_ specs b ∧ fst a ≠ fst b ∧ length specs = 2%nat.
Proof.
  intros Hf Ha. rewrite only_object. split.
  - intros [Hb Hall]. split; [done|].
    assert (Hi : ∀ i, (i < length specs)%nat → i = fst a ∧ fst a ≠ fst b ∨ i = fst b ∧ fst a ≠ fst b).
    { intros i [spec Hi]%lookup_lt_is_Some. specialize (Hall (i, spec) Hi).
      rewrite Hf in Hall. cbn in Hall. destruct (Nat.eqb_spec (fst a) i), (bool_decide_reflect (i = fst b));
        cbn in Hall; try done; lia. }
    apply lookup_lt_Some in Ha, Hb. split; [destruct (Hi _ Ha); tauto|].
    destruct (decide (length specs ≤ 2)%nat); [destruct (Hi _ Ha); lia|].
    pose proof (Hi 0%nat). pose proof (Hi 1%nat). pose proof (Hi 2%nat). lia.
  - intros (Hb&Hne&Hlen). split; [done|]. intros [i spec] Ho%lookup_lt_Some. rewrite Hf.
    apply lookup_lt_Some in Ha, Hb. cbn in *.
    destruct (Nat.eqb_spec (fst a) i); cbn; case_bool_decide; lia || done.
Qed.

(** What the two controllers chosen are. *)
Definition chosen (first second : option string) (specs : list transport_spec) (a b : object) : Prop :=
  at_ specs a ∧ at_ specs b ∧ fst a ≠ fst b ∧ named first specs a ∧ named second specs b ∧
  (first = None ∨ second = None → length specs = 2%nat) ∧
  (first = None → second = None → fst a = 0%nat).

Lemma the_other_ok which l c : the_other which l = Ok c ↔ l = [c].
Proof. destruct l as [|x [|y l]]; cbn; split; congruence. Qed.

Lemma differ_ok {e : exn} (x ch : object * object) :
  (if (fst (fst ch) =? fst (snd ch))%nat then Exc e else Ok ch) = Ok x
  ↔ x = ch ∧ fst (fst ch) ≠ fst (snd ch).
Proof.
  destruct (Nat.eqb_spec (fst (fst ch)) (fst (snd ch))); split; [done|tauto| |by intros [-> _]].
  by intros [= <-].
Qed.

Lemma two_objects specs a b :
  objects specs = [a; b] ↔ at_ specs a ∧ at_ specs b ∧ fst a = 0%nat ∧ fst a ≠ fst b
    ∧ length specs = 2%nat.
Proof.
  unfold at_. destruct a as [i x], b as [j y]; cbn. split.
  - intros E. destruct specs as [|u [|v [|w specs]]]; cbn in E; simplify_eq. by split_and!.
  - intros (Ha&Hb&->&Hne&Hl). destruct specs as [|u [|v [|w specs]]]; cbn in Hl; try lia.
    destruct j as [|[|j]]; [done| |by apply lookup_lt_Some in Hb; cbn in Hb; lia].
    cbn in *. by simplify_eq.
Qed.

Lemma bind_ok {A B} (r : res A) (f : A → res B) y :
  r ≫= f = Ok y ↔ ∃ x, r = Ok x ∧ f x = Ok y.
Proof.
  destruct r; cbn; [|split; [done|by intros (?&?&_)]..].
  split; [by eexists|]. by intros (?&[= ->]&?).
Qed.

Lemma choose_named s s' specs a b :
  choose_pair (Some s) (Some s') specs = Ok (a, b) ↔ chosen (Some s) (Some s') specs a b.
Proof.
  unfold choose_pair, chosen. split.
  - intros (r&Hr&(r'&Hr'&(ch&Hch&Hd)%bind_ok)%bind_ok)%bind_ok. destruct (select_some _ _ _ _ Hr) as [c ->], (select_some _ _ _ _ Hr') as [c' ->].
    apply select_one in Hr as [], Hr' as []. injection Hch as <-. apply (differ_ok (a, b)) in Hd as [[= -> ->] ?].
    split_and!; try done. by intros [].
  - intros (Ha&Hb&Hne&Hna&Hnb&_). apply bind_ok. exists (Some a). split; [by apply select_one|].
    apply bind_ok. exists (Some b). split; [by apply select_one|]. by apply (differ_ok _ (a, b)).
Qed.

Lemma choose_first s specs a b :
  choose_pair (Some s) None specs = Ok (a, b) ↔ chosen (Some s) None specs a b.
Proof.
  unfold choose_pair, chosen. split.
  - intros (r&Hr&Hd)%bind_ok. destruct (select_some _ _ _ _ Hr) as [c ->]. apply select_one in Hr as [Hc Hn].
    apply bind_ok in Hd as (r2&[= <-]&Hd). apply bind_ok in Hd as (ch&Hch&Hd). apply bind_ok in Hch as (a'&[= <-]&(c'&Ho&[= <-])%bind_ok).
    apply the_other_ok in Ho. apply (two_left specs c) in Ho as (?&?&?);
      [|intros; apply andb_true_r|done].
    apply (differ_ok (a, b)) in Hd as [[= -> ->] ?]. by split_and!.
  - intros (Ha&Hb&Hne&Hna&_&Hl&_). apply bind_ok. exists (Some a). split; [by apply select_one|].
    cbn. rewrite (proj2 (the_other_ok "second" _ b)); [by apply (differ_ok _ (a, b))|].
    apply (two_left specs a); [intros; apply andb_true_r|done|]. split_and!; auto.
Qed.

Lemma choose_second s specs a b :
  choose_pair None (Some s) specs = Ok (a, b) ↔ chosen None (Some s) specs a b.
Proof.
  unfold choose_pair, chosen. split.
  - intros (r2&[= <-]&(r&Hr&Hd)%bind_ok)%bind_ok. destruct (select_some _ _ _ _ Hr) as [c ->]. apply select_one in Hr as [Hc Hn].
    apply bind_ok in Hd as (ch&Hch&Hd). apply bind_ok in Hch as (c'&Ho&(b'&[= <-]&[= <-])%bind_ok).
    apply the_other_ok in Ho. apply (two_left specs c) in Ho as (?&?&?); [|done|done].
    apply (differ_ok (a, b)) in Hd as [[= -> ->] ?]. split_and!; done || auto.
  - intros (Ha&Hb&Hne&_&Hnb&Hl&_). apply bind_ok. exists None. split; [done|].
    apply bind_ok. exists (Some b). split; [by apply select_one|].
    cbn. rewrite (proj2 (the_other_ok "first" _ a)); [by apply (differ_ok _ (a, b))|].
    apply (two_left specs b); [done|done|]. split_and!; auto.
Qed.

Lemma choose_unnamed specs a b :
  choose_pair None None specs = Ok (a, b) ↔ chosen None None specs a b.
Proof.
  unfold choose_pair, chosen. split.
  - intros (r1&[= <-]&(r2&[= <-]&(ch&Hch&Hd)%bind_ok)%bind_ok)%bind_ok. apply (differ_ok (a, b)) in Hd as [<- Hne].
    destruct (objects specs) as [|x [|y [|]]] eqn:Eo; try done. injection Hch as -> ->.
    apply two_objects in Eo as (?&?&?&?&?). by split_and!.
  - intros (Ha&Hb&Hne&_&_&Hl&Hz). apply bind_ok. exists None. split; [done|].
    apply bind_ok. exists None. split; [done|].
    apply bind_ok. exists (a, b). split; [|by apply (differ_ok _ (a, b))].
    rewrite (proj2 (two_objects specs a b)); [done|]. split_and!; auto.
Qed.

Lemma choose_pair_chosen first second specs a b :
  choose_pair first second specs = Ok (a, b) ↔ chosen first second specs a b.
Proof.
  destruct first, second; [apply choose_named|apply choose_first|apply choose_second|apply choose_unnamed].
Qed.

Lemma matches_not_stuck spec s : matches spec s ≠ Stuck.
Proof.
  unfold matches, usb_matches, target_serial. destruct (s_target spec); [done|].
  destruct (d_serial_number d); cbn; [done|]. destruct (_ && _); [done|].
  by destruct (parse_vid_pid s).
Qed.

Lemma select_not_stuck specs sel role : select specs sel role ≠ Stuck.
Proof.
  destruct sel as [s|]; [|done]. cbn.
  assert (H : filter_res (λ c : object, matches (snd c) s) specs ≠ Stuck).
  { unfold object in *. induction specs as [|c specs IH]; [done|]. cbn. pose proof (matches_not_stuck (snd c) s).
    destruct (matches (snd c) s); cbn; [|done|done]. by destruct (filter_res _ specs). }
  unfold object in *. by destruct (filter_res _ specs) as [[|? []]| |].
Qed.

Lemma choose_pair_ends first second specs : choose_pair first second specs ≠ Stuck.
Proof.
  assert (Hb : ∀ A B (r : res A) (f : A → res B),
            r ≠ Stuck → (∀ a, f a ≠ Stuck) → r ≫= f ≠ Stuck).
  { intros A B [] f; cbn; naive_solver. }
  assert (Ho : ∀ w l, the_other w l ≠ Stuck) by (by intros w [|? []]).
  unfold choose_pair. apply Hb; [apply select_not_stuck|]. intros r.
  apply Hb; [apply select_not_stuck|]. intros r'.
  apply Hb; [|by intros ?; case_match].
  destruct r, r'; try (apply Hb; [done|]; intros); try (apply Hb; [done|]; intros); try done.
  by destruct (objects specs) as [|? [|? []]].
Qed.

(** *** Selectors *)

(** A candidate as the two enumerations build them. *)
Definition made (spec : transport_spec) : Prop :=
  match s_target spec with
  | SerialPort _ => True
  | UsbTarget d => usb_identity spec = Some (make_usb_identity d)
  end.

Lemma serial_made ports : Forall made (serial_of ports).
Proof.
  unfold serial_candidates.
  assert (H : ∀ l, Forall made (map r_spec (best_ports darwin l))).
  { intros l. destruct (best_ports_best darwin l) as (_&Hin&_). apply Forall_map, Forall_forall.
    intros b Hb%Hin. apply list_elem_of_omap in Hb as (info&_&Hr). unfold rank in Hr.
    destruct (serial_score darwin info); [|done].
    destruct (p_device info) as [[]|]; by simplify_eq. }
  destruct ports; [apply H|]. destruct os_ports; [apply H|constructor].
Qed.

Lemma usb_made devices bulk specs : usb_candidates os_usb devices bulk = Ok specs → Forall made specs.
Proof.
  unfold usb_candidates. intros (ds&_&[= <-])%bind_ok.
  apply Forall_map. rewrite sort_by_perm. apply Forall_forall. intros x (d&_&Hd)%list_elem_of_omap.
  unfold usb_ranked in Hd. destruct (usb_candidate d) as [[[]]|]; by simplify_eq.
Qed.

Lemma candidates_made kind bulk ports devices specs :
  candidates darwin os_ports os_usb kind bulk ports devices = Ok specs → Forall made specs.
Proof.
  unfold candidates. destruct (negb _); [done|]. pose proof (serial_made ports) as Hs.
  destruct (String.eqb kind "serial"). { destruct (serial_of ports); [done|]. by intros [= <-]. }
  intros ([usb err]&Hu&H)%bind_ok.
  assert (Hm : Forall made usb).
  { unfold usb_side in Hu. destruct (usb_candidates os_usb devices bulk) eqn:E; [|destruct (_ && _); by simplify_eq|done].
    simplify_eq. by eapply usb_made. }
  destruct (String.eqb kind "usb"). { destruct usb; by simplify_eq. }
  assert (Ha : Forall made (usb ++ serial_of ports)) by by apply Forall_app.
  destruct (usb ++ serial_of ports); [destruct err|]; by simplify_eq.
Qed.

Lemma matches_own spec s : made spec → spec_selector spec = Ok s → matches spec s = Ok true.
Proof.
  unfold made, spec_selector, matches, usb_selector_of, usb_matches, target_serial, identity_serial.
  destruct (s_target spec) as [device|d]; [intros _ [= <-]; by rewrite String.eqb_refl|].
  intros ->. cbn. destruct (d_serial_number d) as [e|sn]; cbn; [done|].
  destruct (truthy (or_empty sn)) eqn:E; [|done]. intros [= <-]. by rewrite String.eqb_refl.
Qed.

(** The selector fits none of the other candidates. *)
Definition exclusive (specs : list transport_spec) (c : object) (s : string) : Prop :=
  ∀ o, at_ specs o → fst o ≠ fst c → matches (snd o) s = Ok false.

(** C31: the selectors [spec_selector] gives for the two controllers chosen select
    them again, in another process that sees the same controllers, whichever way
    they were chosen first; for that each must fit only its own controller. *)
Theorem selectors_resolve kind bulk ports devices specs first second a b sa sb
    (Hc : candidates darwin os_ports os_usb kind bulk ports devices = Ok specs)
    (Hp : choose_pair first second specs = Ok (a, b))
    (Ha : spec_selector (snd a) = Ok sa) (Hb : spec_selector (snd b) = Ok sb)
    (Hxa : exclusive specs a sa) (Hxb : exclusive specs b sb) :
  choose_pair (Some sa) (Some sb) specs = Ok (a, b).
Proof.
  apply candidates_made in Hc. apply choose_pair_chosen in Hp as (Hata&Hatb&Hne&_).
  assert (Hn : ∀ c s, at_ specs c → spec_selector (snd c) = Ok s → exclusive specs c s →
                 named (Some s) specs c).
  { intros c s Hat Hs Hx o Ho. case_bool_decide as Hi; [|by apply Hx].
    assert (snd o = snd c) as -> by (unfold at_ in *; congruence).
    apply matches_own; [|done]. eapply Forall_lookup_1; [exact Hc|exact Hat]. }
  apply choose_pair_chosen. split_and!; [done|done|done|by apply Hn|by apply Hn| |done].
  by intros [].
Qed.

(** *** Waiting for an answer *)

Lemma ready_verdict_ok p : ∃ v, ready_verdict p = Ok v.
Proof.
  destruct p as [kind code body]. unfold ready_verdict.
  destruct (negb _); [by exists None|].
  assert (H : ∀ c (b : bool) i, (i < 4)%nat →
    bool_decide (code = Some c) && (4 <=? length body)%nat && b = true → ∃ x, idx body i = Ok x).
  { intros c b i Hi [[_ Hl%Nat.leb_le]%andb_true_iff _]%andb_true_iff. unfold idx.
    destruct (lookup_lt_is_Some_2 body i) as [x ->]; [lia|]. by exists x. }
  destruct (_ && names_opcode (slice 1 3 body)) eqn:E1.
  { destruct (H _ _ 3%nat ltac:(lia) E1) as [x ->]. cbn [mbind res_bind].
    destruct (negb _); [by eexists|]. destruct (length body <? 10)%nat; by eexists. }
  destruct (_ && names_opcode (slice 2 4 body)) eqn:E2; [|by exists None].
  destruct (H _ _ 0%nat ltac:(lia) E2) as [x ->]. by eexists.
Qed.

Lemma spec_open_not_stuck spec e : spec_open spec e ≠ Stuck.
Proof.
  unfold spec_open, resolve_usb_identity. destruct (s_target spec); [done|].
  destruct (usb_identity spec); [|done]. destruct e; cbn; [done..|].
  by destruct (List.filter _ _) as [|? []].
Qed.

Section ready.
Context {T : Type} `{Tr : !Transport T} `{TL : !TransportLaws T}.
Context (enumerate : nat → nat → enumeration) (connect : nat → nat → opening → M Z T)
  (close : nat → nat → T → M Z unit).

(** Opening and closing end, and time does not run backwards meanwhile. *)
Definition opens_well : Prop :=
  (∀ i n o now, now ≤ snd (connect i n o now) ∧
     match fst (connect i n o now) with Ok t => t_wf t | Exc _ => True | Stuck => False end) ∧
  (∀ i n t now, now ≤ snd (close i n t now)).

Definition slices (x : Z) : nat := Z.to_nat ((x + READ_SLICE - 1) / READ_SLICE).

Lemma slices_mono x y : x ≤ y → (slices x ≤ slices y)%nat.
Proof.
  intros H. unfold slices, READ_SLICE.
  pose proof (Z.div_le_mono (x + 100000 - 1) (y + 100000 - 1) 100000). lia.
Qed.

Lemma slices_before x y : 0 < x → y ≤ x - Z.min READ_SLICE x → (slices y < slices x)%nat.
Proof.
  intros Hx Hy. unfold slices, READ_SLICE in *.
  pose proof (Z.div_le_mono (y + 100000 - 1) (Z.max 0 (x - 100000) + 100000 - 1) 100000).
  destruct (Z.max_spec 0 (x - 100000)) as [[? E]|[? E]]; rewrite E in *.
  - replace (x + 100000 - 1) with ((x - 100000 + 100000 - 1) + 1 * 100000) by lia.
    rewrite Z.div_add by lia.
    pose proof (Z.div_pos (x - 100000 + 100000 - 1) 100000). lia.
  - pose proof (Z.div_str_pos (x + 100000 - 1) 100000).
    change ((0 + 100000 - 1) / 100000) with 0 in *. lia.
Qed.

(** A computation of a clock: it ends, and time does not run backwards. *)
Definition ready_ok {S A} (clock : S → Z) (P : exn → Prop) (s : S) (rs : res A * S) : Prop :=
  clock s ≤ clock (snd rs) ∧
  match fst rs with Ok _ => True | Exc e => P e | Stuck => False end.

Abbreviation transport_exn := (λ e, is_transport_error e = true).

Lemma ready_loop_ends fuel : ∀ deadline now t, t_wf t →
  (t_backlog t + slices (deadline - now) < fuel)%nat →
  ready_ok fst transport_exn (now, t) (ready_loop fuel deadline (now, t)).
Proof.
  induction fuel as [|fuel IH]; intros deadline now t Hwf Hfuel; [lia|].
  cbn [ready_loop]. unfold gets. unfold mbind at 1, M_bind at 1; cbn [fst].
  destruct (Z.leb_spec deadline now) as [|Hd]; [done|].
  rewrite Z.max_r by lia. set (w := Z.min READ_SLICE (deadline - now)).
  assert (Hw : 0 < w) by (unfold w, READ_SLICE; lia).
  unfold mbind at 1, M_bind at 1.
  destruct (read_runs w (now, t) Hwf) as (Hwf'&(Hnow&_&Hb)&He&HS).
  pose proof (read_some w now t) as Hsome. pose proof (read_none w now t) as Hnone.
  destruct (t_read_packet w (now, t)) as [[[p|]|e|] [now1 t1]]; cbn [fst snd] in *;
    [| |by split; [|apply He]|done].
  - destruct (Hsome p (now1, t1) Hwf eq_refl) as [_ Hlt]. cbn in Hlt.
    destruct (ready_verdict_ok p) as [v Hv]. unfold mbind at 1, M_bind at 1, lift. rewrite Hv.
    destruct v as [v|]; [done|].
    pose proof (slices_mono (deadline - now1) (deadline - now) ltac:(lia)).
    destruct (IH deadline now1 t1 Hwf' ltac:(lia)) as [? ?]. split; [cbn in *; lia|done].
  - assert ((t_backlog t1 + slices (deadline - now1) < t_backlog t + slices (deadline - now))%nat).
    { destruct (Hnone (now1, t1) Hwf Hw eq_refl) as [H|H]; cbn in H.
      - pose proof (slices_before (deadline - now) (deadline - now1)). lia.
      - pose proof (slices_mono (deadline - now1) (deadline - now)). lia. }
    destruct (IH deadline now1 t1 Hwf' ltac:(lia)) as [? ?]. split; [cbn in *; lia|done].
Qed.

Lemma ready_session_ends now t :
  t_wf t → ready_ok fst transport_exn (now, t) (ready_session (now, t)).
Proof.
  intros Hwf. unfold ready_session. unfold mbind at 1, M_bind at 1.
  change (lift (pack [FB H4_COMMAND; FH USB_READY_OPCODE; FB 0]) (now, t))
    with (Ok [0x01; 0x09; 0x10; 0x00] : res bytes, (now, t)).
  unfold mbind at 1, M_bind at 1, zoom; cbn [fst snd].
  destruct (write_runs [0x01; 0x09; 0x10; 0x00] t Hwf) as (Hwf1&Hb&He&HS).
  destruct (t_write_packet _ t) as [[u|e|] t1]; cbn [fst snd] in *; [|by split; [|apply He]|done].
  unfold gets, mbind, M_bind; cbn [fst snd].
  refine (ready_loop_ends _ _ now t1 Hwf1 _). unfold ready_fuel.
  replace (now + USB_READY_ATTEMPT_TIMEOUT - now) with USB_READY_ATTEMPT_TIMEOUT by lia.
  change (slices USB_READY_ATTEMPT_TIMEOUT) with 5%nat. lia.
Qed.

Hypothesis system_opens : opens_well.
Abbreviation probe := (probe_native_usb_ready enumerate connect close).
Abbreviation uncaught := (λ e, is_probe_error e = false).

Lemma ready_probe_ends n c now : ready_ok id uncaught now (probe n c now).
Proof.
  destruct system_opens as [Hopen Hclose].
  unfold probe_native_usb_ready, try_except, with_transport, open_object.
  unfold mbind at 1, M_bind at 1, lift.
  destruct (spec_open _ _) as [o|e|] eqn:Eo; cbn.
  - destruct (Hopen (fst c) n o now) as [Hnow Ht].
    destruct (connect (fst c) n o now) as [[t|e|] now1]; cbn in Hnow, Ht; [| |done].
    + destruct (ready_session_ends now1 t Ht) as [H1 H2].
      destruct (ready_session (now1, t)) as [[v|e|] [now2 t2]]; cbn [fst snd] in *; [| |done].
      * split; cbn; [|done]. specialize (Hclose (fst c) n t2 now2). unfold id. lia.
      * specialize (Hclose (fst c) n t2 now2).
        unfold is_probe_error. rewrite H2. cbn. split; [|done]. unfold id. cbn. lia.
    + destruct (is_probe_error e) eqn:Ee; by split.
  - destruct (is_probe_error e) eqn:Ee; split; unfold id; cbn; done || lia.
  - destruct (spec_open_not_stuck _ _ Eo).
Qed.

(** The controller answered one of the attempts. *)
Definition answered_at (n : nat) (c : object) : Prop :=
  ∃ detail now now', probe n c now = (Ok (true, detail), now').

Lemma wait_ready_loop_ends deadline c fuel : ∀ attempt now,
  (0 < fuel)%nat → deadline - now ≤ (Z.of_nat fuel - 1) * USB_READY_RETRY_DELAY →
  let '(r, now') := wait_ready_loop enumerate connect close fuel deadline attempt c now in
  now ≤ now' ∧
  match r with
  | Ok n => (n ≤ attempt + fuel)%nat ∧ answered_at n c
  | Exc e => (∃ detail, e = not_ready c detail) ∧ deadline ≤ now' ∨ is_probe_error e = false
  | Stuck => False
  end.
Proof.
  induction fuel as [|fuel IH]; intros attempt now Hf Hd; [lia|].
  cbn [wait_ready_loop]. unfold mbind at 1, M_bind at 1.
  destruct (ready_probe_ends (S attempt) c now) as [H1 H2]. unfold id in H1.
  destruct (probe (S attempt) c now) as [[[ready detail]|e|] now1] eqn:Ep; cbn [fst snd] in *;
    [|by split; [|right]|done].
  destruct ready. { split; [done|]. split; [lia|]. by exists detail, now, now1. }
  unfold mbind at 1, M_bind at 1, getS; cbn [fst snd].
  destruct (Z.leb_spec (deadline - now1) 0) as [|Hr].
  { cbn. split; [done|]. left. split; [by exists detail|lia]. }
  unfold modify. unfold mbind at 1, M_bind at 1.
  set (now2 := Z.min USB_READY_RETRY_DELAY (deadline - now1) + now1).
  assert (Hnow2 : now1 ≤ now2) by (unfold now2, USB_READY_RETRY_DELAY; lia).
  destruct fuel as [|fuel].
  { cbn in Hd. lia. }
  specialize (IH (S attempt) now2 ltac:(lia)).
  destruct (wait_ready_loop _ _ _ (S fuel) _ _ _ now2) as [r now3].
  destruct IH as [? HR]. { unfold now2, USB_READY_RETRY_DELAY in *. lia. }
  split; [lia|]. destruct r as [n|e|]; [|done|done]. destruct HR. split; [lia|done].
Qed.

(** A USB controller answered within 51 attempts; a serial one is not asked. *)
Definition answered (c : object) : Prop :=
  match s_target (snd c) with
  | SerialPort _ => True
  | UsbTarget _ => ∃ n, (n ≤ wait_ready_fuel)%nat ∧ answered_at n c
  end.

Lemma wait_ready_ends c now :
  let '(r, now') := wait_native_usb_ready enumerate connect close c now in
  now ≤ now' ∧
  match r with
  | Ok _ => answered c
  | Exc e => (∃ detail, e = not_ready c detail) ∧ now + USB_READY_TIMEOUT ≤ now'
             ∨ is_probe_error e = false
  | Stuck => False
  end.
Proof.
  unfold wait_native_usb_ready, answered. destruct (s_target (snd c)); [done|].
  unfold getS, mbind, M_bind.
  pose proof (wait_ready_loop_ends (now + USB_READY_TIMEOUT) c wait_ready_fuel 0 now) as H.
  destruct (wait_ready_loop _ _ _ _ _ _ _ now) as [[n|e|] now'];
    (destruct H as [? H]; [unfold wait_ready_fuel; lia|
       unfold wait_ready_fuel, USB_READY_TIMEOUT, USB_READY_RETRY_DELAY; lia|]); [|done|done].
  split; [done|]. by exists n.
Qed.

Lemma candidates_ok kind bulk ports devices :
  selects (λ _, True) (candidates darwin os_ports os_usb kind bulk ports devices).
Proof.
  unfold candidates. destruct (negb _); [done|].
  destruct (String.eqb kind "serial"); [by destruct (serial_of ports)|].
  eapply selects_bind; [apply usb_side_selects|]. intros [usb err] Hs. cbn in Hs.
  destruct (String.eqb kind "usb"); [by destruct usb|].
  destruct (usb ++ _); [|done]. destruct err as [e|]; [|done].
  destruct Hs as [[_ ?]|(_&e'&_&?&[= _ ->])]; done.
Qed.

(** The snapshot of a test is not asked to answer. *)
Definition injected (ports : option (list port_info)) (devices : option (list usb_device)) : bool :=
  negb (bool_decide (ports = None) && bool_decide (devices = None)).

Lemma wait_both now a b :
  let '(r, now') := (wait_native_usb_ready enumerate connect close a ;;
     wait_native_usb_ready enumerate connect close b ;; skip) now in
  now ≤ now' ∧ r ≠ Stuck ∧ (r = Ok tt → answered a ∧ answered b).
Proof.
  unfold mbind, M_bind. pose proof (wait_ready_ends a now) as Ha.
  destruct (wait_native_usb_ready _ _ _ a now) as [[n|e|] now1]; destruct Ha as [? Ha]; [|done|done].
  pose proof (wait_ready_ends b now1) as Hb.
  destruct (wait_native_usb_ready _ _ _ b now1) as [[m|e|] now2]; destruct Hb as [? Hb];
    cbn; split_and!; done || lia.
Qed.

(** [resolve_pair] is the choice, then the wait for the two chosen. *)
Lemma resolve_pair_eq first second kind bulk ports devices now :
  resolve_pair darwin os_ports os_usb enumerate connect close
    first second kind bulk ports devices now =
  match (l ← candidates darwin os_ports os_usb kind bulk ports devices;
         choose_pair first second l) with
  | Ok (a, b) =>
      if injected ports devices then (Ok (a, b), now)
      else
        let '(r, now') := (wait_native_usb_ready enumerate connect close a ;;
          wait_native_usb_ready enumerate connect close b ;; skip) now in
        (_ ← r; Ok (a, b), now')
  | Exc e => (Exc e, now)
  | Stuck => (Stuck, now)
  end.
Proof.
  unfold resolve_pair, injected, mbind, M_bind, res_bind, lift, when.
  destruct (candidates _ _ _ _ _ _ _) as [l|e|]; [|done|done].
  destruct (choose_pair first second l) as [[a b]|e|]; [|done|done]. cbn [fst snd].
  destruct (_ && _); cbn [negb]; [|done].
  destruct (wait_native_usb_ready _ _ _ a now) as [[?|?|] ?]; [|done|done].
  by destruct (wait_native_usb_ready _ _ _ b _) as [[?|?|] ?].
Qed.

End ready.
End system.

(** ** Witnesses *)

Definition demo_port : port_info :=
  PortInfo (Some 0xCAFE) (Some 0x4070) (Some "A1") None (Some "I-SYST") (Some "HciController")
    (Some "HCI") (Some "/dev/ttyACM0").
Definition demo_log : port_info :=
  PortInfo (Some 0xCAFE) (Some 0x4070) (Some "A1") None (Some "I-SYST") (Some "HciController")
    (Some "Log") (Some "/dev/ttyACM1").
Definition demo_usb : usb_device :=
  UsbDevice 0xCAFE 0x4071 (inl OSError) (inr None) (inr (Some "B2")) (Some [None; Some [(0xE0, 1, 1)]]).

Definition demo_specs : list transport_spec :=
  [Spec (UsbTarget demo_usb) "native USB CAFE:4071 serial=B2" false
     (Some (Identity 0xCAFE 0x4071 "B2"));
   serial_spec "/dev/ttyACM0" "serial H:4 /dev/ttyACM0 (HCI)"].
Definition demo_usb_object : object := (0%nat, default (serial_spec "" "") (demo_specs !! 0%nat)).
Definition demo_serial_object : object := (1%nat, default (serial_spec "" "") (demo_specs !! 1%nat)).

(** Command Complete of Read BD_ADDR, with success and an address. *)
Definition bd_addr_complete : bytes := [4; 0x0e; 10; 1; 0x09; 0x10; 0; 1; 2; 3; 4; 5; 6].
Definition demo_connect (_ _ : nat) (_ : opening) : M Z SerialH4.state :=
  mret (SerialH4.Serial [] (SerialH4.deliver [bd_addr_complete]) [] []).
Definition demo_close (_ _ : nat) (_ : SerialH4.state) : M Z unit := skip.

Lemma demo_opens : opens_well demo_connect demo_close.
Proof.
  split; [|intros; cbn; lia]. intros i n o now. cbn. split; [lia|].
  apply (bool_decide_unpack (SerialH4.wf _)). by vm_compute.
Qed.

Abbreviation demo_run := (resolve_pair false (Some [demo_log; demo_port]) (Found (Some [demo_usb]))
  (λ _ _, Found (Some [demo_usb])) demo_connect demo_close None (Some "/dev/ttyACM0"%string) "auto"
  false None None 0).


(** Exclusion, decided. *)
Definition exclusiveb (specs : list transport_spec) (c : object) (s : string) : bool :=
  forallb (λ o, (fst o =? fst c)%nat || match matches (snd o) s with Ok b => negb b | _ => false end)
    (objects specs).

Lemma exclusiveb_ok specs c s : exclusiveb specs c s = true → exclusive specs c s.
Proof.
  intros H o Ho%elem_of_objects Hne. unfold exclusiveb in H. rewrite forallb_forall in H.
  specialize (H o (proj1 (list_elem_of_In _ _) Ho)).
  destruct (Nat.eqb_spec (fst o) (fst c)); [done|]. cbn in H.
  by destruct (matches (snd o) s) as [[]|e|].
Qed.

Lemma selectors_resolve_witness :
  candidates false None (Found None) "auto" false (Some [demo_log; demo_port]) (Some [demo_usb])
    = Ok demo_specs ∧
  choose_pair (Some "B2"%string) (Some "/dev/ttyACM0"%string) demo_specs
    = Ok (demo_usb_object, demo_serial_object).
Proof.
  split; [by vm_compute|].
  apply (selectors_resolve false None (Found None) "auto" false (Some [demo_log; demo_port])
    (Some [demo_usb]) demo_specs None None); [by vm_compute..|apply exclusiveb_ok; by vm_compute|
    apply exclusiveb_ok; by vm_compute].
Defined.

End DiscoveryLaws.
