(* ===== verification/Tools.v ===== *)
(** * Tools: the command-line tools (hci_ble_test_impl.py, hci_ble_test.py)

    Advertising with the GATT server behind it, scanning, connecting, flooding
    a controller with ACL data, reading its counters and the direct test mode,
    each as the program its cmd_ function runs over one engine, with its exit
    code; and the frame [main] puts around them. What a tool prints is returned
    where it is its result (the advertisers, the counters, the conclusions of a
    flood) and left out otherwise. Strings of the command line are ASCII. *)

From Stdlib Require Import Ascii String.
From stdpp Require Import pretty.
From S2P Require Export Pair Att Periodic Discovery.
#[local] Open Scope Z_scope.

Module Tools.
Import AttServer.

Definition OP_LE_SET_SCAN_PARAMS : Z := 0x200B.
Definition OP_LE_SET_SCAN_ENABLE : Z := 0x200C.
Definition OP_LE_CREATE_CONNECTION_CANCEL : Z := 0x200E.
Definition OP_LE_READ_REMOTE_FEATURES : Z := 0x2016.
Definition OP_LE_RECEIVER_TEST : Z := 0x201D.
Definition OP_LE_TRANSMITTER_TEST : Z := 0x201E.
Definition OP_LE_TEST_END : Z := 0x201F.
Definition OP_LE_SET_EXT_SCAN_RSP_DATA : Z := 0x2038.

(** ** Addresses *)

(** [addr_str(raw)]. *)
Definition addr_str (raw : bytes) : string :=
  String.concat ":" (map (Discovery.hex_fixed 2) (rev raw)).

(** [text.replace(c, "")] for each of the separators. *)
Fixpoint strip_separators (s : string) : string :=
  match s with
  | EmptyString => EmptyString
  | String c s' =>
      if Ascii.eqb c ":" || Ascii.eqb c "-" || Ascii.eqb c " " then strip_separators s'
      else String c (strip_separators s')
  end.

(** [bytes.fromhex(s)], None for ValueError: two digits per octet, white space
    between octets. *)
Fixpoint fromhex (s : string) : option bytes :=
  match s with
  | EmptyString => Some []
  | String c s' =>
      if Discovery.is_space c then fromhex s'
      else
        match Discovery.hex_value c, s' with
        | Some high, String c' s'' =>
            match Discovery.hex_value c' with
            | Some low => rest ← fromhex s''; Some (16 * high + low :: rest)
            | None => None
            end
        | _, _ => None
        end
  end.

(** [addr_bytes(text)]. *)
Definition addr_bytes (text : string) : res bytes :=
  let cleaned := strip_separators text in
  if negb (String.length cleaned =? 12)%nat then
    Exc (ValueError (Fmt ("%r is not a six octet address. Give it as AA:BB:CC:DD:EE:FF, "
      +:+ "AA-BB-CC-DD-EE-FF or aabbccddeeff.") [AStr text]))
  else
    match fromhex cleaned with
    | Some raw => Ok (rev raw)
    | None => Exc (ValueError (Fmt "%r has a character that is not a hex digit" [AStr text]))
    end.

(** ** Advertising reports *)

(** [parse_ext_report(body)] and [parse_legacy_report(body)]: address, RSSI,
    data. *)
Definition parse_ext_report (body : bytes) : res (option (string * Z * bytes)) :=
  if (length body <? 26)%nat then Ok None
  else
    data_len ← idx body 25;
    rssi ← unpack_b (slice 15 16 body);
    Ok (Some (addr_str (slice 5 11 body), rssi, slice 26 (26 + Z.to_nat data_len) body)).

Definition parse_legacy_report (body : bytes) : res (option (string * Z * bytes)) :=
  if (length body <? 12)%nat then Ok None
  else
    len ← idx body 10;
    let data_len := Z.to_nat len in
    if (length body <? 11 + data_len + 1)%nat then Ok None
    else
      rssi ← unpack_b (slice (11 + data_len) (12 + data_len) body);
      Ok (Some (addr_str (slice 4 10 body), rssi, slice 11 (11 + data_len) body)).

(** [local_name(data)], in UTF-8: the first name field; a turn of the loop
    moves on by two octets at least. *)
Fixpoint name_from (fuel : nat) (data : bytes) (i : nat) : bytes :=
  match fuel with
  | O => []
  | S fuel' =>
      match data !! i, data !! S i with
      | Some field_len, Some field_type =>
          let next := (i + 1 + Z.to_nat field_len)%nat in
          if (field_len =? 0) || (length data <? next)%nat then []
          else if (field_type =? 0x08) || (field_type =? 0x09) then slice (i + 2) next data
          else name_from fuel' data next
      | _, _ => []
      end
  end.

Definition local_name (data : bytes) : bytes := name_from (length data) data 0.

(** What is kept of an advertiser. *)
Record entry : Type := Entry { e_count : nat; e_rssi : Z; e_name : bytes }.

Definition hear (rssi : Z) (name : bytes) (e : entry) : entry :=
  Entry (S (e_count e)) (Z.max (e_rssi e) rssi)
        (match name with [] => e_name e | _ => name end).

(** [seen.setdefault(addr, ...)] and the update of the entry; a dict keeps the
    order of first insertion. *)
Fixpoint note (addr : string) (rssi : Z) (name : bytes) (seen : list (string * entry))
  : list (string * entry) :=
  match seen with
  | [] => [(addr, hear rssi name (Entry 0 rssi []))]
  | (a, e) :: rest =>
      if String.eqb a addr then (a, hear rssi name e) :: rest
      else (a, e) :: note addr rssi name rest
  end.

(** The report a packet carries. *)
Definition report_of (p : packet) : res (option (string * Z * bytes)) :=
  if negb (is_event EVT_LE_META p) then Ok None
  else
    sub ← idx (body p) 0;
    if sub =? LE_EXTENDED_ADVERTISING_REPORT then parse_ext_report (body p)
    else if sub =? LE_ADVERTISING_REPORT then parse_legacy_report (body p)
    else Ok None.

Definition tally (seen : list (string * entry)) (r : option (string * Z * bytes))
  : list (string * entry) :=
  match r with
  | Some (addr, rssi, data) => note addr rssi (local_name data) seen
  | None => seen
  end.

(** [sorted(seen.items(), key=lambda kv: -kv[1]["count"])[:20]]. *)
Definition loudest (seen : list (string * entry)) : list (string * entry) :=
  take 20 (sort_by (λ x y, (e_count (snd y) <? e_count (snd x))%nat) seen).

(** ** Counters *)

Definition COUNTER_NAMES : list string :=
  ["commands accepted"; "unknown opcodes"; "malformed packets"; "wrong parameter length";
   "handler errors"; "event backpressure"; "ACL refused by controller";
   "ISO refused by controller"; "controller asked for retry"; "controller queue errors";
   "unknown output types"; "bad output lengths"; "command responses deferred";
   "oversize ACL from host"; "ISO dropped"; "credit table overflow";
   "ACL taken by controller"; "ISO taken by controller"; "H4 bad packet indicator";
   "H4 oversize packet"; "H4 delivery retried"; "transport read errors";
   "transport write errors"; "transport write deferred"; "transport tx oversize";
   "host packet retried"; "host packet rejected"; "controller get errors";
   "controller packet rejected"; "controller packet unsendable";
   "host over its ACL credits"; "link table overflow"]%string.
Definition POOL_FIRST_INDEX : nat := 32.
Definition POOL_NAMES : list string := ["SDC pool required"; "SDC pool reserved"]%string.

Definition COUNTER_EXTRA_NAMES : list (nat * string) :=
  [(34%nat, "PAwR delayed candidates"); (35%nat, "PAwR delayed handler calls");
   (36%nat, "PAwR synthetic suppressed"); (37%nat, "PAwR SDC completions");
   (38%nat, "controller ACL packets fetched"); (39%nat, "host ACL packets accepted");
   (40%nat, "USB Event-IN host transactions"); (41%nat, "USB Event-IN DMA completions");
   (42%nat, "USB Event-IN continuations"); (43%nat, "USB Event-IN logical completions");
   (44%nat, "USB Event-IN bad AMOUNT"); (45%nat, "USB Event-IN stale status");
   (46%nat, "USB Event-IN/EPOUT2 collisions"); (47%nat, "USB Event-IN late status");
   (48%nat, "USB Event-IN/EPOUT2 END overlap")]%string.
Definition COUNTER_TRACE_FIRST : nat := 49.
Definition COUNTER_TRACE_COUNT : nat := 13.

(** A printed counter: its name, its value, how far it moved. *)
Definition counter_row (values : list Z) (baseline : option (list Z)) (c : nat * string)
  : option (string * Z * option Z) :=
  match values !! fst c with
  | None => None
  | Some value =>
      match baseline with
      | Some b =>
          let delta := value - default 0 (b !! fst c) in
          if delta =? 0 then None else Some (snd c, value, Some delta)
      | None => if value =? 0 then None else Some (snd c, value, None)
      end
  end.

Definition counter_names : list (nat * string) := imap (λ i name, (i, name)) COUNTER_NAMES ++ COUNTER_EXTRA_NAMES.

(** [print_pool(values)]: required, reserved, headroom (None when the
    controller asked for more). *)
Definition pool_rows (values : list Z) : option (Z * Z * option Z) :=
  match values !! POOL_FIRST_INDEX, values !! S POOL_FIRST_INDEX with
  | Some required, Some reserved =>
      if (required =? 0) && (reserved =? 0) then None
      else Some (required, reserved,
                 if required <=? reserved then Some (reserved - required) else None)
  | _, _ => None
  end.

(** [_print_event_ack_trace(values)]: slot, chunk and the three octets. *)
Definition ack_trace (values : list Z) : list (nat * Z * bytes) :=
  let trace := slice COUNTER_TRACE_FIRST (COUNTER_TRACE_FIRST + COUNTER_TRACE_COUNT) values in
  if forallb (Z.eqb 0) trace then []
  else imap (λ slot word,
         (slot, Z.land (Z.shiftr word 24) 0xFF,
          [Z.land word 0xFF; Z.land (Z.shiftr word 8) 0xFF; Z.land (Z.shiftr word 16) 0xFF]))
       trace.

Record counter_print : Type := CounterPrint {
  moved_rows : list (string * Z * option Z); all_zero : bool;
  pool : option (Z * Z * option Z); trace_rows : list (nat * Z * bytes) }.

(** [print_counters(values, baseline)], as hci_ble_test.py replaces it. *)
Definition print_counters (values : list Z) (baseline : option (list Z)) : counter_print :=
  let nonzero i := negb (default 0 (values !! i) =? 0) in
  let any_counter := existsb (λ c, nonzero (fst c)) counter_names in
  let no_baseline := bool_decide (baseline = None) in
  CounterPrint (omap (counter_row values baseline) counter_names)
    (no_baseline && negb any_counter)
    (pool_rows values)
    (if no_baseline then ack_trace values else []).

(** ** The tools *)

Section tools.
Context {T : Type} `{!Transport T}.
Abbreviation D := (M (dev (T:=T))).

(** [time.sleep], in microseconds. *)
Definition sleep (us : Z) : D unit :=
  if us <? 0 then raise (ValueError (Lit "sleep length must be non-negative"))
  else modify (λ s, (fst s + us, snd s)).

Definition note_unsupported (opcode name : string) : D unit :=
  on_hci (modify (add_unsupported (opcode, name))).

(** *** scan *)

Definition scan_step (seen : list (string * entry)) (p : packet)
  : D (list (string * entry) + Empty_set) :=
  r ← lift (report_of p); mret (inl (tally seen r)).

(** The packets of [args.seconds]. *)
Definition listen (secs : Z) : D (list (string * entry)) :=
  r ← poll (λ _, ms 200) scan_step (ms 200) (seconds secs) [];
  mret (match r with inl seen => seen | inr e => match (e : Empty_set) with end end).

Definition start_scan (active : bool) (addr_type : Z) : D bool :=
  head ← lift (mkbytes [addr_type; 0x00; 0x01]);
  interval ← lift (pack [FH 0x0060]); window ← lift (pack [FH 0x0030]);
  let filter_type := if active then 0x01 else 0x00 in
  r ← command OP_LE_SET_EXT_SCAN_PARAMS (head ++ [filter_type] ++ interval ++ window) true;
  if fst r =? 0 then
    zero ← lift (pack [FH 0; FH 0]);
    command OP_LE_SET_EXT_SCAN_ENABLE ([0x01; 0x00] ++ zero) false ;;
    mret true
  else
    note_unsupported "0x2041" "LE Set Extended Scan Parameters" ;;
    legacy ← lift (pack [FH 0x0060; FH 0x0030]);
    own ← lift (mkbytes [addr_type; 0x00]);
    command OP_LE_SET_SCAN_PARAMS ([filter_type] ++ legacy ++ own) false ;;
    command OP_LE_SET_SCAN_ENABLE [0x01; 0x00] false ;;
    mret false.

Definition stop_scan (extended : bool) : D unit :=
  if extended then
    zero ← lift (pack [FH 0; FH 0]);
    command OP_LE_SET_EXT_SCAN_ENABLE ([0x00; 0x00] ++ zero) true ;; skip
  else command OP_LE_SET_SCAN_ENABLE [0x00; 0x00] true ;; skip.

(** [hci.identity()] and the random address it may need. *)
Definition take_identity : D Z :=
  id ← Hci.identity None;
  let '(identity, addr_type, _) := (id : bytes * Z * id_source) in
  when (addr_type =? 0x01) (command OP_LE_SET_RANDOM_ADDRESS identity false ;; skip) ;;
  mret addr_type.

(** [cmd_scan]: the exit code, the number of advertisers, the loudest ones. *)
Definition cmd_scan (secs : Z) (active : bool) : D (Z * nat * list (string * entry)) :=
  setup ;;
  addr_type ← take_identity;
  extended ← start_scan active addr_type;
  seen ← listen secs;
  stop_scan extended ;;
  mret (match seen with [] => 1 | _ => 0 end, length seen, loudest seen).

(** *** flood *)

Inductive buffers : Type :=
  | LinkDropped (reason : Z)
  | NeverBack (missing : Z) (at_limit : bool)
  | AllBack
  | NothingSent.

Inductive routing : Type :=
  | AboveRouting (lost : Z) (upstream : list (string * Z))
  | RetryAsked (retries : Z)
  | RefusedOther (refused : Z)
  | OverCredits (overrun advertised : Z)
  | NothingRefused (advertised : Z).

Record flood_report : Type := Flood {
  f_moved : counter_print; f_reached : Z; f_taken : Z; f_stopped : Z; f_completed : Z;
  f_drained_for : Z; f_buffers : buffers; f_routing : routing; f_oversize : Z }.

(** The supervision timeout, in microseconds, the quiet period that has to
    outlast it, and the limit of the drain. *)
Definition supervision (link_timeout : Z) : Z := link_timeout * 10000.
Definition quiet_time (link_timeout : Z) : Z := Z.max (seconds 6) (link_timeout * 15000).
Definition drain_limit (link_timeout : Z) : Z := Z.max (seconds 60) (supervision link_timeout * 6).

Fixpoint quiet_loop (fuel : nat) (quiet limit started last_progress : Z) : D unit :=
  match fuel with
  | O => λ s, (Stuck, s)
  | S fuel' =>
      now ← gets fst;
      if (now - last_progress <? quiet) && (now - started <? limit) then
        seen ← gets (λ s, acl_completed (snd s));
        read_packet (ms 200) ;;
        completed ← gets (λ s, acl_completed (snd s));
        if negb (completed =? seen) then
          now ← gets fst; quiet_loop fuel' quiet limit started now
        else quiet_loop fuel' quiet limit started last_progress
      else skip
  end.

(** The packets still to come, and one turn per read until the limit. *)
Definition quiet_fuel (limit : Z) (s : dev (T:=T)) : nat :=
  (length (pending (snd s)) + t_backlog (transport (snd s))
   + Z.to_nat ((limit + ms 200 - 1) / ms 200) + 1)%nat.

Definition drain_quiet (link_timeout : Z) : D Z :=
  started ← gets fst;
  fuel ← gets (quiet_fuel (drain_limit link_timeout));
  quiet_loop fuel (quiet_time link_timeout) (drain_limit link_timeout) started started ;;
  ended ← gets fst;
  mret (ended - started).

(** [after[i] - before[i]]. *)
Definition counter_delta (before after : list Z) (i : nat) : res Z :=
  a ← idx after i; b ← idx before i; Ok (a - b).

Fixpoint upstream_from (n i : nat) (before after : list Z) : res (list (string * Z)) :=
  match n with
  | O => Ok []
  | S n' =>
      a ← idx after i; b ← idx before i;
      rest ← upstream_from n' (S i) before after;
      if a =? b then Ok rest
      else name ← idx COUNTER_NAMES i; Ok ((name, a - b) :: rest)
  end.

Definition judge_buffers (h : hci T) (count completed drained_for limit : Z) : buffers :=
  match link_down h with
  | Some (_, _, reason) => LinkDropped reason
  | None =>
      if completed <? count
      then NeverBack (count - completed) (limit - seconds 1 <=? drained_for)
      else if 0 <? count then AllBack else NothingSent
  end.

Definition judge_routing (h : hci T) (before after : list Z)
    (lost retries refused overrun : Z) : res routing :=
  if 0 <? lost then
    upstream ← upstream_from (Nat.min 30 (length after) - 18) 18 before after;
    Ok (AboveRouting lost upstream)
  else if negb (retries =? 0) then Ok (RetryAsked retries)
  else if negb (refused =? 0) then Ok (RefusedOther refused)
  else if negb (overrun =? 0) then Ok (OverCredits overrun (acl_advertised h))
  else Ok (NothingRefused (acl_advertised h)).

Definition flood_judge (h : hci T) (count completed drained_for link_timeout : Z)
    (before after : list Z) : res flood_report :=
  taken ← counter_delta before after 16;
  refused ← counter_delta before after 6;
  overrun ← (if (30 <? length after)%nat then counter_delta before after 30 else Ok 0);
  retries ← counter_delta before after 8;
  oversize ← counter_delta before after 13;
  let reached := taken + refused + oversize + overrun in
  routing ← judge_routing h before after (count - reached) retries refused overrun;
  Ok (Flood (print_counters after (Some before)) reached taken (refused + oversize + overrun)
        completed drained_for (judge_buffers h count completed drained_for (drain_limit link_timeout))
        routing oversize).

(** [flood_acl(hci, conn_handle, count, peer_mtu, link_timeout)]: None without
    a counter readout. *)
Definition flood_acl (conn_handle count peer_mtu link_timeout : Z) : D (option flood_report) :=
  before ← read_counters;
  match before with
  | None => mret None
  | Some before =>
      let value_len := Z.max 1 (Z.min peer_mtu 247 - 3) in
      head ← lift (pack [FB ATT_WRITE_CMD; FH 0xFFFF]);
      let payload := head ++ replicate (Z.to_nat value_len) 0xA5 in
      completed_before ← gets (λ s, acl_completed (snd s));
      for_each (seq 0 (Z.to_nat count)) (λ _, send_acl conn_handle CID_ATT payload) ;;
      drained_for ← drain_quiet link_timeout;
      h ← gets snd;
      let completed := acl_completed h - completed_before in
      after ← read_counters;
      match after with
      | None => mret None
      | Some after =>
          h ← gets snd;
          report ← lift (flood_judge h count completed drained_for link_timeout before after);
          mret (Some report)
      end
  end.

(** *** connect *)

(** The handle of a connection, or None when it failed. *)
Definition connected_step (_ : unit) (p : packet) : D (unit + option Z) :=
  if negb (is_event EVT_LE_META p) then mret (inl tt)
  else
    info ← lift (parse_connection (body p));
    mret (match info with
          | None => inl tt
          | Some c => if negb (ci_status c =? 0) then inr None else inr (Some (ci_handle c))
          end).

(** The MTU of an ATT Exchange MTU Response. *)
Definition mtu_step (_ : unit) (p : packet) : D (unit + Z) :=
  if negb (kind p =? H4_ACL) then mret (inl tt)
  else
    len ← lift (unpack_H (slice 2 4 (body p)));
    let l2cap := slice 4 (4 + Z.to_nat len) (body p) in
    if (length l2cap <? 5)%nat then mret (inl tt)
    else
      header ← lift (unpack_HH (slice 0 4 l2cap));
      op ← lift (idx l2cap 4);
      if (snd header =? CID_ATT) && (op =? ATT_EXCHANGE_MTU_RSP) then
        mtu ← lift (unpack_H (slice 5 7 l2cap));
        mret (inr mtu)
      else mret (inl tt).

Definition create_connection (peer : bytes) (random : bool) (addr_type : Z) : D Z :=
  scan ← lift (pack [FH 0x0060; FH 0x0030]);
  own ← lift (mkbytes [addr_type]);
  interval ← lift (pack [FH 0x0018; FH 0x0028]);
  latency ← lift (pack [FH 0; FH 400]);
  ce ← lift (pack [FH 0; FH 0]);
  r ← command OP_LE_CREATE_CONNECTION
    (scan ++ [0x00] ++ [if random then 0x01 else 0x00] ++ peer ++ own ++ interval ++ latency ++ ce) true;
  mret (fst r).

(** The link is up: the MTU exchange, the flood asked for, the disconnection
    and the verdict. The supervision timeout of the link is not used: the
    source sets it to 400 here. *)
Definition use_link (handle flood : Z) : D (Z * option flood_report) :=
  request ← lift (pack [FB ATT_EXCHANGE_MTU_REQ; FH 247]);
  send_acl handle CID_ATT request ;;
  got ← poll (λ _, ms 200) mtu_step (ms 200) (seconds 5) tt;
  let peer_mtu := match got with inr mtu => mtu | inl _ => 23 end in
  report ← (if flood =? 0 then mret None else flood_acl handle flood peer_mtu 400);
  h ← lift (pack [FH handle; FB 0x13]);
  command OP_DISCONNECT h true ;;
  sleep (ms 300) ;;
  down ← gets (λ s, link_down (snd s));
  mret (match got, down with inl _, _ => 1 | inr _, Some _ => 1 | inr _, None => 0 end, report).

(** [cmd_connect]: the exit code and the report of a flood. *)
Definition cmd_connect (address : string) (random : bool) (secs flood : Z)
  : D (Z * option flood_report) :=
  setup ;;
  peer ← lift (addr_bytes address);
  addr_type ← take_identity;
  status ← create_connection peer random addr_type;
  if status =? 0x01 then
    note_unsupported "0x200D" "LE Create Connection" ;; mret (1, None)
  else if negb (status =? 0) then
    raise (HciError (Fmt "LE Create Connection returned 0x%02X %s" (AInt status :: status_text status)))
  else
    r ← poll (λ _, ms 200) connected_step (ms 200) (seconds secs) tt;
    match r with
    | inr (Some handle) => use_link handle flood
    | inr None => mret (1, None)
    | inl _ => command OP_LE_CREATE_CONNECTION_CANCEL [] true ;; mret (1, None)
    end.

(** *** counters, dtm-tx, dtm-rx *)

Definition cmd_counters : D (Z * option counter_print) :=
  values ← read_counters;
  match values with
  | None => note_unsupported "0xFFF0" "VS Read Counters" ;; mret (1, None)
  | Some values => mret (0, Some (print_counters values None))
  end.

(** The packet count LE Test End returns. *)
Definition test_end : D Z :=
  r ← command OP_LE_TEST_END [] false;
  lift (unpack_H (take 2 (snd r))).

Definition cmd_dtm_tx (channel length payload secs : Z) : D (Z * Z) :=
  command OP_RESET [] false ;;
  params ← lift (mkbytes [channel; length; payload]);
  command OP_LE_TRANSMITTER_TEST params false ;;
  sleep (seconds secs) ;;
  packets ← test_end;
  mret (0, packets).

(** [100.0 * (expected - received) / expected > 30.0], in whole numbers. *)
Definition per_high (expected received : Z) : bool :=
  if 0 <? expected then 30 * expected <? 100 * (expected - received)
  else 100 * (expected - received) <? 30 * expected.

Definition cmd_dtm_rx (channel secs expected : Z) : D (Z * Z) :=
  command OP_RESET [] false ;;
  params ← lift (mkbytes [channel]);
  command OP_LE_RECEIVER_TEST params false ;;
  sleep (seconds secs) ;;
  received ← test_end;
  mret (if negb (expected =? 0) then if per_high expected received then 1 else 0
        else if received =? 0 then 1 else 0, received).

(** *** advertise *)

(** The local variables of [cmd_advertise]. The server is the last one created,
    which the wrapper in hci_ble_test.py remembers; [att] is that server while
    its link is up and None otherwise. *)
Record advertiser : Type := Adv {
  server : option att; live : bool; conn_handle : option Z; acl_rx : Z;
  next_notify : Z; counter : Z }.

Definition the_att (a : advertiser) : option att := if live a then server a else None.
Definition set_server (s : option att) (a : advertiser) : advertiser :=
  Adv s (live a) (conn_handle a) (acl_rx a) (next_notify a) (counter a).
Definition set_conn (h : option Z) (a : advertiser) : advertiser :=
  Adv (server a) (live a) h (acl_rx a) (next_notify a) (counter a).
Definition set_notify (next count : Z) (a : advertiser) : advertiser :=
  Adv (server a) (live a) (conn_handle a) (acl_rx a) next count.
Definition count_acl (a : advertiser) : advertiser :=
  Adv (server a) (live a) (conn_handle a) (acl_rx a + 1) (next_notify a) (counter a).
Definition new_server (s : att) (handle : Z) (a : advertiser) : advertiser :=
  Adv (Some s) true (Some handle) (acl_rx a) (next_notify a) (counter a).
Definition link_lost (a : advertiser) : advertiser :=
  Adv (server a) false None (acl_rx a) (next_notify a) (counter a).

(** A method of the server, on the engine it holds. *)
Definition on_server {X} (s : att) (m : A X) : D (X * att) := λ d,
  let '(r, (d', s')) := m (d, s) in (x ← r; Ok (x, s'), d').

Definition ascii_bytes (s : string) : bytes :=
  map (λ c, Z.of_nat (nat_of_ascii c)) (list_ascii_of_string s).

(** [b"tick %d\r\n" % counter]. *)
Definition tick (n : Z) : bytes := ascii_bytes ("tick " +:+ pretty n) ++ [13; 10].

(** Data for a peer that has subscribed, while there are credits. *)
Definition push_data (a : advertiser) : D advertiser :=
  match the_att a with
  | None => mret a
  | Some s =>
      now ← gets fst;
      credits ← gets (λ d, acl_credits (snd d));
      if (next_notify a <=? now) && (0 <? credits) then
        r ← on_server s (notify (tick (counter a + 1)));
        let '(notified, s) := (r : bool * att) in
        now ← gets fst;
        let a := set_server (Some s) a in
        mret (if notified then set_notify (now + seconds 1) (counter a + 1) a
              else set_notify (now + ms 500) (counter a) a)
      else mret a
  end.

(** An ACL packet: one L2CAP frame for the server. *)
Definition on_acl (body : bytes) (a : advertiser) : D advertiser :=
  lift (unpack_H (slice 0 2 body)) ;;
  len ← lift (unpack_H (slice 2 4 body));
  let l2cap := slice 4 (4 + Z.to_nat len) body in
  if (length l2cap <? 4)%nat then mret a
  else
    header ← lift (unpack_HH (slice 0 4 l2cap));
    let '(plen, cid) := (header : Z * Z) in
    let a := count_acl a in
    match the_att a with
    | None => mret a
    | Some s =>
        r ← on_server s (feed (slice 4 (4 + Z.to_nat plen) l2cap) cid);
        mret (set_server (Some (snd r)) a)
    end.

(** The fields of the events it only prints; reading them may raise. *)
Definition printed_event (body : bytes) : res unit :=
  sub ← idx body 0;
  let ok := (b ← idx body 1; Ok (b =? 0)) in
  if sub =? LE_READ_REMOTE_FEATURES_COMPLETE then ok ≫= λ _, Ok tt
  else if sub =? LE_DATA_LENGTH_CHANGE then unpack_H (slice 3 5 body) ≫= λ _, Ok tt
  else if sub =? LE_PHY_UPDATE_COMPLETE then
    good ← ok;
    if (good : bool) then idx body 4 ≫= λ _, idx body 5 ≫= λ _, Ok tt else Ok tt
  else if sub =? LE_CONNECTION_UPDATE_COMPLETE then
    good ← ok;
    if (good : bool) then unpack_HHH (slice 4 10 body) ≫= λ _, Ok tt else Ok tt
  else Ok tt.

Definition on_le_event (name body : bytes) (a : advertiser) : D advertiser :=
  info ← lift (parse_connection body);
  match info with
  | Some c =>
      if negb (ci_status c =? 0) then mret (set_conn None a)
      else
        s ← lift (init (ci_handle c) name);
        h ← lift (pack [FH (ci_handle c)]);
        command OP_LE_READ_REMOTE_FEATURES h true ;;
        mret (new_server s (ci_handle c) a)
  | None => lift (printed_event body) ;; mret a
  end.

(** What the loop does with a packet; the flag says that it breaks off. *)
Definition advertise_packet (name : bytes) (p : packet) (a : advertiser) : D (advertiser * bool) :=
  if kind p =? H4_ACL then a ← on_acl (body p) a; mret (a, false)
  else if negb (kind p =? H4_EVENT) then mret (a, false)
  else if bool_decide (code p = Some EVT_LE_META) then
    a ← on_le_event name (body p) a; mret (a, false)
  else if bool_decide (code p = Some EVT_DISCONNECTION_COMPLETE) then
    lift (idx (body p) 3) ;; mret (link_lost a, true)
  else mret (a, false).

Fixpoint advertise_loop (fuel : nat) (name : bytes) (deadline : Z) (a : advertiser) : D advertiser :=
  match fuel with
  | O => λ s, (Stuck, s)
  | S fuel' =>
      now ← gets fst;
      if deadline <=? now then mret a
      else
        a ← push_data a;
        p ← read_packet (ms 200);
        match p with
        | None => advertise_loop fuel' name deadline a
        | Some p =>
            r ← advertise_packet name p a;
            let '(a, broken) := (r : advertiser * bool) in
            if broken then mret a else advertise_loop fuel' name deadline a
        end
  end.

Definition serve (name : bytes) (secs : Z) : D advertiser :=
  now ← gets fst;
  fuel ← gets (poll_fuel (ms 200) (seconds secs));
  advertise_loop fuel name (now + seconds secs) (Adv None false None 0 0 0).

Definition ADV_HANDLE : Z := 0.

Definition extended_params (addr_type : Z) : res bytes :=
  properties ← pack [FH 0x0013];
  low ← to_bytes_le 3 0x0000A0; high ← to_bytes_le 3 0x0000A0;
  own ← mkbytes [addr_type];
  Ok ([ADV_HANDLE] ++ properties ++ low ++ high ++ [0x07] ++ own ++ [0x00] ++ zeros 6
      ++ [0x00; 0x7F; 0x01; 0x00; 0x01; 0x00; 0x00]).

Definition adv_enable (on : Z) : res bytes :=
  zero ← pack [FH 0]; Ok ([on; 0x01; ADV_HANDLE] ++ zero ++ [0]).

Definition start_extended (identity : bytes) (addr_type : Z) (adv : bytes) : D unit :=
  when (addr_type =? 0x01)
    (command OP_LE_SET_ADV_SET_RANDOM_ADDRESS ([ADV_HANDLE] ++ identity) false ;; skip) ;;
  data ← lift (mkbytes [ADV_HANDLE; 0x03; 0x01; blen adv]);
  command OP_LE_SET_EXT_ADV_DATA (data ++ adv) false ;;
  command OP_LE_SET_EXT_SCAN_RSP_DATA [ADV_HANDLE; 0x03; 0x01; 0] false ;;
  enable ← lift (adv_enable 0x01);
  command OP_LE_SET_EXT_ADV_ENABLE enable false ;; skip.

Definition start_legacy (identity : bytes) (addr_type : Z) (adv : bytes) : D unit :=
  note_unsupported "0x2036" "LE Set Extended Advertising Parameters" ;;
  when (addr_type =? 0x01) (command OP_LE_SET_RANDOM_ADDRESS identity false ;; skip) ;;
  interval ← lift (pack [FH 0x00A0; FH 0x00A0]);
  own ← lift (mkbytes [addr_type; 0x00]);
  command OP_LE_SET_ADV_PARAMS (interval ++ [0x00] ++ own ++ zeros 6 ++ [0x07; 0x00]) false ;;
  len ← lift (mkbytes [blen adv]);
  command OP_LE_SET_ADV_DATA (len ++ adv ++ zeros (31 - length adv)) false ;;
  command OP_LE_SET_SCAN_RSP_DATA (zeros 32) false ;;
  command OP_LE_SET_ADV_ENABLE [0x01] false ;; skip.

(** [while hci.read_packet(0.2) is not None: pass]. *)
Fixpoint read_out (fuel : nat) : D unit :=
  match fuel with
  | O => λ s, (Stuck, s)
  | S fuel' =>
      p ← read_packet (ms 200);
      match p with Some _ => read_out fuel' | None => skip end
  end.

Definition close_link (handle : Z) : D unit :=
  h ← lift (pack [FH handle; FB 0x13]);
  r ← command OP_DISCONNECT h true;
  when (fst r =? 0x01) (note_unsupported "0x0406" "Disconnect") ;;
  sleep (ms 300) ;;
  fuel ← gets (λ s : dev (T:=T), (length (pending (snd s)) + t_backlog (transport (snd s)) + 1)%nat);
  read_out fuel.

Definition stop_advertising (extended : bool) : D unit :=
  if extended then
    enable ← lift (adv_enable 0x00); command OP_LE_SET_EXT_ADV_ENABLE enable true ;; skip
  else command OP_LE_SET_ADV_ENABLE [0x00] true ;; skip.

(** The verdict on a server: data went both ways and credits are left. *)
Definition both_ways (s : att) (credits : Z) : bool :=
  negb (responses s =? 0)%nat && (0 <? credits).

(** [cmd_advertise] of the implementation: the exit code and its variables. *)
Definition impl_cmd_advertise (name : bytes) (secs : Z) (addr : option string)
  : D (Z * advertiser) :=
  setup ;;
  override ← match addr with
             | Some (String _ _ as text) => raw ← lift (addr_bytes text); mret (Some raw)
             | _ => mret None
             end;
  id ← Hci.identity override;
  let '(identity, addr_type, _) := (id : bytes * Z * id_source) in
  len ← lift (mkbytes [blen name + 1; 0x09]);
  let adv := [2; 0x01; 0x06] ++ len ++ name in
  params ← lift (extended_params addr_type);
  r ← command OP_LE_SET_EXT_ADV_PARAMS params true;
  let extended := fst r =? 0 in
  (if extended then start_extended identity addr_type adv
   else start_legacy identity addr_type adv) ;;
  a ← serve name secs;
  match conn_handle a with Some handle => close_link handle | None => skip end ;;
  stop_advertising extended ;;
  credits ← gets (λ s, acl_credits (snd s));
  mret (match the_att a with
        | None => 1
        | Some s => if both_ways s credits then 0 else 1
        end, a).

(** [cmd_advertise] of hci_ble_test.py: once anything has arrived, the verdict
    is that of the last connection, which a disconnect no longer erases. *)
Definition cmd_advertise (name : bytes) (secs : Z) (addr : option string) : D Z :=
  r ← impl_cmd_advertise name secs addr;
  let '(result, a) := (r : Z * advertiser) in
  credits ← gets (λ s, acl_credits (snd s));
  mret (if bool_decide (the_att a = None) && (acl_rx a =? 0) then result
        else match server a with
             | None => result
             | Some s => if both_ways s credits then 0 else 1
             end).

(** ** [main] *)

(** The subcommands of the parser with their options; the probe has files of
    its own. *)
Inductive mode : Type :=
  | Advertise (name : bytes) (secs : Z) (addr : option string)
  | Scan (secs : Z) (active : bool)
  | Connect (address : string) (random : bool) (secs flood : Z)
  | Counters
  | DtmTx (channel length payload secs : Z)
  | DtmRx (channel secs expected : Z).

(** [args.func(hci, args)]. *)
Definition func (m : mode) : D Z :=
  match m with
  | Advertise name secs addr => cmd_advertise name secs addr
  | Scan secs active => r ← cmd_scan secs active; mret (fst (fst r))
  | Connect address random secs flood => r ← cmd_connect address random secs flood; mret (fst r)
  | Counters => r ← cmd_counters; mret (fst r)
  | DtmTx channel length payload secs => r ← cmd_dtm_tx channel length payload secs; mret (fst r)
  | DtmRx channel secs expected => r ← cmd_dtm_rx channel secs expected; mret (fst r)
  end.

(** The exit code of a tool run by [main]. *)
Definition run_tool (tool : D Z) : D Z :=
  try_except is_hci_error tool
    (λ e, match e with HciGone _ => mret 3 | _ => mret 1 end).
End tools.

(** [_impl.main], behind the parsed arguments: 2 without a port. *)
Definition main_code {T} `{!Transport T} (port : option (M Z T)) (tool : M (dev (T:=T)) Z) : M Z Z :=
  match port with
  | None => mret 2
  | Some open => λ now,
      match open now with
      | (Ok t, now) => let '(r, (now, _)) := run_tool tool (now, init_hci t) in (r, now)
      | (Exc e, now) => (Exc e, now)
      | (Stuck, now) => (Stuck, now)
      end
  end.

(** The options of [hci_ble_test.main]: the transport, the USB selector, bulk
    serialization and the arguments left. None is its exit code 2. *)
Definition names_port (arg : string) : bool :=
  String.eqb arg "-p" || String.eqb arg "--port" || String.prefix "--port=" arg.

Definition transport_options (transport : string) (usb : option string) (usb_bulk : bool)
    (remaining : list string) : option (string * option string * bool) :=
  let with_usb := match usb with Some (String _ _) => true | _ => false end in
  if String.eqb transport "serial" && (with_usb || usb_bulk) then None
  else if String.eqb transport "usb" && existsb names_port remaining then None
  else Some (if with_usb || usb_bulk then "usb"%string else transport, usb, usb_bulk).

(** [_find_selected_transport()]. *)
Definition find_selected_transport (darwin : bool) (os_ports : option (list Discovery.port_info))
    (os_usb : Discovery.enumeration) (kind : string) (usb : option string) (usb_bulk : bool)
  : res (option Discovery.transport_spec) :=
  match Discovery.discover darwin os_ports os_usb kind usb usb_bulk None None with
  | Exc e => if is_transport_error e then Ok None else Exc e
  | r => r
  end.

End Tools.
