(* ===== verification/ToolsLaws.v ===== *)
(** * ToolsLaws: what the command-line tools guarantee

    Addresses are read as they are printed; the scan's table is a tally of the
    reports read; every tool ends and [main] turns its errors into an exit
    code; a flood writes the packets it was asked for, no more, between two
    readings of the counters; connecting succeeds only over a link that is
    still up. *)

From Stdlib Require Import Ascii String Sorting.Sorted.
From stdpp Require Import sets sorting.
From S2P Require Import Tools Ends DiscoveryLaws.
#[local] Open Scope Z_scope.

Module ToolsLaws.
Import AttServer AttLaws Tools.

(** ** Addresses *)

(** A digit is no separator. *)
Lemma hex_char_kept d : 0 ≤ d < 16 →
  Ascii.eqb (Discovery.hex_char d) ":" || Ascii.eqb (Discovery.hex_char d) "-"
  || Ascii.eqb (Discovery.hex_char d) " " = false.
Proof.
  intros Hd. by apply (DiscoveryLaws.all_digits (λ d, Ascii.eqb (Discovery.hex_char d) ":"
    || Ascii.eqb (Discovery.hex_char d) "-" || Ascii.eqb (Discovery.hex_char d) " " = false)).
Qed.

(** The two digits of an octet. *)
Definition octet (b : Z) (s : string) : string :=
  String (Discovery.hex_char (b / 16)) (String (Discovery.hex_char (b mod 16)) s).

Lemma hex_octet b : is_byte b → Discovery.hex_fixed 2 b = octet b "".
Proof.
  intros Hb. unfold octet. cbn [Discovery.hex_fixed]. change (16 ^ Z.of_nat 1) with 16.
  change (16 ^ Z.of_nat 0) with 1. rewrite Z.div_1_r, (Z.mod_small (b / 16)); [done|].
  unfold is_byte in Hb. split; [apply Z.div_pos; lia|apply Z.div_lt_upper_bound; lia].
Qed.

Lemma nibbles b : is_byte b → 0 ≤ b / 16 < 16 ∧ 0 ≤ b mod 16 < 16 ∧ 16 * (b / 16) + b mod 16 = b.
Proof.
  unfold is_byte. intros Hb. split_and!; try (apply Z.mod_pos_bound; lia).
  - apply Z.div_pos; lia.
  - apply Z.div_lt_upper_bound; lia.
  - symmetry. apply Z.div_mod. lia.
Qed.

Fixpoint octets (l : bytes) : string :=
  match l with [] => "" | b :: l' => octet b (octets l') end.

Lemma strip_octet b s : is_byte b → strip_separators (octet b s) = octet b (strip_separators s).
Proof.
  intros (H1&H2&_)%nibbles. unfold octet. cbn [strip_separators]. by rewrite !hex_char_kept.
Qed.

Lemma strip_addr l : bytes_ok l →
  strip_separators (String.concat ":" (map (Discovery.hex_fixed 2) l)) = octets l.
Proof.
  induction 1 as [|b l Hb Hl IH]; [done|]. cbn [map octets].
  destruct l as [|b' l]; cbn [map String.concat] in *.
  - rewrite hex_octet by done. by apply (strip_octet b "").
  - rewrite hex_octet at 1 by done.
    change (strip_separators (octet b (":" +:+ String.concat ":" (Discovery.hex_fixed 2 b'
              :: map (Discovery.hex_fixed 2) l))) = octet b (octets (b' :: l))).
    rewrite strip_octet by done. f_equal. exact IH.
Qed.

Lemma fromhex_octets l : bytes_ok l → fromhex (octets l) = Some l.
Proof.
  induction 1 as [|b l Hb Hl IH]; [done|]. apply nibbles in Hb as (H1&H2&H3).
  cbn [octets octet fromhex]. destruct (DiscoveryLaws.hex_char_plain _ H1) as (_&_&->).
  rewrite !DiscoveryLaws.hex_char_value by done. rewrite IH. cbn. by rewrite H3.
Qed.

Lemma length_octets l : String.length (octets l) = (2 * length l)%nat.
Proof. induction l as [|b l IH]; [done|]. cbn [octets octet String.length length]. lia. Qed.

(** An address is read back from the text it is printed as. *)
Theorem addr_roundtrip raw (Hl : length raw = 6%nat) (Hb : bytes_ok raw) :
  addr_bytes (addr_str raw) = Ok raw.
Proof.
  assert (Hr : bytes_ok (rev raw)) by (apply Forall_rev; exact Hb).
  unfold addr_bytes, addr_str. rewrite strip_addr, length_octets, length_rev, Hl by done.
  cbn [Nat.eqb Nat.mul Nat.add negb]. rewrite fromhex_octets by done. by rewrite rev_involutive.
Qed.

Lemma addr_roundtrip_witness :
  addr_str [0x01; 0x2A; 0xB3; 0x44; 0xF5; 0xC0] = "C0:F5:44:B3:2A:01"%string ∧
  addr_bytes "C0:F5:44:B3:2A:01" = Ok [0x01; 0x2A; 0xB3; 0x44; 0xF5; 0xC0].
Proof.
  split; [by vm_compute|].
  apply (addr_roundtrip [0x01; 0x2A; 0xB3; 0x44; 0xF5; 0xC0]);
    [done|apply (bool_decide_unpack (bytes_ok _)); by vm_compute].
Defined.

(** ** The table of the scan *)

Abbreviation hearing := (string * Z * bytes)%type.

(** The reports of one advertiser. *)
Definition from_addr (addr : string) (rs : list hearing) : list hearing :=
  List.filter (λ r, String.eqb (fst (fst r)) addr) rs.

(** What the table should say of them: how many, the strongest, the last name
    that is not empty. *)
Definition last_name (names : list bytes) : bytes :=
  List.last (List.filter (λ n, negb (bool_decide (n = []))) names) [].

Definition summary (rs : list hearing) : option entry :=
  match rs with
  | [] => None
  | (_, rssi, _) :: _ =>
      Some (Entry (length rs) (foldr Z.max rssi (map (λ r, snd (fst r)) rs))
              (last_name (map (λ r, local_name (snd r)) rs)))
  end.

Fixpoint entry_of (addr : string) (seen : list (string * entry)) : option entry :=
  match seen with
  | [] => None
  | (a, e) :: rest => if String.eqb a addr then Some e else entry_of addr rest
  end.

Lemma note_entry a rssi name seen addr :
  entry_of addr (note a rssi name seen) =
  if String.eqb a addr then Some (hear rssi name (default (Entry 0 rssi []) (entry_of a seen)))
  else entry_of addr seen.
Proof.
  induction seen as [|[b e] seen IH]; cbn; [done|].
  destruct (String.eqb_spec b a) as [->|Hba]; cbn; [by destruct (String.eqb a addr)|].
  rewrite IH. destruct (String.eqb_spec b addr) as [->|], (String.eqb_spec a addr) as [->|]; done.
Qed.

Lemma note_keys a rssi name seen :
  map fst (note a rssi name seen) = map fst seen ∨
  map fst (note a rssi name seen) = map fst seen ++ [a] ∧ a ∉ map fst seen.
Proof.
  induction seen as [|[b e] seen IH]; cbn; [right; split; [done|apply not_elem_of_nil]|].
  destruct (String.eqb_spec b a) as [->|Hba]; cbn; [by left|].
  destruct IH as [->|[-> Hn]]; [by left|right]. split; [done|].
  rewrite not_elem_of_cons. by split; [congruence|].
Qed.

Lemma last_name_snoc l n :
  last_name (l ++ [n]) = match n with [] => last_name l | _ => n end.
Proof.
  unfold last_name. rewrite List.filter_app. destruct n; cbn; [by rewrite app_nil_r|].
  by rewrite List.last_last.
Qed.

Lemma last_name_one n : last_name [n] = n.
Proof. by destruct n. Qed.

Lemma foldr_max_snoc l x y : foldr Z.max x (l ++ [y]) = Z.max (foldr Z.max x l) y.
Proof. induction l as [|z l IH]; cbn; [lia|]. rewrite IH. lia. Qed.

Lemma summary_snoc rs addr rssi data :
  summary (rs ++ [(addr, rssi, data)]) =
  Some (hear rssi (local_name data) (default (Entry 0 rssi []) (summary rs))).
Proof.
  destruct rs as [|[[a r] d] rs].
  - unfold summary, hear. cbn -[local_name last_name]. rewrite last_name_one.
    by destruct (local_name data).
  - unfold summary. cbn [app]. change (?x :: rs ++ [?y]) with ((x :: rs) ++ [y]).
    rewrite !map_app, length_app. cbn [map fst snd].
    rewrite foldr_max_snoc, last_name_snoc. unfold hear.
    cbn [default e_count e_rssi e_name id]. do 2 f_equal. cbn. lia.
Qed.

(** The table is a tally. *)
Definition tallies (rs : list hearing) (seen : list (string * entry)) : Prop :=
  NoDup (map fst seen) ∧ ∀ addr, entry_of addr seen = summary (from_addr addr rs).

Lemma tally_tallies rs seen r :
  tallies rs seen → tallies (rs ++ option_list r) (tally seen r).
Proof.
  intros [Hnd Hall]. destruct r as [[[a rssi] data]|]; cbn; [|by rewrite app_nil_r].
  split.
  - destruct (note_keys a rssi (local_name data) seen) as [->|[-> Hn]]; [done|].
    apply NoDup_app. split_and!; [done| |apply NoDup_singleton].
    intros x Hx ->%list_elem_of_singleton. done.
  - intros addr. rewrite note_entry, !Hall. unfold from_addr. rewrite List.filter_app. cbn.
    destruct (String.eqb_spec a addr) as [->|]; [by rewrite summary_snoc|by rewrite app_nil_r].
Qed.

Section engine.
Context {T : Type} `{Tr : !Transport T, TL : !TransportLaws T}.

(** The reports of the packets read. *)
Definition reported (ps : list packet) (rs : list hearing) : Prop :=
  ∃ os, Forall2 (λ p o, report_of p = Ok o) ps os ∧ rs = omap id os.

Lemma scan_loop_tallies fuel deadline rs seen s r s' :
  tallies rs seen →
  poll_loop (T:=T) (λ _, ms 200) scan_step fuel deadline seen s = (Ok r, s') →
  ∃ ps rs', reads s ps s' ∧ reported ps rs' ∧
    match r with inl seen' => tallies (rs ++ rs') seen' | inr _ => False end.
Proof.
  revert rs seen s. induction fuel as [|fuel IH]; intros rs seen s Hs; cbn; [done|].
  unfold gets. unfold mbind at 1, M_bind at 1; cbn.
  destruct (deadline <=? fst s).
  { intros [= <- <-]. exists [], []. split_and!; [constructor|by exists []|by rewrite app_nil_r]. }
  unfold mbind at 1, M_bind at 1.
  destruct (read_packet (ms 200) s) as [[[p|]|e|] s1] eqn:Er; [| |done|done].
  - unfold mbind at 1, M_bind at 1. unfold scan_step. unfold mbind at 1, M_bind at 1, lift.
    destruct (report_of p) as [o|e|] eqn:Eo; [|done|done]. cbn.
    intros H. apply (IH (rs ++ option_list o)) in H as (ps&rs'&Hr&(os&Hos&->)&Hseen);
      [|by apply tally_tallies].
    exists (p :: ps), (omap id (o :: os)). split_and!; [by eapply reads_some| |].
    + exists (o :: os). split; [by constructor|done].
    + destruct r; [|done]. by destruct o; cbn in *; rewrite <- ?app_assoc, ?app_nil_r in *.
  - intros H. apply (IH rs) in H as (ps&rs'&Hr&?&?); [|done]. exists ps, rs'.
    split_and!; [by eapply reads_none|done|done].
Qed.

Abbreviation louder := (λ x y : string * entry, (e_count (snd y) <? e_count (snd x))%nat).

#[local] Instance louder_strict_weak : StrictWeak louder.
Proof. split; intros x y; [|intros z]; rewrite ?Nat.ltb_lt, ?Nat.ltb_ge; lia. Qed.

(** C32: the table a scan prints says of every advertiser how many of the reports
    read were its own, the strongest signal among them and the last name they
    gave; it lists no address twice, and the loudest of them are in order. *)
Theorem scan_tallies secs s seen s'
    (Hrun : listen (T:=T) secs s = (Ok seen, s')) :
  ∃ ps rs, reads s ps s' ∧ reported ps rs ∧
    NoDup (map fst seen) ∧ (∀ addr, entry_of addr seen = summary (from_addr addr rs)) ∧
    StronglySorted (λ x y, (e_count (snd y) ≤ e_count (snd x))%nat) (loudest seen) ∧
    loudest seen ⊆ seen.
Proof.
  unfold listen in Hrun. apply bind_ok_inv in Hrun as (r&s1&Hpoll&Hret).
  assert (Hs' : s1 = s' ∧ r = inl seen) by (destruct r as [l|[]]; by injection Hret as -> ->).
  destruct Hs' as [-> ->]. unfold poll, gets, mbind, M_bind in Hpoll; cbn in Hpoll.
  apply (scan_loop_tallies _ _ [] []) in Hpoll as (ps&rs&Hr&Hrep&Hnd&Hall); [|by split; [constructor|]].
  exists ps, rs. split_and!; [done..| |].
  - unfold loudest. pose proof (sort_by_sorted louder seen) as Hs.
    rewrite <- (take_drop 20 (sort_by louder seen)) in Hs. apply StronglySorted_app_1_l in Hs.
    induction Hs as [|x l _ IH Hx]; constructor; [done|].
    eapply Forall_impl; [exact Hx|]. intros y. unfold in_order. by rewrite Nat.ltb_ge.
  - intros x Hx. apply elem_of_take in Hx as (i&Hx&_). apply list_elem_of_lookup_2 in Hx.
    by apply elem_of_sort_by in Hx.
Qed.
(** ** Every tool ends *)

Abbreviation some := (ends (T:=T) any_exn).

Lemma ends_sleep us : some (sleep us).
Proof.
  unfold sleep. destruct (us <? 0); [ends_auto|]. apply ends_own. by intros [now h] [Hwf Hp].
Qed.

Lemma ends_unsupported opcode name : some (note_unsupported opcode name).
Proof. unfold note_unsupported. ends_auto. intros [now h] [Hwf Hp]. by cbn. Qed.
Hint Resolve ends_sleep ends_unsupported : ends.

Lemma decodes_addr text : addr_bytes text ≠ Stuck.
Proof. unfold addr_bytes. destruct (negb _); [done|]. by destruct (fromhex _). Qed.

Lemma decodes_HHH l : decodes (unpack_HHH l).
Proof. unfold unpack_HHH, decodes. case_decide; split; try done. intros ? [= <-]. by left. Qed.

Lemma decodes_printed body : decodes (printed_event body).
Proof.
  pose proof (decodes_HHH (slice 4 10 body)). unfold printed_event. decode.
Qed.

Lemma decodes_ext body : decodes (parse_ext_report body).
Proof. unfold parse_ext_report. decode. Qed.
Lemma decodes_legacy body : decodes (parse_legacy_report body).
Proof. unfold parse_legacy_report. decode. Qed.
Lemma decodes_report_of p : decodes (report_of p).
Proof.
  unfold report_of. pose proof (decodes_ext (body p)). pose proof (decodes_legacy (body p)). decode.
Qed.

(** *** scan *)

Lemma ends_take_identity : some take_identity.
Proof. unfold take_identity. ends_auto. Qed.

Lemma ends_start_scan active ty : some (start_scan active ty).
Proof. unfold start_scan. ends_auto. Qed.

Lemma ends_stop_scan b : some (stop_scan b).
Proof. unfold stop_scan. ends_auto. Qed.

Lemma ends_listen secs : some (listen secs).
Proof.
  unfold listen. apply runs_bind; [apply _| |intros [?|[]]; apply runs_ret, _].
  apply ends_poll; [done|unfold ms; lia|]. intros R ? d p Hp. unfold scan_step.
  apply runs_bind; [apply _|apply decodes_runs; [apply _|apply decodes_report_of]|
    intros ?; by apply runs_ret, _].
Qed.
Hint Resolve ends_take_identity ends_start_scan ends_stop_scan ends_listen : ends.

Lemma ends_cmd_scan secs active : some (cmd_scan secs active).
Proof. unfold cmd_scan. ends_auto. Qed.

(** *** flood *)

Lemma quiet_loop_ends fuel quiet limit started : ∀ last s,
  engine_ok s → (load s + turns (ms 200) (started + limit - fst s) < fuel)%nat →
  let '(r, s') := quiet_loop fuel quiet limit started last s in
  engine_ok s' ∧ both_frame s s' ∧ r ≠ Stuck ∧ sent s' = sent s.
Proof.
  induction fuel as [|fuel IH]; intros last s Hs Hf; [lia|].
  cbn [quiet_loop]. unfold gets. unfold mbind at 1, M_bind at 1; cbn [fst].
  destruct (_ && _) eqn:Eg; [|by split_and!].
  apply andb_true_iff in Eg as [_ Hlim%Z.ltb_lt].
  unfold mbind at 1, M_bind at 1; cbn [fst]. unfold mbind at 1, M_bind at 1.
  pose proof (read_packet_cases (ms 200) s Hs) as Hr.
  pose proof (read_packet_sent (ms 200) s Hs) as Hsent.
  destruct (read_packet (ms 200) s) as [[p|e|] s1]; cbn [snd] in Hsent; destruct Hr as (Hs1&Hfr&Hp);
    [|by split_and!|done].
  unfold mbind at 1, M_bind at 1; cbn [fst snd].
  pose proof Hfr as [[Ht Hl] _].
  assert (Hm : (load s1 + turns (ms 200) (started + limit - fst s1) < fuel)%nat).
  { pose proof (turns_mono (ms 200) (started + limit - fst s1) (started + limit - fst s) ltac:(done)
      ltac:(lia)).
    destruct p as [p|]; [destruct Hp as (_&?&_); lia|].
    destruct Hp as (Hto&_). destruct (Hto ltac:(done)) as [Ht'|Hl']; [|lia].
    pose proof (turns_step (ms 200) (started + limit - fst s) (fst s1 - fst s) ltac:(done)
      ltac:(lia) ltac:(lia)) as Hst.
    replace (started + limit - fst s - (fst s1 - fst s)) with (started + limit - fst s1) in Hst by lia.
    lia. }
  assert (Hgo : ∀ last', let '(r, s') := quiet_loop fuel quiet limit started last' s1 in
    engine_ok s' ∧ both_frame s s' ∧ r ≠ Stuck ∧ sent s' = sent s).
  { intros last'. specialize (IH last' s1 Hs1 Hm).
    destruct (quiet_loop _ _ _ _ last' s1) as [r s2]. destruct IH as (?&?&?&E).
    split_and!; [done|by etrans|done|by rewrite E]. }
  destruct (negb _); [|apply Hgo]. unfold mbind at 1, M_bind at 1; cbn [fst]. apply Hgo.
Qed.

Lemma drain_quiet_cases link_timeout s : engine_ok s →
  let '(r, s') := drain_quiet link_timeout s in
  engine_ok s' ∧ both_frame s s' ∧ r ≠ Stuck ∧ sent s' = sent s.
Proof.
  intros Hs. unfold drain_quiet, gets, mbind, M_bind; cbn [fst snd].
  pose proof (quiet_loop_ends (quiet_fuel (drain_limit link_timeout) s) (quiet_time link_timeout)
    (drain_limit link_timeout) (fst s) (fst s) s Hs) as H.
  destruct (quiet_loop _ _ _ _ _ s) as [[[]|e|] s'];
    (destruct H as (?&?&?&?); [|by split_and!]); unfold quiet_fuel, load, turns;
    replace (fst s + drain_limit link_timeout - fst s) with (drain_limit link_timeout) by lia; lia.
Qed.

Lemma ends_drain link_timeout : some (drain_quiet link_timeout).
Proof.
  intros s Hs. pose proof (drain_quiet_cases link_timeout s Hs) as H.
  destruct (drain_quiet link_timeout s) as [r s']. by destruct H as (?&_&?&_).
Qed.
Hint Resolve ends_drain : ends.

Lemma upstream_decodes n : ∀ i before after, decodes (upstream_from n i before after).
Proof. induction n as [|n IH]; intros; cbn; decode. apply IH. Qed.

Lemma judge_decodes (h : hci T) count completed drained lt before after :
  decodes (flood_judge h count completed drained lt before after).
Proof.
  unfold flood_judge, judge_routing, counter_delta.
  pose proof (upstream_decodes (Nat.min 30 (length after) - 18) 18 before after). decode.
Qed.

Lemma ends_flood handle count mtu lt : some (flood_acl handle count mtu lt).
Proof.
  unfold flood_acl.
  repeat first
    [ lazymatch goal with |- runs _ _ _ (lift (flood_judge _ _ _ _ _ _ _)) =>
        apply ends_lift, judge_decodes end | ends_step ].
Qed.

(** *** connect *)

Lemma connection_decodes bs : decodes (parse_connection bs).
Proof.
  destruct (parse_connection_total bs) as [r ->]. apply decodes_ok.
Qed.

Lemma connected_pure (R : relation (dev (T:=T))) `{!PreOrder R} d p :
  runs engine_ok R engine_exn (connected_step d p).
Proof.
  unfold connected_step. destruct (negb _); [by apply runs_ret, _|].
  apply runs_bind; [apply _|apply decodes_runs; [apply _|apply connection_decodes]|
    intros ?; by apply runs_ret, _].
Qed.

Lemma mtu_pure (R : relation (dev (T:=T))) `{!PreOrder R} d p :
  runs engine_ok R engine_exn (mtu_step d p).
Proof.
  unfold mtu_step.
  repeat first
    [ lazymatch goal with
      | |- runs _ _ _ (lift _) => apply decodes_runs; [apply _|decode]
      | |- runs _ _ _ (mbind _ _) => apply runs_bind; [apply _| |intros ?]
      | |- runs _ _ _ (mret _) => by apply runs_ret, _
      | |- runs _ _ _ (if ?b then _ else _) => destruct b
      end ].
Qed.

Lemma ends_connected_poll t : some (poll (λ _, ms 200) (connected_step (T:=T)) (ms 200) t tt).
Proof.
  apply ends_poll; [done|unfold ms; lia|]. intros R ? d p _. by apply connected_pure.
Qed.

Lemma ends_mtu_poll t : some (poll (λ _, ms 200) (mtu_step (T:=T)) (ms 200) t tt).
Proof.
  apply ends_poll; [done|unfold ms; lia|]. intros R ? d p _. by apply mtu_pure.
Qed.
Hint Resolve ends_connected_poll ends_mtu_poll ends_flood : ends.

Lemma ends_use_link handle flood : some (use_link handle flood).
Proof. unfold use_link. ends_auto. Qed.

Lemma ends_create_connection peer b ty : some (create_connection peer b ty).
Proof. unfold create_connection. ends_auto. Qed.
Hint Resolve ends_use_link ends_create_connection : ends.

Lemma ends_cmd_connect address b secs flood : some (cmd_connect address b secs flood).
Proof.
  unfold cmd_connect.
  repeat first
    [ lazymatch goal with |- runs _ _ _ (lift (addr_bytes _)) =>
        apply ends_lift, decodes_addr end | ends_step ].
Qed.

(** *** counters and direct test mode *)

Lemma ends_cmd_counters : some cmd_counters.
Proof. unfold cmd_counters. ends_auto. Qed.

Lemma ends_test_end : some test_end.
Proof. unfold test_end. ends_auto. Qed.
Hint Resolve ends_test_end : ends.

Lemma ends_dtm_tx ch len payload secs : some (cmd_dtm_tx ch len payload secs).
Proof. unfold cmd_dtm_tx. ends_auto. Qed.
Lemma ends_dtm_rx ch secs expected : some (cmd_dtm_rx ch secs expected).
Proof. unfold cmd_dtm_rx. ends_auto. Qed.
(** *** advertise *)

Definition adv_ok (a : advertiser) : Prop := ∀ s, server a = Some s → table_ok s.

(** A step of the loop: it ends, goes forward and keeps the servers well
    formed. *)
Definition steps {X} (Q : X → Prop) (m : M (dev (T:=T)) X) : Prop := ∀ s, engine_ok s →
  let '(r, s') := m s in
  engine_ok s' ∧ load_frame s s' ∧
  match r with Ok x => Q x | Exc _ => True | Stuck => False end.

Lemma steps_bind {X Y} (P : X → Prop) (Q : Y → Prop) m (f : X → M (dev (T:=T)) Y) :
  steps P m → (∀ x, P x → steps Q (f x)) → steps Q (m ≫= f).
Proof.
  intros Hm Hf s Hs. unfold mbind, M_bind. specialize (Hm s Hs).
  destruct (m s) as [[x|e|] s1]; destruct Hm as (Hs1&Hl&Hx); [|by split_and!|done].
  specialize (Hf x Hx s1 Hs1). destruct (f x s1) as [r s2]. destruct Hf as (?&?&?).
  split_and!; [done|by etrans|done].
Qed.

Lemma steps_ret {X} (Q : X → Prop) x : Q x → steps Q (mret x).
Proof. intros HQ s Hs. by split_and!. Qed.

Lemma steps_lift {X} (r : res X) : r ≠ Stuck → steps (λ x, r = Ok x) (lift r).
Proof. intros Hr s Hs. cbn. split_and!; [done|done|by destruct r]. Qed.

Lemma steps_gets {X} (f : dev (T:=T) → X) : steps (λ _, True) (gets f).
Proof. intros s Hs. by split_and!. Qed.

Lemma steps_runs {X} P E (m : M (dev (T:=T)) X) :
  runs engine_ok (trace_frame P) E m → steps (λ _, True) m.
Proof.
  intros Hm s Hs. destruct (Hm s Hs) as (?&Hf&_&HS). destruct (m s) as [r s']; cbn in *.
  split_and!; [done|by eapply trace_load|by destruct r].
Qed.

Lemma notify_tame text :
  runs (both_ok (T:=T) table_ok) (dev_frame (λ _, True)) engine_exn (notify text).
Proof.
  unfold notify. apply runs_own_bind. intros a Ha. destruct (_ =? _); [by apply runs_ret, _|].
  rewrite u16_ok by done. eapply runs_lift_ok; [done|]. cbn zeta.
  apply runs_bind; [apply _|by apply runs_on_dev, send_acl_trace|intros _].
  apply runs_bind; [apply _|by apply runs_on_own|intros _]. by apply runs_ret, _.
Qed.

Lemma steps_server {X} st (m : M (dev (T:=T) * att) X) : table_ok st →
  runs (both_ok (T:=T) table_ok) (dev_frame (λ _, True)) engine_exn m →
  steps (λ r, table_ok (snd r)) (on_server st m).
Proof.
  intros Hst Hm s Hs. unfold on_server.
  destruct (Hm (s, st) (conj Hs Hst)) as ([Hs' Hst']&Hf&_&HS).
  destruct (m (s, st)) as [r [s' st']]; cbn in *. unfold dev_frame in Hf; cbn in Hf.
  split_and!; [done|by eapply trace_load|by destruct r].
Qed.

Lemma steps_push a : adv_ok a → steps adv_ok (push_data a).
Proof.
  intros Ha. unfold push_data, the_att. destruct (live a); [|by apply steps_ret].
  destruct (server a) as [st|] eqn:Est; [|by apply steps_ret].
  eapply steps_bind; [apply steps_gets|intros now _]. eapply steps_bind; [apply steps_gets|intros c _].
  destruct (_ && _); [|by apply steps_ret].
  eapply steps_bind; [apply steps_server; [by apply Ha|apply notify_tame]|intros [b st'] Hst'].
  eapply steps_bind; [apply steps_gets|intros now' _]. apply steps_ret.
  intros st'' E. destruct b; cbn in E; by injection E as <-.
Qed.

Lemma steps_acl body a : adv_ok a → steps adv_ok (on_acl body a).
Proof.
  intros Ha. unfold on_acl.
  eapply steps_bind; [apply steps_lift, decodes_unpack|intros _ _].
  eapply steps_bind; [apply steps_lift, decodes_unpack|intros len _]. cbn zeta.
  destruct (_ <? _)%nat; [by apply steps_ret|].
  eapply steps_bind; [apply steps_lift, decodes_unpack_HH|intros [plen cid] _].
  unfold the_att. cbn [live count_acl server]. destruct (live a); [|by apply steps_ret].
  destruct (server a) as [st|] eqn:Est; [|apply steps_ret; intros ? E; cbn in E; congruence].
  eapply steps_bind; [apply steps_server; [by apply Ha|by apply feed_tame]|intros r Hr].
  apply steps_ret. intros ? E. cbn in E. by injection E as <-.
Qed.

Lemma steps_event name body a : adv_ok a → steps adv_ok (on_le_event name body a).
Proof.
  intros Ha. unfold on_le_event.
  eapply steps_bind; [apply steps_lift, connection_decodes|intros info _].
  destruct info as [c|].
  - destruct (negb _); [by apply steps_ret|].
    destruct (init_table (ci_handle c) name) as (st&E&Hst&_). rewrite E.
    eapply steps_bind; [by apply steps_lift|intros ? [= <-]].
    eapply steps_bind; [apply steps_lift, pack_not_stuck|intros h _].
    eapply steps_bind; [by eapply steps_runs, (command_trace (λ _, True))|intros _ _].
    apply steps_ret. intros ? [= <-]. done.
  - eapply steps_bind; [apply steps_lift, decodes_printed|intros _ _]. by apply steps_ret.
Qed.

Lemma steps_packet name p a : adv_ok a → steps (λ r, adv_ok (fst r)) (advertise_packet name p a).
Proof.
  intros Ha. unfold advertise_packet. destruct (_ =? _).
  { eapply steps_bind; [by apply steps_acl|intros a' Ha']. by apply steps_ret. }
  destruct (negb _); [by apply steps_ret|]. destruct (bool_decide _).
  { eapply steps_bind; [by apply steps_event|intros a' Ha']. by apply steps_ret. }
  destruct (bool_decide _); [|by apply steps_ret].
  eapply steps_bind; [apply steps_lift, decodes_idx|intros _ _]. by apply steps_ret.
Qed.

Lemma advertise_loop_ends name deadline fuel : ∀ a s,
  adv_ok a → engine_ok s → (load s + turns (ms 200) (deadline - fst s) < fuel)%nat →
  let '(r, s') := advertise_loop fuel name deadline a s in
  engine_ok s' ∧ r ≠ Stuck.
Proof.
  induction fuel as [|fuel IH]; intros a s Ha Hs Hf; [lia|].
  cbn [advertise_loop]. unfold gets. unfold mbind at 1, M_bind at 1; cbn [fst].
  destruct (Z.leb_spec deadline (fst s)) as [|Hlt]; [by split_and!|].
  unfold mbind at 1, M_bind at 1. pose proof (steps_push a Ha s Hs) as Hp.
  destruct (push_data a s) as [[a1|e|] s1]; destruct Hp as (Hs1&[Ht1 Hl1]&Ha1); [|by split_and!|done].
  unfold mbind at 1, M_bind at 1. pose proof (read_packet_cases (ms 200) s1 Hs1) as Hr.
  destruct (read_packet (ms 200) s1) as [[[p|]|e|] s2]; destruct Hr as (Hs2&[[Ht2 Hl2] _]&Hr);
    [| |by split_and!|done].
  - destruct Hr as (_&Hlt2&_). unfold mbind at 1, M_bind at 1.
    pose proof (steps_packet name p a1 Ha1 s2 Hs2) as Hk.
    destruct (advertise_packet name p a1 s2) as [[[a2 broken]|e|] s3];
      destruct Hk as (Hs3&[Ht3 Hl3]&Ha3); [|by split_and!|done].
    destruct broken; [by split_and!|]. apply IH; [done|done|].
    pose proof (turns_mono (ms 200) (deadline - fst s3) (deadline - fst s) ltac:(done) ltac:(lia)). lia.
  - destruct Hr as (Hto&_). apply IH; [done|done|].
    pose proof (turns_mono (ms 200) (deadline - fst s2) (deadline - fst s) ltac:(done) ltac:(lia)).
    destruct (Hto ltac:(done)) as [Hw|?]; [|lia].
    pose proof (turns_step (ms 200) (deadline - fst s) (fst s2 - fst s) ltac:(done) ltac:(lia)
      ltac:(lia)) as Hst.
    replace (deadline - fst s - (fst s2 - fst s)) with (deadline - fst s2) in Hst by lia. lia.
Qed.

Lemma ends_serve name secs : some (serve name secs).
Proof.
  intros s Hs. unfold serve, gets, mbind, M_bind; cbn [fst snd].
  pose proof (advertise_loop_ends name (fst s + seconds secs) (poll_fuel (ms 200) (seconds secs) s)
    (Adv None false None 0 0 0) s ltac:(done) Hs) as H.
  destruct (advertise_loop _ _ _ _ s) as [r s']. destruct H as [? ?]; [|by split_and!].
  unfold poll_fuel, load, turns. replace (fst s + seconds secs - fst s) with (seconds secs) by lia. lia.
Qed.

Lemma read_out_ends fuel : ∀ s, engine_ok s → (load s < fuel)%nat →
  let '(r, s') := read_out fuel s in engine_ok s' ∧ r ≠ Stuck.
Proof.
  induction fuel as [|fuel IH]; intros s Hs Hf; [lia|]. cbn [read_out]. unfold mbind at 1, M_bind at 1.
  pose proof (read_packet_cases (ms 200) s Hs) as Hr.
  destruct (read_packet (ms 200) s) as [[[p|]|e|] s1]; destruct Hr as (Hs1&_&Hr); try by split_and!.
  destruct Hr as (_&Hl&_). apply IH; [done|lia].
Qed.

Lemma ends_read_all :
  some (fuel ← gets (λ s : dev (T:=T), (length (pending (snd s)) + t_backlog (transport (snd s)) + 1)%nat);
        read_out fuel).
Proof.
  intros s Hs. unfold gets, mbind, M_bind; cbn [fst snd].
  pose proof (read_out_ends (load s + 1) s Hs ltac:(lia)) as H. unfold load in H.
  destruct (read_out _ s) as [r s']. destruct H. by split_and!.
Qed.

Lemma ends_close_link handle : some (close_link handle).
Proof.
  unfold close_link. apply runs_bind; [apply _|ends_auto|intros h].
  apply runs_bind; [apply _|ends_auto|intros r].
  apply runs_bind; [apply _|ends_auto|intros _].
  apply runs_bind; [apply _|apply ends_sleep|intros _]. apply ends_read_all.
Qed.

Lemma ends_identity_of override : some (Hci.identity override).
Proof. unfold Hci.identity. ends_auto; intros [now h] [Hwf Hp]; by cbn. Qed.
Hint Resolve ends_serve ends_close_link ends_identity_of : ends.

Lemma ends_stop_advertising b : some (stop_advertising b).
Proof. unfold stop_advertising, adv_enable. ends_auto. Qed.

Lemma ends_start_extended id ty adv : some (start_extended id ty adv).
Proof. unfold start_extended, adv_enable. ends_auto. Qed.

Lemma ends_start_legacy id ty adv : some (start_legacy id ty adv).
Proof. unfold start_legacy. ends_auto. Qed.
Hint Resolve ends_stop_advertising ends_start_extended ends_start_legacy : ends.

Lemma ends_impl_advertise name secs addr : some (impl_cmd_advertise name secs addr).
Proof.
  unfold impl_cmd_advertise, extended_params.
  repeat first
    [ lazymatch goal with |- runs _ _ _ (lift (addr_bytes _)) =>
        apply ends_lift, decodes_addr end | ends_step ].
Qed.
Hint Resolve ends_impl_advertise ends_cmd_scan ends_cmd_connect ends_cmd_counters ends_dtm_tx
  ends_dtm_rx : ends.

Lemma ends_func m : some (func m).
Proof. destruct m; unfold func, cmd_advertise; ends_auto. Qed.

(** The values a program can return. *)
Definition returns {X} (Q : X → Prop) (m : M (dev (T:=T)) X) : Prop :=
  ∀ s x s', m s = (Ok x, s') → Q x.

Lemma returns_bind {X Y} (Q : Y → Prop) (m : M (dev (T:=T)) X) f :
  (∀ x, returns Q (f x)) → returns Q (m ≫= f).
Proof. intros Hf s y s' H. apply bind_ok_inv in H as (x&s1&_&H). by eapply Hf. Qed.

Lemma returns_after {X Y} (P : X → Prop) (Q : Y → Prop) (m : M (dev (T:=T)) X) f :
  returns P m → (∀ x, P x → returns Q (f x)) → returns Q (m ≫= f).
Proof. intros Hm Hf s y s' H. apply bind_ok_inv in H as (x&s1&Hx&H). eapply Hf; [by eapply Hm|done]. Qed.

Lemma returns_ret {X} (Q : X → Prop) x : Q x → returns Q (mret x).
Proof. intros HQ s y s'. by intros [= <- _]. Qed.

Lemma returns_raise {X} (Q : X → Prop) e : returns Q (raise e).
Proof. by intros s y s'. Qed.

Ltac returns_auto :=
  repeat lazymatch goal with
  | |- returns _ (mbind _ _) => apply returns_bind; intros ?
  | |- returns _ (mret _) => apply returns_ret
  | |- returns _ (raise _) => apply returns_raise
  | |- returns _ (match ?x with _ => _ end) => destruct x
  end.

Definition pass_fail (code : Z) : Prop := code = 0 ∨ code = 1.

Lemma pass_fail_if (b : bool) : pass_fail (if b then 0 else 1).
Proof. destruct b; [by left|by right]. Qed.
Lemma fail_pass_if (b : bool) : pass_fail (if b then 1 else 0).
Proof. destruct b; [by right|by left]. Qed.

Lemma returns_impl_advertise name secs addr :
  returns (λ r, pass_fail (fst r)) (impl_cmd_advertise name secs addr).
Proof.
  unfold impl_cmd_advertise. returns_auto; cbn [fst].
  all: destruct (the_att _); [apply pass_fail_if|by right].
Qed.

Lemma returns_func m : returns pass_fail (func m).
Proof.
  destruct m; unfold func.
  - unfold cmd_advertise. eapply returns_after; [apply returns_impl_advertise|].
    intros [code a] Hcode. returns_auto. destruct (_ && _); [done|].
    destruct (server a); [apply pass_fail_if|done].
  - unfold cmd_scan. eapply (returns_after (λ r, pass_fail (fst (fst r)))).
    + returns_auto. cbn [fst]. destruct (_ : list (string * entry)); [by right|by left].
    + intros r Hr. by apply returns_ret.
  - unfold cmd_connect, use_link. eapply (returns_after (λ r, pass_fail (fst r))).
    + returns_auto; cbn [fst]; repeat case_match; first [by left|by right].
    + intros r Hr. by apply returns_ret.
  - unfold cmd_counters. eapply (returns_after (λ r, pass_fail (fst r))).
    + returns_auto; [by left|by right].
    + intros r Hr. by apply returns_ret.
  - unfold cmd_dtm_tx. eapply (returns_after (λ r, pass_fail (fst r))).
    + returns_auto. by left.
    + intros r Hr. by apply returns_ret.
  - unfold cmd_dtm_rx. eapply (returns_after (λ r, pass_fail (fst r))).
    + returns_auto. cbn [fst]. destruct (negb _); apply fail_pass_if.
    + intros r Hr. by apply returns_ret.
Qed.

(** C33: every tool ends, whatever the controller and the peers send. [main] turns
    its verdict, an engine error and a vanished port into an exit code; only
    the exceptions that are none of these come through. *)
Theorem tools_exit m s (Hs : engine_ok s) :
  let '(r, s') := run_tool (T:=T) (func m) s in
  engine_ok s' ∧
  match r with
  | Ok code => code ∈ [0; 1; 3]
  | Exc e => is_hci_error e = false
  | Stuck => False
  end.
Proof.
  unfold run_tool, try_except. destruct (ends_func m s Hs) as (Hs'&_&_&HS).
  pose proof (returns_func m s) as Hret.
  destruct (func m s) as [[code|e|] s']; cbn in Hs', HS; [| |done].
  - split; [done|].
    assert (code = 0 ∨ code = 1) as [-> | ->] by (by apply (Hret code s')); set_solver.
  - destruct (is_hci_error e) eqn:E; [|done]. destruct e; try done; split; done || set_solver.
Qed.
(** ** What a flood writes *)

Lemma command_writes op payload af s r s' : engine_ok s →
  Hci.command (T:=T) op payload af s = (Ok r, s') →
  engine_ok s' ∧ both_frame s s' ∧ sent s' = sent s ++ [command_packet op payload].
Proof.
  intros Hs H. unfold Hci.command in H.
  enough (Hw : wp (command_t op payload (seconds 3) af)
     (λ o s1, ∀ r, o = Ok r → engine_ok s1 ∧ both_frame s s1
        ∧ sent s1 = sent s ++ [command_packet op payload]) s).
  { unfold wp in Hw. rewrite H in Hw. by apply (Hw r). }
  by apply wp_command.
Qed.

Lemma counters_write s r s' : engine_ok s → read_counters (T:=T) s = (Ok r, s') →
  engine_ok s' ∧ both_frame s s' ∧ sent s' = sent s ++ [command_packet OP_VS_READ_COUNTERS []].
Proof.
  intros Hs H. unfold read_counters in H. apply bind_ok_inv in H as ([status data]&s1&Hc&H).
  assert (s1 = s') as <- by (destruct (negb _); [by injection H|destruct data; by injection H]).
  by eapply command_writes.
Qed.

Lemma send_acl_writes handle cid payload s s' :
  engine_ok s → 0 ≤ handle < 65536 → 0 ≤ cid < 65536 → blen payload < 65532 →
  send_acl (T:=T) handle cid payload s = (Ok tt, s') →
  engine_ok s' ∧ both_frame s s' ∧ sent s' = sent s ++ [acl_packet handle cid payload].
Proof.
  intros Hs Hh Hc Hl H.
  enough (Hw : wp (send_acl handle cid payload)
     (λ o s1, o = Ok tt → engine_ok s1 ∧ both_frame s s1
        ∧ sent s1 = sent s ++ [acl_packet handle cid payload]) s).
  { unfold wp in Hw. rewrite H in Hw. by apply Hw. }
  by apply wp_send_acl.
Qed.

Lemma flood_loop_writes handle payload l : ∀ s s',
  engine_ok s → 0 ≤ handle < 65536 → blen payload < 65532 →
  for_each l (λ _ : nat, send_acl (T:=T) handle CID_ATT payload) s = (Ok tt, s') →
  engine_ok s' ∧ both_frame s s' ∧
  sent s' = sent s ++ replicate (length l) (acl_packet handle CID_ATT payload).
Proof.
  induction l as [|x l IH]; intros s s' Hs Hh Hl; cbn [for_each].
  { intros [= <-]. split_and!; [done|done|by rewrite app_nil_r]. }
  intros H. apply bind_ok_inv in H as ([]&s1&Hx&H).
  apply send_acl_writes in Hx as (Hs1&Hf&E1); [|done|done|unfold CID_ATT; lia|done].
  apply IH in H as (Hs2&Hf2&E2); [|done|done|done].
  split_and!; [done|by etrans|]. rewrite E2, E1, <- app_assoc. done.
Qed.

(** The payload of a flood: an ATT Write Command to a handle no peer has. *)
Definition flood_payload (peer_mtu : Z) : bytes :=
  [0x52; 0xFF; 0xFF] ++ replicate (Z.to_nat (Z.max 1 (Z.min peer_mtu 247 - 3))) 0xA5.

Lemma length_flood_payload mtu : blen (flood_payload mtu) = Z.max 4 (Z.min mtu 247).
Proof. unfold flood_payload, blen. rewrite length_app, length_replicate. cbn. lia. Qed.

Lemma acl_sent_app s s' l : sent (T:=T) s' = sent s ++ l →
  acl_sent s' = acl_sent s + Z.of_nat (length (filter (λ pkt, is_acl pkt = true) l)).
Proof. unfold acl_sent, sent. intros ->. rewrite filter_app, length_app. lia. Qed.

Lemma filter_replicate_True {X} (P : X → Prop) `{!∀ x, Decision (P x)} n x :
  P x → filter P (replicate n x) = replicate n x.
Proof. intros HP. induction n as [|n IH]; [done|]. cbn [replicate]. by rewrite filter_cons_True, IH. Qed.

(** Nothing of a flood but its ACL packets is one. *)
Lemma flood_acl_sent s s' n handle payload : sent (T:=T) s' =
    sent s ++ [command_packet OP_VS_READ_COUNTERS []]
    ++ replicate n (acl_packet handle CID_ATT payload) ++ [command_packet OP_VS_READ_COUNTERS []] →
  acl_sent s' = acl_sent s + Z.of_nat n.
Proof.
  intros H. rewrite (acl_sent_app _ _ _ H). f_equal. f_equal.
  rewrite !filter_app, !length_app, filter_replicate_True, length_replicate by done.
  rewrite !filter_cons_False, !filter_nil by done. cbn [length]. lia.
Qed.

Lemma flood_run handle count mtu lt s report s' :
  engine_ok s → 0 ≤ handle < 65536 →
  flood_acl (T:=T) handle count mtu lt s = (Ok (Some report), s') →
  both_frame s s' ∧
  sent s' = sent s ++ [command_packet OP_VS_READ_COUNTERS []]
    ++ replicate (Z.to_nat count) (acl_packet handle CID_ATT (flood_payload mtu))
    ++ [command_packet OP_VS_READ_COUNTERS []].
Proof.
  intros Hs Hh Hrun. unfold flood_acl in Hrun.
  apply bind_ok_inv in Hrun as (before&s1&H1&Hrun). destruct before as [before|]; [|done].
  apply counters_write in H1 as (Hs1&Hf1&E1); [|done].
  apply bind_ok_inv in Hrun as (head&s2&Hhead&Hrun).
  change (pack [FB ATT_WRITE_CMD; FH 0xFFFF]) with (Ok [82; 255; 255] : res bytes) in Hhead.
  injection Hhead as <- <-. cbn zeta in Hrun.
  apply bind_ok_inv in Hrun as (done0&s3&[= _ <-]&Hrun).
  apply bind_ok_inv in Hrun as ([]&s4&H4&Hrun).
  change ([82; 255; 255] ++ _) with (flood_payload mtu) in H4.
  apply flood_loop_writes in H4 as (Hs4&Hf4&E4); [|done|done|rewrite length_flood_payload; lia].
  apply bind_ok_inv in Hrun as (drained&s5&H5&Hrun).
  pose proof (drain_quiet_cases lt s4 Hs4) as Hd. rewrite H5 in Hd. destruct Hd as (Hs5&Hf5&_&E5).
  apply bind_ok_inv in Hrun as (h&s6&[= _ <-]&Hrun). cbn zeta in Hrun.
  apply bind_ok_inv in Hrun as (after&s7&H7&Hrun). destruct after as [after|]; [|done].
  apply counters_write in H7 as (Hs7&Hf7&E7); [|done].
  apply bind_ok_inv in Hrun as (h'&s8&[= _ <-]&Hrun).
  apply bind_ok_inv in Hrun as (r&s9&[= _ <-]&[= _ <-]).
  split; [by etrans; [exact Hf1|etrans; [exact Hf4|etrans]]|].
  by rewrite E7, E5, E4, E1, length_seq, <- !app_assoc.
Qed.

(** C34: a flood that reports has written exactly the packets it was asked for,
    each of the MTU the peer agreed (four octets at least, 247 at most),
    between two readings of the counters and without asking for credits; the
    credits have gone down by that many and up by the packets completed since. *)
Theorem flood_sends handle count mtu lt s report s'
    (Hs : engine_ok s) (Hh : 0 ≤ handle < 65536) (Hc : 0 ≤ count)
    (Hrun : flood_acl (T:=T) handle count mtu lt s = (Ok (Some report), s')) :
  let counters := command_packet OP_VS_READ_COUNTERS [] in
  sent s' = sent s ++ [counters]
    ++ replicate (Z.to_nat count) (acl_packet handle CID_ATT (flood_payload mtu)) ++ [counters] ∧
  blen (flood_payload mtu) = Z.max 4 (Z.min mtu 247) ∧
  acl_credits (snd s') = acl_credits (snd s) - count
    + (acl_completed (snd s') - acl_completed (snd s)).
Proof.
  intros counters. destruct (flood_run _ _ _ _ _ _ _ Hs Hh Hrun) as [[_ [_ Hcredit]] E].
  split_and!; [exact E|apply length_flood_payload|].
  pose proof (flood_acl_sent _ _ _ _ _ E) as Ha. unfold credit_balance in Hcredit. lia.
Qed.
(** ** What connecting establishes *)

(** The packet a poll that only looks at packets returned for. *)
Lemma poll_found {D A} (step : D → packet → M (dev (T:=T)) (D + A)) timeout d s a s' :
  (∀ (R : relation (dev (T:=T))), PreOrder R → ∀ d p, packet_ok p →
     runs engine_ok R engine_exn (step d p)) →
  engine_ok s → poll (λ _, ms 200) step (ms 200) timeout d s = (Ok (inr a), s') →
  engine_ok s' ∧ ∃ p d s1 s2, packet_ok p ∧ step d p s1 = (Ok (inr a), s2).
Proof.
  intros Hstep Hs H.
  pose proof (poll_pure (λ a, ∃ p d s1 s2, packet_ok p ∧ step d p s1 = (Ok (inr a), s2))
    (λ _, ms 200) step (ms 200) timeout d s ltac:(done) ltac:(unfold ms; lia) Hstep) as Hp.
  rewrite H in Hp. apply Hp in Hs as (?&_&_&Ha); [by split|].
  intros d' p s1 a' s2 Hpk Hst. by exists p, d', s1, s2.
Qed.

(** A connection event that reports the handle with success. *)
Definition reports_link (p : packet) (handle : Z) : Prop :=
  is_event EVT_LE_META p = true ∧
  ∃ c, parse_connection (body p) = Ok (Some c) ∧ ci_status c = 0 ∧ ci_handle c = handle.

(** An ACL packet whose L2CAP frame is an MTU response. *)
Definition reports_mtu (p : packet) : Prop :=
  kind p = H4_ACL ∧ ∃ len, unpack_H (slice 2 4 (body p)) = Ok len ∧
  let l2cap := slice 4 (4 + Z.to_nat len) (body p) in
  le_Z (slice 2 4 l2cap) = CID_ATT ∧ l2cap !! 4%nat = Some ATT_EXCHANGE_MTU_RSP.

Lemma connected_reports p d s1 s2 handle :
  connected_step (T:=T) d p s1 = (Ok (inr (Some handle)), s2) → reports_link p handle.
Proof.
  unfold connected_step, reports_link. destruct (is_event EVT_LE_META p); [|done]. cbn [negb].
  intros H. apply bind_ok_inv in H as (info&s3&Hi&H). injection Hi as Hi ->.
  split; [done|]. destruct info as [c|]; [|done]. destruct (Z.eqb_spec (ci_status c) 0); [|done].
  cbn in H. injection H as <- _. by exists c.
Qed.

Lemma mtu_reports p d s1 s2 mtu : mtu_step (T:=T) d p s1 = (Ok (inr mtu), s2) → reports_mtu p.
Proof.
  unfold mtu_step, reports_mtu. destruct (Z.eqb_spec (kind p) H4_ACL) as [Hk|]; [|done]. cbn [negb].
  intros H. apply bind_ok_inv in H as (len&s3&Hlen&H). injection Hlen as Hlen ->. cbn zeta in H.
  destruct (_ <? _)%nat; [done|].
  apply bind_ok_inv in H as ([l c]&s4&Hh&H). injection Hh as Hh ->.
  apply bind_ok_inv in H as (op&s5&Ho&H). injection Ho as Ho ->.
  destruct (_ && _) eqn:Eb; [|done]. apply andb_true_iff in Eb as [Hc%Z.eqb_eq Hop%Z.eqb_eq].
  cbn [snd] in Hc. split; [done|]. exists len. split; [done|]. cbn zeta. split.
  - unfold unpack_HH in Hh. case_decide; [|done]. injection Hh as _ Hh. rewrite <- Hc, <- Hh.
    unfold slice. rewrite drop_0. by rewrite take_drop_commute.
  - unfold idx in Ho. destruct (_ !! 4%nat) as [x|]; [|done]. injection Ho as ->. by rewrite Hop.
Qed.

(** The packet that ends a link, and the writing of it. *)
Definition disconnect_packet (handle : Z) : bytes :=
  command_packet OP_DISCONNECT (le_bytes 2 handle ++ [0x13]).

Lemma ended_by_inv {X Y} (m : M (dev (T:=T)) X) (f : X → M (dev (T:=T)) Y) s y s' :
  engine_ok s → some m → (m ≫= f) s = (Ok y, s') → ∃ x s1, engine_ok s1 ∧ f x s1 = (Ok y, s').
Proof.
  intros Hs Hm H. apply bind_ok_inv in H as (x&s1&Hx&H). exists x, s1. split; [|done].
  destruct (Hm s Hs) as (Hs1&_). by rewrite Hx in Hs1.
Qed.

Lemma pack_handle handle h : pack [FH handle; FB 0x13] = Ok h → h = le_bytes 2 handle ++ [0x13].
Proof.
  cbn [pack pack_field]. unfold pack_le. destruct (_ && _); [|done].
  destruct (_ && _); [|done]. cbn [app]. by intros [= <-].
Qed.

Lemma use_link_passes handle flood s rep s' :
  engine_ok s → use_link (T:=T) handle flood s = (Ok (0, rep), s') →
  link_down (snd s') = None ∧ (∃ p, packet_ok p ∧ reports_mtu p) ∧
  ∃ before, sent s' = before ++ [disconnect_packet handle].
Proof.
  intros Hs H. unfold use_link in H.
  apply ended_by_inv in H as (request&s1&Hs1&H); [|done|ends_auto].
  apply ended_by_inv in H as ([]&s2&Hs2&H); [|done|apply ends_send_acl].
  apply bind_ok_inv in H as (got&s3&Hgot&H).
  assert (Hs3 : engine_ok s3) by (destruct (ends_mtu_poll (seconds 5) s2 Hs2) as (Hx&_); by rewrite Hgot in Hx).
  cbn zeta in H. apply ended_by_inv in H as (report&s4&Hs4&H);
    [|done|destruct (flood =? 0); [ends_auto|apply ends_flood]].
  apply bind_ok_inv in H as (h&s5&Hh&H). injection Hh as Hh <-.
  apply bind_ok_inv in H as (r&s6&Hr&H). apply command_writes in Hr as (_&_&E6); [|done].
  apply bind_ok_inv in H as ([]&s7&[= <-]&H).
  apply bind_ok_inv in H as (down&s8&[= <- <-]&H). injection H as Hcode _ <-. cbn [snd] in *.
  destruct got as [[]|mtu]; [done|]. destruct (link_down (snd s6)) eqn:El; [done|].
  split_and!; [done| |].
  - apply poll_found in Hgot as (_&p&d&sa&sb&Hp&Hm); [|intros; by apply mtu_pure|done].
    exists p. split; [done|by eapply mtu_reports].
  - exists (sent s4). unfold sent in *. cbn [transport snd]. rewrite E6. unfold disconnect_packet.
    by rewrite (pack_handle _ _ Hh).
Qed.
End engine.

(** ** Witnesses *)

(** A legacy report of one octet of flags and a name, and the listening. *)
Definition demo_report (rssi : Z) : bytes :=
  [4; 0x3E; 18; 0x02; 0x01; 0x00; 0x01; 1; 2; 3; 4; 5; 6; 6; 2; 0x0A; 0; 2; 0x09; 65; rssi].
Abbreviation scan_demo := (serial_dev [] [demo_report 0xC0; demo_report 0xD0]).
Abbreviation scan_run := (listen 1 scan_demo).

Lemma scan_tallies_witness :
  fst scan_run = Ok [("06:05:04:03:02:01"%string, Entry 2 (-48) [65])] ∧
  ∃ ps rs, reads scan_demo ps (snd scan_run) ∧ reported ps rs ∧
    length (from_addr "06:05:04:03:02:01" rs) = 2%nat.
Proof.
  assert (E : scan_run = (Ok [("06:05:04:03:02:01"%string, Entry 2 (-48) [65])], snd scan_run))
    by by vm_compute.
  split; [by rewrite E|].
  destruct (scan_tallies _ _ _ _ E) as (ps&rs&Hr&Hrep&_&Hall&_).
  exists ps, rs. split_and!; [exact Hr|exact Hrep|].
  specialize (Hall "06:05:04:03:02:01"%string). cbn [entry_of String.eqb fst snd] in Hall.
  unfold summary in Hall. destruct (from_addr _ rs) as [|[[a r] d] l]; [done|].
  injection Hall as Hl _ _. cbn [length]. congruence.
Defined.

(** Command Complete of VS Read Counters: seventeen words, the last of them the
    packets taken. *)
Definition counters_event (taken : Z) : bytes :=
  [4; 0x0E; 73; 1; 0xF0; 0xFF; 0; 8] ++ zeros 64 ++ [taken; 0; 0; 0].
(** Number Of Completed Packets: two of the link 0x0040. *)
Definition two_completed : bytes := [4; 0x13; 5; 1; 0x40; 0; 2; 0].

Definition flood_demo : dev (T:=SerialH4.state) :=
  (0, init_hci (SerialH4.Serial [] (SerialH4.deliver [counters_event 5; two_completed]
    ++ replicate (Z.to_nat 7000) (SerialH4.Waiting 0 []) ++ SerialH4.deliver [counters_event 7]) [] [])).
Abbreviation flood_result := (flood_acl 0x0040 2 23 400 flood_demo).

Lemma flood_demo_ok : engine_ok flood_demo.
Proof. apply serial_dev_ok. by vm_compute. Qed.

(** The report says that every buffer came back. *)
Definition came_back (r : res (option flood_report)) : bool :=
  match r with Ok (Some f) => match f_buffers f with AllBack => f_taken f =? 2 | _ => false end
             | _ => false end.

Lemma flood_sends_witness :
  came_back (fst flood_result) = true ∧
  acl_credits (snd (snd flood_result)) = 0 - 2 + (acl_completed (snd (snd flood_result)) - 0).
Proof.
  assert (E : came_back (fst flood_result) = true) by by vm_compute.
  split; [exact E|].
  pose proof (λ r, flood_sends 0x0040 2 23 400 flood_demo r (snd flood_result) flood_demo_ok
    ltac:(lia) ltac:(lia)) as H.
  destruct flood_result as [[[f|]|e|] s']; try discriminate E.
  exact (proj2 (proj2 (H f eq_refl))).
Defined.

Lemma tools_exit_witness :
  let '(r, s') := run_tool (func Counters) (serial_dev [] [counters_event 5]) in
  engine_ok s' ∧ r = Ok 0 ∧
  match r with
  | Ok code => code ∈ [0; 1; 3] | Exc e => is_hci_error e = false | Stuck => False
  end.
Proof.
  pose proof (tools_exit Counters (serial_dev [] [counters_event 5])
    ltac:(apply serial_dev_ok; by vm_compute)) as H.
  assert (E : fst (run_tool (func Counters) (serial_dev [] [counters_event 5])) = Ok 0)
    by by vm_compute.
  destruct (run_tool _ _) as [r s']. cbn [fst] in E. destruct H. by split_and!.
Defined.

(** A controller with one buffer of 27 octets and a public address, and a peer
    that connects, answers the MTU exchange and is disconnected. *)
Definition connect_demo : dev (T:=SerialH4.state) :=
  serial_dev []
   [[4; 0x0E; 4; 1; 0x03; 0x0C; 0]; [4; 0x0E; 4; 1; 0x01; 0x0C; 0]; [4; 0x0E; 4; 1; 0x01; 0x20; 0];
    [4; 0x0E; 7; 1; 0x02; 0x20; 0; 27; 0; 1]; [4; 0x0E; 10; 1; 0x09; 0x10; 0; 1; 2; 3; 4; 5; 6];
    [4; 0x0F; 4; 0; 1; 0x0D; 0x20];
    [4; 0x3E; 19; 0x01; 0; 0x40; 0; 0; 0; 1; 2; 3; 4; 5; 6; 0x18; 0; 0; 0; 0x90; 1; 0];
    [2; 0x40; 0x20; 7; 0; 3; 0; 4; 0; 0x03; 247; 0]; [4; 0x0F; 4; 0; 1; 0x06; 0x04]].
Abbreviation connect_run := (cmd_connect "06:05:04:03:02:01" false 10 0 connect_demo).

End ToolsLaws.
