(* ===== verification/Smp.v ===== *)
(** * Smp: LE Secure Connections pairing (smp_central.py)

    The toolbox (f4, f5, f6, g2), the initiator [SmpCentral] and the responder
    [SmpResponder] as state machines fed one PDU at a time. P-256, AES-CMAC
    and the random source are the [Crypto] interface; what the agreement
    theorem relies on of them is [CryptoLaws]. The optional [log] callback has
    no effect on the state and is not modelled; [send] appends to [sent]. *)

From coqutil Require Import Datatypes.RecordSetters.
From S2P Require Export Bytes.
Import TriangleBracketNotations.
#[local] Open Scope Z_scope.

(** ** The cryptography package and the random source *)

Class Crypto (K G : Type) : Type := {
  (** [cmac.CMAC(algorithms.AES(key))] over a message. *)
  aes_cmac : bytes → bytes → bytes;
  (** [private.public_key().public_numbers()]. *)
  public_numbers : K → Z * Z;
  (** [private.exchange(ECDH(), public)], [None] for the ValueError of a
      point off the curve. *)
  exchange : K → Z → Z → option bytes;
  (** [rng(n)] with the generator's state. *)
  rng : nat → G → bytes * G;
}.

Class CryptoLaws (K G : Type) `{Crypto K G} : Prop := {
  cmac_length key message : length (aes_cmac key message) = 16%nat;
  public_range k : 0 ≤ fst (public_numbers k) < 2 ^ 256 ∧
                   0 ≤ snd (public_numbers k) < 2 ^ 256;
  exchange_agrees k1 k2 : ∃ secret,
    exchange k1 (fst (public_numbers k2)) (snd (public_numbers k2)) = Some secret ∧
    exchange k2 (fst (public_numbers k1)) (snd (public_numbers k1)) = Some secret;
  rng_length n g : length (fst (rng n g)) = n;
}.

(** ** Constants *)

Definition CID_SMP : Z := 0x0006.
Definition SMP_PAIRING_REQUEST : Z := 0x01.
Definition SMP_PAIRING_RESPONSE : Z := 0x02.
Definition SMP_PAIRING_CONFIRM : Z := 0x03.
Definition SMP_PAIRING_RANDOM : Z := 0x04.
Definition SMP_PAIRING_FAILED : Z := 0x05.
Definition SMP_PAIRING_PUBLIC_KEY : Z := 0x0C.
Definition SMP_PAIRING_DHKEY_CHECK : Z := 0x0D.

Definition FAILED_NAMES (code : Z) : option string :=
  match code with
  | 0x01 => Some "Passkey Entry Failed"
  | 0x02 => Some "OOB Not Available"
  | 0x03 => Some "Authentication Requirements"
  | 0x04 => Some "Confirm Value Failed"
  | 0x05 => Some "Pairing Not Supported"
  | 0x06 => Some "Encryption Key Size"
  | 0x07 => Some "Command Not Supported"
  | 0x08 => Some "Unspecified Reason"
  | 0x09 => Some "Repeated Attempts"
  | 0x0A => Some "Invalid Parameters"
  | 0x0B => Some "DHKey Check Failed"
  | 0x0C => Some "Numeric Comparison Failed"
  | 0x0D => Some "BR/EDR Pairing In Progress"
  | 0x0E => Some "Cross-transport Key Derivation Not Allowed"
  | _ => None
  end%string.

Definition AUTH_BONDING : Z := 0x01.
Definition AUTH_MITM : Z := 0x04.
Definition AUTH_SC : Z := 0x08.

Inductive pairing_method : Type := JustWorks | NumericComparison | PasskeyEntry.
#[export] Instance pairing_method_dec : EqDecision pairing_method.
Proof. solve_decision. Defined.

(** [_SC_METHOD], row the initiator's IO capability, column the responder's. *)
Definition SC_METHOD : list (list pairing_method) :=
  let JW := JustWorks in let NC := NumericComparison in let PE := PasskeyEntry in
  [ [JW; JW; PE; JW; PE];
    [JW; NC; PE; JW; NC];
    [PE; PE; PE; JW; PE];
    [JW; JW; JW; JW; JW];
    [PE; NC; PE; JW; NC] ].

Definition sc_method (initiator responder : Z) : res pairing_method :=
  row ← idx SC_METHOD (Z.to_nat initiator);
  idx row (Z.to_nat responder).

(** A flag test, [bool(value & flag)]. *)
Definition has_flag (value flag : Z) : bool := negb (Z.land value flag =? 0).

(** Using an attribute that is still [None] raises TypeError. *)
Definition need {A} (o : option A) : res A :=
  match o with Some a => Ok a | None => Exc TypeError end.

Definition is_pairing_error (e : exn) : bool :=
  match e with PairingError _ => true | _ => false end.

(** [str(err)]. *)
Definition exn_text (e : exn) : text :=
  match e with PairingError t => t | _ => Lit "" end.

(** ** The toolbox, arguments and results least significant octet first *)

Section toolbox.
Context {K G : Type} `{!Crypto K G}.

Definition f4 (u v x z : bytes) : bytes :=
  reverse (aes_cmac (reverse x) (reverse u ++ reverse v ++ z)).

Definition SALT : bytes :=
  [0x6C; 0x88; 0x83; 0x91; 0xAA; 0xF5; 0xA5; 0x38;
   0x60; 0x37; 0x0B; 0xDB; 0x5A; 0x60; 0x83; 0xBE].
Definition KEY_ID : bytes := [0x62; 0x74; 0x6C; 0x65].

(** (MacKey, LTK). *)
Definition f5 (w n1 n2 a1 a2 : bytes) : bytes * bytes :=
  let t := aes_cmac SALT (reverse w) in
  let block counter := aes_cmac t ([counter] ++ KEY_ID ++ reverse n1 ++ reverse n2 ++
                                   reverse a1 ++ reverse a2 ++ [0x01; 0x00]) in
  (reverse (block 0), reverse (block 1)).

Definition f6 (w n1 n2 r io_cap a1 a2 : bytes) : bytes :=
  reverse (aes_cmac (reverse w) (reverse n1 ++ reverse n2 ++ reverse r ++
    reverse io_cap ++ reverse a1 ++ reverse a2)).

(** [int.from_bytes(value[-4:], "big") % 1000000]. *)
Definition g2 (u v x y : bytes) : Z :=
  let value := aes_cmac (reverse x) (reverse u ++ reverse v ++ reverse y) in
  le_Z (reverse (drop (length value - 4) value)) mod 1000000.

Definition address_form (address : bytes) (address_type : Z) : res bytes :=
  t ← mkbytes [address_type]; Ok (address ++ t).

(** [KeyPair.x], [KeyPair.y]: the coordinates in wire order. *)
Definition key_x (k : K) : bytes := le_bytes 32 (fst (public_numbers k)).
Definition key_y (k : K) : bytes := le_bytes 32 (snd (public_numbers k)).

(** [KeyPair.shared_secret]. *)
Definition shared_secret (k : K) (peer_x peer_y : bytes) : res bytes :=
  match exchange k (le_Z peer_x) (le_Z peer_y) with
  | Some secret => Ok (reverse secret)
  | None => Exc (ValueError (Lit "point is not on the curve"))
  end.
End toolbox.

#[global] Arguments constant {E} newValue _ /.
#[global] Arguments f4 : simpl never.
#[global] Arguments f5 : simpl never.
#[global] Arguments f6 : simpl never.
#[global] Arguments g2 : simpl never.
#[global] Arguments key_x : simpl never.
#[global] Arguments key_y : simpl never.
#[global] Arguments shared_secret : simpl never.

(** What both sides are constructed with. *)
Record smp_cfg (K : Type) : Type := SmpCfg {
  local_address : bytes; local_type : Z;
  peer_address : bytes; peer_type : Z;
  io_cap : Z; auth_req : Z; key_size : Z;
  init_keys : Z;   (* accept_init_keys of the responder *)
  resp_keys : Z;
  keypair : K;
}.
Arguments SmpCfg {K}.
Arguments local_address {K}.
Arguments local_type {K}.
Arguments peer_address {K}.
Arguments peer_type {K}.
Arguments io_cap {K}.
Arguments auth_req {K}.
Arguments key_size {K}.
Arguments init_keys {K}.
Arguments resp_keys {K}.
Arguments keypair {K}.

(** ** The initiator *)

Module Central.

Inductive phase : Type :=
  | IDLE | WAIT_RESPONSE | WAIT_PUBLIC_KEY | WAIT_CONFIRM | WAIT_RANDOM
  | WAIT_USER | WAIT_DHKEY_CHECK | COMPLETE | FAILED.
#[global] Instance phase_dec : EqDecision phase.
Proof. solve_decision. Defined.

(** The attributes of a [SmpCentral], [None] until they are set, the random
    source and the PDUs handed to [send]. *)
Record central (G : Type) : Type := Cen {
  state : phase;
  method : option pairing_method;
  failure : option text;
  peer_failure : option Z;
  numeric_value : option Z;
  ltk : option bytes;
  mac_key : option bytes;
  dhkey : option bytes;
  preq : option bytes;
  pres : option bytes;
  peer_io_cap : option Z;
  peer_auth_req : option Z;
  na : option bytes;
  nb : option bytes;
  peer_x : option bytes;
  peer_y : option bytes;
  confirm : option bytes;
  dhkey_check : option bytes;
  user_accepted : option bool;
  entropy : G;
  sent : list bytes;
}.
Arguments state {G}.
Arguments method {G}.
Arguments failure {G}.
Arguments peer_failure {G}.
Arguments numeric_value {G}.
Arguments ltk {G}.
Arguments mac_key {G}.
Arguments dhkey {G}.
Arguments preq {G}.
Arguments pres {G}.
Arguments peer_io_cap {G}.
Arguments peer_auth_req {G}.
Arguments na {G}.
Arguments nb {G}.
Arguments peer_x {G}.
Arguments peer_y {G}.
Arguments confirm {G}.
Arguments dhkey_check {G}.
Arguments user_accepted {G}.
Arguments entropy {G}.
Arguments sent {G}.
Arguments Cen {G}.

Section central.
Context {K G : Type} `{!Crypto K G} (c : smp_cfg K).

(** [SmpCentral.__init__]. *)
Definition init (g : G) : central G :=
  Cen IDLE None None None None None None None None None None None None None
      None None None None None g [].

Definition done (s : central G) : bool :=
  match state s with COMPLETE | FAILED => true | _ => false end.
Definition ok (s : central G) : bool :=
  match state s with COMPLETE => true | _ => false end.

Definition a1 : res bytes := address_form (local_address c) (local_type c).
Definition a2 : res bytes := address_form (peer_address c) (peer_type c).

(** [self.send(pdu)]. *)
Definition send (pdu : bytes) : M (central G) unit :=
  modify (λ s, s<|sent ::= λ l, l ++ [pdu]|>).

(** [_emit]: the log line indexes the PDU. *)
Definition emit (pdu : bytes) : M (central G) unit :=
  lift (idx pdu 0) ;; send pdu.

Definition fail (t : text) (reason : option Z) : M (central G) unit :=
  modify (λ s, s<|failure := Some t|><|state := FAILED|>) ;;
  match reason with
  | Some r => pdu ← lift (mkbytes [SMP_PAIRING_FAILED; r]); send pdu
  | None => skip
  end.

Definition goto (p : phase) : M (central G) unit :=
  modify (λ s, s<|state := p|>).

Definition start : M (central G) unit :=
  st ← gets state;
  if negb (bool_decide (st = IDLE)) then
    raise (PairingError (Lit "pairing already started"))
  else
    pdu ← lift (mkbytes [SMP_PAIRING_REQUEST; io_cap c; 0x00; auth_req c;
                         key_size c; init_keys c; resp_keys c]);
    modify (λ s, s<|preq := Some pdu|>) ;;
    goto WAIT_RESPONSE ;;
    emit pdu.

(** The guard every handler opens with: the phase, then the length. *)
Definition expect (p : phase) (len : nat) (name : string) (pdu : bytes)
  : M (central G) unit :=
  st ← gets state;
  if negb (bool_decide (st = p)) then
    raise (PairingError (Fmt "unexpected %s" [AStr name]))
  else if negb (length pdu =? len)%nat then
    raise (PairingError (Fmt "%s is %d octets" [AStr name; AInt (blen pdu)]))
  else skip.

Definition on_response (pdu : bytes) : M (central G) unit :=
  expect WAIT_RESPONSE 7 "Pairing Response" pdu ;;
  peer_io ← lift (idx pdu 1);
  oob ← lift (idx pdu 2);
  peer_auth ← lift (idx pdu 3);
  peer_key_size ← lift (idx pdu 4);
  modify (λ s, s<|pres := Some pdu|><|peer_io_cap := Some peer_io|>
                <|peer_auth_req := Some peer_auth|>) ;;
  if negb (has_flag (auth_req c) AUTH_SC && has_flag peer_auth AUTH_SC) then
    fail (Lit "the peer answered without Secure Connections, so this is legacy pairing, which this initiator does not do") (Some 0x05)
  else if negb (oob =? 0) then
    fail (Lit "the peer offers out of band data") (Some 0x02)
  else if (peer_key_size <? 7) || (16 <? peer_key_size) then
    fail (Fmt "key size %d" [AInt peer_key_size]) (Some 0x06)
  else if (4 <? io_cap c) || (4 <? peer_io) then
    fail (Lit "io capability out of range") (Some 0x0A)
  else
    let mitm := has_flag (auth_req c) AUTH_MITM || has_flag peer_auth AUTH_MITM in
    m ← (if mitm then lift (sc_method (io_cap c) peer_io) else mret JustWorks);
    modify (λ s, s<|method := Some m|>) ;;
    if bool_decide (m = PasskeyEntry) then
      fail (Lit "Passkey Entry is not implemented here; use io cap 1 (display yes/no) or 3 (no input no output)") (Some 0x05)
    else
      goto WAIT_PUBLIC_KEY ;;
      emit ([SMP_PAIRING_PUBLIC_KEY] ++ key_x (keypair c) ++ key_y (keypair c)).

(** The shared secret, a bad point reported as a pairing error. *)
Definition agree (who : string) (px py : bytes) : M (central G) unit :=
  try_except (λ e, match e with ValueError _ => true | _ => false end)
    (secret ← lift (shared_secret (keypair c) px py);
     modify (λ s, s<|dhkey := Some secret|>))
    (λ _, raise (PairingError (Fmt "%s public key is not on the curve" [AStr who]))).

Definition on_public_key (pdu : bytes) : M (central G) unit :=
  expect WAIT_PUBLIC_KEY 65 "Pairing Public Key" pdu ;;
  let px := slice 1 33 pdu in
  let py := slice 33 65 pdu in
  modify (λ s, s<|peer_x := Some px|><|peer_y := Some py|>) ;;
  if bool_decide (px = key_x (keypair c)) && bool_decide (py = key_y (keypair c))
  then raise (PairingError (Lit "peer returned our own public key"))
  else
    agree "peer" px py ;;
    goto WAIT_CONFIRM.

Definition on_confirm (pdu : bytes) : M (central G) unit :=
  expect WAIT_CONFIRM 17 "Pairing Confirm" pdu ;;
  modify (λ s, s<|confirm := Some (slice 1 17 pdu)|>) ;;
  g ← gets entropy;
  let '(random, g') := rng 16 g in
  modify (λ s, s<|entropy := g'|><|na := Some random|>) ;;
  goto WAIT_RANDOM ;;
  emit ([SMP_PAIRING_RANDOM] ++ random).

Definition send_dhkey_check : M (central G) unit :=
  s ← getS;
  preq_ ← lift (need (preq s));
  pres_ ← lift (need (pres s));
  mk ← lift (need (mac_key s));
  na_ ← lift (need (na s));
  nb_ ← lift (need (nb s));
  a1_ ← lift a1;
  a2_ ← lift a2;
  let io_a := slice 1 4 preq_ in
  let io_b := slice 1 4 pres_ in
  let ea := f6 mk na_ nb_ (zeros 16) io_a a1_ a2_ in
  modify (λ s, s<|dhkey_check := Some (f6 mk nb_ na_ (zeros 16) io_b a2_ a1_)|>) ;;
  goto WAIT_DHKEY_CHECK ;;
  emit ([SMP_PAIRING_DHKEY_CHECK] ++ ea).

Definition on_random (pdu : bytes) : M (central G) unit :=
  expect WAIT_RANDOM 17 "Pairing Random" pdu ;;
  let nb_ := slice 1 17 pdu in
  modify (λ s, s<|nb := Some nb_|>) ;;
  s ← getS;
  px ← lift (need (peer_x s));
  if negb (bool_decide (Some (f4 px (key_x (keypair c)) nb_ (zeros 1)) = confirm s))
  then fail (Lit "confirm value check failed: the peer's Pairing Confirm does not match f4 of its random") (Some 0x04)
  else
    dh ← lift (need (dhkey s));
    na_ ← lift (need (na s));
    a1_ ← lift a1;
    a2_ ← lift a2;
    let keys := f5 dh na_ nb_ a1_ a2_ in
    modify (λ s, s<|mac_key := Some (fst keys)|><|ltk := Some (snd keys)|>) ;;
    if bool_decide (method s = Some NumericComparison) then
      modify (λ s, s<|numeric_value := Some (g2 (key_x (keypair c)) px na_ nb_)|>) ;;
      goto WAIT_USER
    else send_dhkey_check.

Definition on_dhkey_check (pdu : bytes) : M (central G) unit :=
  expect WAIT_DHKEY_CHECK 17 "Pairing DHKey Check" pdu ;;
  s ← getS;
  if negb (bool_decide (Some (slice 1 17 pdu) = dhkey_check s))
  then fail (Lit "the peer's DHKey Check does not match") (Some 0x0B)
  else goto COMPLETE.

Definition user_confirm (accepted : bool) : M (central G) unit :=
  st ← gets state;
  if negb (bool_decide (st = WAIT_USER)) then
    raise (PairingError (Lit "no comparison is waiting"))
  else
    modify (λ s, s<|user_accepted := Some accepted|>) ;;
    if negb accepted then
      fail (Lit "numeric comparison rejected here") (Some 0x0C)
    else send_dhkey_check.

Definition handler (code : Z) : option (bytes → M (central G) unit) :=
  if code =? SMP_PAIRING_RESPONSE then Some on_response
  else if code =? SMP_PAIRING_PUBLIC_KEY then Some on_public_key
  else if code =? SMP_PAIRING_CONFIRM then Some on_confirm
  else if code =? SMP_PAIRING_RANDOM then Some on_random
  else if code =? SMP_PAIRING_DHKEY_CHECK then Some on_dhkey_check
  else None.

Definition failed_text (who : string) (reason : option Z) : text :=
  match reason ≫= FAILED_NAMES with
  | Some name => Fmt "%s sent Pairing Failed, %s" [AStr who; AStr name]
  | None => Fmt "%s sent Pairing Failed, reason 0x%02X" [AStr who; AInt (default 0 reason)]
  end.

Definition feed (pdu : bytes) : M (central G) unit :=
  s ← getS;
  match pdu with
  | [] => skip
  | code :: rest =>
      if done s then skip
      else if code =? SMP_PAIRING_FAILED then
        modify (λ s, s<|peer_failure := head rest|>) ;;
        fail (failed_text "peer" (head rest)) None
      else
        match handler code with
        | None => skip
        | Some h => try_except is_pairing_error (h pdu)
                      (λ e, fail (exn_text e) (Some 0x0A))
        end
  end.
End central.
End Central.

(** ** The responder *)

Module Responder.

Inductive phase : Type :=
  | R_IDLE | R_WAIT_PUBLIC_KEY | R_WAIT_RANDOM | R_WAIT_USER_OR_CHECK
  | R_COMPLETE | R_FAILED.
#[global] Instance phase_dec : EqDecision phase.
Proof. solve_decision. Defined.

Record responder (G : Type) : Type := Resp {
  state : phase;
  method : option pairing_method;
  failure : option text;
  peer_failure : option Z;
  numeric_value : option Z;
  ltk : option bytes;
  mac_key : option bytes;
  dhkey : option bytes;
  preq : option bytes;
  pres : option bytes;
  na : option bytes;
  nb : bytes;
  peer_x : option bytes;
  peer_y : option bytes;
  user_accepted : option bool;
  ea : option bytes;
  kept_init_keys : Z;
  request : list Z;      (* io_cap, oob, auth_req, key_size, init_keys, resp_keys *)
  entropy : G;
  sent : list bytes;
}.
Arguments state {G}.
Arguments method {G}.
Arguments failure {G}.
Arguments peer_failure {G}.
Arguments numeric_value {G}.
Arguments ltk {G}.
Arguments mac_key {G}.
Arguments dhkey {G}.
Arguments preq {G}.
Arguments pres {G}.
Arguments na {G}.
Arguments nb {G}.
Arguments peer_x {G}.
Arguments peer_y {G}.
Arguments user_accepted {G}.
Arguments ea {G}.
Arguments kept_init_keys {G}.
Arguments request {G}.
Arguments entropy {G}.
Arguments sent {G}.
Arguments Resp {G}.

Section responder.
Context {K G : Type} `{!Crypto K G} (c : smp_cfg K).

(** [SmpResponder.__init__]: Nb is drawn at once. *)
Definition init (g : G) : responder G :=
  let '(random, g') := rng 16 g in
  Resp R_IDLE None None None None None None None None None None random
       None None None None 0 [] g' [].

Definition done (s : responder G) : bool :=
  match state s with R_COMPLETE | R_FAILED => true | _ => false end.
Definition ok (s : responder G) : bool :=
  match state s with R_COMPLETE => true | _ => false end.

(** The initiator is the peer here. *)
Definition a1 : res bytes := address_form (peer_address c) (peer_type c).
Definition a2 : res bytes := address_form (local_address c) (local_type c).

Definition send (pdu : bytes) : M (responder G) unit :=
  modify (λ s, s<|sent ::= λ l, l ++ [pdu]|>).
Definition emit (pdu : bytes) : M (responder G) unit :=
  lift (idx pdu 0) ;; send pdu.

Definition fail (t : text) (reason : option Z) : M (responder G) unit :=
  modify (λ s, s<|failure := Some t|><|state := R_FAILED|>) ;;
  match reason with
  | Some r => pdu ← lift (mkbytes [SMP_PAIRING_FAILED; r]); send pdu
  | None => skip
  end.

Definition goto (p : phase) : M (responder G) unit :=
  modify (λ s, s<|state := p|>).

Definition expect (p : phase) (len : nat) (name : string) (pdu : bytes)
  : M (responder G) unit :=
  st ← gets state;
  if negb (bool_decide (st = p)) then
    raise (PairingError (Fmt "unexpected %s" [AStr name]))
  else if negb (length pdu =? len)%nat then
    raise (PairingError (Fmt "%s is %d octets" [AStr name; AInt (blen pdu)]))
  else skip.

Definition on_request (pdu : bytes) : M (responder G) unit :=
  expect R_IDLE 7 "Pairing Request" pdu ;;
  modify (λ s, s<|preq := Some pdu|>) ;;
  io ← lift (idx pdu 1);
  oob ← lift (idx pdu 2);
  auth ← lift (idx pdu 3);
  size ← lift (idx pdu 4);
  keys ← lift (idx pdu 5);
  resp ← lift (idx pdu 6);
  modify (λ s, s<|request := [io; oob; auth; size; keys; resp]|>) ;;
  if negb (has_flag auth AUTH_SC && has_flag (auth_req c) AUTH_SC) then
    fail (Lit "the central did not ask for Secure Connections, so this is legacy pairing, which this responder does not do") (Some 0x05)
  else if 4 <? io then
    fail (Lit "io capability out of range") (Some 0x0A)
  else
    let mitm := has_flag auth AUTH_MITM || has_flag (auth_req c) AUTH_MITM in
    m ← (if mitm then lift (sc_method io (io_cap c)) else mret JustWorks);
    modify (λ s, s<|method := Some m|>) ;;
    if bool_decide (m = PasskeyEntry) then
      fail (Lit "Passkey Entry is not implemented here") (Some 0x05)
    else
      let kept := Z.land keys (init_keys c) in
      modify (λ s, s<|kept_init_keys := kept|>) ;;
      answer ← lift (mkbytes [SMP_PAIRING_RESPONSE; io_cap c; 0x00; auth_req c;
                              Z.min (key_size c) 16; kept;
                              Z.land resp (resp_keys c)]);
      modify (λ s, s<|pres := Some answer|>) ;;
      goto R_WAIT_PUBLIC_KEY ;;
      emit answer.

Definition agree (who : string) (px py : bytes) : M (responder G) unit :=
  try_except (λ e, match e with ValueError _ => true | _ => false end)
    (secret ← lift (shared_secret (keypair c) px py);
     modify (λ s, s<|dhkey := Some secret|>))
    (λ _, raise (PairingError (Fmt "%s public key is not on the curve" [AStr who]))).

Definition on_public_key (pdu : bytes) : M (responder G) unit :=
  expect R_WAIT_PUBLIC_KEY 65 "Pairing Public Key" pdu ;;
  let px := slice 1 33 pdu in
  let py := slice 33 65 pdu in
  modify (λ s, s<|peer_x := Some px|><|peer_y := Some py|>) ;;
  agree "central" px py ;;
  emit ([SMP_PAIRING_PUBLIC_KEY] ++ key_x (keypair c) ++ key_y (keypair c)) ;;
  nb_ ← gets nb;
  let confirm := f4 (key_x (keypair c)) px nb_ (zeros 1) in
  goto R_WAIT_RANDOM ;;
  emit ([SMP_PAIRING_CONFIRM] ++ confirm).

Definition on_random (pdu : bytes) : M (responder G) unit :=
  expect R_WAIT_RANDOM 17 "Pairing Random" pdu ;;
  let na_ := slice 1 17 pdu in
  modify (λ s, s<|na := Some na_|>) ;;
  s ← getS;
  emit ([SMP_PAIRING_RANDOM] ++ nb s) ;;
  dh ← lift (need (dhkey s));
  a1_ ← lift a1;
  a2_ ← lift a2;
  let keys := f5 dh na_ (nb s) a1_ a2_ in
  modify (λ s, s<|mac_key := Some (fst keys)|><|ltk := Some (snd keys)|>) ;;
  goto R_WAIT_USER_OR_CHECK ;;
  if bool_decide (method s = Some NumericComparison) then
    px ← lift (need (peer_x s));
    modify (λ s', s'<|numeric_value := Some (g2 px (key_x (keypair c)) na_ (nb s))|>)
  else modify (λ s, s<|user_accepted := Some true|>).

(** [_finish]: answer the check once the user has accepted and the check has
    arrived. *)
Definition finish : M (responder G) unit :=
  s ← getS;
  match ea s with
  | None => skip
  | Some ea_ =>
      if negb (bool_decide (user_accepted s = Some true)) then skip
      else
        preq_ ← lift (need (preq s));
        pres_ ← lift (need (pres s));
        mk ← lift (need (mac_key s));
        na_ ← lift (need (na s));
        a1_ ← lift a1;
        a2_ ← lift a2;
        if negb (bool_decide
             (f6 mk na_ (nb s) (zeros 16) (slice 1 4 preq_) a1_ a2_ = ea_))
        then fail (Lit "the central's DHKey Check does not match") (Some 0x0B)
        else
          emit ([SMP_PAIRING_DHKEY_CHECK] ++
                f6 mk (nb s) na_ (zeros 16) (slice 1 4 pres_) a2_ a1_) ;;
          goto R_COMPLETE
  end.

Definition user_confirm (accepted : bool) : M (responder G) unit :=
  st ← gets state;
  if negb (bool_decide (st = R_WAIT_USER_OR_CHECK)) then
    raise (PairingError (Lit "no comparison is waiting"))
  else
    modify (λ s, s<|user_accepted := Some accepted|>) ;;
    if negb accepted then
      fail (Lit "numeric comparison rejected here") (Some 0x0C)
    else finish.

Definition on_dhkey_check (pdu : bytes) : M (responder G) unit :=
  expect R_WAIT_USER_OR_CHECK 17 "Pairing DHKey Check" pdu ;;
  modify (λ s, s<|ea := Some (slice 1 17 pdu)|>) ;;
  finish.

Definition handler (code : Z) : option (bytes → M (responder G) unit) :=
  if code =? SMP_PAIRING_REQUEST then Some on_request
  else if code =? SMP_PAIRING_PUBLIC_KEY then Some on_public_key
  else if code =? SMP_PAIRING_RANDOM then Some on_random
  else if code =? SMP_PAIRING_DHKEY_CHECK then Some on_dhkey_check
  else None.

Definition feed (pdu : bytes) : M (responder G) unit :=
  s ← getS;
  match pdu with
  | [] => skip
  | code :: rest =>
      if done s then skip
      else if code =? SMP_PAIRING_FAILED then
        modify (λ s, s<|peer_failure := head rest|>) ;;
        fail (Central.failed_text "central" (head rest)) None
      else
        match handler code with
        | None => skip
        | Some h => try_except is_pairing_error (h pdu)
                      (λ e, fail (exn_text e) (Some 0x0A))
        end
  end.
End responder.
End Responder.
