(* ===== verification/SmpSafety.v ===== *)
(** * SmpSafety: what a completed pairing has checked

    The initiator as a step relation over its inputs, with the invariant of
    its phases, by rule induction. *)

From coqutil Require Import Datatypes.RecordSetters.
From S2P Require Export Smp.
Import TriangleBracketNotations.
#[local] Open Scope Z_scope.

Module CentralSafety.
Import Central.

(** What the caller does with a [SmpCentral]. *)
Inductive input : Type :=
  | Start
  | Feed (pdu : bytes)
  | User (accepted : bool).

Definition rank (p : phase) : nat :=
  match p with
  | IDLE => 0 | WAIT_RESPONSE => 1 | WAIT_PUBLIC_KEY => 2 | WAIT_CONFIRM => 3
  | WAIT_RANDOM => 4 | WAIT_USER => 5 | WAIT_DHKEY_CHECK => 6 | COMPLETE => 7
  | FAILED => 8
  end.

Section safety.
Context {K G : Type} `{!Crypto K G} (c : smp_cfg K).
Implicit Types (s : central G) (ins : list input).

Definition step (i : input) : M (central G) unit :=
  match i with
  | Start => start c
  | Feed pdu => feed c pdu
  | User accepted => user_confirm c accepted
  end.

(** [reach g ins s]: the inputs [ins], in order, lead a fresh central with
    random source [g] to [s], whatever each call returned or raised. *)
Inductive reach (g : G) : list input → central G → Prop :=
  | reach_init : reach g [] (init g)
  | reach_step ins s i :
      reach g ins s → reach g (ins ++ [i]) (snd (step i s)).

(** The Pairing Response [p] selects method [m]. *)
Definition negotiated (p : bytes) (m : pairing_method) : Prop :=
  ∃ io auth size, p !! 1%nat = Some io ∧ p !! 2%nat = Some 0 ∧
    p !! 3%nat = Some auth ∧ p !! 4%nat = Some size ∧
    has_flag (auth_req c) AUTH_SC = true ∧ has_flag auth AUTH_SC = true ∧
    7 ≤ size ≤ 16 ∧ m ≠ PasskeyEntry ∧
    if has_flag (auth_req c) AUTH_MITM || has_flag auth AUTH_MITM
    then sc_method (io_cap c) io = Ok m else m = JustWorks.

Definition chosen ins s : Prop := ∃ p m,
  pres s = Some p ∧ method s = Some m ∧ Feed p ∈ ins ∧ negotiated p m.

Definition keyed s : Prop := ∃ px py dh,
  peer_x s = Some px ∧ peer_y s = Some py ∧ dhkey s = Some dh ∧
  ¬ (px = key_x (keypair c) ∧ py = key_y (keypair c)) ∧
  shared_secret (keypair c) px py = Ok dh.

Definition committed ins s : Prop := ∃ pdu random,
  Feed pdu ∈ ins ∧ confirm s = Some (slice 1 17 pdu) ∧ na s = Some random.

Definition derived s : Prop := ∃ px dh na_ nb_ a1_ a2_,
  peer_x s = Some px ∧ dhkey s = Some dh ∧ na s = Some na_ ∧ nb s = Some nb_ ∧
  a1 c = Ok a1_ ∧ a2 c = Ok a2_ ∧
  confirm s = Some (f4 px (key_x (keypair c)) nb_ (zeros 1)) ∧
  mac_key s = Some (fst (f5 dh na_ nb_ a1_ a2_)) ∧
  ltk s = Some (snd (f5 dh na_ nb_ a1_ a2_)).

Definition checking ins s : Prop :=
  (method s = Some NumericComparison → User true ∈ ins) ∧
  ∃ p mk na_ nb_ a1_ a2_,
    pres s = Some p ∧ mac_key s = Some mk ∧ na s = Some na_ ∧ nb s = Some nb_ ∧
    a1 c = Ok a1_ ∧ a2 c = Ok a2_ ∧
    dhkey_check s = Some (f6 mk nb_ na_ (zeros 16) (slice 1 4 p) a2_ a1_).

Definition checked ins s : Prop := ∃ pdu,
  Feed pdu ∈ ins ∧ dhkey_check s = Some (slice 1 17 pdu).

(** The facts a phase has established hold from that phase on. *)
Definition from (n : nat) s (P : Prop) : Prop := (n ≤ rank (state s) < 8)%nat → P.

Definition inv ins s : Prop :=
  from 2 s (chosen ins s) ∧ from 3 s (keyed s) ∧ from 4 s (committed ins s) ∧
  from 5 s (derived s) ∧ from 6 s (checking ins s) ∧ from 7 s (checked ins s).

Lemma inv_init g : inv [] (init g).
Proof. unfold inv, from; cbn. split_and!; lia. Qed.

Lemma inv_failed ins s : state s = FAILED → inv ins s.
Proof. intros E. unfold inv, from. rewrite E; cbn. split_and!; lia. Qed.

Lemma inv_more ins i s : inv ins s → inv (ins ++ [i]) s.
Proof.
  unfold inv, from, chosen, committed, checking, checked.
  intros (H2&H3&H4&H5&H6&H7). split_and!; try done.
  - intros Hn. destruct (H2 Hn) as (p&m&?&?&?&?). exists p, m. rewrite elem_of_app. auto.
  - intros Hn. destruct (H4 Hn) as (p&m&?&?&?). exists p, m. rewrite elem_of_app. auto.
  - intros Hn. destruct (H6 Hn) as (Hu&?). split; [|done]. rewrite elem_of_app. auto.
  - intros Hn. destruct (H7 Hn) as (p&?&?). exists p. rewrite elem_of_app. auto.
Qed.

Lemma feed_in ins pdu : Feed pdu ∈ ins ++ [Feed pdu].
Proof. apply elem_of_app. right. by left. Qed.
#[local] Hint Resolve feed_in : core.

(** Every program below ends in a state that satisfies the invariant. *)
Definition keeps {A} ins (m : M (central G) A) (s : central G) : Prop :=
  wp m (λ _, inv ins) s.

Lemma fail_keeps ins t r s : keeps ins (fail t r) s.
Proof.
  unfold keeps, fail, send. repeat wp_step; by apply inv_failed.
Qed.

Lemma wp_expect p len name pdu (k : M (central G) unit) Q s :
  (state s = p → length pdu = len → wp k Q s) → (∀ e, Q (Exc e) s) →
  wp (expect p len name pdu ;; k) Q s.
Proof.
  intros Hk He. unfold expect. repeat wp_step; try apply He.
  apply Hk; [|by apply Nat.eqb_eq, negb_false_iff].
  by apply negb_false_iff, bool_decide_eq_true in Heqb.
Qed.

Lemma wp_emit x l Q s :
  Q (Ok tt) (s<|sent ::= λ ps, ps ++ [x :: l]|>) → wp (emit (x :: l)) Q s.
Proof. done. Qed.

Lemma idx_lookup {A} (l : list A) i x : idx l i = Ok x → l !! i = Some x.
Proof. unfold idx. by case_match; intros; simplify_eq. Qed.

(** Run a handler's straight-line code; leave the states it can end in. *)
Ltac exec :=
  unfold keeps, goto, send;
  repeat first [apply wp_expect; [intros ? ?|intros ?] | apply wp_emit | wp_step].

(** A state that agrees with [s] on what its phase has established. *)
Ltac same_facts :=
  match goal with
  | H : inv _ ?s |- inv _ _ => destruct s; cbn in *; subst;
      unfold inv, from in H |- *; cbn in H |- *; split_and!; intros; try lia; apply H; lia
  end.
(** Reach the facts the phase of [s] has established. *)
Ltac established :=
  match goal with
  | H : inv _ ?s, E : state ?s = _ |- _ =>
      unfold inv, from in H; rewrite E in H; cbn in H;
      destruct H as (I2&I3&I4&I5&I6&I7);
      first [specialize (I2 ltac:(lia)) | clear I2];
      first [specialize (I3 ltac:(lia)) | clear I3];
      first [specialize (I4 ltac:(lia)) | clear I4];
      first [specialize (I5 ltac:(lia)) | clear I5];
      first [specialize (I6 ltac:(lia)) | clear I6]; clear I7;
      destruct s
  end.
Ltac open_facts :=
  lazymatch goal with |- inv _ _ => established end;
  unfold inv, from; cbn in *; subst; cbn in *; split_and!; intros; try lia; try done.

Lemma start_keeps ins s : inv ins s → keeps ins (start c) s.
Proof. intros Hi. unfold start, emit. exec; same_facts. Qed.

Lemma on_response_keeps ins pdu s :
  inv ins s → Feed pdu ∈ ins → keeps ins (on_response c pdu) s.
Proof.
  intros Hi Hin. unfold on_response. exec; try (by apply fail_keeps); try done.
  all: open_facts.
  all: rewrite ?negb_false_iff, ?andb_true_iff, ?orb_false_iff,
         ?bool_decide_eq_false, ?Z.eqb_eq in *; destruct_and!; subst.
  all: eexists pdu, _; split_and!; [done|done|done|].
  all: unfold negotiated; eexists _, _, _; split_and!; eauto using idx_lookup; try lia.
  - by rewrite Heqb3.
  - by repeat match goal with H : has_flag _ AUTH_MITM = _ |- _ => rewrite H end.
Qed.

Lemma on_public_key_keeps ins pdu s : inv ins s → keeps ins (on_public_key c pdu) s.
Proof.
  intros Hi. unfold on_public_key, agree. exec; try done.
  { open_facts. }
  apply wp_bind, wp_try_except. exec; [|destruct e; exec|].
  all: open_facts.
  exists (slice 1 33 pdu), (slice 33 65 pdu), a. split_and!; try done.
  apply andb_false_iff in Heqb as [E|E]; apply bool_decide_eq_false in E;
    by intros [? ?].
Qed.

Lemma on_confirm_keeps ins pdu s :
  inv ins s → Feed pdu ∈ ins → keeps ins (on_confirm (K:=K) pdu) s.
Proof.
  intros Hi Hin. unfold on_confirm. exec; try done. open_facts.
  by eexists pdu, _.
Qed.

(** The phases before the check can hold all earlier facts. *)
Definition ready ins s : Prop :=
  (4 ≤ rank (state s) ≤ 5)%nat ∧
  chosen ins s ∧ keyed s ∧ committed ins s ∧ derived s.

Lemma ready_inv ins s : ready ins s → inv ins s.
Proof. intros (?&?&?&?&?). unfold inv, from. split_and!; done || lia. Qed.

Lemma need_some {A} (o : option A) a : need o = Ok a → o = Some a.
Proof. by destruct o; intros; simplify_eq/=. Qed.

(** Turn the attributes a program used and the tests it passed into equations. *)
Ltac used :=
  repeat match goal with
    | H : need _ = Ok _ |- _ => apply need_some in H
    | H : negb _ = false |- _ => apply negb_false_iff in H
    | H : bool_decide _ = true |- _ => apply bool_decide_eq_true in H
    | H : bool_decide _ = false |- _ => apply bool_decide_eq_false in H
    end; cbn in *; simplify_eq.

Lemma send_dhkey_check_keeps ins s :
  ready ins s → (method s = Some NumericComparison → User true ∈ ins) →
  keeps ins (send_dhkey_check c) s.
Proof.
  intros Hr Hu. unfold send_dhkey_check. exec; try by apply ready_inv.
  destruct Hr as (_&H7&H8&H9&H10). destruct s; used.
  unfold inv, from; cbn. split_and!; intros; try done; [|lia].
  split; [done|]. by eexists _, _, _, _, _, _.
Qed.

Lemma on_random_keeps ins pdu s : inv ins s → keeps ins (on_random c pdu) s.
Proof.
  intros Hi. unfold on_random. exec; try done; try (by apply fail_keeps).
  all: try open_facts.
  - used. by eexists _, _, _, _, _, _.
  - apply send_dhkey_check_keeps; [|intros Hm; by rewrite bool_decide_eq_false in Heqb0].
    established; used. split_and!; [cbn; lia|cbn; lia|done..|].
    by eexists _, _, _, _, _, _.
Qed.

Lemma on_dhkey_check_keeps ins pdu s :
  inv ins s → Feed pdu ∈ ins → keeps ins (on_dhkey_check pdu) s.
Proof.
  intros Hi Hin. unfold on_dhkey_check. exec; try done; try (by apply fail_keeps).
  open_facts. used. by exists pdu.
Qed.

Lemma user_confirm_keeps ins accepted s :
  inv ins s → User accepted ∈ ins → keeps ins (user_confirm c accepted) s.
Proof.
  intros Hi Hin. unfold user_confirm. exec; try done; try (by apply fail_keeps).
  used. apply send_dhkey_check_keeps; [|done].
  established; used. split_and!; cbn; done || lia.
Qed.

Lemma feed_keeps ins pdu s : inv ins s → Feed pdu ∈ ins → keeps ins (feed c pdu) s.
Proof.
  intros Hi Hin. unfold feed. exec; try done; try (by apply fail_keeps).
  apply wp_try_except. apply wp_mono with (Q' := λ _, inv ins).
  - match goal with |- wp ?h _ _ => assert (keeps ins h s) as Hb; [|exact Hb] end.
    unfold handler in *. repeat case_match; simplify_eq;
      auto using on_response_keeps, on_public_key_keeps, on_confirm_keeps,
        on_random_keeps, on_dhkey_check_keeps.
  - intros [] s' Hs'; [done| |done]. case_match; [apply fail_keeps|done].
Qed.

Lemma reach_inv g ins s : reach g ins s → inv ins s.
Proof.
  induction 1 as [|ins s i _ IH]; [apply inv_init|].
  apply (inv_more _ i) in IH. assert (i ∈ ins ++ [i]) as Hin.
  { apply elem_of_app. right. by left. }
  destruct i; [by apply start_keeps|by apply feed_keeps|by apply user_confirm_keeps].
Qed.

(** C2: however the caller and the peer behave, an initiator that reports
    COMPLETE has negotiated Secure Connections with a method that is not
    Passkey Entry, has a peer key on the curve that is not its own, has seen a
    Pairing Confirm that commits to the peer's random, has the accepted
    numeric comparison when the method asks for one, and has received exactly
    the DHKey Check f6 gives; the key it holds is the one f5 derives. *)
Theorem central_complete_checked (g : G) ins s
    (Hr : reach g ins s) (Hc : state s = COMPLETE) :
  ∃ resp m px py dh na_ nb_ a1_ a2_ conf chk,
    Feed resp ∈ ins ∧ negotiated resp m ∧
    (m = NumericComparison → User true ∈ ins) ∧
    ¬ (px = key_x (keypair c) ∧ py = key_y (keypair c)) ∧
    shared_secret (keypair c) px py = Ok dh ∧
    a1 c = Ok a1_ ∧ a2 c = Ok a2_ ∧
    Feed conf ∈ ins ∧ slice 1 17 conf = f4 px (key_x (keypair c)) nb_ (zeros 1) ∧
    ltk s = Some (snd (f5 dh na_ nb_ a1_ a2_)) ∧
    Feed chk ∈ ins ∧
    slice 1 17 chk = f6 (fst (f5 dh na_ nb_ a1_ a2_)) nb_ na_ (zeros 16)
                        (slice 1 4 resp) a2_ a1_.
Proof.
  apply reach_inv in Hr. unfold inv, from in Hr. rewrite Hc in Hr; cbn in Hr.
  destruct Hr as (H2&H3&H4&H5&H6&H7).
  destruct (H2 ltac:(lia)) as (resp&m&Hp&Hm&?&?), (H3 ltac:(lia)) as (px&py&dh&?&?&?&?&?),
    (H4 ltac:(lia)) as (conf&random&?&Hconf&?),
    (H5 ltac:(lia)) as (?&?&?&nb_&a1_&a2_&?&?&?&?&?&?&?&?&?),
    (H6 ltac:(lia)) as (Hu&?&?&?&?&a1'&a2'&?&?&?&?&?&?&?),
    (H7 ltac:(lia)) as (chk&?&?).
  simplify_eq. exists resp, m, px, py, dh, random, nb_, a1', a2', conf, chk.
  split_and!; try done; [by intros ->; apply Hu|congruence..].
Qed.

(** *** The end of a pairing *)

(** A finished pairing, complete or failed, is final: every later PDU is
    ignored, and the caller's start and confirmations are refused with a
    PairingError, without touching the state. *)
Theorem central_done_final i s (Hd : done s = true) :
  snd (step i s) = s ∧
  fst (step i s) = match i with
                   | Start => Exc (PairingError (Lit "pairing already started"))
                   | Feed _ => Ok tt
                   | User _ => Exc (PairingError (Lit "no comparison is waiting"))
                   end.
Proof.
  unfold done in Hd. destruct i as [|pdu|accepted]; cbn;
    unfold start, feed, user_confirm, getS, gets, mbind, M_bind; cbn.
  - by destruct (state s).
  - destruct pdu; [done|]. unfold done. by rewrite Hd.
  - by destruct (state s).
Qed.

(** *** What the initiator can be made to send *)

(** The most PDUs sent by the time a phase is reached. *)
Definition sends (p : phase) : nat :=
  match p with
  | IDLE => 0 | WAIT_RESPONSE => 1 | WAIT_PUBLIC_KEY | WAIT_CONFIRM => 2
  | WAIT_RANDOM | WAIT_USER => 3 | WAIT_DHKEY_CHECK | COMPLETE => 4 | FAILED => 5
  end.

Definition bounded s : Prop := (length (sent s) ≤ sends (state s))%nat.

(** From an unfinished state: within bounds, never back to an earlier phase,
    and no exception once the pairing is finished. *)
Definition sends_ok (m : M (central G) unit) s : Prop :=
  bounded s → done s = false →
  wp m (λ r s', bounded s' ∧ (rank (state s) ≤ rank (state s'))%nat ∧
                (is_ok r = false → done s' = false)) s.

(** Decide a leaf: the phase is known or one of the nine. *)
Ltac count :=
  match goal with
  | E : state ?s = _ |- _ => destruct s; cbn in E; subst
  | H : bounded ?s |- _ => destruct s as [[]]
  end;
  unfold bounded, done in *; cbn in *; try done;
  split_and!; rewrite ?length_app; cbn; intros; done || lia.

Lemma fail_sends_ok t r s : byteb r = true → sends_ok (fail t (Some r)) s.
Proof.
  intros Hr Hs Hd. unfold fail, mkbytes; cbn. rewrite Hr; cbn. exec; count.
Qed.

Lemma send_dhkey_check_sends_ok s :
  (rank (state s) < 6)%nat → sends_ok (send_dhkey_check c) s.
Proof. intros Hr Hs Hd. unfold send_dhkey_check. exec; count. Qed.

Lemma on_response_sends_ok pdu s : sends_ok (on_response c pdu) s.
Proof. intros Hs Hd. unfold on_response, fail. exec; count. Qed.

Lemma on_public_key_sends_ok pdu s : sends_ok (on_public_key c pdu) s.
Proof.
  intros Hs Hd. unfold on_public_key, agree. exec; try count.
  apply wp_bind, wp_try_except. exec; [|destruct e; exec|]; count.
Qed.

Lemma on_confirm_sends_ok pdu s : sends_ok (on_confirm (K:=K) pdu) s.
Proof. intros Hs Hd. unfold on_confirm. exec; count. Qed.

Lemma on_random_sends_ok pdu s : sends_ok (on_random c pdu) s.
Proof. intros Hs Hd. unfold on_random, fail, send_dhkey_check. exec; count. Qed.

Lemma on_dhkey_check_sends_ok pdu s : sends_ok (on_dhkey_check pdu) s.
Proof. intros Hs Hd. unfold on_dhkey_check, fail. exec; count. Qed.

Lemma handler_sends_ok code h pdu s : handler c code = Some h → sends_ok (h pdu) s.
Proof.
  unfold handler. intros Hh. repeat case_match; simplify_eq;
    auto using on_response_sends_ok, on_public_key_sends_ok, on_confirm_sends_ok,
      on_random_sends_ok, on_dhkey_check_sends_ok.
Qed.

Lemma feed_sends_ok pdu s : sends_ok (feed c pdu) s.
Proof.
  intros Hs Hd. unfold feed, fail. exec; try count.
  apply wp_try_except. eapply wp_mono; [by eapply handler_sends_ok|].
  intros r s' (Hb&Hk&He). cbn beta. destruct r as [|e|]; [done| |done].
  case_match; [|done]. eapply wp_mono; [apply fail_sends_ok; auto|].
  cbn beta. intros r s'' (?&?&?). split_and!; [done|lia|done].
Qed.

Lemma step_sends_ok i s : sends_ok (step i) s.
Proof.
  destruct i; cbn; [|apply feed_sends_ok|].
  - intros Hs Hd. unfold start, emit. exec; count.
  - intros Hs Hd. unfold user_confirm, fail, send_dhkey_check. exec; count.
Qed.

(** C9: whatever arrives and however often, one initiator hands at most five
    PDUs to the link, and a pairing never goes back to an earlier phase. *)
Theorem central_progress (g : G) ins s (Hr : reach g ins s) :
  (length (sent s) ≤ 5)%nat ∧
  ∀ i, (rank (state s) ≤ rank (state (snd (step i s))))%nat.
Proof.
  assert (bounded s) as Hb.
  { induction Hr as [|ins s i Hr IH]; [unfold bounded; cbn; lia|]. destruct (done s) eqn:Hd.
    - by destruct (central_done_final i s Hd) as [-> _].
    - by apply (step_sends_ok i s IH Hd). }
  split; [unfold bounded in Hb; destruct s as [[]]; cbn in *; lia|].
  intros i. destruct (done s) eqn:Hd.
  - by destruct (central_done_final i s Hd) as [-> _].
  - by apply (step_sends_ok i s Hb Hd).
Qed.
End safety.
End CentralSafety.
