(* ===== verification/SmpAgreement.v ===== *)
(** * SmpAgreement: an initiator and a responder pair with each other

    Both machines over one lossless link, the two users accepting: the
    pairing completes on both sides with the same key, the same displayed
    number, after a fixed number of turns. *)

From coqutil Require Import Datatypes.RecordSetters.
From S2P Require Export SmpSafety.
Import TriangleBracketNotations.
#[local] Open Scope Z_scope.

Section agreement.
Context {K G : Type} `{CL : CryptoLaws K G}.

(** Two machines, and how many PDUs of each the other has been fed. *)
Record link : Type := Link {
  cen : Central.central G;
  res : Responder.responder G;
  fed_res : nat;
  fed_cen : nat;
}.

(** One turn: deliver the oldest undelivered PDU, the initiator's first; with
    none in flight, let a user who is asked to compare accept. *)
Definition turn (c1 c2 : smp_cfg K) (l : link) : option link :=
  match Central.sent (cen l) !! fed_res l with
  | Some pdu => Some (Link (cen l) (snd (Responder.feed c2 pdu (res l)))
                           (S (fed_res l)) (fed_cen l))
  | None =>
      match Responder.sent (res l) !! fed_cen l with
      | Some pdu => Some (Link (snd (Central.feed c1 pdu (cen l))) (res l)
                               (fed_res l) (S (fed_cen l)))
      | None =>
          if bool_decide (Central.state (cen l) = Central.WAIT_USER) then
            Some (Link (snd (Central.user_confirm c1 true (cen l))) (res l)
                       (fed_res l) (fed_cen l))
          else if bool_decide (Responder.state (res l) = Responder.R_WAIT_USER_OR_CHECK)
                  && bool_decide (Responder.user_accepted (res l) = None) then
            Some (Link (cen l) (snd (Responder.user_confirm c2 true (res l)))
                       (fed_res l) (fed_cen l))
          else None
      end
  end.

(** Turns until nothing is left to do. *)
Fixpoint turns (n : nat) (c1 c2 : smp_cfg K) (l : link) : link :=
  match n with
  | O => l
  | S n' => match turn c1 c2 l with Some l' => turns n' c1 c2 l' | None => l end
  end.

(** A link whose initiator has just been started. *)
Definition started (c1 c2 : smp_cfg K) (g1 g2 : G) : link :=
  Link (snd (Central.start c1 (Central.init g1))) (Responder.init (K:=K) g2) 0 0.

(** Two configurations that can pair: each names the other's address, both
    ask for Secure Connections, and every field is what the specification
    allows. *)
Record compatible (c1 c2 : smp_cfg K) : Prop := {
  addr_1 : local_address c1 = peer_address c2;
  addr_2 : local_address c2 = peer_address c1;
  type_1 : local_type c1 = peer_type c2;
  type_2 : local_type c2 = peer_type c1;
  types_ok : is_byte (local_type c1) ∧ is_byte (local_type c2);
  io_ok : 0 ≤ io_cap c1 ≤ 4 ∧ 0 ≤ io_cap c2 ≤ 4;
  auth_ok : is_byte (auth_req c1) ∧ is_byte (auth_req c2);
  sc_ok : has_flag (auth_req c1) AUTH_SC = true ∧ has_flag (auth_req c2) AUTH_SC = true;
  size_ok : is_byte (key_size c1) ∧ 7 ≤ key_size c2;
  keys_ok : is_byte (init_keys c1) ∧ is_byte (resp_keys c1);
  accept_ok : is_byte (init_keys c2) ∧ is_byte (resp_keys c2);
  distinct : public_numbers (keypair c2) ≠ public_numbers (keypair c1);
}.

(** The method both sides select. *)
Definition selected (c1 c2 : smp_cfg K) : pairing_method :=
  if has_flag (auth_req c1) AUTH_MITM || has_flag (auth_req c2) AUTH_MITM
  then default JustWorks (SC_METHOD !! Z.to_nat (io_cap c1)
                          ≫= (.!! Z.to_nat (io_cap c2)))
  else JustWorks.

(** *** Octets on the link *)

Lemma mkbytes_ok' l : Forall is_byte l → mkbytes l = Ok l.
Proof. apply mkbytes_ok. Qed.

Lemma slice_tail {A} n (x : A) l : length l = n → slice 1 (S n) (x :: l) = l.
Proof. intros <-. unfold slice. rewrite Nat.sub_1_r. cbn. by rewrite take_ge. Qed.

Lemma slice_key_x code (x y : bytes) :
  length x = 32%nat → slice 1 33 (code :: x ++ y) = x.
Proof. intros E. change (take 32 (x ++ y) = x). by apply take_app_length'. Qed.

Lemma slice_key_y code (x y : bytes) :
  length x = 32%nat → length y = 32%nat → slice 33 65 (code :: x ++ y) = y.
Proof.
  intros Ex Ey. change (take 32 (drop 32 (x ++ y)) = y). rewrite drop_app_length' by done.
  by rewrite take_ge by lia.
Qed.

Lemma key_x_length (k : K) : length (key_x k) = 32%nat.
Proof. apply length_le_bytes. Qed.
Lemma key_y_length (k : K) : length (key_y k) = 32%nat.
Proof. apply length_le_bytes. Qed.

Lemma le_Z_key_x (k : K) : le_Z (key_x k) = fst (public_numbers k).
Proof. apply le_Z_le_bytes_small. apply public_range. Qed.
Lemma le_Z_key_y (k : K) : le_Z (key_y k) = snd (public_numbers k).
Proof. apply le_Z_le_bytes_small. apply public_range. Qed.

Lemma f4_length u v x z : length (f4 u v x z) = 16%nat.
Proof. unfold f4. by rewrite length_reverse, cmac_length. Qed.
Lemma f6_length w n1 n2 r io a b : length (f6 w n1 n2 r io a b) = 16%nat.
Proof. unfold f6. by rewrite length_reverse, cmac_length. Qed.

(** Both ends derive the same DHKey. *)
Lemma shared_secret_agrees (k1 k2 : K) : ∃ dh,
  shared_secret k1 (key_x k2) (key_y k2) = Ok dh ∧
  shared_secret k2 (key_x k1) (key_y k1) = Ok dh.
Proof.
  destruct (exchange_agrees k1 k2) as (secret&E1&E2). exists (reverse secret).
  unfold shared_secret. by rewrite !le_Z_key_x, !le_Z_key_y, E1, E2.
Qed.

Lemma keys_distinct (k1 k2 : K) :
  public_numbers k2 ≠ public_numbers k1 →
  bool_decide (key_x k2 = key_x k1) && bool_decide (key_y k2 = key_y k1) = false.
Proof.
  intros Hne. apply andb_false_iff.
  destruct (decide (key_x k2 = key_x k1)) as [Ex|Ex]; [right|left];
    apply bool_decide_eq_false; [|done]. intros Ey.
  apply Hne. apply (f_equal le_Z) in Ex, Ey.
  rewrite !le_Z_key_x in Ex. rewrite !le_Z_key_y in Ey.
  by destruct (public_numbers k1), (public_numbers k2); cbn in *; subst.
Qed.

(** Compute with the monad's operations. *)
Ltac unseal :=
  unfold Central.expect, Central.goto, Central.emit, Central.send,
    Central.send_dhkey_check, Central.agree,
    Responder.expect, Responder.goto, Responder.emit, Responder.send,
    Responder.agree, Responder.finish, try_except, getS, gets, modify, lift, skip;
  unfold mbind, M_bind; cbn; rewrite ?bool_decide_eq_true_2 by done; cbn.

(** *** One message at a time, on the initiator *)

Section central_steps.
Import Central.
Context (c : smp_cfg K).
Implicit Types s : central G.

Lemma central_response s io auth size k r m :
  state s = WAIT_RESPONSE →
  has_flag (auth_req c) AUTH_SC = true → has_flag auth AUTH_SC = true →
  7 ≤ size ≤ 16 → io_cap c ≤ 4 → io ≤ 4 →
  (if has_flag (auth_req c) AUTH_MITM || has_flag auth AUTH_MITM
   then sc_method (io_cap c) io = Ok m else m = JustWorks) →
  m ≠ PasskeyEntry →
  feed c [SMP_PAIRING_RESPONSE; io; 0; auth; size; k; r] s =
  (Ok tt, s<|pres := Some [SMP_PAIRING_RESPONSE; io; 0; auth; size; k; r]|>
    <|peer_io_cap := Some io|><|peer_auth_req := Some auth|><|method := Some m|>
    <|state := WAIT_PUBLIC_KEY|>
    <|sent ::= λ l, l ++ [SMP_PAIRING_PUBLIC_KEY :: key_x (keypair c) ++ key_y (keypair c)]|>).
Proof.
  destruct s; cbn. intros -> Hsc Hsc' Hsize Hio Hio' Hm Hpk.
  unfold feed, handler, on_response. unseal. rewrite Hsc, Hsc'; cbn.
  replace ((size <? 7) || (16 <? size)) with false by lia.
  replace ((4 <? io_cap c) || (4 <? io)) with false by lia.
  destruct (has_flag (auth_req c) AUTH_MITM || has_flag auth AUTH_MITM).
  - rewrite Hm; cbn. by rewrite bool_decide_eq_false_2.
  - subst m. cbn. by rewrite bool_decide_eq_false_2.
Qed.

Lemma central_public_key s x y dh :
  state s = WAIT_PUBLIC_KEY → length x = 32%nat → length y = 32%nat →
  bool_decide (x = key_x (keypair c)) && bool_decide (y = key_y (keypair c)) = false →
  shared_secret (keypair c) x y = Ok dh →
  feed c (SMP_PAIRING_PUBLIC_KEY :: x ++ y) s =
  (Ok tt, s<|peer_x := Some x|><|peer_y := Some y|><|dhkey := Some dh|>
            <|state := WAIT_CONFIRM|>).
Proof.
  destruct s; cbn. intros -> Hx Hy Hne Hdh.
  unfold feed, handler, on_public_key. unseal.
  rewrite length_app, Hx, Hy; cbn.
  by rewrite slice_key_x, slice_key_y, Hne, Hdh by done.
Qed.

Lemma central_confirm s cf :
  state s = WAIT_CONFIRM → length cf = 16%nat →
  feed c (SMP_PAIRING_CONFIRM :: cf) s =
  (Ok tt, s<|confirm := Some cf|><|entropy := snd (rng (K:=K) 16 (entropy s))|>
            <|na := Some (fst (rng (K:=K) 16 (entropy s)))|><|state := WAIT_RANDOM|>
            <|sent ::= λ l, l ++ [SMP_PAIRING_RANDOM :: fst (rng (K:=K) 16 (entropy s))]|>).
Proof.
  destruct s; cbn. intros -> Hcf.
  unfold feed, handler, on_confirm. unseal. rewrite Hcf; cbn.
  rewrite slice_tail by done. by destruct (rng 16 entropy0).
Qed.

(** What [send_dhkey_check] does once everything it uses is there. *)
Definition check_sent s (p q mk na_ nb_ a1_ a2_ : bytes) : central G :=
  s<|dhkey_check := Some (f6 mk nb_ na_ (zeros 16) (slice 1 4 q) a2_ a1_)|>
   <|state := WAIT_DHKEY_CHECK|>
   <|sent ::= λ l, l ++ [SMP_PAIRING_DHKEY_CHECK ::
                         f6 mk na_ nb_ (zeros 16) (slice 1 4 p) a1_ a2_]|>.

Lemma central_check s p q mk na_ nb_ a1_ a2_ :
  preq s = Some p → pres s = Some q → mac_key s = Some mk → na s = Some na_ →
  nb s = Some nb_ → a1 c = Ok a1_ → a2 c = Ok a2_ →
  send_dhkey_check c s = (Ok tt, check_sent s p q mk na_ nb_ a1_ a2_).
Proof. destruct s; cbn. intros -> -> -> -> -> Ha1 Ha2. unseal. by rewrite Ha1, Ha2. Qed.

(** The state after a Pairing Random whose commitment holds. *)
Definition keys_held s (px dh na_ nb_ a1_ a2_ : bytes) : central G :=
  s<|nb := Some nb_|><|mac_key := Some (fst (f5 dh na_ nb_ a1_ a2_))|>
   <|ltk := Some (snd (f5 dh na_ nb_ a1_ a2_))|>.

Lemma central_random s px dh na_ nb_ a1_ a2_ :
  state s = WAIT_RANDOM → length nb_ = 16%nat → peer_x s = Some px →
  confirm s = Some (f4 px (key_x (keypair c)) nb_ (zeros 1)) →
  dhkey s = Some dh → na s = Some na_ → a1 c = Ok a1_ → a2 c = Ok a2_ →
  method s ≠ Some NumericComparison →
  feed c (SMP_PAIRING_RANDOM :: nb_) s =
  match send_dhkey_check c (keys_held s px dh na_ nb_ a1_ a2_) with
  | (Exc e, s') => if is_pairing_error e then fail (exn_text e) (Some 0x0A) s' else (Exc e, s')
  | rs => rs
  end.
Proof.
  destruct s; cbn. intros -> Hnb -> -> -> -> Ha1 Ha2 Hm.
  unfold feed, handler, on_random, send_dhkey_check. unseal. rewrite Hnb; cbn.
  rewrite slice_tail, bool_decide_eq_true_2 by done; cbn.
  by rewrite Ha1, Ha2, bool_decide_eq_false_2.
Qed.

Lemma central_random_numeric s px dh na_ nb_ a1_ a2_ :
  state s = WAIT_RANDOM → length nb_ = 16%nat → peer_x s = Some px →
  confirm s = Some (f4 px (key_x (keypair c)) nb_ (zeros 1)) →
  dhkey s = Some dh → na s = Some na_ → a1 c = Ok a1_ → a2 c = Ok a2_ →
  method s = Some NumericComparison →
  feed c (SMP_PAIRING_RANDOM :: nb_) s =
  (Ok tt, (keys_held s px dh na_ nb_ a1_ a2_)
    <|numeric_value := Some (g2 (key_x (keypair c)) px na_ nb_)|><|state := WAIT_USER|>).
Proof.
  destruct s; cbn. intros -> Hnb -> -> -> -> Ha1 Ha2 ->.
  unfold feed, handler, on_random. unseal. rewrite Hnb; cbn.
  rewrite slice_tail, bool_decide_eq_true_2 by done; cbn.
  by rewrite Ha1, Ha2, bool_decide_eq_true_2.
Qed.

Lemma central_user s :
  state s = WAIT_USER →
  user_confirm c true s = send_dhkey_check c (s<|user_accepted := Some true|>).
Proof.
  destruct s; cbn. intros ->. unfold user_confirm, gets, modify.
  unfold mbind, M_bind; cbn. by rewrite bool_decide_eq_true_2.
Qed.

Lemma central_done s chk :
  state s = WAIT_DHKEY_CHECK → length chk = 16%nat → dhkey_check s = Some chk →
  feed c (SMP_PAIRING_DHKEY_CHECK :: chk) s = (Ok tt, s<|state := COMPLETE|>).
Proof.
  destruct s; cbn. intros -> Hl ->. unfold feed, handler, on_dhkey_check. unseal.
  rewrite Hl; cbn. by rewrite slice_tail, bool_decide_eq_true_2 by done.
Qed.
End central_steps.

(** *** One message at a time, on the responder *)

Section responder_steps.
Import Responder.
Context (c : smp_cfg K).
Implicit Types s : responder G.

(** The Pairing Response to a request. *)
Definition response_pdu (keys resp : Z) : bytes :=
  [SMP_PAIRING_RESPONSE; io_cap c; 0; auth_req c; Z.min (key_size c) 16;
   Z.land keys (init_keys c); Z.land resp (resp_keys c)].

Lemma responder_request s io auth size keys resp m :
  state s = R_IDLE → has_flag auth AUTH_SC = true → has_flag (auth_req c) AUTH_SC = true →
  io ≤ 4 → m ≠ PasskeyEntry →
  (if has_flag auth AUTH_MITM || has_flag (auth_req c) AUTH_MITM
   then sc_method io (io_cap c) = Ok m else m = JustWorks) →
  Forall is_byte (response_pdu keys resp) →
  feed c [SMP_PAIRING_REQUEST; io; 0; auth; size; keys; resp] s =
  (Ok tt, s<|preq := Some [SMP_PAIRING_REQUEST; io; 0; auth; size; keys; resp]|>
    <|request := [io; 0; auth; size; keys; resp]|><|method := Some m|>
    <|kept_init_keys := Z.land keys (init_keys c)|>
    <|pres := Some (response_pdu keys resp)|><|state := R_WAIT_PUBLIC_KEY|>
    <|sent ::= λ l, l ++ [response_pdu keys resp]|>).
Proof.
  destruct s; cbn. intros -> Hsc Hsc' Hio Hpk Hm Hok%mkbytes_ok'.
  unfold response_pdu in Hok. unfold feed, handler, on_request. unseal.
  rewrite Hsc, Hsc'; cbn. replace (4 <? io) with false by lia.
  destruct (has_flag auth AUTH_MITM || has_flag (auth_req c) AUTH_MITM).
  - rewrite Hm; cbn. rewrite bool_decide_eq_false_2 by done. by rewrite Hok.
  - subst m. cbn. rewrite bool_decide_eq_false_2 by done. by rewrite Hok.
Qed.

Lemma responder_public_key s x y dh :
  state s = R_WAIT_PUBLIC_KEY → length x = 32%nat → length y = 32%nat →
  shared_secret (keypair c) x y = Ok dh →
  feed c (SMP_PAIRING_PUBLIC_KEY :: x ++ y) s =
  (Ok tt, s<|peer_x := Some x|><|peer_y := Some y|><|dhkey := Some dh|>
    <|state := R_WAIT_RANDOM|>
    <|sent ::= λ l, l ++ [SMP_PAIRING_PUBLIC_KEY :: key_x (keypair c) ++ key_y (keypair c);
                          SMP_PAIRING_CONFIRM :: f4 (key_x (keypair c)) x (nb s) (zeros 1)]|>).
Proof.
  destruct s; cbn. intros -> Hx Hy Hdh.
  unfold feed, handler, on_public_key. unseal.
  rewrite length_app, Hx, Hy; cbn.
  rewrite slice_key_x, slice_key_y, Hdh by done. cbn.
  by rewrite <-app_assoc.
Qed.

(** The state after the initiator's random. *)
Definition keys_derived s (dh na_ a1_ a2_ : bytes) : responder G :=
  s<|na := Some na_|><|sent ::= λ l, l ++ [SMP_PAIRING_RANDOM :: nb s]|>
   <|mac_key := Some (fst (f5 dh na_ (nb s) a1_ a2_))|>
   <|ltk := Some (snd (f5 dh na_ (nb s) a1_ a2_))|><|state := R_WAIT_USER_OR_CHECK|>.

Lemma responder_random s px dh na_ a1_ a2_ :
  state s = R_WAIT_RANDOM → length na_ = 16%nat → dhkey s = Some dh →
  peer_x s = Some px → a1 c = Ok a1_ → a2 c = Ok a2_ →
  feed c (SMP_PAIRING_RANDOM :: na_) s =
  (Ok tt, if bool_decide (method s = Some NumericComparison)
          then (keys_derived s dh na_ a1_ a2_)
                 <|numeric_value := Some (g2 px (key_x (keypair c)) na_ (nb s))|>
          else (keys_derived s dh na_ a1_ a2_)<|user_accepted := Some true|>).
Proof.
  destruct s; cbn. intros -> Hna -> -> Ha1 Ha2.
  unfold feed, handler, on_random. unseal. rewrite Hna; cbn.
  rewrite slice_tail by done. rewrite Ha1, Ha2. by case_bool_decide.
Qed.

(** The DHKey Check waits for the user. *)
Lemma responder_check_early s chk :
  state s = R_WAIT_USER_OR_CHECK → length chk = 16%nat → user_accepted s = None →
  feed c (SMP_PAIRING_DHKEY_CHECK :: chk) s = (Ok tt, s<|ea := Some chk|>).
Proof.
  destruct s; cbn. intros -> Hl ->. unfold feed, handler, on_dhkey_check. unseal.
  by rewrite Hl; cbn; rewrite slice_tail.
Qed.

(** Everything [_finish] needs, with a check that holds. *)
Definition finishing s (p q mk na_ chk a1_ a2_ : bytes) : Prop :=
  preq s = Some p ∧ pres s = Some q ∧ mac_key s = Some mk ∧ na s = Some na_ ∧
  a1 c = Ok a1_ ∧ a2 c = Ok a2_ ∧
  chk = f6 mk na_ (nb s) (zeros 16) (slice 1 4 p) a1_ a2_.

Definition finished s (q mk na_ a1_ a2_ : bytes) : responder G :=
  s<|sent ::= λ l, l ++ [SMP_PAIRING_DHKEY_CHECK ::
                         f6 mk (nb s) na_ (zeros 16) (slice 1 4 q) a2_ a1_]|>
   <|state := R_COMPLETE|>.

Lemma responder_finish s p q mk na_ chk a1_ a2_ :
  finishing s p q mk na_ chk a1_ a2_ → ea s = Some chk → user_accepted s = Some true →
  finish c s = (Ok tt, finished s q mk na_ a1_ a2_).
Proof.
  unfold finishing. destruct s; cbn. intros (->&->&->&->&Ha1&Ha2&Hchk) -> ->.
  unseal. rewrite Ha1, Ha2. by rewrite bool_decide_eq_true_2.
Qed.

Lemma responder_check_last s p q mk na_ chk a1_ a2_ :
  state s = R_WAIT_USER_OR_CHECK → length chk = 16%nat → user_accepted s = Some true →
  finishing s p q mk na_ chk a1_ a2_ →
  feed c (SMP_PAIRING_DHKEY_CHECK :: chk) s =
  (Ok tt, finished (s<|ea := Some chk|>) q mk na_ a1_ a2_).
Proof.
  intros Hst Hl Hu Hf.
  pose proof (responder_finish (s<|ea := Some chk|>) p q mk na_ chk a1_ a2_) as Hfin.
  destruct s; cbn in *; subst. specialize (Hfin Hf eq_refl eq_refl).
  unfold feed, handler, on_dhkey_check, expect, try_except, getS, gets, modify.
  unfold mbind, M_bind; cbn. rewrite bool_decide_eq_true_2, Hl by done; cbn.
  rewrite slice_tail by done. cbn. by rewrite Hfin.
Qed.

Lemma responder_user_last s p q mk na_ chk a1_ a2_ :
  state s = R_WAIT_USER_OR_CHECK → ea s = Some chk →
  finishing s p q mk na_ chk a1_ a2_ →
  user_confirm c true s =
  (Ok tt, finished (s<|user_accepted := Some true|>) q mk na_ a1_ a2_).
Proof.
  intros Hst Hl Hf.
  pose proof (responder_finish (s<|user_accepted := Some true|>) p q mk na_ chk a1_ a2_) as Hfin.
  destruct s; cbn in *; subst. specialize (Hfin Hf eq_refl eq_refl).
  unfold user_confirm, gets, modify.
  unfold mbind, M_bind; cbn. by rewrite bool_decide_eq_true_2.
Qed.

(** [_finish] itself never raises a PairingError. *)
Lemma finish_no_pairing_error s e :
  fst (finish c s) = Exc e → is_pairing_error e = false.
Proof.
  assert (wp (finish c) (λ r _, ∀ e, r = Exc e → is_pairing_error e = false) s) as H0;
    [|apply H0].
  unfold finish, fail, emit, send, goto. repeat wp_step; try done.
  all: repeat match goal with
    | H : need ?o = Exc _ |- _ => destruct o; cbn in H; simplify_eq
    | H : idx _ _ = Exc _ |- _ => done
    | H : mkbytes _ = Exc _ |- _ => done
    | H : a1 c = Exc _ |- _ => unfold a1, address_form, mkbytes in H; cbn in H;
        destruct (byteb _); cbn in H; simplify_eq
    | H : a2 c = Exc _ |- _ => unfold a2, address_form, mkbytes in H; cbn in H;
        destruct (byteb _); cbn in H; simplify_eq
    end; by intros ? [= <-].
Qed.

(** C8: a responder that is comparing numbers ends in the same state, having
    sent the same PDUs, whether the user accepts before the initiator's
    DHKey Check arrives or after it. *)
Theorem responder_accept_check_commute s (chk : bytes)
    (Hst : state s = R_WAIT_USER_OR_CHECK) (Hl : length chk = 16%nat)
    (Hu : user_accepted s = None) (He : ea s = None) :
  snd (Responder.user_confirm c true
         (snd (Responder.feed c (SMP_PAIRING_DHKEY_CHECK :: chk) s)))
  = snd (Responder.feed c (SMP_PAIRING_DHKEY_CHECK :: chk)
           (snd (Responder.user_confirm c true s))).
Proof.
  rewrite responder_check_early by done. cbn [snd].
  set (s1 := s<|user_accepted := Some true|>).
  assert (snd (user_confirm c true s) = s1) as ->.
  { destruct s; cbn in *; subst. unfold user_confirm. unseal. done. }
  pose proof (finish_no_pairing_error (s1<|ea := Some chk|>)) as Hfin.
  destruct s; cbn in *; subst. unfold s1 in *; cbn in *.
  unfold user_confirm, feed, handler, on_dhkey_check, expect, try_except, getS, gets, modify.
  unfold mbind, M_bind; cbn. rewrite !bool_decide_eq_true_2, Hl by done; cbn.
  rewrite slice_tail by done. cbn in *.
  destruct (finish c _) as [[[]|e|] s']; cbn in *; [done| |done].
  by rewrite (Hfin e eq_refl).
Qed.

(** Unlike the initiator, the responder goes on with a central that
    reflects the responder's own public key. *)
Theorem responder_accepts_reflected_key s
    (Hst : state s = R_WAIT_PUBLIC_KEY) :
  let pdu := SMP_PAIRING_PUBLIC_KEY :: key_x (keypair c) ++ key_y (keypair c) in
  Responder.state (snd (Responder.feed c pdu s)) = R_WAIT_RANDOM.
Proof.
  destruct (shared_secret_agrees (keypair c) (keypair c)) as (dh&E&_). cbn zeta.
  rewrite (responder_public_key s _ _ dh) by (done || apply key_x_length || apply key_y_length).
  by destruct s.
Qed.
End responder_steps.

(** *** The whole session *)

Section session.
Context (c1 c2 : smp_cfg K).

Lemma turns_fwd n s r i j pdu x r' :
  Central.sent s !! i = Some pdu → Responder.feed c2 pdu r = (x, r') →
  turns (S n) c1 c2 (Link s r i j) = turns n c1 c2 (Link s r' (S i) j).
Proof. intros Hp Hf. cbn. unfold turn; cbn. by rewrite Hp, Hf. Qed.

Lemma turns_bwd n s r i j pdu x s' :
  Central.sent s !! i = None → Responder.sent r !! j = Some pdu →
  Central.feed c1 pdu s = (x, s') →
  turns (S n) c1 c2 (Link s r i j) = turns n c1 c2 (Link s' r i (S j)).
Proof. intros Hn Hp Hf. cbn. unfold turn; cbn. by rewrite Hn, Hp, Hf. Qed.

Lemma turns_user_cen n s r i j x s' :
  Central.sent s !! i = None → Responder.sent r !! j = None →
  Central.state s = Central.WAIT_USER → Central.user_confirm c1 true s = (x, s') →
  turns (S n) c1 c2 (Link s r i j) = turns n c1 c2 (Link s' r i j).
Proof.
  intros Hn Hp Hs Hf. cbn. unfold turn; cbn. rewrite Hn, Hp.
  by rewrite bool_decide_eq_true_2, Hf.
Qed.

Lemma turns_user_res n s r i j x r' :
  Central.sent s !! i = None → Responder.sent r !! j = None →
  Central.state s ≠ Central.WAIT_USER →
  Responder.state r = Responder.R_WAIT_USER_OR_CHECK → Responder.user_accepted r = None →
  Responder.user_confirm c2 true r = (x, r') →
  turns (S n) c1 c2 (Link s r i j) = turns n c1 c2 (Link s r' i j).
Proof.
  intros Hn Hp Hs Hr Hu Hf. cbn. unfold turn; cbn. rewrite Hn, Hp.
  rewrite bool_decide_eq_false_2, !bool_decide_eq_true_2 by done. cbn. by rewrite Hf.
Qed.

Lemma turns_end n l : turn c1 c2 l = None → turns n c1 c2 l = l.
Proof. intros Hl. destruct n; [done|]. cbn. by rewrite Hl. Qed.

(** The initiator's request. *)
Definition request_pdu : bytes :=
  [SMP_PAIRING_REQUEST; io_cap c1; 0; auth_req c1; key_size c1; init_keys c1; resp_keys c1].

Lemma central_start (g : G) :
  Forall is_byte request_pdu →
  snd (Central.start c1 (Central.init g))
  = (Central.init g)<|Central.preq := Some request_pdu|>
      <|Central.state := Central.WAIT_RESPONSE|><|Central.sent := [request_pdu]|>.
Proof.
  intros Hok%mkbytes_ok'. unfold request_pdu in Hok.
  unfold Central.start at 1. unseal. by rewrite Hok.
Qed.

Lemma land_byte x y : is_byte x → is_byte y → is_byte (Z.land x y).
Proof.
  unfold is_byte. intros [Hx Hx'] [Hy Hy']. split; [apply Z.land_nonneg; lia|].
  destruct (decide (Z.land x y = 0)) as [->|Hne]; [lia|].
  assert (0 ≤ Z.land x y) by (apply Z.land_nonneg; lia).
  apply (Z.log2_lt_pow2 _ 8); [lia|].
  eapply Z.le_lt_trans; [apply Z.log2_land; lia|].
  destruct (decide (x = 0)) as [->|]; [cbn; lia|].
  destruct (decide (y = 0)) as [->|]; [rewrite Z.land_0_r in Hne; done|].
  apply Z.min_lt_iff. left. apply Z.log2_lt_pow2; lia.
Qed.

Lemma selected_method a b :
  0 ≤ a ≤ 4 → 0 ≤ b ≤ 4 →
  sc_method a b = Ok (default JustWorks (SC_METHOD !! Z.to_nat a ≫= (.!! Z.to_nat b))).
Proof.
  intros Ha Hb.
  assert (a ∈ [0;1;2;3;4]) as Ha' by (rewrite !elem_of_cons; lia).
  assert (b ∈ [0;1;2;3;4]) as Hb' by (rewrite !elem_of_cons; lia).
  repeat (apply elem_of_cons in Ha' as [->|Ha'];
    [repeat (apply elem_of_cons in Hb' as [->|Hb']; [done|]); by apply elem_of_nil in Hb'|]).
  by apply elem_of_nil in Ha'.
Qed.

Lemma selected_spec (Hc : compatible c1 c2) :
  if has_flag (auth_req c1) AUTH_MITM || has_flag (auth_req c2) AUTH_MITM
  then sc_method (io_cap c1) (io_cap c2) = Ok (selected c1 c2)
  else selected c1 c2 = JustWorks.
Proof.
  unfold selected. case_match; [|done]. by apply selected_method; apply Hc.
Qed.

Lemma address_form_ok a t : is_byte t → address_form a t = Ok (a ++ [t]).
Proof. intros Ht. unfold address_form. rewrite mkbytes_ok'; [done|by constructor]. Qed.

Section compatible_session.
Context (Hc : compatible c1 c2) (Hm : selected c1 c2 ≠ PasskeyEntry) (e1 e2 : G).

Let a_ := local_address c1 ++ [local_type c1].
Let b_ := local_address c2 ++ [local_type c2].
Let na_ := fst (rng (K:=K) 16 e1).
Let nb_ := fst (rng (K:=K) 16 e2).
Let rsp := response_pdu c2 (init_keys c1) (resp_keys c1).
Let x1 := key_x (keypair c1).
Let x2 := key_x (keypair c2).

Lemma addresses :
  Central.a1 c1 = Ok a_ ∧ Central.a2 c1 = Ok b_ ∧
  Responder.a1 c2 = Ok a_ ∧ Responder.a2 c2 = Ok b_.
Proof.
  destruct Hc as [E1 E2 T1 T2 [Ht1 Ht2] _ _ _ _ _ _ _].
  unfold Central.a1, Central.a2, Responder.a1, Responder.a2, a_, b_.
  rewrite <-E1, <-E2, <-T1, <-T2, !address_form_ok; done.
Qed.

Lemma request_ok : Forall is_byte request_pdu.
Proof.
  destruct Hc as [_ _ _ _ _ [? _] [? _] _ [? _] [? ?] _ _].
  unfold request_pdu. repeat constructor; try done; unfold is_byte, SMP_PAIRING_REQUEST in *; lia.
Qed.

Lemma response_ok : Forall is_byte rsp.
Proof.
  destruct Hc as [_ _ _ _ _ [_ ?] [_ ?] _ [_ ?] [? ?] [? ?] _].
  unfold rsp, response_pdu. repeat constructor;
    try (by apply land_byte); try done; unfold is_byte, SMP_PAIRING_RESPONSE in *; lia.
Qed.

Let m := selected c1 c2.
Let pk k := SMP_PAIRING_PUBLIC_KEY :: key_x k ++ key_y k.
Let cf := f4 x2 x1 nb_ (zeros 1).
Let keys dh := f5 dh na_ nb_ a_ b_.
Let number := g2 x1 x2 na_ nb_.

(** The initiator once it has sent its random. *)
Definition cen_committed (dh : bytes) : Central.central G :=
  Central.Cen Central.WAIT_RANDOM (Some m) None None None None None (Some dh)
    (Some request_pdu) (Some rsp) (Some (io_cap c2)) (Some (auth_req c2))
    (Some na_) None (Some x2) (Some (key_y (keypair c2))) (Some cf) None None
    (snd (rng (K:=K) 16 e1))
    [request_pdu; pk (keypair c1); SMP_PAIRING_RANDOM :: na_].

(** The responder once it has received that random. *)
Definition res_keyed (dh : bytes) : Responder.responder G :=
  Responder.Resp Responder.R_WAIT_USER_OR_CHECK (Some m) None None
    (if bool_decide (m = NumericComparison) then Some number else None)
    (Some (snd (keys dh))) (Some (fst (keys dh))) (Some dh)
    (Some request_pdu) (Some rsp) (Some na_) nb_ (Some x1) (Some (key_y (keypair c1)))
    (if bool_decide (m = NumericComparison) then None else Some true) None
    (Z.land (init_keys c1) (init_keys c2))
    [io_cap c1; 0; auth_req c1; key_size c1; init_keys c1; resp_keys c1]
    (snd (rng (K:=K) 16 e2))
    [rsp; pk (keypair c2); SMP_PAIRING_CONFIRM :: cf; SMP_PAIRING_RANDOM :: nb_].

(** Six turns bring the two there. *)
Lemma session_prefix n : ∃ dh,
  turns (6 + n) c1 c2 (started c1 c2 e1 e2)
  = turns n c1 c2 (Link (cen_committed dh) (res_keyed dh) 3 3).
Proof.
  destruct (shared_secret_agrees (keypair c1) (keypair c2)) as (dh&D1&D2). exists dh.
  destruct addresses as (A1&A2&B1&B2).
  pose proof (selected_spec Hc) as Hsel. pose proof Hc as [_ _ _ _ _ [? ?] _ [Hs1 Hs2] [_ ?] _ _ Hk].
  unfold started. rewrite central_start by apply request_ok.
  assert (length (fst (rng (K:=K) 16 e2)) = 16%nat) as Hnb by apply rng_length.
  assert (length (fst (rng (K:=K) 16 e1)) = 16%nat) as Hna by apply rng_length.
  unfold Responder.init. fold nb_ in Hnb. fold na_ in Hna.
  rewrite (surjective_pairing (rng 16 e2)).
  etransitivity; [eapply (turns_fwd (5 + n)); [reflexivity|]|].
  { apply (responder_request c2 _ _ _ _ _ _ m); [done|done|done|lia|done|apply Hsel|apply response_ok]. }
  etransitivity; [eapply (turns_bwd (4 + n)); [reflexivity|reflexivity|]|].
  { apply (central_response c1 _ _ _ _ _ _ m); try done; lia. }
  etransitivity; [eapply (turns_fwd (3 + n)); [reflexivity|]|].
  { eapply responder_public_key; [done|apply key_x_length|apply key_y_length|apply D2]. }
  etransitivity; [eapply (turns_bwd (2 + n)); [reflexivity|reflexivity|]|].
  { eapply central_public_key; [done|apply key_x_length|apply key_y_length|by apply keys_distinct|apply D1]. }
  etransitivity; [eapply (turns_bwd (1 + n)); [reflexivity|reflexivity|]|].
  { eapply central_confirm; [done|apply f4_length]. }
  etransitivity; [eapply (turns_fwd n); [reflexivity|]|].
  { eapply (responder_random c2 _ _ _ _ a_ b_); [done|apply Hna|done..]. }
  unfold res_keyed. destruct (decide (m = NumericComparison)) as [E|E].
  - rewrite !bool_decide_eq_true_2 by (cbn; congruence). reflexivity.
  - rewrite !bool_decide_eq_false_2 by (cbn; congruence). reflexivity.
Qed.

(** Both sides done, with the same key. *)
Definition agreed (l : link) : Prop :=
  Central.state (cen l) = Central.COMPLETE ∧
  Responder.state (res l) = Responder.R_COMPLETE ∧
  is_Some (Central.ltk (cen l)) ∧ Central.ltk (cen l) = Responder.ltk (res l) ∧
  Central.method (cen l) = Some m ∧ Responder.method (res l) = Some m ∧
  Central.numeric_value (cen l) = Responder.numeric_value (res l) ∧
  (m = NumericComparison → is_Some (Central.numeric_value (cen l))) ∧
  turn c1 c2 l = None.

(** Without a comparison, three more turns. *)
Lemma session_just_works dh n :
  m ≠ NumericComparison →
  ∃ l, turns (3 + n) c1 c2 (Link (cen_committed dh) (res_keyed dh) 3 3) = l ∧ agreed l.
Proof.
  intros Hne. destruct addresses as (A1&A2&B1&B2). eexists. split; [reflexivity|].
  assert (length (fst (rng (K:=K) 16 e2)) = 16%nat) as Hnb by apply rng_length.
  unfold res_keyed. rewrite !(bool_decide_eq_false_2 (m = NumericComparison)) by done.
  erewrite (turns_bwd (2 + n)); [|reflexivity|reflexivity|].
  2: { erewrite (central_random c1 _ x2 dh na_ nb_ a_ b_);
       [|done|apply Hnb|done|done|done|done|done|done|cbn; congruence].
       erewrite central_check; [reflexivity|done..]. }
  erewrite (turns_fwd (1 + n)); [|reflexivity|].
  2: { eapply (responder_check_last c2 _ _ _ _ na_ _ a_ b_);
       [done|apply f6_length|done|]. by repeat split. }
  erewrite (turns_bwd n); [|reflexivity|reflexivity|].
  2: { eapply central_done; [done|apply f6_length|done]. }
  rewrite turns_end by done. by repeat split.
Qed.

(** With one, the users' two acceptances come on top. *)
Lemma session_numeric dh n :
  m = NumericComparison →
  ∃ l, turns (5 + n) c1 c2 (Link (cen_committed dh) (res_keyed dh) 3 3) = l ∧ agreed l.
Proof.
  intros Heq. destruct addresses as (A1&A2&B1&B2). eexists. split; [reflexivity|].
  assert (length (fst (rng (K:=K) 16 e2)) = 16%nat) as Hnb by apply rng_length.
  unfold res_keyed. rewrite !(bool_decide_eq_true_2 (m = NumericComparison)) by done.
  erewrite (turns_bwd (4 + n)); [|reflexivity|reflexivity|].
  2: { eapply (central_random_numeric c1 _ x2 dh na_ nb_ a_ b_);
       [done|apply Hnb|done|done|done|done|done|done|cbn; congruence]. }
  erewrite (turns_user_cen (3 + n)); [|reflexivity|reflexivity|reflexivity|].
  2: { rewrite central_user by done. eapply central_check; done. }
  erewrite (turns_fwd (2 + n)); [|reflexivity|].
  2: { eapply responder_check_early; [done|apply f6_length|done]. }
  erewrite (turns_user_res (1 + n)); [|reflexivity|reflexivity|done|reflexivity|reflexivity|].
  2: { eapply (responder_user_last c2 _ _ _ _ na_ _ a_ b_); [done|done|].
       by repeat split. }
  erewrite (turns_bwd n); [|reflexivity|reflexivity|].
  2: { eapply central_done; [done|apply f6_length|done]. }
  rewrite turns_end by done. by repeat split.
Qed.
End compatible_session.

(** C1: an initiator and a responder that name each other, both ask for Secure
    Connections and whose IO capabilities do not call for Passkey Entry pair
    in at most eleven turns of a lossless link: both report COMPLETE, hold the
    same LTK, selected the same method, display the same number when they
    compare, and have nothing left to do. *)
Theorem pairing_agrees (Hc : compatible c1 c2) (Hm : selected c1 c2 ≠ PasskeyEntry)
    (e1 e2 : G) :
  agreed (turns 11 c1 c2 (started c1 c2 e1 e2)).
Proof.
  destruct (session_prefix Hc Hm e1 e2 5) as (dh&E).
  change (6 + 5)%nat with 11%nat in E. rewrite E.
  destruct (decide (selected c1 c2 = NumericComparison)) as [Hn|Hn].
  - by destruct (session_numeric Hc e1 e2 dh 0 Hn) as (l&<-&?).
  - by destruct (session_just_works Hc e1 e2 dh 2 Hn) as (l&<-&?).
Qed.
End session.
End agreement.

(** *** A concrete instance

    A multiplicative key agreement and a checksum in place of AES-CMAC, enough
    to run the machines. *)

Definition toy_cmac (key message : bytes) : bytes :=
  le_bytes 16 (fold_left (λ h b, (h * 257 + b + 1) mod 2 ^ 128) (key ++ message) 7).

Definition toy_crypto : Crypto Z Z := {|
  aes_cmac := toy_cmac;
  public_numbers k := (k mod 2 ^ 256, 0);
  exchange k x _ := Some (le_bytes 32 (k * x));
  rng n g := (le_bytes n (g * 7919), g + 1);
|}.

Lemma toy_laws : CryptoLaws Z Z (H := toy_crypto).
Proof.
  split; cbn -[le_bytes Z.pow].
  - intros. apply length_le_bytes.
  - intros k. split; [apply Z.mod_pos_bound; lia|lia].
  - intros k1 k2. eexists. split; [done|]. f_equal.
    assert (∀ a, le_bytes 32 a = le_bytes 32 (a mod 2 ^ 256)) as Hmod.
    { intros a. apply (le_bytes_mod 32). }
    rewrite Hmod, (Hmod (k1 * _)). f_equal.
    rewrite !Z.mul_mod_idemp_r by lia. f_equal. lia.
  - intros n g. apply length_le_bytes.
Qed.

Definition toy_cfg (k io peer_io : Z) (a b : Z) : smp_cfg Z :=
  SmpCfg [a;1;2;3;4;5] 0 [b;1;2;3;4;5] 0 io 13 16 3 3 k.

Definition toy_session : link := turns (H := toy_crypto) 11
  (toy_cfg 5 1 4 10 20) (toy_cfg 9 4 1 20 10)
  (started (H := toy_crypto) (toy_cfg 5 1 4 10 20) (toy_cfg 9 4 1 20 10) 1 2).

(** What the initiator of that session was given. *)
Definition toy_inputs : list CentralSafety.input :=
  let pdus := map CentralSafety.Feed (Responder.sent (res toy_session)) in
  [CentralSafety.Start] ++ take 4 pdus ++ [CentralSafety.User true] ++ drop 4 pdus.

Lemma reach_fold {K G} `{!Crypto K G} (c : smp_cfg K) (g : G) ins :
  CentralSafety.reach c g ins
    (fold_left (λ s i, snd (CentralSafety.step c i s)) ins (Central.init g)).
Proof.
  induction ins as [|i ins IH] using rev_ind; [constructor|].
  rewrite fold_left_app. cbn. by constructor.
Qed.

Definition toy_central : Central.central Z :=
  fold_left (λ s i, snd (CentralSafety.step (Crypto0 := toy_crypto) (toy_cfg 5 1 4 10 20) i s))
    toy_inputs (Central.init 1).

Lemma central_complete_checked_witness :
  Central.state toy_central = Central.COMPLETE ∧
  ∃ (k : bytes), Central.ltk toy_central = Some k.
Proof.
  assert (Central.state toy_central = Central.COMPLETE) as Hc by by vm_compute.
  split; [exact Hc|].
  destruct (CentralSafety.central_complete_checked (Crypto0 := toy_crypto)
    (toy_cfg 5 1 4 10 20) 1 toy_inputs toy_central (reach_fold (Crypto0 := toy_crypto) _ 1 toy_inputs) Hc)
    as (?&?&?&?&?&?&?&?&?&?&?&_&_&_&_&_&_&_&_&_&Hltk&_).
  eexists. exact Hltk.
Defined.

Lemma central_done_final_witness :
  Central.done toy_central = true ∧
  snd (CentralSafety.step (Crypto0 := toy_crypto) (toy_cfg 5 1 4 10 20)
         (CentralSafety.Feed [5; 8]) toy_central) = toy_central.
Proof.
  assert (Central.done toy_central = true) as Hd by by vm_compute.
  split; [exact Hd|].
  destruct (CentralSafety.central_done_final (Crypto0 := toy_crypto)
    (toy_cfg 5 1 4 10 20) (CentralSafety.Feed [5; 8]) toy_central Hd) as [Hs _].
  exact Hs.
Defined.

Lemma central_progress_witness :
  length (Central.sent toy_central) = 4%nat ∧
  (length (Central.sent toy_central) ≤ 5)%nat.
Proof.
  split; [by vm_compute|].
  destruct (CentralSafety.central_progress (Crypto0 := toy_crypto) (toy_cfg 5 1 4 10 20)
    1 toy_inputs toy_central (reach_fold (Crypto0 := toy_crypto) _ 1 toy_inputs)) as [Hp _].
  exact Hp.
Defined.

(** A responder comparing numbers, and one waiting for a public key. *)
Definition toy_waiting : Responder.responder Z :=
  res (turns (H := toy_crypto) 6 (toy_cfg 5 1 4 10 20) (toy_cfg 9 4 1 20 10)
    (started (H := toy_crypto) (toy_cfg 5 1 4 10 20) (toy_cfg 9 4 1 20 10) 1 2)).
Definition toy_keyless : Responder.responder Z :=
  res (turns (H := toy_crypto) 1 (toy_cfg 5 1 4 10 20) (toy_cfg 9 4 1 20 10)
    (started (H := toy_crypto) (toy_cfg 5 1 4 10 20) (toy_cfg 9 4 1 20 10) 1 2)).

Lemma responder_accept_check_commute_witness :
  let feed := Responder.feed (Crypto0 := toy_crypto) (toy_cfg 9 4 1 20 10) in
  let confirm := Responder.user_confirm (Crypto0 := toy_crypto) (toy_cfg 9 4 1 20 10) true in
  let pdu := SMP_PAIRING_DHKEY_CHECK :: zeros 16 in
  Responder.state toy_waiting = Responder.R_WAIT_USER_OR_CHECK ∧
  snd (confirm (snd (feed pdu toy_waiting))) = snd (feed pdu (snd (confirm toy_waiting))).
Proof.
  split; [by vm_compute|].
  apply (responder_accept_check_commute (H := toy_crypto)); by vm_compute.
Defined.

Lemma responder_accepts_reflected_key_witness :
  let k := 9 in
  Responder.state toy_keyless = Responder.R_WAIT_PUBLIC_KEY ∧
  Responder.state (snd (Responder.feed (Crypto0 := toy_crypto) (toy_cfg 9 4 1 20 10)
    (SMP_PAIRING_PUBLIC_KEY :: key_x (Crypto0 := toy_crypto) k ++ key_y (Crypto0 := toy_crypto) k)
    toy_keyless)) = Responder.R_WAIT_RANDOM.
Proof.
  split; [by vm_compute|].
  apply (responder_accepts_reflected_key (CL := toy_laws) (toy_cfg 9 4 1 20 10)).
  by vm_compute.
Defined.

Lemma pairing_agrees_witness :
  let c1 := toy_cfg 5 1 4 10 20 in
  let c2 := toy_cfg 9 4 1 20 10 in
  selected c1 c2 = NumericComparison ∧
  agreed (H := toy_crypto) c1 c2 (turns (H := toy_crypto) 11 c1 c2
    (started (H := toy_crypto) c1 c2 1 2)).
Proof.
  split; [by vm_compute|].
  apply (pairing_agrees (CL := toy_laws)).
  - constructor; cbn; try done; unfold is_byte; lia.
  - done.
Defined.
