(* ===== verification/Secure.v ===== *)
(** * Secure: pairing and the secure reconnect (examples/secure_reconnect.py)

    [Link] puts L2CAP on one controller: outgoing frames cut to the buffers of
    the controller and paced by its credits, incoming ones put together again,
    and a record of the events as they come off the wire. The source hooks
    [Hci.on_event] for that record, which [read_wire] calls for every event
    right after the transport has returned it; here the hook is a transport
    around the transport ([tap]), so that the engine and its theorems are used
    as they are. On top of it the tool itself: pair, encrypt, exchange keys,
    reconnect with the bond, and the verdict. Times are in microseconds; what is
    only printed is left out. *)

From Stdlib Require Import Ascii String.
From stdpp Require Import gmap.
From S2P Require Export Tools Smp.
#[local] Open Scope Z_scope.

Module Secure.

Definition OP_LE_ENABLE_ENCRYPTION : Z := 0x2019.
Definition SMP_ENCRYPTION_INFO : Z := 0x06.
Definition SMP_CENTRAL_IDENTIFICATION : Z := 0x07.
Definition SMP_IDENTITY_INFO : Z := 0x08.
Definition SMP_IDENTITY_ADDRESS_INFO : Z := 0x09.
Definition SMP_SIGNING_INFO : Z := 0x0A.
Definition SMP_SECURITY_REQUEST : Z := 0x0B.

(** ** The record of events *)

(** [self.events], [self.disconnect] and [self.encryption]: what came with its
    time, the last disconnection, the last encryption change. *)
Record view : Type := View {
  events : list (Z * Z * bytes);
  v_disconnect : option (Z * Z * Z * Z);
  v_encryption : option (Z * Z * Z) }.

Definition set_disconnect d (v : view) : view := View (events v) d (v_encryption v).
Definition set_encryption e (v : view) : view := View (events v) (v_disconnect v) e.

(** [Link._on_event], up to the call of the original. *)
Definition on_event (now code : Z) (body : bytes) (v : view) : view :=
  let at_ i := default 0 (body !! i) in
  let v := View (events v ++ [(now, code, body)]) (v_disconnect v) (v_encryption v) in
  let v := if (code =? EVT_DISCONNECTION_COMPLETE) && (4 <=? length body)%nat
           then set_disconnect (Some (now, at_ 0%nat, le_Z (slice 1 3 body), at_ 3%nat)) v else v in
  if (code =? EVT_ENCRYPTION_CHANGE) && (4 <=? length body)%nat
  then set_encryption (Some (now, at_ 0%nat, at_ 3%nat)) v else v.

(** What a kind of link records: its hook, and the record every link has. *)
Class LinkView (V : Type) : Type := {
  hook : Z → Z → bytes → V → V;
  base : V → view;
  over_base : (view → view) → V → V }.

#[export] Instance link_view : LinkView view :=
  {| hook := on_event; base v := v; over_base f := f |}.

(** A transport with a hook on its events. *)
Record tap (V T : Type) : Type := Tap { wire : T; seen : V }.
Arguments Tap {V T}.
Arguments wire {V T}.
Arguments seen {V T}.

Section tap.
Context {V T : Type} `{!LinkView V} `{!Transport T}.

Definition note_event (now : Z) (r : res (option packet)) (v : V) : V :=
  match r with
  | Ok (Some p) => if kind p =? H4_EVENT then hook now (default 0 (code p)) (body p) v else v
  | _ => v
  end.

Definition tap_read (timeout : Z) : M (Z * tap V T) (option packet) := λ s,
  let '(r, (now, w)) := t_read_packet timeout (fst s, wire (snd s)) in
  (r, (now, Tap w (note_event now r (seen (snd s))))).

#[export] Instance tap_transport : Transport (tap V T) := {|
  t_read_packet := tap_read;
  t_write_packet data := zoom wire (λ w t, Tap w (seen t)) (t_write_packet data);
  t_has_pending_input :=
    zoom (λ s, (fst s, wire (snd s))) (λ w s, (fst w, Tap (snd w) (seen (snd s)))) t_has_pending_input;
  t_sent t := t_sent (wire t);
  t_backlog t := t_backlog (wire t);
  t_wf t := t_wf (wire t) |}.
End tap.

(** ** L2CAP on a controller *)

(** A completed L2CAP frame: channel and payload. *)
Abbreviation item := (Z * bytes)%type.

(** [self.handle], [self.reasm], [self.att_seen], [self.queue]. *)
Record link : Type := Link {
  handle : option Z; reasm : gmap Z bytes; att_seen : Z; queue : list (Z * bytes) }.

Definition no_link : link := Link None ∅ 0 [].
Definition set_handle h (l : link) : link := Link h (reasm l) (att_seen l) (queue l).
Definition set_reasm r (l : link) : link := Link (handle l) r (att_seen l) (queue l).
Definition set_queue q (l : link) : link := Link (handle l) (reasm l) (att_seen l) q.
Definition count_att (l : link) : link := Link (handle l) (reasm l) (att_seen l + 1) (queue l).

(** The fragments [range(0, len(l2cap), size)] cuts. *)
Definition chunks (size : nat) (data : bytes) : list bytes :=
  map (λ i, slice (i * size) (i * size + size) data)
      (seq 0 ((length data + size - 1) / size)).

(** The fragment of a frame arrives: the frames still open and the frame it
    completes. *)
Definition complete (h : Z) (buf : bytes) (open : gmap Z bytes) : gmap Z bytes * option item :=
  if (length buf <? 4)%nat then (<[h := buf]> open, None)
  else
    let need := (Z.to_nat (le_Z (take 2 buf)) + 4)%nat in
    if (need <=? length buf)%nat
    then (delete h open, Some (le_Z (slice 2 4 buf), slice 4 need buf))
    else (<[h := buf]> open, None).

Definition assemble (h pb : Z) (data : bytes) (open : gmap Z bytes) : gmap Z bytes * option item :=
  if (pb =? 0) || (pb =? 2) then complete h data open
  else match open !! h with
       | Some buf => complete h (buf ++ data) open
       | None => (open, None)
       end.

Section link.
Context {V T : Type} `{!LinkView V} `{!Transport T}.
Abbreviation D := (M (dev (T:=tap V T))).
Abbreviation L := (M (dev (T:=tap V T) * link)).

Definition update (f : link → link) : L unit := on_own (modify f).

(** The record of events, and changes of it. *)
Definition view_of (s : dev (T:=tap V T)) : V := seen (transport (snd s)).
Definition watch {A} (f : view → A) : L A := gets (λ s, f (base (view_of (fst s)))).
Definition change_view (f : V → V) : L unit :=
  on_dev (on_hci (modify (λ h, set_transport (Tap (wire (transport h)) (f (seen (transport h)))) h))).

Definition now : L Z := on_dev (gets fst).

(** [Link._take_acl]. *)
Definition take_acl (body : bytes) : L unit :=
  header ← lift (unpack_HH (take 4 body));
  let '(word, length) := (header : Z * Z) in
  let h := Z.land word 0x0FFF in
  let pb := Z.land (Z.shiftr word 12) 0x3 in
  update (λ l,
    let '(open, done) := assemble h pb (slice 4 (4 + Z.to_nat length) body) (reasm l) in
    set_queue (queue l ++ match done with Some x => [x] | None => [] end) (set_reasm open l)).

(** [Link._hand_out], when there is something to hand out. *)
Definition hand_out : L (option item) :=
  q ← gets (λ s, queue (snd s));
  match q with
  | [] => mret None
  | x :: rest =>
      update (set_queue rest) ;;
      when (fst x =? CID_ATT) (update count_att) ;;
      mret (Some x)
  end.

(** [Link.poll]. *)
Definition link_poll (timeout : Z) : L (option item) :=
  q ← gets (λ s, queue (snd s));
  match q with
  | _ :: _ => hand_out
  | [] =>
      p ← on_dev (read_packet timeout);
      match p with
      | Some p => when (kind p =? H4_ACL) (take_acl (body p))
      | None => skip
      end ;;
      hand_out
  end.

(** The frames queued, the packets still to come and the waiting periods of [w]
    until the time is up. *)
Definition link_fuel (w timeout : Z) (s : dev (T:=tap V T) * link) : nat :=
  (length (queue (snd s)) + length (pending (snd (fst s))) + t_backlog (transport (snd (fst s)))
   + Z.to_nat (timeout / w) + 2)%nat.

(** [Link._take_credit]: what [poll] hands out here is dropped. *)
Fixpoint credit_loop (fuel : nat) (deadline : Z) : L unit :=
  match fuel with
  | O => λ s, (Stuck, s)
  | S fuel' =>
      credits ← on_dev (gets (λ d, acl_credits (snd d)));
      if 0 <? credits then skip
      else
        t ← now;
        if deadline <? t then raise (HciError (Lit "no ACL credit from the controller"))
        else link_poll (ms 50) ;; credit_loop fuel' deadline
  end.

Definition take_credit (timeout : Z) : L unit :=
  t ← now;
  fuel ← gets (link_fuel (ms 50) timeout);
  credit_loop fuel (t + timeout).

(** One fragment, and [Link.send_l2cap]. *)
Definition send_chunk (first : bool) (chunk : bytes) : L unit :=
  take_credit (seconds 2) ;;
  l ← gets snd;
  h ← lift (need (handle l));
  let pb := if first then 0x0 else 0x1 in
  header ← lift (pack [FH (Z.lor h (Z.shiftl pb 12)); FH (blen chunk)]);
  on_dev (write_packet ([H4_ACL] ++ header ++ chunk)) ;;
  on_dev (on_hci (modify (add_credits (-1)))).

Definition send_l2cap (cid : Z) (payload : bytes) : L unit :=
  head ← lift (pack [FH (blen payload); FH cid]);
  size ← on_dev (gets (λ d : dev (T:=tap V T), Z.to_nat (Z.max (acl_size (snd d)) 27)));
  for_each (imap (λ i chunk, (i, chunk)) (chunks size (head ++ payload)))
    (λ x, send_chunk (fst x =? 0)%nat (snd x)).

(** *** Waiting

    [while time.monotonic() < deadline: before; item = link.poll(w); after]:
    both parts go on with a new accumulator or return. *)
Section wait.
Context {A B : Type} (w : Z) (before : A → L (A + B)) (after : A → option item → L (A + B)).

Fixpoint link_loop (fuel : nat) (deadline : Z) (a : A) : L (A + B) :=
  match fuel with
  | O => λ s, (Stuck, s)
  | S fuel' =>
      t ← now;
      if deadline <=? t then mret (inl a)
      else
        r ← before a;
        match r with
        | inr b => mret (inr b)
        | inl a =>
            x ← link_poll w;
            r ← after a x;
            match r with
            | inr b => mret (inr b)
            | inl a => link_loop fuel' deadline a
            end
        end
  end.

Definition link_wait (timeout : Z) (a : A) : L (A + B) :=
  t ← now;
  fuel ← gets (link_fuel w timeout);
  link_loop fuel (t + timeout) a.
End wait.

(** Leave a wait once the link is down. *)
Definition until_down {A B} (b : B) (a : A) : L (A + B) :=
  down ← watch v_disconnect;
  mret (match down with Some _ => inr b | None => inl a end).

(** *** The steps of a connection *)

(** [connect(link, ...)]: the handle of the new link; [acl_credits] and the
    record of events are kept. *)
Definition forget_link : L unit :=
  change_view (over_base (λ v, set_encryption None (set_disconnect None v))) ;;
  update (λ l, Link (handle l) ∅ 0 []).

Definition connect (peer : bytes) (peer_type own_type timeout : Z) (interval : Z * Z)
    (latency : Z) : L (option Z) :=
  forget_link ;;
  scan ← lift (pack [FH 0x0060; FH 0x0030]);
  ptype ← lift (mkbytes [0x00; peer_type]); otype ← lift (mkbytes [own_type]);
  intervals ← lift (pack [FH (fst interval); FH (snd interval)]);
  supervision ← lift (pack [FH latency; FH 400]);
  ce ← lift (pack [FH 0; FH 0]);
  on_dev (command OP_LE_CREATE_CONNECTION
    (scan ++ ptype ++ peer ++ otype ++ intervals ++ supervision ++ ce) false) ;;
  r ← on_dev (poll (λ _, ms 200) Tools.connected_step (ms 200) timeout tt);
  match r with
  | inr (Some h) => update (set_handle (Some h)) ;; mret (Some h)
  | inr None => mret None
  | inl _ =>
      on_dev (command Tools.OP_LE_CREATE_CONNECTION_CANCEL [] true) ;;
      on_dev (Tools.sleep (ms 300)) ;;
      mret None
  end.

(** [wait_security_request(link, seconds)]: the time of the request. *)
Definition wait_security_request (timeout : Z) : L (option Z) :=
  r ← link_wait (ms 50) (until_down None)
        (λ _ x, match x with
                | Some (cid, pdu) =>
                    if (cid =? CID_SMP) && bool_decide (head pdu = Some SMP_SECURITY_REQUEST)
                    then t ← now; mret (inr (Some t)) else mret (inl tt)
                | None => mret (inl tt)
                end) timeout tt;
  mret (match r with inl _ => None | inr t => t end).

(** [disconnect(link, wait)]. *)
Definition disconnect (wait : Z) : L unit :=
  l ← gets snd;
  match handle l with
  | None => skip
  | Some h =>
      down ← watch v_disconnect;
      when (bool_decide (down = None)) (
        params ← lift (pack [FH h; FB 0x13]);
        on_dev (command OP_DISCONNECT params true) ;; skip) ;;
      link_wait (ms 100) (until_down tt) (λ _ _, mret (inl tt)) wait tt ;;
      update (set_handle None)
  end.

(** [start_encryption(link, ltk, rand, ediv)]. *)
Definition start_encryption (ltk rand : bytes) (ediv : Z) : L (Z * bytes) :=
  change_view (over_base (set_encryption None)) ;;
  l ← gets snd;
  h ← lift (match handle l with Some h => pack [FH h] | None => Exc StructError end);
  div ← lift (pack [FH ediv]);
  on_dev (command OP_LE_ENABLE_ENCRYPTION (h ++ rand ++ div ++ ltk) true).

Inductive outcome : Type := Encrypted | Dropped | Refused | Silent.

(** [wait_encryption(link, timeout)]. *)
Definition wait_encryption (timeout : Z) : L outcome :=
  r ← link_wait (ms 50)
        (λ _, down ← watch v_disconnect; enc ← watch v_encryption;
              mret (match down, enc with
                    | Some _, _ => inr Dropped
                    | None, Some (_, status, enabled) =>
                        inr (if (status =? 0) && negb (enabled =? 0) then Encrypted else Refused)
                    | None, None => inl tt
                    end))
        (λ _ _, mret (inl tt)) timeout tt;
  mret (match r with inl _ => Silent | inr o => o end).

(** [att_probe(link, seconds, mtu)]. *)
Definition att_probe (timeout : Z) (mtu : bool) : L bool :=
  when mtu (
    request ← lift (pack [FB ATT_EXCHANGE_MTU_REQ; FH 247]);
    send_l2cap CID_ATT request) ;;
  l ← gets snd;
  if negb mtu && negb (att_seen l =? 0) then mret true
  else
    let want := if mtu then ATT_EXCHANGE_MTU_RSP else 0x11 in
    r ← link_wait (ms 50) (until_down false)
          (λ _ x, mret (match x with
                        | Some (cid, pdu) =>
                            if (cid =? CID_ATT) && (bool_decide (head pdu = Some want)
                                                    || bool_decide (head pdu = Some 0x01))
                            then inr true else inl tt
                        | None => inl tt
                        end)) timeout tt;
    mret (match r with inl _ => false | inr b => b end).

(** The LE events that arrived since [mark], among those of [want]. *)
Definition arrived (mark : nat) (want : gset Z) (v : view) : gset Z :=
  list_to_set (omap (λ e : Z * Z * bytes,
    let '(_, code, body) := e in
    if code =? EVT_LE_META
    then match body with b :: _ => if bool_decide (b ∈ want) then Some b else None | [] => None end
    else None) (drop mark (events v))).

(** [concurrent_traffic(link, args)]. *)
Definition concurrent_traffic (phy2m dle att_during settle : bool) : L unit :=
  mark ← watch (λ v, length (events v));
  l ← gets snd;
  let h := lift (match handle l with Some h => pack [FH h] | None => Exc StructError end) in
  when phy2m (
    h ← h; phy ← lift (pack [FB 0; FB 0x02; FB 0x02; FH 0]);
    on_dev (command Connected.OP_LE_SET_PHY (h ++ phy) true) ;; skip) ;;
  when dle (
    h ← h; len ← lift (pack [FH 251; FH 2120]);
    on_dev (command 0x2022 (h ++ len) true) ;; skip) ;;
  when att_during (
    mtu ← lift (pack [FB ATT_EXCHANGE_MTU_REQ; FH 247]);
    send_l2cap CID_ATT mtu ;;
    groups ← lift (pack [FB 0x10; FH 1; FH 0xFFFF; FH 0x2800]);
    send_l2cap CID_ATT groups) ;;
  when (settle && (phy2m || dle)) (
    let want : gset Z := (if dle then {[0x07]} else ∅) ∪ (if phy2m then {[0x0C]} else ∅) in
    link_wait (ms 50)
      (λ seen : gset Z, mret (if decide (seen = want) then inr tt else inl seen))
      (λ seen _, new ← watch (arrived mark want); mret (inl (seen ∪ new)))
      (seconds 3) ∅ ;;
    skip).
End link.

(** ** Keys and the bond *)

(** The keys a peripheral distributes: the dict [keys], whose entries are these
    when they are there. *)
Record dist : Type := Dist {
  d_ltk : option bytes; d_ediv : option Z; d_rand : option bytes; d_irk : option bytes }.
Definition no_keys : dist := Dist None None None None.

(** [data.hex()]. *)
Definition hex_digit (d : Z) : ascii :=
  default "0"%char (String.get (Z.to_nat d) "0123456789abcdef").
Fixpoint hex (data : bytes) : string :=
  match data with
  | [] => EmptyString
  | b :: rest => String (hex_digit (b / 16)) (String (hex_digit (b mod 16)) (hex rest))
  end.

(** The bond, and the JSON object it is written as. Reading a file of another
    shape is not modelled. *)
Record bond : Type := Bond {
  b_ltk : bytes; b_own : bytes; b_own_type : Z; b_peer : bytes; b_peer_type : Z; b_dist : dist }.
Record dist_json : Type := DistJson {
  jd_ltk : option string; jd_ediv : option Z; jd_rand : option string; jd_irk : option string }.
Record bond_json : Type := BondJson {
  j_ltk : string; j_own : string; j_own_type : Z; j_peer : string; j_peer_type : Z;
  j_dist : option dist_json }.

Definition from_hex (s : string) : res bytes :=
  match Tools.fromhex s with
  | Some raw => Ok raw
  | None => Exc (ValueError (Lit "non-hexadecimal number found in fromhex()"))
  end.

Definition load_key (s : option string) : res (option bytes) :=
  match s with Some s => raw ← from_hex s; Ok (Some raw) | None => Ok None end.
Definition load_dist (d : dist_json) : res dist :=
  ltk ← load_key (jd_ltk d); rand ← load_key (jd_rand d); irk ← load_key (jd_irk d);
  Ok (Dist ltk (jd_ediv d) rand irk).

(** [load_bond] and [save_bond]. *)
Definition load_bond (raw : bond_json) : res bond :=
  ltk ← from_hex (j_ltk raw); own ← from_hex (j_own raw); peer ← from_hex (j_peer raw);
  d ← match j_dist raw with Some d => load_dist d | None => Ok no_keys end;
  Ok (Bond ltk own (j_own_type raw) peer (j_peer_type raw) d).

Definition save_bond (b : bond) : bond_json :=
  let d := b_dist b in
  BondJson (hex (b_ltk b)) (hex (b_own b)) (b_own_type b) (hex (b_peer b)) (b_peer_type b)
    (Some (DistJson (hex <$> d_ltk d) (d_ediv d) (hex <$> d_rand d) (hex <$> d_irk d))).

(** ** The tool *)

(** The options of the command line, in microseconds where they are times;
    [think] is how long the user takes to compare the number. *)
Record args : Type := Args {
  a_address : string; a_random : bool; a_own_address : option string;
  a_cycles : nat; a_reconnect_only : bool; a_bond_file : bool;
  a_on_request : bool;          (* start == "request" *)
  a_start_delay : Z; a_interval_min : Z; a_interval_max : Z; a_latency : Z;
  a_phy2m : bool; a_dle : bool; a_settle : bool; a_att_during : bool;
  a_rand : option string; a_ediv : Z; a_corrupt_ltk : bool;
  a_io : Z; a_auth : Z; a_key_size : Z; a_init_keys : Z; a_resp_keys : Z;
  a_use_distributed : bool; a_keys_wait : Z; a_auto_accept : bool;
  a_connect_timeout : Z; a_sec_req_wait : Z; a_pair_timeout : Z; a_enc_timeout : Z;
  a_hold : Z; a_gap : Z; a_think : Z }.

(** [params_of(args)]. *)
Definition params_of (a : args) : Z * Z :=
  (a_interval_min a, Z.max (a_interval_max a) (a_interval_min a)).

(** A line of the summary: 0 for the pairing connection, the number of the
    reconnect otherwise. *)
Inductive detail : Type :=
  | NoConnection
  | DroppedBefore (reason : Z)
  | Outcome (o : outcome).
Record row : Type := Row { r_cycle : nat; r_detail : detail; r_ok : bool }.

Section secure.
Context {T : Type} `{!Transport T} {K G : Type} `{!Crypto K G}.
Abbreviation D := (M (dev (T:=tap view T))).
Abbreviation L := (M (dev (T:=tap view T) * link)).

(** *** Pairing *)

(** The PDUs a method of the pairing object has handed to [send], which is
    [send_l2cap] here, then what it returned or raised. *)
Definition drive {A} (s : Central.central G) (m : M (Central.central G) A)
  : L (A * Central.central G) :=
  let '(r, s') := m s in
  for_each (drop (length (Central.sent s)) (Central.sent s')) (send_l2cap CID_SMP) ;;
  a ← lift r; mret (a, s').

(** A PDU for the pairing object; frames of other channels are only printed. *)
Definition pair_item (cfg : smp_cfg K) (x : option item) (s : Central.central G)
  : L (Central.central G) :=
  match x with
  | Some (cid, pdu) =>
      if cid =? CID_SMP then r ← drive s (Central.feed cfg pdu); mret (snd r) else mret s
  | None => mret s
  end.

(** The number is shown once, and accepted. *)
Definition pair_prompt (a : args) (cfg : smp_cfg K) (s : Central.central G) (prompted : bool)
  : L (Central.central G * bool) :=
  if bool_decide (Central.state s = Central.WAIT_USER) && negb prompted then
    lift (need (Central.numeric_value s)) ;;
    when (negb (a_auto_accept a)) (on_dev (Tools.sleep (a_think a))) ;;
    r ← drive s (Central.user_confirm cfg true);
    mret (snd r, true)
  else mret (s, prompted).

(** [pair(link, args, own, own_type, peer, peer_type)], with the key pair and
    the random source of the pairing object. *)
Definition pair (a : args) (key : K) (g : G) (own : bytes) (own_type : Z)
    (peer : bytes) (peer_type : Z) : L (option (Central.central G)) :=
  let cfg := SmpCfg own own_type peer peer_type (a_io a) (a_auth a) (a_key_size a)
               (a_init_keys a) (a_resp_keys a) key in
  wait_security_request (a_sec_req_wait a) ;;
  r ← drive (Central.init g) (Central.start cfg);
  r ← link_wait (ms 50)
        (λ sp : Central.central G * bool,
           if Central.done (fst sp) then mret (inr (Some (fst sp))) else until_down None sp)
        (λ sp x,
           s ← pair_item cfg x (fst sp);
           sp ← pair_prompt a cfg s (snd sp);
           mret (inl sp))
        (a_pair_timeout a) (snd r, false);
  mret (match r with
        | inl (s, _) => if Central.ok s then Some s else None
        | inr (Some s) => if Central.ok s then Some s else None
        | inr None => None
        end).

(** *** Key distribution *)

(** What a PDU adds to the keys. *)
Definition take_key (pdu : bytes) (d : dist) : dist :=
  match pdu with
  | [] => d
  | code :: _ =>
      if (code =? SMP_ENCRYPTION_INFO) && (length pdu =? 17)%nat
      then Dist (Some (slice 1 17 pdu)) (d_ediv d) (d_rand d) (d_irk d)
      else if (code =? SMP_CENTRAL_IDENTIFICATION) && (length pdu =? 11)%nat
      then Dist (d_ltk d) (Some (le_Z (slice 1 3 pdu))) (Some (slice 3 11 pdu)) (d_irk d)
      else if (code =? SMP_IDENTITY_INFO) && (length pdu =? 17)%nat
      then Dist (d_ltk d) (d_ediv d) (d_rand d) (Some (slice 1 17 pdu))
      else d
  end.

(** [collect_keys(link, seconds, expect)]. *)
Definition collect_keys (timeout expect : Z) : L dist :=
  if expect =? 0 then mret no_keys
  else
    r ← link_wait (ms 50)
          (λ kg : dist * Z,
             down ← watch v_disconnect;
             mret (if bool_decide (is_Some down) || (expect <=? snd kg) then inr kg else inl kg))
          (λ kg x, mret (inl (match x with
                              | Some (cid, pdu) =>
                                  if cid =? CID_SMP then (take_key pdu (fst kg), snd kg + 1) else kg
                              | None => kg
                              end)))
          timeout (no_keys, 0);
    mret (match r with inl kg | inr kg => fst kg end).

(** [send_keys(link, init_keys, own, own_type)]; the random octets are those of
    [os.urandom]. *)
Definition send_keys (init own_type : Z) (own : bytes) (g : G) : L G :=
  let send pdu := send_l2cap CID_SMP pdu in
  g ← (if has_flag init 0x01 then
         let '(ltk, g) := rng 16 g in
         send ([SMP_ENCRYPTION_INFO] ++ ltk) ;;
         let '(id, g) := rng 10 g in
         send ([SMP_CENTRAL_IDENTIFICATION] ++ id) ;; mret g
       else mret g);
  g ← (if has_flag init 0x02 then
         let '(irk, g) := rng 16 g in
         send ([SMP_IDENTITY_INFO] ++ irk) ;;
         head ← lift (mkbytes [SMP_IDENTITY_ADDRESS_INFO; own_type]);
         send (head ++ own) ;; mret g
       else mret g);
  if has_flag init 0x04 then
    let '(csrk, g) := rng 16 g in
    send ([SMP_SIGNING_INFO] ++ csrk) ;; mret g
  else mret g.

(** [exchange_keys(link, pres, args, own, own_type)]. *)
Definition exchange_keys (a : args) (pres own : bytes) (own_type : Z) (g : G) : L (dist * G) :=
  init ← lift (idx pres 5); resp ← lift (idx pres 6);
  let expect := (if has_flag resp 0x01 then 2 else 0) + (if has_flag resp 0x02 then 2 else 0)
                + (if has_flag resp 0x04 then 1 else 0) in
  keys ← collect_keys (a_keys_wait a) expect;
  g ← send_keys init own_type own g;
  mret (keys, g).

(** *** The run *)

(** The bond file, the rows of the summary, the random source, and whether the
    port has been closed. *)
Record world : Type := World {
  file : option bond_json; rows : list row; entropy : G; closed : bool }.
Abbreviation R := (M ((dev (T:=tap view T) * link) * world)).

Definition on_link {A} (m : L A) : R A := zoom fst (λ x s, (x, snd s)) m.
Definition on_port {A} (m : D A) : R A := on_link (on_dev m).
Definition on_world (f : world → world) : R unit := modify (λ s, (fst s, f (snd s))).
Definition add_row (r : row) : R unit :=
  on_world (λ w, World (file w) (rows w ++ [r]) (entropy w) (closed w)).
Definition set_file (f : bond_json) : R unit :=
  on_world (λ w, World (Some f) (rows w) (entropy w) (closed w)).
Definition set_entropy (g : G) : R unit :=
  on_world (λ w, World (file w) (rows w) g (closed w)).
Definition close : R unit :=
  on_world (λ w, World (file w) (rows w) (entropy w) true).

(** The addresses of both sides. *)
Record sides : Type := Sides { own : bytes; own_type : Z; peer : bytes; s_peer_type : Z }.

(** Setting up: the bond of the file, or the addresses of the command line; an
    exit code without a file. *)
Definition prepare (a : args) : R (Z + (option bond * sides)) :=
  on_port setup ;;
  if a_reconnect_only a then
    f ← gets (λ s, file (snd s));
    match (if a_bond_file a then f else None) with
    | None => mret (inl 2)
    | Some raw =>
        b ← lift (load_bond raw);
        mret (inr (Some b, Sides (b_own b) (b_own_type b) (b_peer b) (b_peer_type b)))
    end
  else
    peer ← lift (Tools.addr_bytes (a_address a));
    override ← match a_own_address a with
               | Some (String _ _ as text) => raw ← lift (Tools.addr_bytes text); mret (Some raw)
               | _ => mret None
               end;
    id ← on_port (Hci.identity override);
    let '(own, own_type, _) := (id : bytes * Z * id_source) in
    mret (inr (None, Sides own own_type peer (if a_random a then 0x01 else 0x00))).

Definition open_link (a : args) (w : sides) : L (option Z) :=
  connect (peer w) (s_peer_type w) (own_type w) (a_connect_timeout a) (params_of a) (a_latency a).

(** The first connection: pair, encrypt, exchange keys, write the bond, and
    probe. *)
Definition first_connection (a : args) (key : K) (w : sides) : R (Z + (bytes * dist)) :=
  h ← on_link (open_link a w);
  match h with
  | None => mret (inl 1)
  | Some _ =>
      g ← gets (λ s, entropy (snd s));
      s ← on_link (pair a key g (own w) (own_type w) (peer w) (s_peer_type w));
      match s with
      | None => on_link (disconnect (ms 1500)) ;; mret (inl 1)
      | Some s =>
          set_entropy (Central.entropy s) ;;
          ltk ← lift (need (Central.ltk s));
          on_link (start_encryption ltk (zeros 8) 0) ;;
          o ← on_link (wait_encryption (a_enc_timeout a));
          let encrypted := match o with Encrypted => true | _ => false end in
          d ← (if encrypted then
                 pres ← lift (need (Central.pres s));
                 g ← gets (λ s, entropy (snd s));
                 kg ← on_link (exchange_keys a pres (own w) (own_type w) g);
                 set_entropy (snd kg) ;; mret (fst kg)
               else mret no_keys);
          when (a_bond_file a)
            (set_file (save_bond (Bond ltk (own w) (own_type w) (peer w) (s_peer_type w) d))) ;;
          ok ← (if encrypted then on_link (att_probe (seconds 2) true) else mret false);
          add_row (Row 0 (Outcome o) ok) ;;
          if negb ok then on_link (disconnect (ms 1500)) ;; mret (inl 1)
          else
            on_port (Tools.sleep (a_hold a)) ;;
            on_link (disconnect (ms 1500)) ;;
            on_port (Tools.sleep (a_gap a)) ;;
            mret (inr (ltk, d))
      end
  end.

(** LTK, Rand and EDIV of a reconnect. *)
Definition reconnect_key (a : args) (ltk : bytes) (d : dist) : res (bytes * bytes * Z) :=
  rand ← match a_rand a with
         | Some (String _ _ as text) => raw ← from_hex text; Ok (rev raw)
         | _ => Ok (zeros 8)
         end;
  let '(use, rand, ediv) :=
    match (if a_use_distributed a then d_ltk d else None) with
    | Some k => (k, default (zeros 8) (d_rand d), default 0 (d_ediv d))
    | None => (ltk, rand, a_ediv a)
    end in
  if a_corrupt_ltk a then
    match use with
    | [] => Exc IndexError
    | b :: rest => Ok (Z.lxor b 0x01 :: rest, rand, ediv)
    end
  else Ok (use, rand, ediv).

(** One reconnect; false breaks off the run. *)
Definition reconnect (a : args) (w : sides) (ltk : bytes) (d : dist) (cycle : nat) : R bool :=
  h ← on_link (open_link a w);
  match h with
  | None => add_row (Row cycle NoConnection false) ;; mret false
  | Some _ =>
      (if a_on_request a then on_link (wait_security_request (a_sec_req_wait a)) ;; skip
       else when (negb (a_start_delay a =? 0)) (on_port (Tools.sleep (a_start_delay a)))) ;;
      down ← on_link (watch v_disconnect);
      match down with
      | Some (_, _, _, reason) =>
          add_row (Row cycle (DroppedBefore reason) false) ;;
          on_link (update (set_handle None)) ;;
          on_port (Tools.sleep (a_gap a)) ;;
          mret true
      | None =>
          k ← lift (reconnect_key a ltk d);
          let '(use, rand, ediv) := (k : bytes * bytes * Z) in
          on_link (concurrent_traffic (a_phy2m a) (a_dle a) (a_att_during a) (a_settle a)) ;;
          on_link (start_encryption use rand ediv) ;;
          o ← on_link (wait_encryption (a_enc_timeout a));
          ok ← (match o with
                | Encrypted => on_link (att_probe (seconds 2) (negb (a_att_during a)))
                | _ => mret false
                end);
          add_row (Row cycle (Outcome o) ok) ;;
          when ok (on_port (Tools.sleep (a_hold a))) ;;
          on_link (disconnect (ms 1500)) ;;
          on_port (Tools.sleep (a_gap a)) ;;
          mret true
      end
  end.

Fixpoint reconnects (a : args) (w : sides) (ltk : bytes) (d : dist) (cycles : list nat) : R unit :=
  match cycles with
  | [] => skip
  | cycle :: rest =>
      go ← reconnect a w ltk d cycle;
      if (go : bool) then reconnects a w ltk d rest else skip
  end.

(** The body of the try: an exit code, or None when the summary decides. *)
Definition session (a : args) (key : K) : R (option Z) :=
  start ← prepare a;
  match start with
  | inl code => mret (Some code)
  | inr (b, w) =>
      when (own_type w =? 0x01) (on_port (command OP_LE_SET_RANDOM_ADDRESS (own w) false) ;; skip) ;;
      r ← match b with
          | Some b => mret (inr (b_ltk b, b_dist b))
          | None => first_connection a key w
          end;
      match r with
      | inl code => mret (Some code)
      | inr (ltk, d) => reconnects a w ltk d (seq 1 (a_cycles a)) ;; mret None
      end
  end.

(** The clean-up: no exception of the disconnection comes through, and the port
    is closed whatever happens. *)
Definition clean_up : R unit :=
  try_except (λ _, true)
    (l ← gets (λ s, snd (fst s));
     match handle l with Some _ => on_link (disconnect (ms 1500)) | None => skip end)
    (λ _, skip) ;;
  close.

(** The verdict of the summary. *)
Definition verdict (corrupt : bool) (rs : list row) : Z :=
  let bad := length (List.filter (λ r, negb (r_ok r)) rs) in
  let some := negb (bool_decide (rs = [])) in
  if corrupt then if (bad =? length rs)%nat && some then 0 else 1
  else if some && (bad =? 0)%nat then 0 else 1.

(** [run], behind the opened port. *)
Definition run (a : args) (key : K) : R Z :=
  r ← try_finally (session a key) clean_up;
  match r with
  | Some code => mret code
  | None => rs ← gets (λ s, rows (snd s)); mret (verdict (a_corrupt_ltk a) rs)
  end.
End secure.

(** *** Starting it *)

(** The controller to use: the serial port named, or the one discovered; None
    for the exit code 2 of a selection error. *)
Definition select_controller (darwin : bool) (os_ports : option (list Discovery.port_info))
    (os_usb : Discovery.enumeration) (port : option string) (transport : string)
    (usb : option string) : res (option Discovery.transport_spec) :=
  match port with
  | Some (String _ _ as device) =>
      Ok (Some (Discovery.serial_spec device ("serial H:4 " +:+ device)%string))
  | _ =>
      match Discovery.discover darwin os_ports os_usb transport usb false None None with
      | Exc (SelectionError _) => Ok None
      | r => r
      end
  end.

(** [main], behind the parsed options: its two usage errors, then [run] on the
    port [open] gives; 2 without a controller. *)
Definition usage_error (reconnect_only : bool) (address usb port : option string) : bool :=
  let given o := match o with Some (String _ _) => true | _ => false end in
  (negb reconnect_only && negb (given address)) || (given usb && given port).

Definition launch {T} `{!Transport T} {K G} `{!Crypto K G} (spec : res (option Discovery.transport_spec))
    (open : Discovery.transport_spec → M Z T) (a : args) (key : K) (g : G) (f : option bond_json)
  : M Z Z :=
  match spec with
  | Exc e => raise e
  | Stuck => λ now, (Stuck, now)
  | Ok None => mret 2
  | Ok (Some spec) => λ now,
      match open spec now with
      | (Ok t, now) =>
          let s := ((now, init_hci (Tap t (View [] None None))), no_link, World f [] g false) in
          let '(r, (d, _, _)) := run a key s in (r, fst d)
      | (Exc e, now) => (Exc e, now)
      | (Stuck, now) => (Stuck, now)
      end
  end.
End Secure.
