(* ===== verification/SecureLaws.v ===== *)
(** * SecureLaws: what Secure guarantees

    A hook on a transport leaves its laws intact; every program over a link
    ends; frames cut to the controller's buffers arrive whole; a bond reads back;
    what a verdict of the tool stands for. *)

From stdpp Require Import gmap.
From S2P Require Import SmpAgreement.
From S2P Require Export Secure Ends ToolsLaws SmpSafety.
#[local] Open Scope Z_scope.

Module SecureLaws.
Import Secure.

(** ** The transport with a hook *)

Section tap.
Context {V T : Type} `{LV : !LinkView V} `{Tr : !Transport T, TL : !TransportLaws T}.

(** The same transport with an invariant of the record among what holds of
    every state; it differs in nothing that is executed. *)
Definition tap_with (J : V → Prop) : Transport (tap V T) := {|
  t_read_packet := tap_read;
  t_write_packet data := zoom wire (λ w t, Tap w (seen t)) (t_write_packet data);
  t_has_pending_input :=
    zoom (λ s, (fst s, wire (snd s))) (λ w s, (fst w, Tap (snd w) (seen (snd s)))) t_has_pending_input;
  t_sent t := t_sent (wire t);
  t_backlog t := t_backlog (wire t);
  t_wf t := t_wf (wire t) ∧ J (seen t) |}.

Section with_J.
Context (J : V → Prop) (HJ : ∀ now code body v, J v → J (hook now code body v)).

Lemma note_event_inv now r v : J v → J (note_event now r v).
Proof.
  intros Hv. unfold note_event. destruct r as [[p|]|e|]; [|done..]. destruct (_ =? _); [by apply HJ|done].
Qed.

Lemma tap_with_laws : @TransportLaws (tap V T) (tap_with J).
Proof.
  split; cbn.
  - intros timeout [now t] [Hw Hv]. unfold tap_read. cbn in *.
    destruct (read_runs timeout (now, wire t) Hw) as (Hw'&Hf&He&Hs).
    destruct (t_read_packet timeout (now, wire t)) as [r [now' w]]. cbn in *.
    split_and!; [done|by apply note_event_inv|exact Hf|done|done].
  - intros timeout now t p s' [Hw Hv]. unfold tap_read. cbn.
    destruct (t_read_packet timeout (now, wire t)) as [r [now' w]] eqn:E.
    intros [= -> <-]. exact (read_some timeout now (wire t) p _ Hw E).
  - intros timeout now t s' [Hw Hv] Ht. unfold tap_read. cbn.
    destruct (t_read_packet timeout (now, wire t)) as [r [now' w]] eqn:E.
    intros [= -> <-]. exact (read_none timeout now (wire t) _ Hw Ht E).
  - intros [now t] [Hw Hv]. unfold zoom. cbn in *.
    destruct (pending_runs (now, wire t) Hw) as (Hw'&Hf&He&Hs).
    destruct (t_has_pending_input (now, wire t)) as [r [now' w]]. cbn in *. by split_and!.
  - intros bs t [Hw Hv]. unfold zoom.
    destruct (write_runs bs (wire t) Hw) as (Hw'&Hf&He&Hs).
    destruct (t_write_packet bs (wire t)) as [r w]. cbn in *. by split_and!.
  - intros bs t t'. unfold zoom.
    destruct (t_write_packet bs (wire t)) as [r w] eqn:E. intros [= -> <-]. exact (write_ok _ _ _ E).
  - intros bs t t' e. unfold zoom.
    destruct (t_write_packet bs (wire t)) as [r w] eqn:E. intros [= -> <-]. exact (write_exc _ _ _ _ E).
Qed.
End with_J.

#[export] Instance tap_laws : TransportLaws (tap V T).
Proof.
  pose proof (tap_with_laws (λ _, True) ltac:(done)) as [H1 H2 H3 H4 H5 H6 H7]. split; cbn in *.
  - intros timeout s Hs. destruct (H1 timeout s (conj Hs I)) as ([? _]&?&?&?). by split_and!.
  - intros timeout now t p s' Hs. by apply H2.
  - intros timeout now t s' Hs. by apply H3.
  - intros s Hs. destruct (H4 s (conj Hs I)) as ([? _]&?&?&?). by split_and!.
  - intros bs s Hs. destruct (H5 bs s (conj Hs I)) as ([? _]&?&?&?). by split_and!.
  - exact H6.
  - exact H7.
Qed.

(** ** Programs over the controller and its record *)

Abbreviation D := (M (dev (T:=tap V T))).

(** Time goes on, the packets to come get fewer, the record grows as [Q] says. *)
Context (Q : relation V) `{!PreOrder Q} (HQ : ∀ now code body v, Q v (hook now code body v)).

Definition tap_frame (s s' : dev (T:=tap V T)) : Prop :=
  load_frame s s' ∧ Q (view_of s) (view_of s').

#[export] Instance tap_frame_preorder : PreOrder tap_frame.
Proof. split; [by split|]. intros x y z [] []. split; by etrans. Qed.

Definition tapped {A} (m : D A) : Prop := runs engine_ok tap_frame any_exn m.

(** An operation of the engine that keeps the invariant over any well-formed
    transport keeps every property of the record the hook keeps. *)
Lemma tapped_intro {A} (m : D A) :
  (∀ J, (∀ now code body v, J v → J (hook now code body v)) →
     runs (@engine_ok _ (tap_with J)) load_frame any_exn m) →
  tapped m.
Proof.
  intros Hm s Hs.
  assert (HJ : ∀ now code body v, Q (view_of s) v → Q (view_of s) (hook now code body v))
    by (intros; by etrans).
  destruct (Hm (Q (view_of s)) HJ s) as ([[Hw HQ'] Hp]&Hf&He&Hst).
  { destruct Hs as [Hw Hp]. split; [|done]. by split. }
  by split_and!.
Qed.

Lemma tapped_command op payload t af : tapped (command_t op payload t af).
Proof.
  apply tapped_intro. intros J HJ. pose proof (tap_with_laws J HJ).
  intros s Hs. destruct (@command_trace _ (tap_with J) _ (λ _, True) op payload t af ltac:(done) s Hs)
    as (?&?&?&?). split_and!; [done|by eapply trace_load|done|done].
Qed.

Lemma tapped_read timeout : tapped (read_packet timeout).
Proof.
  apply tapped_intro. intros J HJ. pose proof (tap_with_laws J HJ).
  intros s Hs. destruct (@read_packet_runs _ (tap_with J) _ timeout s Hs) as (?&[? _]&?&?). by split_and!.
Qed.

Lemma tapped_write pkt : tapped (write_packet pkt).
Proof.
  apply tapped_intro. intros J HJ. pose proof (tap_with_laws J HJ).
  intros s Hs. pose proof (@write_packet_cases _ (tap_with J) _ pkt s Hs) as H1.
  change (@write_packet _ tap_transport) with (@write_packet _ (tap_with J)).
  destruct (@write_packet _ (tap_with J) pkt s) as [[[]|e|] s']; destruct H1 as (?&Hl&Ht&_&?); [| |done];
    (split_and!; [done| |done..];
     split; [exact (Z.eq_le_incl _ _ (eq_sym Ht))|exact (Nat.eq_le_incl _ _ Hl)]).
Qed.

Lemma tapped_poll {A B} (step : A → packet → D (A + B)) timeout a :
  (∀ J (R : relation (dev (T:=tap V T))), PreOrder R → ∀ a p, packet_ok p →
     runs (@engine_ok _ (tap_with J)) R engine_exn (step a p)) →
  tapped (poll (λ _, ms 200) step (ms 200) timeout a).
Proof.
  intros Hstep. apply tapped_intro. intros J HJ. pose proof (tap_with_laws J HJ).
  apply (@poll_runs _ (tap_with J) _ _ _ (λ _, ms 200) step (ms 200) load_frame _ any_exn); try done.
  - unfold ms. lia.
  - by intros s s' [].
  - intros a0 p Hp. eapply runs_weaken; [|exact (Hstep J load_frame _ a0 p Hp)]. done.
  - intros a0 p Hp. eapply runs_weaken; [|exact (Hstep J load_frame _ a0 p Hp)]. done.
Qed.

Lemma tapped_modify (f : dev (T:=tap V T) → dev (T:=tap V T)) :
  (∀ s, fst s ≤ fst (f s) ∧ transport (snd (f s)) = transport (snd s) ∧ pending (snd (f s)) = pending (snd s)) →
  tapped (modify f).
Proof.
  intros Hf. apply runs_modify. intros s [Hw Hp]. destruct (Hf s) as (Ht&Hx&Hy).
  unfold tap_frame, load_frame, load, engine_ok, view_of. rewrite Hx, Hy. by split_and!.
Qed.

Lemma tapped_on_hci (f : hci (tap V T) → hci (tap V T)) :
  (∀ h, transport (f h) = transport h ∧ pending (f h) = pending h) →
  tapped (on_hci (modify f)).
Proof.
  intros Hf s Hs. apply (tapped_modify (λ s, (fst s, f (snd s)))); [|done].
  intros [now h]. destruct (Hf h). by split_and!.
Qed.
End tap.

#[export] Hint Resolve tapped_command tapped_read tapped_write : ends.

(** One step of a program over a controller with a record. *)
Ltac tapped_step :=
  lazymatch goal with
  | |- tapped _ _ => unfold tapped
  | |- runs _ _ _ (mbind _ _) => apply runs_bind; [apply _| |intros ?]
  | |- runs _ _ _ (mret _) => apply runs_ret, _
  | |- runs _ _ _ skip => apply runs_skip, _
  | |- runs _ _ _ (raise _) => apply runs_raise; [apply _|done]
  | |- runs _ _ _ (gets _) => apply runs_gets, _
  | |- runs _ _ _ (lift _) => apply runs_lift; [apply _|total|done]
  | |- runs _ _ _ (when _ _) => apply runs_when; [apply _|intros ?]
  | |- runs _ _ _ (Hci.command _ _ _) => apply tapped_command; [apply _|assumption]
  | |- runs _ _ _ (if ?b then _ else _) => destruct b
  | |- runs _ _ _ (match ?x with _ => _ end) => destruct x
  | |- runs _ (tap_frame ?Q) _ ?m => change (tapped Q m); solve [auto with ends]
  end.
Ltac tapped_auto := repeat tapped_step.

(** ** Programs over a link *)

Section link.
Context {V T : Type} `{LV : !LinkView V} `{Tr : !Transport T, TL : !TransportLaws T}.
Context (Q : relation V) `{!PreOrder Q} (HQ : ∀ now code body v, Q v (hook now code body v)).
Abbreviation D := (M (dev (T:=tap V T))).
Abbreviation L := (M (dev (T:=tap V T) * link)).
Implicit Types s : dev (T:=tap V T) * link.

Definition link_ok s : Prop := engine_ok (fst s).
Definition clock s : Z := fst (fst s).
(** The packets to come and the frames waiting. *)
Definition pressure s : nat := (load (fst s) + length (queue (snd s)))%nat.

Definition link_frame s s' : Prop :=
  clock s ≤ clock s' ∧ (pressure s' ≤ pressure s)%nat ∧ Q (view_of (fst s)) (view_of (fst s')).

#[export] Instance link_frame_preorder : PreOrder link_frame.
Proof.
  split; [by split|]. intros x y z (?&?&?) (?&?&?). split_and!; [lia|lia|by etrans].
Qed.

Definition linked {A} (m : L A) : Prop := runs link_ok link_frame any_exn m.

Lemma linked_dev {A} (m : D A) : tapped Q m → linked (on_dev m).
Proof.
  intros Hm s Hs. unfold on_dev, zoom. destruct (Hm (fst s) Hs) as (?&[[? ?] ?]&?&?).
  destruct (m (fst s)) as [r d]. cbn [fst snd] in *. split_and!; try done.
  split_and!; [done| |done]. unfold pressure. cbn [fst snd]. lia.
Qed.

Lemma linked_update f : (∀ l, (length (queue (f l)) ≤ length (queue l))%nat) → linked (update (T:=T) f).
Proof.
  intros Hf s Hs. unfold update, on_own, zoom. cbn. split_and!; try done.
  unfold link_frame, clock, pressure. cbn. specialize (Hf (snd s)). split_and!; [lia|lia|done].
Qed.

Lemma linked_change_view f : (∀ v, Q v (f v)) → linked (change_view (T:=T) f).
Proof. intros Hf [[now h] l] [Hw Hp]. by split_and!. Qed.

Lemma assemble_grows h pb data open : (length (option_list (snd (assemble h pb data open))) ≤ 1)%nat.
Proof. destruct (snd _); cbn; lia. Qed.

(** A fragment may complete a frame, and only one. *)
Lemma take_acl_runs (body : bytes) s : link_ok s →
  let '(r, s') := take_acl (V:=V) (T:=T) body s in
  r ≠ Stuck ∧ fst s' = fst s ∧ (length (queue (snd s')) ≤ length (queue (snd s)) + 1)%nat.
Proof.
  intros Hs. unfold take_acl. unfold mbind at 1, M_bind at 1, lift.
  unfold unpack_HH. case_decide; cbn [fst snd]; [|split_and!; [done|done|lia]].
  unfold update, on_own, zoom, modify. cbn. split_and!; [done|done|].
  destruct (assemble _ _ _ _) as [open [x|]]; cbn; rewrite ?length_app; cbn; lia.
Qed.

Lemma hand_out_runs s : link_ok s →
  let '(r, s') := hand_out (V:=V) (T:=T) s in
  fst s' = fst s ∧
  match r with
  | Ok None => queue (snd s) = [] ∧ s' = s
  | Ok (Some _) => length (queue (snd s)) = S (length (queue (snd s')))
  | _ => False
  end.
Proof.
  intros Hs. destruct s as [d l]. unfold hand_out, gets, mbind, M_bind. cbn.
  destruct (queue l) as [|x rest] eqn:Eq; cbn; [done|]. unfold when. destruct (fst x =? CID_ATT); by cbn.
Qed.

Lemma link_poll_cases timeout s : 0 < timeout → link_ok s →
  let '(r, s') := link_poll (V:=V) (T:=T) timeout s in
  link_ok s' ∧ link_frame s s' ∧
  match r with
  | Ok (Some _) => (pressure s' < pressure s)%nat
  | Ok None => clock s + timeout ≤ clock s' ∨ (pressure s' < pressure s)%nat
  | Exc _ => True
  | Stuck => False
  end.
Proof.
  intros Ht Hs. destruct s as [d l]. unfold link_poll, gets. unfold mbind at 1, M_bind at 1. cbn [snd].
  destruct (queue l) as [|x rest] eqn:Eq.
  2: { pose proof (hand_out_runs (d, l) Hs) as H. destruct (hand_out (d, l)) as [r [d' l']]. cbn in H.
       destruct H as [-> H]. unfold link_ok, link_frame, pressure, clock in *. cbn [fst snd] in *.
       destruct r as [[y|]|e|]; [|destruct H as [H _]; by rewrite Eq in H|done..].
       split_and!; [done|lia|lia|done|lia]. }
  unfold mbind at 1, M_bind at 1, on_dev, zoom.
  pose proof (read_packet_cases timeout d Hs) as Hr.
  destruct (tapped_read Q HQ timeout d Hs) as (Hd1&[[Ht1 Hl1] HQ1]&_&_). cbn [fst].
  destruct (read_packet timeout d) as [r d1]. cbn [snd fst] in *.
  destruct r as [[p|]|e|]; [| | |by destruct Hr as (_&_&[])].
  - destruct Hr as (_&_&Hp&Hl&_). unfold mbind at 1, M_bind at 1.
    assert (Hx : let '(r, s2) := when (kind p =? H4_ACL) (take_acl (V:=V) (T:=T) (body p)) (d1, l) in
              r ≠ Stuck ∧ fst s2 = d1 ∧ (length (queue (snd s2)) ≤ 1)%nat).
    { unfold when. destruct (kind p =? H4_ACL).
      - pose proof (take_acl_runs (body p) (d1, l) Hd1) as H. destruct (take_acl _ _) as [r s2].
        cbn in H. by rewrite Eq in H.
      - cbn. rewrite Eq. split_and!; [done|done|cbn; lia]. }
    destruct (when _ _ (d1, l)) as [[[]|e|] [d2 l2]]; cbn in Hx; destruct Hx as (HS&->&Hq); [| |done].
    + pose proof (hand_out_runs (d1, l2) Hd1) as H. destruct (hand_out (d1, l2)) as [r [d' l']]. cbn in H.
      destruct H as [-> H]. unfold link_ok, link_frame, pressure, clock in *. cbn in *. rewrite Eq. cbn.
      destruct r as [[y|]|e|]; [|destruct H as [Hq0 [= ->]]; rewrite Hq0|done..]; cbn;
        (split_and!; [done|lia|lia|done|lia]).
    + unfold link_ok, link_frame, pressure, clock in *. cbn in *. rewrite Eq. cbn.
      split_and!; [done|lia|lia|done|done].
  - destruct Hr as (_&_&Hto&_). specialize (Hto Ht). unfold mbind at 1, M_bind at 1. cbn.
    pose proof (hand_out_runs (d1, l) Hd1) as H. destruct (hand_out (d1, l)) as [r [d' l']]. cbn in H.
    destruct H as [-> H]. unfold link_ok, link_frame, pressure, clock in *. cbn in *. rewrite Eq in *. cbn in *.
    destruct r as [[y|]|e|]; [done| |done..]. destruct H as [_ [= ->]]. rewrite Eq. cbn.
    split_and!; [done|lia|lia|done|]. destruct Hto; [left; lia|right; lia].
  - unfold link_ok, link_frame, pressure, clock in *. cbn in *. split_and!; [done|lia|lia|done|done].
Qed.

(** *** Waits end *)

Lemma linked_poll timeout : 0 < timeout → linked (link_poll timeout).
Proof.
  intros Ht s Hs. pose proof (link_poll_cases timeout s Ht Hs) as H.
  destruct (link_poll timeout s) as [r s']. destruct H as (?&?&?). cbn. split_and!; try done. by intros ->.
Qed.

(** What a turn that polls leaves of the waiting periods. *)
Lemma poll_progress w deadline s : 0 < w → link_ok s → clock s < deadline →
  let '(r, s') := link_poll (V:=V) (T:=T) w s in
  link_ok s' ∧ link_frame s s' ∧ r ≠ Stuck ∧
  (is_ok r = true → pressure s' + turns w (deadline - clock s') < pressure s + turns w (deadline - clock s))%nat.
Proof.
  intros Hw Hs Ht. pose proof (link_poll_cases w s Hw Hs) as H.
  destruct (link_poll w s) as [r s']. destruct H as (?&Hf&Hr). pose proof Hf as (Hc&Hp&_).
  split_and!; try done; [by intros ->|]. intros Hok.
  pose proof (turns_mono w (deadline - clock s') (deadline - clock s) Hw ltac:(lia)).
  destruct r as [[x|]|e|]; try done; [lia|]. destruct Hr as [Hr|]; [|lia].
  pose proof (turns_step w (deadline - clock s) (clock s' - clock s) Hw ltac:(lia) ltac:(lia)) as Hst.
  replace (deadline - clock s - (clock s' - clock s)) with (deadline - clock s') in Hst by lia. lia.
Qed.

Lemma turns_floor w t : 0 < w → (turns w t ≤ Z.to_nat (t / w) + 1)%nat.
Proof.
  intros Hw. unfold turns.
  assert ((t + w - 1) / w ≤ t / w + 1); [|lia].
  replace (t / w + 1) with ((t + 1 * w) / w) by (rewrite Z.div_add; lia).
  apply Z.div_le_mono; lia.
Qed.

Lemma turns_next w t : 0 < w → (turns w (t + 1) ≤ Z.to_nat (t / w) + 1)%nat.
Proof.
  intros Hw. unfold turns.
  replace (t + 1 + w - 1) with (t + 1 * w) by lia. rewrite Z.div_add by lia. lia.
Qed.

Lemma credit_loop_runs fuel deadline s :
  link_ok s → (pressure s + turns (ms 50) (deadline + 1 - clock s) < fuel)%nat →
  let '(r, s') := credit_loop (V:=V) (T:=T) fuel deadline s in
  link_ok s' ∧ link_frame s s' ∧ r ≠ Stuck ∧
  (r = Ok tt → 0 < acl_credits (snd (fst s'))).
Proof.
  revert s. induction fuel as [|fuel IH]; intros s Hs Hfuel; [lia|].
  cbn [credit_loop]. unfold now, on_dev, zoom, gets. unfold mbind at 1, M_bind at 1. cbn [fst snd].
  replace (fst s, snd s) with s by by destruct s.
  destruct (Z.ltb_spec 0 (acl_credits (snd (fst s)))); [by cbn|].
  unfold mbind at 1, M_bind at 1. cbn [fst snd]. replace (fst s, snd s) with s by by destruct s.
  destruct (Z.ltb_spec deadline (fst (fst s))); [by cbn|].
  pose proof (poll_progress (ms 50) (deadline + 1) s ltac:(unfold ms; lia) Hs ltac:(unfold clock; lia)) as Hp.
  unfold mbind at 1, M_bind at 1. destruct (link_poll (ms 50) s) as [r s1].
  destruct Hp as (Hs1&Hf&HS&Hlt). destruct r as [x|e|]; [|by cbn|done].
  specialize (Hlt eq_refl). specialize (IH s1 Hs1 ltac:(lia)).
  destruct (credit_loop fuel deadline s1) as [r s2]. destruct IH as (?&?&?&?).
  split_and!; try done. by etrans.
Qed.

Lemma take_credit_runs timeout s : link_ok s →
  let '(r, s') := take_credit (V:=V) (T:=T) timeout s in
  link_ok s' ∧ link_frame s s' ∧ r ≠ Stuck ∧ (r = Ok tt → 0 < acl_credits (snd (fst s'))).
Proof.
  intros Hs. unfold take_credit, now, on_dev, zoom, gets, mbind, M_bind. cbn [fst snd].
  replace (fst s, snd s) with s by by destruct s.
  apply credit_loop_runs; [done|]. unfold link_fuel, pressure, load.
  pose proof (turns_next (ms 50) timeout ltac:(unfold ms; lia)).
  replace (fst (fst s) + timeout + 1 - clock s) with (timeout + 1) by (unfold clock; lia). lia.
Qed.

Lemma linked_take_credit timeout : linked (take_credit timeout).
Proof.
  intros s Hs. pose proof (take_credit_runs timeout s Hs) as H.
  destruct (take_credit timeout s) as [r s']. by destruct H as (?&?&?&_).
Qed.

Section wait.
Context {A B : Type} (w : Z) (before : A → L (A + B)) (after : A → option item → L (A + B)).
Context (Hw : 0 < w) (Hb : ∀ a, linked (before a)) (Ha : ∀ a x, linked (after a x)).

Lemma link_loop_runs fuel deadline a s :
  link_ok s → (pressure s + turns w (deadline - clock s) < fuel)%nat →
  let '(r, s') := link_loop w before after fuel deadline a s in
  link_ok s' ∧ link_frame s s' ∧ r ≠ Stuck.
Proof.
  revert a s. induction fuel as [|fuel IH]; intros a s Hs Hfuel; [lia|].
  cbn [link_loop]. unfold now, on_dev, zoom, gets. unfold mbind at 1, M_bind at 1. cbn [fst snd].
  replace (fst s, snd s) with s by by destruct s.
  destruct (Z.leb_spec deadline (fst (fst s))) as [|Hlt]; [by cbn|].
  unfold mbind at 1, M_bind at 1. destruct (Hb a s Hs) as (Hs1&Hf1&_&HS1).
  destruct (before a s) as [[[a1|b]|e|] s1]; cbn [fst snd] in *; [|by split_and!..|done].
  pose proof Hf1 as (Hc1&Hp1&_).
  pose proof (turns_mono w (deadline - clock s1) (deadline - clock s) Hw ltac:(lia)).
  assert (Hpoll : let '(r, s2) := link_poll (V:=V) (T:=T) w s1 in
    link_ok s2 ∧ link_frame s1 s2 ∧ r ≠ Stuck ∧
    (is_ok r = true → pressure s2 + turns w (deadline - clock s2) < pressure s + turns w (deadline - clock s))%nat).
  { destruct (Z.lt_ge_cases (clock s1) deadline) as [Hin|Hout].
    - pose proof (poll_progress w deadline s1 Hw Hs1 Hin) as Hpp.
      destruct (link_poll w s1) as [r s2]. destruct Hpp as (?&?&?&Hlt2). split_and!; try done.
      intros Hok. specialize (Hlt2 Hok). lia.
    - pose proof (link_poll_cases w s1 Hw Hs1) as Hpc.
      destruct (link_poll w s1) as [r s2]. destruct Hpc as (?&Hf2&Hr). pose proof Hf2 as (Hc2&Hp2&_).
      split_and!; try done; [by intros ->|]. intros _.
      pose proof (turns_mono w (deadline - clock s2) 0 Hw ltac:(lia)).
      pose proof (turns_step w (deadline - clock s) (deadline - clock s) Hw ltac:(unfold clock in *; lia)
        ltac:(unfold clock in *; lia)) as Hst.
      rewrite Z.sub_diag in Hst. lia. }
  unfold mbind at 1, M_bind at 1. destruct (link_poll w s1) as [r s2].
  destruct Hpoll as (Hs2&Hf2&HS2&Hlt2).
  destruct r as [x|e|]; [|split_and!; try done; by etrans|done]. specialize (Hlt2 eq_refl).
  unfold mbind at 1, M_bind at 1. destruct (Ha a1 x s2 Hs2) as (Hs3&Hf3&_&HS3).
  destruct (after a1 x s2) as [[[a3|b]|e|] s3]; cbn [fst snd] in *;
    [|split_and!; try done; by do 2 (etrans; [eassumption|])..|done].
  pose proof Hf3 as (Hc3&Hp3&_).
  pose proof (turns_mono w (deadline - clock s3) (deadline - clock s2) Hw ltac:(lia)).
  specialize (IH a3 s3 Hs3 ltac:(lia)).
  destruct (link_loop w before after fuel deadline a3 s3) as [r s4]. destruct IH as (?&?&?).
  split_and!; try done. by do 3 (etrans; [eassumption|]).
Qed.

Lemma linked_wait timeout a : linked (link_wait w before after timeout a).
Proof.
  intros s Hs. unfold link_wait, now, on_dev, zoom, gets, mbind, M_bind. cbn [fst snd].
  replace (fst s, snd s) with s by by destruct s.
  pose proof (link_loop_runs (link_fuel w timeout s) (fst (fst s) + timeout) a s Hs) as H.
  destruct (link_loop _ _ _ _ _ _ _) as [r s']. destruct H as (?&?&?); [|by split_and!].
  unfold link_fuel, pressure, load. pose proof (turns_floor w timeout Hw).
  replace (fst (fst s) + timeout - clock s) with timeout by (unfold clock; lia). lia.
Qed.
End wait.

End link.

(** ** Frames in fragments *)

Section frames.
Context (size : nat) (cid : Z) (payload : bytes).
Context (Hsize : (4 ≤ size)%nat) (Hcid : 0 ≤ cid < 65536) (Hlen : blen payload < 65536).

(** The L2CAP frame, and its fragments with their places. *)
Definition frame : bytes := le_bytes 2 (blen payload) ++ le_bytes 2 cid ++ payload.
Definition fragments : list (nat * bytes) := imap (λ i chunk, (i, chunk)) (chunks size frame).

Lemma imap_seq {A} (f : nat → A) n :
  imap (λ i x, (i, x)) (map f (seq 0 n)) = map (λ i, (i, f i)) (seq 0 n).
Proof.
  change (imap (λ i x, (i, x)) (map f (seq 0 n))) with (imap (λ i x, (i, x)) (f <$> seq 0 n)).
  rewrite imap_fmap. apply list_eq. intros i. rewrite list_lookup_imap.
  change (map _ (seq 0 n)) with ((λ i, (i, f i)) <$> seq 0 n). rewrite list_lookup_fmap.
  destruct (seq 0 n !! i) as [x|] eqn:E; [|done]. cbn. apply lookup_seq in E as [-> _]. done.
Qed.

(** A fragment as it comes to a link: the flags of a start or of a
    continuation. *)
Definition deliver (h start : Z) (x : nat * bytes) (l : link) : link :=
  let '(open, done) := assemble h (if (fst x =? 0)%nat then start else 1) (snd x) (reasm l) in
  set_queue (queue l ++ match done with Some x => [x] | None => [] end) (set_reasm open l).

Definition arrive (h start : Z) (xs : list (nat * bytes)) (l : link) : link :=
  foldl (λ l x, deliver h start x l) l xs.

Lemma length_frame : length frame = (4 + length payload)%nat.
Proof. unfold frame. by rewrite !length_app, !length_le_bytes. Qed.

(** Its header, octet by octet. *)
Lemma frame_octets : ∃ a b c d, frame = [a; b; c; d] ++ payload ∧
  le_Z [a; b] = blen payload ∧ le_Z [c; d] = cid.
Proof.
  pose proof (blen_nonneg payload).
  pose proof (le_Z_le_bytes_small 2 (blen payload) ltac:(cbn; lia)) as H1.
  pose proof (le_Z_le_bytes_small 2 cid ltac:(cbn; lia)) as H2.
  unfold frame. revert H1 H2. cbn [le_bytes]. intros. do 4 eexists. by split_and!.
Qed.

Lemma complete_part h m open : (4 ≤ m < length frame)%nat →
  complete h (take m frame) open = (<[h := take m frame]> open, None).
Proof.
  intros [H4 Hm]. unfold complete. rewrite length_take, (Nat.min_l m) by lia.
  destruct (Nat.ltb_spec m 4); [lia|]. rewrite take_take, Nat.min_l by lia.
  rewrite length_frame in Hm. destruct frame_octets as (a&b&c&d&E&E1&_).
  assert (E2 : take 2 frame = [a; b]) by by rewrite E. rewrite E2, E1. unfold blen. rewrite Nat2Z.id.
  by destruct (Nat.leb_spec (length payload + 4) m); [lia|].
Qed.

Lemma complete_whole h open : complete h frame open = (delete h open, Some (cid, payload)).
Proof.
  unfold complete. rewrite length_frame.
  destruct (Nat.ltb_spec (4 + length payload) 4); [lia|].
  destruct frame_octets as (a&b&c&d&E&E1&E2). rewrite E. cbn [app take].
  rewrite E1. unfold blen. rewrite Nat2Z.id.
  destruct (Nat.leb_spec (length payload + 4) (4 + length payload)); [|lia].
  do 3 f_equal; [exact E2|]. unfold slice. cbn [drop]. apply firstn_all2. lia.
Qed.

(** *** Arriving *)

Definition chunk_of (i : nat) : bytes := slice (i * size) (i * size + size) frame.

Lemma take_chunk i : take (i * size) frame ++ chunk_of i = take (S i * size) frame.
Proof.
  unfold chunk_of, slice. replace (i * size + size - i * size)%nat with size by lia.
  rewrite <- (take_drop (i * size) (take (S i * size) frame)), take_take, Nat.min_l by lia.
  rewrite skipn_firstn_comm. do 2 f_equal. lia.
Qed.

Lemma arrive_snoc h start xs x l :
  arrive h start (xs ++ [x]) l = deliver h start x (arrive h start xs l).
Proof. unfold arrive. by rewrite foldl_app. Qed.

(** After the first [k] fragments, more of the frame still to come. *)
Lemma arrive_some h start k l : start = 0 ∨ start = 2 → (S k * size < length frame)%nat →
  arrive h start (map (λ i, (i, chunk_of i)) (seq 0 (S k))) l
  = set_reasm (<[h := take (S k * size) frame]> (reasm l)) l.
Proof.
  intros Hst. induction k as [|k IH]; intros Hk.
  - cbn [seq map arrive foldl]. unfold deliver, assemble. cbn [fst snd Nat.eqb].
    assert (Hpb : ((start =? 0) || (start =? 2)) = true) by by destruct Hst as [->| ->]. rewrite Hpb.
    change (chunk_of 0) with (take (size - 0) frame). rewrite Nat.sub_0_r, Nat.mul_1_l in *.
    rewrite complete_part by lia. destruct l. unfold set_queue, set_reasm. cbn. by rewrite app_nil_r.
  - rewrite seq_S, map_app. cbn [map]. rewrite arrive_snoc, IH by lia. unfold deliver. cbn [fst snd Nat.eqb Nat.add].
    unfold assemble. cbn [orb]. change ((1 =? 0) || (1 =? 2)) with false. cbn [reasm set_reasm].
    rewrite lookup_insert_eq, take_chunk, complete_part by lia.
    destruct l. unfold set_queue, set_reasm. cbn. by rewrite app_nil_r, insert_insert_eq.
Qed.

Lemma chunk_count : let n := ((length frame + size - 1) / size)%nat in
  (1 ≤ n)%nat ∧ ((n - 1) * size < length frame ≤ n * size)%nat.
Proof.
  cbn zeta. set (len := length frame). assert (Hl : (4 ≤ len)%nat) by (unfold len; rewrite length_frame; lia).
  pose proof (Nat.div_mod_eq (len + size - 1) size). pose proof (Nat.mod_upper_bound (len + size - 1) size).
  assert (1 ≤ (len + size - 1) / size)%nat by (apply Nat.div_le_lower_bound; lia). split; [done|nia].
Qed.

(** All of them arrive: the frame is complete, once. *)
Lemma arrive_all h start l : start = 0 ∨ start = 2 →
  arrive h start fragments l
  = set_queue (queue l ++ [(cid, payload)]) (set_reasm (delete h (reasm l)) l).
Proof.
  intros Hst. unfold fragments, chunks. rewrite imap_seq.
  change (λ i, (i, slice (i * size) (i * size + size) frame)) with (λ i, (i, chunk_of i)).
  destruct chunk_count as [Hn [Hlo Hhi]]. set (n := ((length frame + size - 1) / size)%nat) in *.
  destruct n as [|k]; [lia|]. rewrite Nat.sub_1_r in Hlo. cbn [Nat.pred] in Hlo.
  assert (Hwhole : take (S k * size) frame = frame) by by rewrite firstn_all2 by lia.
  destruct k as [|k].
  - cbn [seq map arrive foldl]. unfold deliver, assemble. cbn [fst snd Nat.eqb].
    assert (Hpb : ((start =? 0) || (start =? 2)) = true) by by destruct Hst as [->| ->]. rewrite Hpb.
    assert (E : chunk_of 0 = frame).
    { change (chunk_of 0) with (take (size - 0) frame). apply firstn_all2. lia. }
    rewrite E, complete_whole. by destruct l.
  - rewrite seq_S, map_app. cbn [map]. rewrite arrive_snoc, arrive_some by (try done; lia).
    unfold deliver. cbn [fst snd Nat.eqb Nat.add]. unfold assemble.
    change ((1 =? 0) || (1 =? 2)) with false. cbn [reasm set_reasm].
    rewrite lookup_insert_eq, take_chunk, Hwhole, complete_whole. cbn.
    destruct l. unfold set_queue, set_reasm. cbn. by rewrite delete_insert_eq.
Qed.
End frames.

(** ** Sending and receiving frames *)

(** A fragment as the host writes it, and as a controller hands one on to a
    host: its own handle, a flag of its own for a start. *)
Definition written (h : Z) (x : nat * bytes) : bytes :=
  [H4_ACL] ++ le_bytes 2 (Z.lor h (Z.shiftl (if (fst x =? 0)%nat then 0 else 1) 12))
  ++ le_bytes 2 (blen (snd x)) ++ snd x.
Definition received (h start : Z) (x : nat * bytes) : bytes :=
  le_bytes 2 (Z.lor h (Z.shiftl (if (fst x =? 0)%nat then start else 1) 12))
  ++ le_bytes 2 (blen (snd x)) ++ snd x.

Lemma acl_word h pb : 0 ≤ h < 4096 → 0 ≤ pb < 4 →
  let word := Z.lor h (Z.shiftl pb 12) in
  0 ≤ word < 65536 ∧ Z.land word 0x0FFF = h ∧ Z.land (Z.shiftr word 12) 0x3 = pb.
Proof.
  intros Hh Hp. cbn zeta.
  assert (Hlor : Z.lor h (Z.shiftl pb 12) = h + pb * 4096).
  { rewrite Z.shiftl_mul_pow2 by lia. change (2 ^ 12) with 4096. symmetry. apply Z.add_nocarry_lor.
    apply Z.bits_inj'. intros n Hn. rewrite Z.land_spec, Z.bits_0.
    destruct (Z.lt_ge_cases n 12).
    - change 4096 with (2 ^ 12). by rewrite Z.mul_pow2_bits_low, andb_false_r by lia.
    - rewrite (Z.bits_above_log2 h n); [done|lia|]. destruct (decide (h = 0)) as [->|]; [cbn; lia|].
      apply Z.log2_lt_pow2; [lia|]. assert (2 ^ 12 ≤ 2 ^ n) by (apply Z.pow_le_mono_r; lia). lia. }
  rewrite Hlor. change 0x0FFF with (Z.ones 12). change 0x3 with (Z.ones 2).
  rewrite !Z.land_ones, Z.shiftr_div_pow2 by lia. change (2 ^ 12) with 4096. change (2 ^ 2) with 4.
  split_and!; [lia|lia| |].
  - rewrite Z_mod_plus_full. by apply Z.mod_small.
  - rewrite Z.div_add, Z.div_small by lia. rewrite Z.add_0_l. by apply Z.mod_small.
Qed.

Section transfer.
Context {V T : Type} `{LV : !LinkView V} `{Tr : !Transport T, TL : !TransportLaws T}.
Abbreviation L := (M (dev (T:=tap V T) * link)).
Implicit Types s : dev (T:=tap V T) * link.

Lemma take_acl_received h start x s : 0 ≤ h < 4096 → start = 0 ∨ start = 2 → blen (snd x) < 65536 →
  take_acl (V:=V) (T:=T) (received h start x) s = (Ok tt, (fst s, deliver h start x (snd s))).
Proof.
  intros Hh Hst Hl. set (pb := if (fst x =? 0)%nat then start else 1).
  destruct (acl_word h pb Hh) as (Hw&Hland&Hshift).
  { unfold pb. destruct (_ =? _)%nat; [|lia]. destruct Hst as [->| ->]; lia. }
  pose proof (blen_nonneg (snd x)).
  unfold take_acl, received. fold pb.
  assert (E : unpack_HH (take 4 (le_bytes 2 (Z.lor h (Z.shiftl pb 12)) ++ le_bytes 2 (blen (snd x)) ++ snd x))
              = Ok (Z.lor h (Z.shiftl pb 12), blen (snd x))).
  { rewrite app_assoc, take_app_length' by by rewrite length_app, !length_le_bytes.
    unfold unpack_HH. rewrite decide_True by by rewrite length_app, !length_le_bytes.
    rewrite take_app_length', drop_app_length' by by rewrite length_le_bytes.
    rewrite !le_Z_le_bytes_small by (cbn; lia). done. }
  rewrite E. unfold lift, mbind, M_bind, update, on_own, zoom, modify. cbn [fst snd].
  unfold deliver. fold pb. rewrite Hland, Hshift. unfold slice.
  rewrite app_assoc, drop_app_length' by by rewrite length_app, !length_le_bytes.
  rewrite firstn_all2 by (unfold blen; lia). by destruct (assemble _ _ _ _).
Qed.

(** The fragments handed to [_take_acl] one after another. *)
Lemma receive_all h start xs s : 0 ≤ h < 4096 → start = 0 ∨ start = 2 →
  Forall (λ x, blen (snd x) < 65536) xs →
  for_each (map (received h start) xs) (take_acl (V:=V) (T:=T)) s
  = (Ok tt, (fst s, arrive h start xs (snd s))).
Proof.
  intros Hh Hst Hxs. revert s. induction Hxs as [|x xs Hx Hxs IH]; intros s; [by destruct s|].
  cbn [map for_each]. unfold mbind, M_bind. rewrite take_acl_received by done. by rewrite IH.
Qed.

(** *** What waiting for a credit leaves alone *)

Definition calm s s' : Prop :=
  handle (snd s') = handle (snd s) ∧ sent (fst s') = sent (fst s) ∧
  acl_credits (snd (fst s)) ≤ acl_credits (snd (fst s')).

#[export] Instance calm_preorder : PreOrder calm.
Proof.
  split; [intros ?; split_and!; [done|done|lia]|].
  intros x y z (?&?&?) (?&?&?). split_and!; [congruence|congruence|lia].
Qed.

(** An event never takes credits away. *)
Lemma on_event_credits {X} c b (h : hci X) : bytes_ok b →
  acl_credits h ≤ acl_credits (snd (Hci.on_event c b h)).
Proof.
  intros Hb.
  enough (H : runs (λ _, True) (λ h h' : hci X, acl_credits h ≤ acl_credits h') (λ _, True) (Hci.on_event c b))
    by apply (H h I).
  assert (PreOrder (λ h h' : hci X, acl_credits h ≤ acl_credits h')) by (split; [by intros ?|intros ???; lia]).
  assert (Hdone : ∀ i : nat, runs (λ _, True) (λ h h' : hci X, acl_credits h ≤ acl_credits h') (λ _, True)
    (let off := (1 + i * 4)%nat in
     done ← lift (unpack_H (slice (off + 2) (off + 4) b));
     modify (add_credits done) ;; modify (add_completed done))).
  { intros i h1 _. cbn zeta. unfold mbind, M_bind, lift, modify.
    pose proof (le_Z_bound _ (bytes_ok_slice (1 + i * 4 + 2) (1 + i * 4 + 4) _ Hb)).
    unfold unpack_H, unpack_le. case_decide; cbn [fst snd]; (split_and!; [done| |done..]);
      cbn [acl_credits add_credits add_completed]; lia. }
  unfold Hci.on_event. cbn zeta. repeat first
    [ apply runs_when; [apply _|intros _]
    | apply runs_for_each; [apply _|intros i _; apply (Hdone i)]
    | apply runs_bind; [apply _| |intros ?]
    | apply runs_lift; [apply _|first [by unfold idx; case_match|by unfold unpack_H, unpack_le; case_decide]|done]
    | apply runs_modify; intros; split; [done|cbn; lia] ].
Qed.

Lemma read_packet_credits timeout (d : dev (T:=tap V T)) : engine_ok d →
  acl_credits (snd d) ≤ acl_credits (snd (snd (read_packet timeout d))).
Proof.
  intros Hd. unfold read_packet, gets. unfold mbind at 1, M_bind at 1. cbn [fst snd].
  destruct (pending (snd d)) as [|p q]; [|apply Z.le_refl].
  unfold read_wire. unfold mbind at 1, M_bind at 1.
  pose proof (wire_read_cases timeout d Hd) as Hw.
  assert (E : acl_credits (snd (snd (on_wire (as_hci_errors (t_read_packet timeout)) d))) = acl_credits (snd d)).
  { unfold on_wire, zoom. by destruct (as_hci_errors _ _) as [r [now w]]. }
  destruct (on_wire _ d) as [[[p|]|e|] d1]; cbn [fst snd] in *; [|by apply Z.eq_le_incl..].
  destruct Hw as (_&_&_&[[_ Hb] _]). unfold when. destruct (kind p =? H4_EVENT); [|by apply Z.eq_le_incl].
  unfold mbind, M_bind, on_hci, zoom. pose proof (on_event_credits (code p) (body p) (snd d1) Hb) as H.
  destruct (Hci.on_event _ _ _) as [[u|e|] h]; cbn in *; lia.
Qed.

Lemma take_acl_calm body s : calm s (snd (take_acl (V:=V) (T:=T) body s)).
Proof.
  unfold take_acl, lift, mbind, M_bind. destruct (unpack_HH _) as [[word len]|e|]; [|done..].
  unfold update, on_own, zoom, modify. cbn [fst snd]. destruct (assemble _ _ _ _) as [open x].
  by split_and!.
Qed.

Lemma hand_out_calm s : calm s (snd (hand_out (V:=V) (T:=T) s)).
Proof.
  destruct s as [d l]. unfold hand_out, gets, mbind, M_bind. cbn [fst snd].
  destruct (queue l) as [|x rest]; [done|]. unfold when. destruct (fst x =? CID_ATT); by split_and!.
Qed.

Lemma link_poll_calm timeout s : link_ok s → calm s (snd (link_poll (V:=V) (T:=T) timeout s)).
Proof.
  intros Hs. unfold link_poll, gets. unfold mbind at 1, M_bind at 1. cbn [fst snd].
  destruct (queue (snd s)); [|apply hand_out_calm].
  unfold mbind at 1, M_bind at 1, on_dev, zoom.
  pose proof (read_packet_sent timeout (fst s) Hs) as Hsent.
  pose proof (read_packet_credits timeout (fst s) Hs) as Hc.
  destruct (read_packet timeout (fst s)) as [[p|e|] d1]; cbn [fst snd] in *; [|by split_and!..].
  unfold mbind at 1, M_bind at 1.
  transitivity (d1, snd s); [by split_and!|].
  set (m := match p with Some _ => _ | None => _ end).
  assert (Hm : calm (d1, snd s) (snd (m (d1, snd s)))).
  { unfold m, when. destruct p as [p|]; [|done]. destruct (_ =? _); [apply take_acl_calm|done]. }
  destruct (m (d1, snd s)) as [[[]|e|] s2]; cbn [fst snd] in *; [|done..].
  etrans; [exact Hm|]. apply hand_out_calm.
Qed.

Lemma take_credit_calm timeout s : link_ok s → calm s (snd (take_credit (V:=V) (T:=T) timeout s)).
Proof.
  intros Hs. unfold take_credit, now, on_dev, zoom, gets, mbind, M_bind. cbn [fst snd].
  replace (fst s, snd s) with s by by destruct s.
  generalize (link_fuel (ms 50) timeout s) as fuel. generalize (fst (fst s) + timeout) as deadline.
  intros deadline fuel. revert s Hs. induction fuel as [|fuel IH]; intros s Hs; [done|].
  cbn [credit_loop]. unfold now, on_dev, zoom, gets. unfold mbind at 1, M_bind at 1. cbn [fst snd].
  replace (fst s, snd s) with s by by destruct s.
  destruct (0 <? _); [done|]. unfold mbind at 1, M_bind at 1. cbn [fst snd].
  replace (fst s, snd s) with s by by destruct s. destruct (deadline <? _); [done|].
  unfold mbind at 1, M_bind at 1. pose proof (link_poll_calm (ms 50) s Hs) as Hp.
  pose proof (linked_poll (λ _ _, True) ltac:(done) (ms 50) ltac:(unfold ms; lia) s Hs) as (Hs1&_).
  destruct (link_poll (ms 50) s) as [[x|e|] s1]; [|done..]. etrans; [exact Hp|]. by apply IH.
Qed.

(** *** Sending *)

Definition solvent s : Prop := 0 ≤ acl_credits (snd (fst s)).

(** A fragment goes out only on a credit, and one credit is spent. *)
Lemma send_chunk_cases first chunk s : link_ok s → solvent s →
  let '(r, s') := send_chunk (V:=V) (T:=T) first chunk s in
  link_ok s' ∧ solvent s' ∧ handle (snd s') = handle (snd s) ∧
  (r = Ok tt → ∃ h, handle (snd s) = Some h ∧ blen chunk < 65536 ∧
     sent (fst s') = sent (fst s) ++ [written h (if first then 0%nat else 1%nat, chunk)]).
Proof.
  intros Hs Hc. unfold send_chunk. unfold mbind at 1, M_bind at 1.
  pose proof (take_credit_runs (λ _ _, True) ltac:(done) (seconds 2) s Hs) as Ht.
  pose proof (take_credit_calm (seconds 2) s Hs) as (Hh&Hsent&Hle).
  destruct (take_credit (seconds 2) s) as [[[]|e|] s1]; destruct Ht as (Hs1&_&_&Hpos);
    cbn [fst snd] in *; [|by split_and!; try done; unfold solvent in *; lia..].
  specialize (Hpos eq_refl). unfold gets, need, lift. unfold mbind at 1, M_bind at 1.
  rewrite Hh. destruct (handle (snd s)) as [h|]; unfold mbind at 1, M_bind at 1;
    [|split_and!; [done|unfold solvent in *; cbn; lia|done..]].
  unfold mbind at 1, M_bind at 1.
  destruct (pack [FH (Z.lor h (Z.shiftl (if first then 0 else 1) 12)); FH (blen chunk)]) as [header|e|] eqn:Eh;
    [|split_and!; [done|unfold solvent in *; cbn; lia|done..]..].
  unfold mbind, M_bind, on_dev, zoom. cbn [fst snd].
  pose proof (write_packet_cases ([H4_ACL] ++ header ++ chunk) (fst s1) Hs1) as Hw.
  destruct (write_packet _ (fst s1)) as [[[]|e|] d2]; destruct Hw as (Hd2&_&_&Hst&Hr); cbn [fst snd]; [| |done].
  - assert (Hcr : acl_credits (snd d2) = acl_credits (snd (fst s1))) by by rewrite Hst.
    unfold on_hci, zoom, modify. cbn [fst snd]. unfold solvent in *. cbn [fst snd].
    split_and!; [destruct d2; by destruct Hd2|cbn; lia|done|]. intros _. exists h. split; [done|].
    cbn [pack pack_field] in Eh. destruct (pack_le 2 (Z.lor _ _)) as [a|?|] eqn:E1; cbn in Eh; try done.
    destruct (pack_le 2 (blen chunk)) as [b|?|] eqn:E2; cbn in Eh; try done. injection Eh as <-.
    apply pack_le_inv in E1 as [_ ->]. apply pack_le_inv in E2 as [Hb ->].
    split; [cbn in Hb; lia|].
    transitivity (sent d2); [done|]. change (sent d2) with (t_sent (transport (snd d2))).
    rewrite Hr. change (t_sent (transport (snd (fst s1)))) with (sent (fst s1)). rewrite Hsent.
    unfold written. cbn [fst snd]. do 3 f_equal.
    rewrite app_nil_r, <- app_assoc. by destruct first.
  - assert (Hcr : acl_credits (snd d2) = acl_credits (snd (fst s1))) by by rewrite Hst.
    split_and!; [done|unfold solvent in *; cbn [fst snd]; lia|done|done].
Qed.

Lemma send_chunks_cases xs s h : link_ok s → solvent s → handle (snd s) = Some h →
  let '(r, s') := for_each xs (λ x, send_chunk (V:=V) (T:=T) (fst x =? 0)%nat (snd x)) s in
  link_ok s' ∧ solvent s' ∧ handle (snd s') = Some h ∧
  (r = Ok tt → Forall (λ x : nat * bytes, blen (snd x) < 65536) xs ∧
     sent (fst s') = sent (fst s) ++ map (written h) xs).
Proof.
  revert s. induction xs as [|[i chunk] xs IH]; intros s Hs Hc Hh.
  { cbn. split_and!; try done. intros _. by rewrite app_nil_r. }
  cbn [for_each fst snd]. unfold mbind at 1, M_bind at 1.
  pose proof (send_chunk_cases (i =? 0)%nat chunk s Hs Hc) as Hx.
  destruct (send_chunk (i =? 0)%nat chunk s) as [[[]|e|] s1]; destruct Hx as (Hs1&Hc1&Hh1&Hr);
    [|by rewrite Hh1; split_and!..].
  destruct (Hr eq_refl) as (h1&E1&Hlen&Esent). rewrite Hh in E1. injection E1 as <-.
  specialize (IH s1 Hs1 Hc1 ltac:(congruence)).
  destruct (for_each _ _ s1) as [r s2]. destruct IH as (?&?&?&Hok). split_and!; try done.
  intros E. destruct (Hok E) as [? ->]. split; [by constructor|]. rewrite Esent, <- app_assoc.
  do 2 f_equal. unfold written. cbn [fst snd map app]. by destruct (i =? 0)%nat.
Qed.

Lemma send_l2cap_cases cid payload s h : link_ok s → solvent s → handle (snd s) = Some h →
  let '(r, s') := send_l2cap (V:=V) (T:=T) cid payload s in
  link_ok s' ∧ solvent s' ∧ handle (snd s') = Some h ∧
  (r = Ok tt → 0 ≤ cid < 65536 ∧ blen payload < 65536 ∧
     let xs := fragments (Z.to_nat (Z.max (acl_size (snd (fst s))) 27)) cid payload in
     Forall (λ x : nat * bytes, blen (snd x) < 65536) xs ∧
     sent (fst s') = sent (fst s) ++ map (written h) xs).
Proof.
  intros Hs Hc Hh. unfold send_l2cap, lift. unfold mbind at 1, M_bind at 1.
  destruct (pack [FH (blen payload); FH cid]) as [head|e|] eqn:Eh; [|by split_and!..].
  cbn [pack pack_field] in Eh. destruct (pack_le 2 (blen payload)) as [a|?|] eqn:E1; cbn in Eh; try done.
  destruct (pack_le 2 cid) as [b|?|] eqn:E2; cbn in Eh; try done. injection Eh as <-.
  apply pack_le_inv in E1 as [H1 ->]. apply pack_le_inv in E2 as [H2 ->].
  unfold on_dev, zoom, gets. unfold mbind at 1, M_bind at 1. cbn [fst snd].
  replace (fst s, snd s) with s by by destruct s.
  rewrite app_nil_r, <- app_assoc. set (size := Z.to_nat _).
  change (imap _ _) with (fragments size cid payload).
  pose proof (send_chunks_cases (fragments size cid payload) s h Hs Hc Hh) as H.
  destruct (for_each _ _ s) as [r s1]. destruct H as (?&?&?&Hr). split_and!; try done.
  intros E. specialize (Hr E). split_and!; try apply Hr; cbn in *; lia.
Qed.

Lemma chunks_size size data : Forall (λ c : bytes, (length c ≤ size)%nat) (chunks size data).
Proof.
  apply Forall_map, Forall_forall. intros i _. unfold slice. rewrite length_take. lia.
Qed.

Lemma fragments_size size cid payload :
  Forall (λ x : nat * bytes, (length (snd x) ≤ size)%nat) (fragments size cid payload).
Proof.
  unfold fragments. rewrite Forall_forall. intros x Hx. apply elem_of_lookup_imap in Hx as (i&c&->&Hc).
  pose proof (chunks_size size (frame cid payload)) as H. rewrite Forall_forall in H.
  apply H. by eapply list_elem_of_lookup_2.
Qed.

End transfer.
(** ** Every program over a link ends *)

(** One step of a program over a link. *)
Ltac linked_step :=
  lazymatch goal with
  | |- linked _ _ => unfold linked
  | |- tapped _ _ => tapped_auto
  | |- runs _ _ _ (mbind _ _) => apply runs_bind; [apply _| |intros ?]
  | |- runs _ _ _ (mret _) => apply runs_ret, _
  | |- runs _ _ _ skip => apply runs_skip, _
  | |- runs _ _ _ (raise _) => apply runs_raise; [apply _|done]
  | |- runs _ _ _ (gets _) => apply runs_gets, _
  | |- runs _ _ _ (watch _) => apply runs_gets, _
  | |- runs _ _ _ (lift _) => apply runs_lift; [apply _|solve [total|unfold need; total]|done]
  | |- runs _ _ _ (when _ _) => apply runs_when; [apply _|intros ?]
  | |- runs _ _ _ (for_each _ _) => apply runs_for_each; [apply _|intros ? ?]
  | |- runs _ _ _ (on_dev _) => apply linked_dev
  | |- runs _ _ _ (update _) => apply linked_update; [apply _|intros ?; cbn; lia]
  | |- runs _ _ _ now => apply linked_dev
  | |- runs _ _ _ (if ?b then _ else _) => destruct b
  | |- runs _ _ _ (match ?x with _ => _ end) => destruct x
  | |- runs _ (link_frame ?Q) _ ?m => change (linked Q m); solve [auto with ends]
  end.
Ltac linked_auto := repeat linked_step.
Ltac linked_loop := apply linked_wait; [apply _|done|unfold ms; lia|intros ?|intros ? ?].

Section steps.
Context {V T : Type} `{LV : !LinkView V} `{Tr : !Transport T, TL : !TransportLaws T}.
Context (Q : relation V) `{!PreOrder Q} (HQ : ∀ now code body v, Q v (hook now code body v)).
Abbreviation linked := (linked (T:=T) Q).

Lemma linked_until_down {A B} (b : B) (a : A) : linked (until_down b a).
Proof. unfold until_down. linked_auto. Qed.

Lemma tapped_sleep us : tapped (T:=T) Q (Tools.sleep us).
Proof.
  unfold Tools.sleep. destruct (us <? 0) eqn:E; [tapped_auto|].
  apply tapped_modify; [done|]. intros [now h]. cbn. split_and!; [lia|done|done].
Qed.

Lemma linked_chunk first chunk : linked (send_chunk first chunk).
Proof.
  unfold send_chunk. linked_auto; try (by apply linked_take_credit).
  by apply tapped_on_hci.
Qed.

Lemma linked_send cid payload : linked (send_l2cap cid payload).
Proof. unfold send_l2cap. linked_auto. apply linked_chunk. Qed.

Lemma tapped_connected t : tapped (T:=T) Q (poll (λ _, ms 200) Tools.connected_step (ms 200) t tt).
Proof.
  apply tapped_poll; [done|done|]. intros J R ? a p _.
  unfold Tools.connected_step. destruct (negb _); [by apply runs_ret, _|].
  apply runs_bind; [apply _|apply decodes_runs; [apply _|apply ToolsLaws.connection_decodes]|
    intros ?; by apply runs_ret, _].
Qed.

Lemma linked_security t : linked (wait_security_request t).
Proof.
  unfold wait_security_request. linked_auto. linked_loop; [apply linked_until_down|linked_auto].
Qed.

Lemma linked_disconnect t : linked (disconnect t).
Proof.
  unfold disconnect. linked_auto.
  linked_loop; [apply linked_until_down|linked_auto].
Qed.

Lemma linked_wait_encryption t : linked (wait_encryption t).
Proof. unfold wait_encryption. linked_auto. linked_loop; linked_auto. Qed.

Lemma linked_probe t mtu : linked (att_probe t mtu).
Proof.
  unfold att_probe. linked_auto; try apply linked_send.
  all: linked_loop; [apply linked_until_down|linked_auto].
Qed.

Lemma linked_traffic phy dle att settle : linked (concurrent_traffic phy dle att settle).
Proof.
  unfold concurrent_traffic. linked_auto; try apply linked_send.
  linked_loop; linked_auto.
Qed.

(** The steps that clear the record. *)
Section clear.
Context (HE : ∀ v, Q v (over_base (set_encryption None) v)).
Context (HD : ∀ v, Q v (over_base (λ v, set_encryption None (set_disconnect None v)) v)).

Lemma linked_start ltk rand div : linked (start_encryption ltk rand div).
Proof.
  unfold start_encryption. linked_auto. by apply linked_change_view.
Qed.

Lemma linked_connect p ty oty t i lat : linked (connect p ty oty t i lat).
Proof.
  unfold connect, forget_link. linked_auto; try apply tapped_sleep; try apply tapped_connected.
  by apply linked_change_view.
Qed.
End clear.
End steps.
(** ** Pairing over a link *)

Section central.
Context {K G : Type} `{!Crypto K G} (cfg : smp_cfg K).
Implicit Types s : Central.central G.
Abbreviation safe := (runs (λ _ : Central.central G, True) (λ _ _, True) any_exn).

Lemma address_total (a : bytes) ty : address_form a ty ≠ Stuck.
Proof. unfold address_form. total. Qed.
Lemma secret_total k x y : shared_secret (K:=K) k x y ≠ Stuck.
Proof. unfold shared_secret. by destruct (exchange _ _ _). Qed.

Ltac safe_step :=
  lazymatch goal with
  | |- runs _ _ _ (mbind _ _) => apply runs_bind; [apply _| |intros ?]
  | |- runs _ _ _ (mret _) => apply runs_ret, _
  | |- runs _ _ _ skip => apply runs_skip, _
  | |- runs _ _ _ (raise _) => apply runs_raise; [apply _|done]
  | |- runs _ _ _ (gets _) => apply runs_gets, _
  | |- runs _ _ _ getS => apply (runs_gets _ _ _ id)
  | |- runs _ _ _ (modify _) => apply runs_modify; by split
  | |- runs _ _ _ (lift _) => apply runs_lift; [apply _|solve
      [total|apply address_total|apply secret_total|unfold need; total|unfold sc_method; total]|done]
  | |- runs _ _ _ (try_except _ _ _) => apply runs_try_except with (E := any_exn); [apply _| |intros ? _ _|done]
  | |- runs _ _ _ (if ?b then _ else _) => destruct b
  | |- runs _ _ _ (match ?x with _ => _ end) => destruct x eqn:?
  end.
Ltac safe_auto := repeat safe_step.

Lemma fail_safe t r : safe (Central.fail (G:=G) t r).
Proof. unfold Central.fail, Central.send. safe_auto. Qed.
Lemma emit_safe pdu : safe (Central.emit (G:=G) pdu).
Proof. unfold Central.emit, Central.send. safe_auto. Qed.
Lemma expect_safe p l n pdu : safe (Central.expect (G:=G) p l n pdu).
Proof. unfold Central.expect. safe_auto. Qed.
Lemma check_safe : safe (Central.send_dhkey_check (G:=G) cfg).
Proof.
  unfold Central.send_dhkey_check, Central.goto, Central.a1, Central.a2. safe_auto. apply emit_safe.
Qed.

Ltac safe_part := first [apply fail_safe|apply emit_safe|apply check_safe|apply expect_safe].

Lemma start_safe : safe (Central.start (G:=G) cfg).
Proof. unfold Central.start, Central.goto. safe_auto. apply emit_safe. Qed.

Lemma confirm_safe b : safe (Central.user_confirm (G:=G) cfg b).
Proof. unfold Central.user_confirm. safe_auto; [apply fail_safe|apply check_safe]. Qed.

Lemma handler_safe code h pdu : Central.handler (G:=G) cfg code = Some h → safe (h pdu).
Proof.
  unfold Central.handler. repeat (destruct (_ =? _); [intros [= <-]|]); [..|done].
  - unfold Central.on_response, Central.goto. safe_auto; safe_part.
  - unfold Central.on_public_key, Central.agree, Central.goto. safe_auto; safe_part.
  - unfold Central.on_confirm, Central.goto. safe_auto; safe_part.
  - unfold Central.on_random, Central.a1, Central.a2, Central.goto. safe_auto; safe_part.
  - unfold Central.on_dhkey_check, Central.goto. safe_auto; safe_part.
Qed.

Lemma feed_safe pdu : safe (Central.feed (G:=G) cfg pdu).
Proof.
  unfold Central.feed. safe_auto; try apply fail_safe. by eapply handler_safe.
Qed.
End central.
(** *** What a wait returns *)

Section result.
Context {V T : Type} `{LV : !LinkView V} `{Tr : !Transport T}.
Abbreviation state := (dev (T:=tap V T) * link)%type.
Abbreviation L := (M state).
Context {A B : Type} (w : Z) (before : A → L (A + B)) (after : A → option item → L (A + B)).
Context (P : A → Prop) (Res : B → state → Prop).

(** Where a step leaves things: it goes on with a good accumulator or returns a
    good result. *)
Definition step_to (r : A + B) (s : state) : Prop := match r with inl a => P a | inr b => Res b s end.

Context (Hb : ∀ a s r s', P a → before a s = (Ok r, s') → step_to r s').
Context (Ha : ∀ a x s r s', P a → after a x s = (Ok r, s') → step_to r s').

Lemma link_wait_result timeout a s r s' :
  P a → link_wait w before after timeout a s = (Ok r, s') → step_to r s'.
Proof.
  unfold link_wait. intros HP H. apply bind_ok_inv in H as (t&s0&_&H). apply bind_ok_inv in H as (fuel&s1&_&H).
  revert a s1 HP H. induction fuel as [|fuel IH]; intros a s1 HP H; [done|]. cbn [link_loop] in H.
  apply bind_ok_inv in H as (t2&s2&_&H). destruct (_ <=? t2); [by injection H as <- <-|].
  apply bind_ok_inv in H as (r3&s3&H3&H). apply Hb in H3; [|done].
  destruct r3 as [a3|b]; [|by injection H as <- <-].
  apply bind_ok_inv in H as (x&s4&_&H). apply bind_ok_inv in H as (r5&s5&H5&H). apply Ha in H5; [|done].
  destruct r5 as [a5|b]; [|by injection H as <- <-]. by eapply IH.
Qed.
End result.

Section pairing.
Context {T : Type} `{Tr : !Transport T, TL : !TransportLaws T} {K G : Type} `{!Crypto K G}.
Context (Q : relation view) `{!PreOrder Q} (HQ : ∀ now code body v, Q v (hook now code body v)).
Abbreviation linked := (linked (T:=T) Q).

Lemma linked_drive {A} (s : Central.central G) (m : M (Central.central G) A) :
  runs (λ _, True) (λ _ _, True) any_exn m → linked (drive s m).
Proof.
  intros Hm. unfold drive. destruct (Hm s I) as (_&_&_&HS). destruct (m s) as [r s']. cbn in HS.
  linked_auto. by apply linked_send.
Qed.

Lemma linked_pair a (key : K) (g : G) o oty p pty : linked (pair a key g o oty p pty).
Proof.
  unfold pair. linked_auto; [by apply linked_security|by apply linked_drive, start_safe|].
  linked_loop.
  - destruct (Central.done _); [linked_auto|by apply linked_until_down].
  - unfold pair_item, pair_prompt. linked_auto; try (by apply linked_drive, feed_safe);
      try (by apply linked_drive, confirm_safe). by apply tapped_sleep.
Qed.

Lemma linked_collect t expect : linked (collect_keys t expect).
Proof. unfold collect_keys. linked_auto. linked_loop; linked_auto. Qed.

Lemma linked_send_keys init oty o (g : G) : linked (send_keys (K:=K) init oty o g).
Proof. unfold send_keys. linked_auto; by apply linked_send. Qed.

Lemma linked_exchange a pres o oty (g : G) : linked (exchange_keys (K:=K) a pres o oty g).
Proof. unfold exchange_keys. linked_auto; [by apply linked_collect|by apply linked_send_keys]. Qed.

(** C37: a pairing the tool accepts is a completed run of the initiator's state
    machine, for the configuration of the command line: whatever was interleaved
    on the link, the state is reached by starting the machine, feeding it PDUs
    and accepting the number, so that all that holds of such runs holds here. *)
Theorem pair_reaches a (key : K) (g : G) o oty p pty (s0 : dev (T:=tap view T) * link) s s' :
  pair a key g o oty p pty s0 = (Ok (Some s), s') →
  let cfg := SmpCfg o oty p pty (a_io a) (a_auth a) (a_key_size a) (a_init_keys a) (a_resp_keys a) key in
  Central.ok s = true ∧ ∃ ins, CentralSafety.reach cfg g ins s.
Proof.
  intros H cfg. unfold pair in H. fold cfg in H.
  assert (Hdrive : ∀ i ins s1 x (d : dev (T:=tap view T) * link) d',
    CentralSafety.reach cfg g ins s1 → drive s1 (CentralSafety.step cfg i) d = (Ok x, d') →
    ∃ ins', CentralSafety.reach cfg g ins' (snd x)).
  { intros i ins s1 x d d' Hr Hd. exists (ins ++ [i]).
    assert (E : snd x = snd (CentralSafety.step cfg i s1)); [|rewrite E; by constructor].
    unfold drive in Hd. destruct (CentralSafety.step cfg i s1) as [r s2].
    apply bind_ok_inv in Hd as ([]&d1&_&Hd). apply bind_ok_inv in Hd as (y&d2&_&Hd).
    by injection Hd as <- _. }
  apply bind_ok_inv in H as (t&s1&_&H). apply bind_ok_inv in H as (x0&s2&Hstart&H).
  apply (Hdrive CentralSafety.Start []) in Hstart; [|constructor].
  apply bind_ok_inv in H as (r&s3&Hwait&H).
  apply (link_wait_result (ms 50) _ _
    (λ sp : Central.central G * bool, ∃ ins, CentralSafety.reach cfg g ins (fst sp))
    (λ r _, match r with Some s => ∃ ins, CentralSafety.reach cfg g ins s | None => True end)) in Hwait;
    [| | |exact Hstart].
  - destruct r as [[s4 p4]|[s4|]]; cbn [step_to fst] in Hwait;
      [destruct (Central.ok s4) eqn:Eok; [|done]..|done]; injection H as <- _; by split.
  - intros [s4 p4] d r4 d' Hr4. cbn [fst]. destruct (Central.done s4); [by intros [= <- _]|].
    unfold until_down. intros Hd. apply bind_ok_inv in Hd as (down&d1&_&Hd).
    destruct down; by injection Hd as <- _.
  - intros [s4 p4] x d r4 d' [ins Hr4] Hd. cbn [fst snd] in *.
    apply bind_ok_inv in Hd as (s5&d1&Hitem&Hd).
    assert (H5 : ∃ ins, CentralSafety.reach cfg g ins s5).
    { unfold pair_item in Hitem. destruct x as [[cid pdu]|]; [|injection Hitem as <- _; by exists ins].
      destruct (cid =? CID_SMP); [|injection Hitem as <- _; by exists ins].
      apply bind_ok_inv in Hitem as (y&d2&Hfeed&Hy). injection Hy as <- _.
      by apply (Hdrive (CentralSafety.Feed pdu) ins) in Hfeed. }
    destruct H5 as [ins5 H5]. apply bind_ok_inv in Hd as (sp&d2&Hprompt&Hd). injection Hd as <- _. cbn [step_to].
    unfold pair_prompt in Hprompt. destruct (_ && _); [|injection Hprompt as <- _; by exists ins5].
    apply bind_ok_inv in Hprompt as (n&d3&_&Hprompt). apply bind_ok_inv in Hprompt as ([]&d4&_&Hprompt).
    apply bind_ok_inv in Hprompt as (y&d5&Huser&Hy). injection Hy as <- _. cbn [fst].
    by apply (Hdrive (CentralSafety.User true) ins5) in Huser.
Qed.
End pairing.
(** ** Counting encryptions *)

(** Encryption Change, status 0, enabled. *)
Definition success (e : Z * Z * bytes) : bool :=
  let '(_, code, body) := e in
  (code =? EVT_ENCRYPTION_CHANGE) && (4 <=? length body)%nat
  && (default 0 (body !! 0%nat) =? 0) && negb (default 0 (body !! 3%nat) =? 0).
Definition encryptions (v : view) : Z := Z.of_nat (length (List.filter success (events v))).

(** Is the last encryption change on record a success? *)
Definition standing (v : view) : Z :=
  match v_encryption v with
  | Some (_, status, enabled) => if (status =? 0) && negb (enabled =? 0) then 1 else 0
  | None => 0
  end.

(** The record grows, and a success that stands has been counted. *)
Definition counted (v v' : view) : Prop :=
  encryptions v ≤ encryptions v' ∧ encryptions v - standing v ≤ encryptions v' - standing v'.

#[export] Instance counted_preorder : PreOrder counted.
Proof. split; [by intros ?|]. intros x y z [] []. split; lia. Qed.

Lemma standing_range v : 0 ≤ standing v ≤ 1.
Proof. unfold standing. destruct (v_encryption v) as [[[t st] en]|]; [|lia]. destruct (_ && _); lia. Qed.

Lemma encryptions_snoc v v' e :
  events v' = events v ++ [e] → encryptions v' = encryptions v + (if success e then 1 else 0).
Proof.
  intros E. unfold encryptions. rewrite E, List.filter_app, length_app. cbn. destruct (success e); cbn; lia.
Qed.

Lemma on_event_events now code body v : events (on_event now code body v) = events v ++ [(now, code, body)].
Proof. unfold on_event. cbn zeta. by destruct (_ && _), (_ && _). Qed.

Lemma on_event_encryption now code body v :
  v_encryption (on_event now code body v) =
  if (code =? EVT_ENCRYPTION_CHANGE) && (4 <=? length body)%nat
  then Some (now, default 0 (body !! 0%nat), default 0 (body !! 3%nat)) else v_encryption v.
Proof. unfold on_event. cbn zeta. by destruct (_ && _), (_ && _). Qed.

Lemma counted_hook now code body v : counted v (hook now code body v).
Proof.
  change (hook now code body v) with (on_event now code body v). unfold counted.
  rewrite (encryptions_snoc _ _ _ (on_event_events now code body v)).
  pose proof (standing_range v). unfold standing at 2. rewrite on_event_encryption. unfold success.
  destruct ((code =? EVT_ENCRYPTION_CHANGE) && (4 <=? length body)%nat); cbn [andb].
  - destruct (_ && _); lia.
  - fold (standing v). lia.
Qed.

Lemma counted_clear v : counted v (over_base (set_encryption None) v).
Proof. pose proof (standing_range v). split; cbn; unfold encryptions, standing in *; cbn; lia. Qed.
Lemma counted_forget v :
  counted v (over_base (λ v, set_encryption None (set_disconnect None v)) v).
Proof. pose proof (standing_range v). split; cbn; unfold encryptions, standing in *; cbn; lia. Qed.

(** A wait that says encrypted has seen a success stand. *)
Lemma wait_encryption_stands {T} `{!Transport T} t (s : dev (T:=tap view T) * link) s' :
  wait_encryption t s = (Ok Encrypted, s') → standing (view_of (fst s')) = 1.
Proof.
  unfold wait_encryption. intros H. apply bind_ok_inv in H as (r&s1&Hw&H).
  apply (link_wait_result (ms 50) _ _ (λ _, True)
    (λ o s, o = Encrypted → standing (view_of (fst s)) = 1)) in Hw; [| | |done].
  - destruct r as [|o]; [done|]. injection H as -> <-. by apply Hw.
  - intros [] d r2 d' _ Hd. apply bind_ok_inv in Hd as (down&d1&[= <- <-]&Hd).
    apply bind_ok_inv in Hd as (enc&d2&[= <- <-]&Hd). injection Hd as <- <-.
    change (base (view_of (fst d))) with (view_of (fst d)).
    destruct (v_disconnect _); [done|]. unfold standing.
    destruct (v_encryption (view_of (fst d))) as [[[tm st] en]|] eqn:E; [|done]. cbn [step_to]. rewrite E.
    by destruct (_ && _).
  - intros [] x d r2 d' _ [= <- <-]. done.
Qed.
(** ** The tool *)

Section session.
Context {T : Type} `{Tr : !Transport T, TL : !TransportLaws T} {K G : Type} `{!Crypto K G}.
Abbreviation state := ((dev (T:=tap view T) * link) * world (G:=G))%type.
Implicit Types s : state.

Definition session_ok s : Prop := link_ok (fst s).
Definition record_of s : view := view_of (fst (fst s)).
(** Nothing but time and the record of events, which grows. *)
Definition lives_frame s s' : Prop := counted (record_of s) (record_of s').

#[export] Instance lives_preorder : PreOrder lives_frame.
Proof. split; [by intros ?|]. intros x y z. unfold lives_frame. by etrans. Qed.

Definition lives {A} (m : M state A) : Prop := runs session_ok lives_frame any_exn m.

Abbreviation linked := (linked (T:=T) counted).

Lemma lives_link {A} (m : M (dev (T:=tap view T) * link) A) : linked m → lives (on_link m).
Proof.
  intros Hm s Hs. unfold on_link, zoom. destruct (Hm (fst s) Hs) as (?&(_&_&?)&?&?).
  destruct (m (fst s)) as [r l]. by split_and!.
Qed.

Lemma lives_world f : lives (on_world f).
Proof. apply runs_modify. by intros s Hs. Qed.

Lemma tapped_setup : tapped (T:=T) counted setup.
Proof.
  unfold setup. pose proof counted_hook. tapped_auto. by apply tapped_on_hci; [apply _|].
Qed.

Lemma tapped_identity o : tapped (T:=T) counted (Hci.identity o).
Proof.
  unfold Hci.identity. pose proof counted_hook. tapped_auto; by apply tapped_on_hci; [apply _|].
Qed.

Lemma linked_open a w : linked (open_link a w).
Proof. apply linked_connect; [apply _|apply counted_hook|apply counted_forget]. Qed.
End session.

(** One step of a program of the tool. *)
Ltac lives_link_part :=
  first [ apply linked_open | apply linked_pair | apply linked_security | apply linked_disconnect
        | apply linked_start | apply linked_wait_encryption | apply linked_exchange | apply linked_probe
        | apply linked_traffic ];
  first [ apply _ | apply counted_hook | apply counted_clear ].
Ltac lives_dev_part :=
  first [ apply tapped_setup | apply tapped_identity | apply tapped_sleep; apply _
        | apply tapped_command; [apply _|apply counted_hook] ].
Ltac lives_step :=
  lazymatch goal with
  | |- lives _ => unfold lives
  | |- runs _ _ _ (mbind _ _) => apply runs_bind; [apply _| |intros ?]
  | |- runs _ _ _ (mret _) => apply runs_ret, _
  | |- runs _ _ _ skip => apply runs_skip, _
  | |- runs _ _ _ (gets _) => apply runs_gets, _
  | |- runs _ _ _ (lift _) => apply runs_lift; [apply _|solve [total|unfold need; total|auto with ends]|done]
  | |- runs _ _ _ (when _ _) => apply runs_when; [apply _|intros ?]
  | |- runs _ _ _ (on_world _) => apply lives_world
  | |- runs _ _ _ (add_row _) => apply lives_world
  | |- runs _ _ _ (set_file _) => apply lives_world
  | |- runs _ _ _ (set_entropy _) => apply lives_world
  | |- runs _ _ _ close => apply lives_world
  | |- runs _ _ _ (on_port _) => apply lives_link, linked_dev; lives_dev_part
  | |- runs _ _ _ (on_link (watch _)) => apply lives_link; linked_auto
  | |- runs _ _ _ (on_link (update _)) => apply lives_link; linked_auto
  | |- runs _ _ _ (on_link _) => apply lives_link; lives_link_part
  | |- runs _ _ _ (if ?b then _ else _) => destruct b
  | |- runs _ _ _ (match ?x with _ => _ end) => destruct x
  end.
Ltac lives_auto := repeat lives_step.

Section run.
Context {T : Type} `{Tr : !Transport T, TL : !TransportLaws T} {K G : Type} `{!Crypto K G}.
Abbreviation state := ((dev (T:=tap view T) * link) * world (G:=G))%type.
Implicit Types s : state.

Lemma addr_total text : Tools.addr_bytes text ≠ Stuck.
Proof. apply ToolsLaws.decodes_addr. Qed.
Lemma from_hex_total text : from_hex text ≠ Stuck.
Proof. unfold from_hex. by destruct (Tools.fromhex text). Qed.
Lemma load_key_total o : load_key o ≠ Stuck.
Proof. unfold load_key. destruct o; [|done]. apply bind_total; [apply from_hex_total|done]. Qed.
Lemma load_bond_total raw : load_bond raw ≠ Stuck.
Proof.
  unfold load_bond, load_dist. repeat (apply bind_total; [|intros ?]); try apply from_hex_total; try done.
  destruct (j_dist raw); [|done]. repeat (apply bind_total; [|intros ?]); try apply load_key_total; done.
Qed.
Lemma reconnect_key_total a ltk d : reconnect_key a ltk d ≠ Stuck.
Proof.
  unfold reconnect_key. apply bind_total.
  - destruct (a_rand a) as [[|c text]|]; [done| |done]. apply bind_total; [apply from_hex_total|done].
  - intros rand. repeat case_match; done.
Qed.
Hint Resolve addr_total load_bond_total reconnect_key_total : ends.

Lemma lives_prepare a : lives (T:=T) (G:=G) (prepare a).
Proof. unfold prepare. lives_auto. Qed.

Lemma lives_first a key w : lives (T:=T) (G:=G) (first_connection a key w).
Proof. unfold first_connection. lives_auto. Qed.

Lemma lives_reconnect a w ltk d c : lives (T:=T) (G:=G) (reconnect a w ltk d c).
Proof. unfold reconnect. lives_auto. Qed.

Lemma lives_reconnects a w ltk d cs : lives (T:=T) (G:=G) (reconnects a w ltk d cs).
Proof. induction cs as [|c cs IH]; cbn [reconnects]; lives_auto; [apply lives_reconnect|exact IH]. Qed.

Lemma lives_session a key : lives (T:=T) (G:=G) (session a key).
Proof.
  unfold session. lives_auto; [apply lives_prepare|apply lives_first|apply lives_reconnects].
Qed.

(** *** The end of a run *)

Lemma clean_up_cases s : session_ok s →
  let '(r, s') := clean_up (T:=T) (G:=G) s in
  r = Ok tt ∧ session_ok s' ∧ closed (snd s') = true ∧ rows (snd s') = rows (snd s) ∧ lives_frame s s'.
Proof.
  intros Hs. unfold clean_up. unfold mbind at 1, M_bind at 1, try_except.
  set (m := gets _ ≫= _).
  assert (Hm : lives m).
  { unfold m. lives_auto. }
  assert (Hw : snd (snd (m s)) = snd s).
  { unfold m, gets, mbind, M_bind. destruct (handle (snd (fst s))); [|done].
    unfold on_link, zoom. by destruct (disconnect _ _). }
  destruct (Hm s Hs) as (Hs1&Hf&_&HS). destruct (m s) as [[[]|e|] s1]; cbn [fst snd] in *; [| |done];
    unfold close, on_world, modify; cbn; rewrite Hw; by split_and!.
Qed.

Lemma first_code a key w s c s' :
  first_connection (T:=T) (K:=K) (G:=G) a key w s = (Ok (inl c), s') → c = 1.
Proof.
  unfold first_connection. intros H. apply bind_ok_inv in H as ([h|]&s1&_&H); [|by injection H as <- _].
  apply bind_ok_inv in H as (g&s2&_&H). apply bind_ok_inv in H as ([p|]&s3&_&H).
  - apply bind_ok_inv in H as ([]&s4&_&H). apply bind_ok_inv in H as (ltk&s5&_&H).
    apply bind_ok_inv in H as (x&s6&_&H). apply bind_ok_inv in H as (o&s7&_&H).
    apply bind_ok_inv in H as (d&s8&_&H). apply bind_ok_inv in H as ([]&s9&_&H).
    apply bind_ok_inv in H as (ok&s10&_&H). apply bind_ok_inv in H as ([]&s11&_&H).
    destruct (negb ok).
    + apply bind_ok_inv in H as ([]&s12&_&H). by injection H as <- _.
    + do 3 (apply bind_ok_inv in H as ([]&?&_&H)). done.
  - apply bind_ok_inv in H as ([]&s4&_&H). by injection H as <- _.
Qed.

Lemma prepare_code a s c s' :
  prepare (T:=T) (G:=G) a s = (Ok (inl c), s') → c = 2 ∧ a_reconnect_only a = true.
Proof.
  unfold prepare. intros H. apply bind_ok_inv in H as ([]&s1&_&H).
  destruct (a_reconnect_only a).
  - apply bind_ok_inv in H as (f&s2&_&H). destruct (if a_bond_file a then f else None).
    + by apply bind_ok_inv in H as (b'&s3&_&H).
    + by injection H as <- _.
  - apply bind_ok_inv in H as (peer&s2&_&H). apply bind_ok_inv in H as (o&s3&_&H).
    apply bind_ok_inv in H as ([[own oty] src]&s4&_&H). done.
Qed.

Lemma session_code a key s c s' :
  session (T:=T) (K:=K) (G:=G) a key s = (Ok (Some c), s') → c = 1 ∨ c = 2.
Proof.
  unfold session. intros H. apply bind_ok_inv in H as ([c0|[b w]]&s1&Hp&H).
  - injection H as <- _. right. by destruct (prepare_code _ _ _ _ Hp).
  - apply bind_ok_inv in H as ([]&s2&_&H). apply bind_ok_inv in H as (r&s3&Hr&H).
    destruct r as [c1|[ltk d]]; [|by apply bind_ok_inv in H as ([]&s4&_&H)].
    injection H as <- _. left. destruct b; [done|]. by apply first_code in Hr.
Qed.

Lemma verdict_code corrupt rs : verdict corrupt rs = 0 ∨ verdict corrupt rs = 1.
Proof. unfold verdict. repeat case_match; auto. Qed.

(** C38: however the controller and the peer behave, a run of the tool ends with
    an exit code 0, 1 or 2 or an exception, and the port is closed. *)
Theorem run_closes a key s (Hs : session_ok s) :
  let '(r, s') := run (T:=T) (K:=K) (G:=G) a key s in
  session_ok s' ∧ closed (snd s') = true ∧
  match r with Ok code => code ∈ [0; 1; 2] | Exc _ => True | Stuck => False end.
Proof.
  unfold run. unfold mbind at 1, M_bind at 1, try_finally.
  destruct (lives_session a key s Hs) as (Hs1&_&_&HS). pose proof (session_code a key s) as Hc.
  destruct (session a key s) as [r s1]. cbn [fst snd] in *.
  pose proof (clean_up_cases s1 Hs1) as H. destruct (clean_up s1) as [r2 s2].
  destruct H as (->&Hs2&Hcl&_&_).
  destruct r as [[c|]|e|]; [..|done]; cbn.
  - split_and!; [done|done|]. destruct (Hc c s1 eq_refl) as [->| ->]; set_solver.
  - unfold gets, mbind, M_bind. cbn. split_and!; [done|done|].
    destruct (verdict_code (a_corrupt_ltk a) (rows (snd s2))) as [->| ->]; set_solver.
  - by split_and!.
Qed.

(** *** What a pass stands for *)

(** A step on the link leaves the world alone. *)
Lemma on_link_ok {A} (m : M (dev (T:=tap view T) * link) A) s x s1 :
  linked (T:=T) counted m → session_ok s → on_link m s = (Ok x, s1) →
  session_ok s1 ∧ lives_frame s s1 ∧ snd s1 = snd s ∧ m (fst s) = (Ok x, fst s1).
Proof.
  intros Hm Hs H. destruct (lives_link m Hm s Hs) as (H1&H2&_&_). rewrite H in H1, H2.
  unfold on_link, zoom in H. destruct (m (fst s)) as [r l]. injection H as -> <-. by split_and!.
Qed.

Ltac link_facts := first [ lives_link_part | apply linked_dev; lives_dev_part | solve [linked_auto] ].
(** Take the next step of a run that returned, with what it leaves. *)
Ltac take_link H x s1 :=
  let Hx := fresh "Hx" in
  apply bind_ok_inv in H as (x&s1&Hx&H);
  apply on_link_ok in Hx as (?&?&?&Hx); [|link_facts|assumption].

(** Encrypting counts a success. *)
Lemma encrypt_counts ltk rand div t (l : dev (T:=tap view T) * link) x l1 l2 :
  link_ok l → start_encryption ltk rand div l = (Ok x, l1) →
  wait_encryption t l1 = (Ok Encrypted, l2) →
  encryptions (view_of (fst l)) + 1 ≤ encryptions (view_of (fst l2)).
Proof.
  intros Hl H1 H2. unfold start_encryption in H1. apply bind_ok_inv in H1 as ([]&l0&H0&H1).
  injection H0 as <-. set (l0 := (_, _)) in H1.
  assert (Hl0 : link_ok l0) by by destruct l as [[now h] l'], Hl.
  assert (E0 : view_of (fst l0) = set_encryption None (view_of (fst l))) by done.
  assert (Hrest : linked (T:=T) counted (l ← gets snd;
     h ← lift (match handle l with Some h => pack [FH h] | None => Exc StructError end);
     div ← lift (pack [FH div]);
     on_dev (command OP_LE_ENABLE_ENCRYPTION (h ++ rand ++ div ++ ltk) true))).
  { linked_auto. apply tapped_command; [apply _|apply counted_hook]. }
  destruct (Hrest l0 Hl0) as (Hl1&(_&_&HQ1)&_&_). rewrite H1 in Hl1, HQ1. cbn [fst snd] in *.
  assert (Hw : linked (T:=T) counted (wait_encryption t))
    by (apply linked_wait_encryption; [apply _|apply counted_hook]).
  destruct (Hw l1 Hl1) as (_&(_&_&HQ2)&_&_). rewrite H2 in HQ2. cbn [fst snd] in *.
  apply wait_encryption_stands in H2. rewrite E0 in HQ1.
  assert (Es : ∀ v, encryptions (set_encryption None v) = encryptions v) by done.
  unfold counted in *. rewrite Es in HQ1. change (standing (set_encryption None _)) with 0 in HQ1. lia.
Qed.

(** A row that says PASS. *)
Definition passing (c : nat) : row := Row c (Outcome Encrypted) true.

(** One reconnect adds one row; a good one has counted a success and the run
    goes on. *)
Lemma reconnect_row a w ltk d c s go s' :
  session_ok s → reconnect (T:=T) (G:=G) a w ltk d c s = (Ok go, s') →
  ∃ r, rows (snd s') = rows (snd s) ++ [r] ∧
    encryptions (record_of s) + (if r_ok r then 1 else 0) ≤ encryptions (record_of s') ∧
    (r_ok r = true → r = passing c ∧ go = true).
Proof.
  intros Hs H. destruct (lives_reconnect a w ltk d c s Hs) as (_&[Hmono _]&_&_).
  rewrite H in Hmono. cbn [snd] in Hmono. unfold reconnect in H.
  take_link H h s1. destruct h as [h|].
  2: { apply bind_ok_inv in H as ([]&s2&[= <-]&H). injection H as <- <-. cbn [snd rows].
       eexists. split; [by rewrite H2|]. cbn [r_ok]. split; [by rewrite Z.add_0_r|done]. }
  apply bind_ok_inv in H as ([]&s2&Hwait&H).
  assert (Hs2 : session_ok s2 ∧ lives_frame s1 s2 ∧ snd s2 = snd s1).
  { destruct (a_on_request a).
    - take_link Hwait t s3. injection Hwait as <-. by split_and!.
    - unfold when in Hwait. destruct (negb _); [|injection Hwait as <-; by split_and!].
      apply on_link_ok in Hwait as (?&?&?&_); [by split_and!|link_facts|done]. }
  destruct Hs2 as (Hs2&Hf2&Hw2). take_link H down s3.
  destruct down as [[[[t st] hd] reason]|].
  { apply bind_ok_inv in H as ([]&s4&[= <-]&H). apply bind_ok_inv in H as ([]&s5&Hu&H).
    apply bind_ok_inv in H as ([]&s6&Hsl&H). injection H as <- <-.
    exists (Row c (DroppedBefore reason) false). split; [|cbn [r_ok]; split; [by rewrite Z.add_0_r|done]].
    assert (E : snd s6 = snd s5) by (unfold on_port, on_link, zoom in Hsl; destruct (on_dev _ _); by injection Hsl as _ <-).
    unfold on_link, zoom in Hu. cbn [fst snd] in Hu. destruct (update _ _) as [r' l']. injection Hu as _ <-.
    rewrite E. cbn [snd rows]. congruence. }
  apply bind_ok_inv in H as ([[use rand] ediv]&s4&[= _ <-]&H).
  take_link H u s5. take_link H x s6. take_link H o s7.
  apply bind_ok_inv in H as (ok&s8&Hok&H).
  assert (Hs8 : session_ok s8 ∧ snd s8 = snd s7 ∧ lives_frame s7 s8 ∧ (ok = true → o = Encrypted)).
  { destruct o; [|injection Hok as <- <-; by split_and!..].
    apply on_link_ok in Hok as (?&?&?&_); [by split_and!|link_facts|done]. }
  destruct Hs8 as (Hs8&Hw8&Hf8&Ho). apply bind_ok_inv in H as ([]&s9&[= <-]&H).
  apply bind_ok_inv in H as ([]&s10&Hhold&H).
  assert (E10 : rows (snd s10) = rows (snd s8) ++ [Row c (Outcome o) ok] ∧ session_ok s10
    ∧ lives_frame s8 s10).
  { unfold when in Hhold. destruct ok; [|injection Hhold as <-; by split_and!].
    apply on_link_ok in Hhold as (?&?&E&_); [|link_facts|done]. rewrite E. by split_and!. }
  destruct E10 as (E10&Hs10&Hf10). take_link H v s11. take_link H v' s12. injection H as <- <-.
  exists (Row c (Outcome o) ok). split.
  { congruence. }
  split; [|intros E; cbn [r_ok] in E; rewrite (Ho E), E; done].
  cbn [r_ok]. destruct ok; [|lia]. specialize (Ho eq_refl). subst o.
  pose proof (encrypt_counts _ _ _ _ (fst s5) x (fst s6) (fst s7) ltac:(assumption) Hx2 Hx3) as Hcount.
  assert (F1 : lives_frame s s5) by (do 3 (etrans; [eassumption|]); eassumption).
  assert (F2 : lives_frame s7 s12) by (do 3 (etrans; [eassumption|]); eassumption).
  destruct F1 as [F1 _], F2 as [F2 _]. unfold record_of in *. clear - F1 F2 Hcount. lia.
Qed.

(** The first connection, when the run goes on, adds a row that says PASS; its
    key is that of a completed run of the initiator. *)
Lemma first_row a key w s ltk d s' :
  session_ok s → first_connection (T:=T) (G:=G) a key w s = (Ok (inr (ltk, d)), s') →
  rows (snd s') = rows (snd s) ++ [passing 0] ∧
  encryptions (record_of s) + 1 ≤ encryptions (record_of s').
Proof.
  intros Hs H. unfold first_connection in H. take_link H h s1. destruct h as [h|]; [|done].
  apply bind_ok_inv in H as (g&s2&[= _ <-]&H). take_link H p s3. destruct p as [p|].
  2: { by apply bind_ok_inv in H as ([]&s4&_&H). }
  apply bind_ok_inv in H as ([]&s4&[= <-]&H). apply bind_ok_inv in H as (key1&s5&Hkey&H).
  assert (s5 = (fst s3, World (file (snd s3)) (rows (snd s3)) (Central.entropy p) (closed (snd s3)))) as ->
    by by injection Hkey as _ <-.
  take_link H x s6. take_link H o s7.
  apply bind_ok_inv in H as (d1&s8&Hd&H).
  assert (Hs8 : session_ok s8 ∧ lives_frame s7 s8 ∧ rows (snd s8) = rows (snd s7)).
  { destruct o; [|injection Hd as _ <-; by split_and!..]. cbn in Hd.
    apply bind_ok_inv in Hd as (pres&s9&Hp&Hd). assert (s9 = s7) as -> by by injection Hp as _ <-.
    apply bind_ok_inv in Hd as (g1&s9&[= _ <-]&Hd). take_link Hd kg s10.
    apply bind_ok_inv in Hd as ([]&s11&[= <-]&Hd). injection Hd as _ <-.
    split_and!; [done|done|]. cbn [snd rows]. congruence. }
  destruct Hs8 as (Hs8&Hf8&Hr8). apply bind_ok_inv in H as ([]&s9&Hfile&H).
  assert (Hs9 : session_ok s9 ∧ lives_frame s8 s9 ∧ rows (snd s9) = rows (snd s8)).
  { unfold when in Hfile. destruct (a_bond_file a); injection Hfile as <-; by split_and!. }
  destruct Hs9 as (Hs9&Hf9&Hr9). apply bind_ok_inv in H as (ok&s10&Hok&H).
  assert (Hs10 : session_ok s10 ∧ lives_frame s9 s10 ∧ snd s10 = snd s9 ∧ (ok = true → o = Encrypted)).
  { destruct o; [|injection Hok as <- <-; by split_and!..].
    apply on_link_ok in Hok as (?&?&?&_); [by split_and!|link_facts|done]. }
  destruct Hs10 as (Hs10&Hf10&Hr10&Ho). apply bind_ok_inv in H as ([]&s11&[= <-]&H).
  destruct ok; [|by apply bind_ok_inv in H as ([]&s12&_&H)]. specialize (Ho eq_refl). subst o.
  cbn [negb] in H. match type of H with _ ?st = _ => set (s11 := st) in H end. assert (Hs11 : session_ok s11) by done.
  assert (Hf11 : lives_frame s10 s11) by done.
  take_link H u s12. take_link H v s13. take_link H v' s14. injection H as _ _ <-.
  split.
  { assert (E : snd s14 = snd s11) by congruence. rewrite E. cbn [s11 snd rows]. unfold passing.
    assert (E6 : rows (snd s6) = rows (snd s3)) by (match goal with E6 : snd s6 = _ |- _ => by rewrite E6 end).
    rewrite Hr10, Hr9, Hr8. congruence. }
  assert (F1 : lives_frame s s3) by (etrans; eassumption).
  assert (F2 : lives_frame s7 s14) by (transitivity s8; [done|]; transitivity s9; [done|]; transitivity s10; [done|];
      transitivity s12; [done|]; transitivity s13; done).
  pose proof (encrypt_counts _ _ _ _ (fst s3) x (fst s6) (fst s7) ltac:(assumption) Hx1 Hx2) as Hcount.
  destruct F1 as [F1 _], F2 as [F2 _]. unfold record_of in *. clear - F1 F2 Hcount. lia.
Qed.

Definition good (rs : list row) : Z := Z.of_nat (length (List.filter r_ok rs)).

(** The rows of the reconnects. *)
Lemma reconnects_rows a w ltk d cs s s' :
  session_ok s → reconnects (T:=T) (G:=G) a w ltk d cs s = (Ok tt, s') →
  ∃ rs, rows (snd s') = rows (snd s) ++ rs ∧
    encryptions (record_of s) + good rs ≤ encryptions (record_of s') ∧
    (forallb r_ok rs = true → rs = map passing cs).
Proof.
  revert s. induction cs as [|c cs IH]; intros s Hs H; cbn [reconnects] in H.
  { injection H as <-. exists []. rewrite app_nil_r. split_and!; [done|unfold good; cbn; lia|done]. }
  apply bind_ok_inv in H as (go&s1&H1&H).
  destruct (lives_reconnect a w ltk d c s Hs) as (Hs1&_). rewrite H1 in Hs1.
  destruct (reconnect_row a w ltk d c s go s1 Hs H1) as (r&E1&Hn1&Hok).
  assert (Hgood : ∀ rs, good (r :: rs) = (if r_ok r then 1 else 0) + good rs)
    by (intros rs; unfold good; cbn [List.filter]; destruct (r_ok r); cbn [length]; lia).
  destruct go.
  - destruct (IH s1 Hs1 H) as (rs&E2&Hn2&Hall). exists (r :: rs). split_and!.
    + by rewrite E2, E1, <- app_assoc.
    + rewrite Hgood. lia.
    + cbn [forallb map]. intros [Hr Hrs]%andb_true_iff. destruct (Hok Hr) as [-> _]. by rewrite Hall.
  - injection H as <-. exists [r]. split_and!; [done|rewrite Hgood; unfold good; cbn [List.filter length]; lia|].
    cbn [forallb]. rewrite andb_true_r. intros Hr. by destruct (Hok Hr).
Qed.

Lemma prepare_start a s b w s' :
  session_ok s → prepare (T:=T) (G:=G) a s = (Ok (inr (b, w)), s') →
  session_ok s' ∧ lives_frame s s' ∧ rows (snd s') = rows (snd s) ∧
  a_reconnect_only a = bool_decide (is_Some b).
Proof.
  intros Hs H. destruct (lives_prepare a s Hs) as (Hs'&Hf&_&_). rewrite H in Hs', Hf.
  split; [done|]. split; [done|]. unfold prepare in H. apply bind_ok_inv in H as ([]&s1&Hset&H).
  apply on_link_ok in Hset as (Hs1&_&E1&_); [|link_facts|done].
  destruct (a_reconnect_only a).
  - apply bind_ok_inv in H as (f&s2&[= <- <-]&H). destruct (if a_bond_file a then _ else None); [|done].
    apply bind_ok_inv in H as (b'&s3&Hb&H). injection H as <- _ <-. injection Hb as _ <-. by rewrite E1.
  - apply bind_ok_inv in H as (peer&s2&Hp&H). injection Hp as _ <-.
    apply bind_ok_inv in H as (o&s3&Ho&H).
    assert (s3 = s1) as ->.
    { destruct (a_own_address a) as [[|ch txt]|]; [by injection Ho as _ <-| |by injection Ho as _ <-].
      apply bind_ok_inv in Ho as (raw&s4&Hr&Ho). injection Hr as _ <-. by injection Ho as _ <-. }
    take_link H addr s4. destruct addr as [[own oty] src]. injection H as <- _ <-. by rewrite H2, E1.
Qed.

(** What a session that reached its summary has recorded. *)
Lemma session_rows a key s s' :
  session_ok s → rows (snd s) = [] → session (T:=T) (G:=G) a key s = (Ok None, s') →
  ∃ rs, rows (snd s') = (if a_reconnect_only a then [] else [passing 0]) ++ rs ∧
    encryptions (record_of s) + good (rows (snd s')) ≤ encryptions (record_of s') ∧
    (forallb r_ok rs = true → rs = map passing (seq 1 (a_cycles a))).
Proof.
  intros Hs Hempty H. unfold session in H. apply bind_ok_inv in H as ([c|[b w]]&s1&Hp&H); [done|].
  destruct (prepare_start a s b w s1 Hs Hp) as (Hs1&Hf1&E1&Hb).
  apply bind_ok_inv in H as ([]&s2&Hr&H).
  assert (Hs2 : session_ok s2 ∧ lives_frame s1 s2 ∧ snd s2 = snd s1).
  { unfold when in Hr. destruct (_ =? _); [|injection Hr as <-; by split_and!].
    apply bind_ok_inv in Hr as (x&s3&Hc&Hr). injection Hr as <-.
    apply on_link_ok in Hc as (?&?&?&_); [by split_and!|link_facts|done]. }
  destruct Hs2 as (Hs2&Hf2&E2). apply bind_ok_inv in H as (r&s3&Hfirst&H).
  destruct r as [c|[ltk d]]; [done|]. apply bind_ok_inv in H as ([]&s4&Hrec&H). injection H as <-.
  assert (Hs3 : session_ok s3 ∧ rows (snd s3) = (if a_reconnect_only a then [] else [passing 0]) ∧
    encryptions (record_of s2) + good (rows (snd s3)) ≤ encryptions (record_of s3)).
  { destruct b as [b|]; cbn in Hb; rewrite Hb.
    - injection Hfirst as _ _ <-. rewrite E2, E1, Hempty. split_and!; [done|done|unfold good; cbn; lia].
    - destruct (lives_first a key w s2 Hs2) as (Hs3&_). rewrite Hfirst in Hs3.
      destruct (first_row a key w s2 ltk d s3 Hs2 Hfirst) as [E3 Hn]. rewrite E3, E2, E1, Hempty.
      by split_and!. }
  destruct Hs3 as (Hs3&E3&Hn3). destruct (reconnects_rows a w ltk d _ s3 s4 Hs3 Hrec) as (rs&E4&Hn4&Hall).
  exists rs. split_and!; [by rewrite E4, E3| |done]. rewrite E4. unfold good in *.
  rewrite List.filter_app, length_app. destruct Hf1 as [Hf1 _], Hf2 as [Hf2 _]. lia.
Qed.

(** A run that ends with 0 has reached its summary. *)
Lemma run_summary a key s s' :
  session_ok s → run (T:=T) (G:=G) a key s = (Ok 0, s') →
  ∃ s1, session a key s = (Ok None, s1) ∧ rows (snd s') = rows (snd s1) ∧
    lives_frame s1 s' ∧ verdict (a_corrupt_ltk a) (rows (snd s')) = 0.
Proof.
  intros Hs H. unfold run in H. apply bind_ok_inv in H as (r&s2&Ht&H). unfold try_finally in Ht.
  destruct (lives_session a key s Hs) as (Hs1&_). pose proof (session_code a key s) as Hc.
  destruct (session a key s) as [r1 s1]. cbn [snd] in Hs1.
  pose proof (clean_up_cases s1 Hs1) as Hcl. destruct (clean_up s1) as [r2 s2'].
  destruct Hcl as (->&_&_&Er&Hf). injection Ht as -> ->.
  destruct r as [c|].
  - injection H as -> <-. by destruct (Hc 0 s1 eq_refl).
  - apply bind_ok_inv in H as (rs&s3&[= <- <-]&H). injection H as H <-. exists s1. by split_and!.
Qed.

Lemma all_good rs : length (List.filter (λ r, negb (r_ok r)) rs) = 0%nat → forallb r_ok rs = true.
Proof.
  induction rs as [|r rs IH]; [done|]. cbn [List.filter forallb]. destruct (r_ok r); [exact IH|done].
Qed.

Lemma good_all rs : forallb r_ok rs = true → good rs = Z.of_nat (length rs).
Proof.
  intros H. unfold good. f_equal. f_equal. induction rs as [|r rs IH]; [done|].
  cbn in *. apply andb_true_iff in H as [-> H]. by rewrite IH.
Qed.


(** C40: the negative control can only succeed from a stored bond: a run that
    pairs first never ends with 0, whatever happens to the wrong key, because
    its pairing row says PASS. *)
Theorem control_never_passes a key s (Hs : session_ok s) (Hempty : rows (snd s) = [])
    (Hmode : a_corrupt_ltk a = true) (Hpair : a_reconnect_only a = false) :
  fst (run (T:=T) (G:=G) a key s) ≠ Ok 0.
Proof.
  intros Hrun. destruct (run a key s) as [r s'] eqn:E0. cbn in Hrun. subst r.
  destruct (run_summary a key s s' Hs E0) as (s1&Hses&Er&_&Hv).
  destruct (session_rows a key s s1 Hs Hempty Hses) as (rs&E&_).
  rewrite Hpair in E. rewrite Hmode, Er, E in Hv. unfold verdict in Hv. cbn zeta in Hv.
  destruct (_ && _) eqn:Eb in Hv; [|done]. apply andb_true_iff in Eb as [Hbad _]. apply Nat.eqb_eq in Hbad.
  cbn [app List.filter passing r_ok negb length] in Hbad.
  pose proof (List.filter_length_le (λ r, negb (r_ok r)) rs). lia.
Qed.
End run.

(** ** The bond file *)

Lemma hex_digit_value d : 0 ≤ d < 16 → Discovery.hex_value (hex_digit d) = Some d
  ∧ Discovery.is_space (hex_digit d) = false.
Proof.
  intros Hd. assert (Hall : Forall (λ d, Discovery.hex_value (hex_digit d) = Some d
    ∧ Discovery.is_space (hex_digit d) = false) (seqZ 0 16)).
  { vm_compute. repeat (constructor; [done|]). constructor. }
  rewrite Forall_forall in Hall. apply Hall, elem_of_seqZ. lia.
Qed.

Lemma from_hex_hex data : bytes_ok data → from_hex (hex data) = Ok data.
Proof.
  intros Hb. unfold from_hex. enough (E : Tools.fromhex (hex data) = Some data) by by rewrite E.
  induction Hb as [|b rest Hb Hrest IH]; [done|].
  destruct (ToolsLaws.nibbles b Hb) as (H1&H2&H3).
  destruct (hex_digit_value _ H1) as [V1 S1], (hex_digit_value _ H2) as [V2 _].
  cbn [hex Tools.fromhex]. rewrite S1, V1, V2, IH. cbn. by rewrite H3.
Qed.

Definition key_ok (o : option bytes) : Prop := match o with Some k => bytes_ok k | None => True end.

Lemma load_key_hex o : key_ok o → load_key (hex <$> o) = Ok o.
Proof. destruct o as [k|]; [|done]. cbn. intros Hk. by rewrite from_hex_hex. Qed.

(** A bond read back from the file it was written to is the bond. *)
Theorem bond_roundtrip b (Hl : bytes_ok (b_ltk b)) (Ho : bytes_ok (b_own b)) (Hp : bytes_ok (b_peer b))
    (Hk : key_ok (d_ltk (b_dist b))) (Hr : key_ok (d_rand (b_dist b))) (Hi : key_ok (d_irk (b_dist b))) :
  load_bond (save_bond b) = Ok b.
Proof.
  unfold load_bond, save_bond, load_dist. cbn [j_ltk j_own j_peer j_dist jd_ltk jd_rand jd_irk jd_ediv].
  rewrite !from_hex_hex by done. cbn. rewrite !load_key_hex by done. cbn. by destruct b as [????? []].
Qed.
(** ** Witnesses *)

Section demo.
#[local] Existing Instance SmpAgreement.toy_crypto.

(** A controller with forty buffers of 27 octets and a public address, and a
    peripheral that pairs by Just Works and distributes its identity. *)
Definition demo_side (io : Z) (mine peer : bytes) (key : Z) : smp_cfg Z :=
  SmpCfg mine 0 peer 0 io 0x0D 16 0 2 key.
Definition demo_pdus : list bytes :=
  let central := demo_side 3 [0x11; 2; 3; 4; 5; 6] [1; 2; 3; 4; 5; 6] 5 in
  let peripheral := demo_side 3 [1; 2; 3; 4; 5; 6] [0x11; 2; 3; 4; 5; 6] 9 in
  Responder.sent (SmpAgreement.res
    (SmpAgreement.turns 11 central peripheral (SmpAgreement.started central peripheral 1 2)))
  ++ [SMP_IDENTITY_INFO :: zeros 16; [SMP_IDENTITY_ADDRESS_INFO; 0; 1; 2; 3; 4; 5; 6]].

Definition acl_in (cid : Z) (pdu : bytes) : bytes :=
  [2; 0x40; 0x20] ++ le_bytes 2 (blen pdu + 4) ++ le_bytes 2 (blen pdu) ++ le_bytes 2 cid ++ pdu.
Definition status_of (op : Z) : bytes := [4; 0x0F; 4; 0; 1] ++ le_bytes 2 op.
Definition encrypted_event : bytes := [4; 0x08; 4; 0; 0x40; 0; 1].
Definition down_event (reason : Z) : bytes := [4; 0x05; 4; 0; 0x40; 0; reason].

Definition demo_setup : list bytes :=
  [[4; 0x0E; 4; 1; 0x03; 0x0C; 0]; [4; 0x0E; 4; 1; 0x01; 0x0C; 0]; [4; 0x0E; 4; 1; 0x01; 0x20; 0];
   [4; 0x0E; 7; 1; 0x02; 0x20; 0; 27; 0; 40]; [4; 0x0E; 10; 1; 0x09; 0x10; 0; 0x11; 2; 3; 4; 5; 6]].
Definition demo_connection : list bytes :=
  [status_of 0x200D; [4; 0x3E; 19; 0x01; 0; 0x40; 0; 0; 0; 1; 2; 3; 4; 5; 6; 0x18; 0; 0; 0; 0x90; 1; 0]].
Definition demo_goodbye : list bytes :=
  [acl_in CID_ATT [0x03; 247; 0]; status_of 0x0406; down_event 0x16].
(** Pairing, then a reconnect that ends as [last] says. *)
Definition demo_script (last : list bytes) : list bytes :=
  demo_setup ++ demo_connection ++ map (acl_in CID_SMP) (take 5 demo_pdus)
  ++ [status_of 0x2019; encrypted_event] ++ map (acl_in CID_SMP) (drop 5 demo_pdus) ++ demo_goodbye
  ++ demo_connection ++ [status_of 0x2019] ++ last.

Definition demo_state (script : list bytes)
  : (dev (T:=tap view SerialH4.state) * link) * world (G:=Z) :=
  (((0, init_hci (Tap (transport (snd (serial_dev [] script))) (View [] None None))), no_link),
   World None [] 1 false).

Definition demo_args (corrupt : bool) : args :=
  Args "06:05:04:03:02:01" false None 1 false true false 0 0x18 0x28 0 false false false false
    None 0 corrupt 3 0x0D 16 0 2 false (seconds 2) true (seconds 15) 0 (seconds 60) (seconds 5) 0 0 0.
Definition good_bye : list bytes := encrypted_event :: demo_goodbye.
Abbreviation demo_run corrupt last := (run (demo_args corrupt) (5 : Z) (demo_state (demo_script last))).

Lemma demo_state_ok script : serial_devb (serial_dev [] script) = true → session_ok (demo_state script).
Proof. apply serial_dev_ok. Qed.

Lemma run_closes_witness :
  fst (demo_run false good_bye) = Ok 0 ∧ closed (snd (snd (demo_run false good_bye))) = true.
Proof.
  assert (E : fst (demo_run false good_bye) = Ok 0) by by vm_compute.
  split; [exact E|].
  pose proof (run_closes (demo_args false) (5 : Z) (demo_state (demo_script good_bye))
    ltac:(apply demo_state_ok; by vm_compute)) as H.
  destruct (demo_run false good_bye) as [r s']. exact (proj1 (proj2 H)).
Defined.


(** The wrong key is refused, as it should be, and the tool says 1. *)
Lemma control_never_passes_witness :
  rows (snd (snd (demo_run true [down_event 0x3D])))
    = [passing 0; Row 1 (Outcome Dropped) false] ∧
  fst (demo_run true [down_event 0x3D]) = Ok 1 ∧ fst (demo_run true [down_event 0x3D]) ≠ Ok 0.
Proof.
  split; [by vm_compute|]. split; [by vm_compute|].
  apply control_never_passes; [apply demo_state_ok; by vm_compute|done..].
Defined.

(** The pairing of that session on its own, and a PDU of thirty octets. *)
Definition demo_linked (script : list bytes) : dev (T:=tap view SerialH4.state) * link :=
  let d := fst (fst (demo_state script)) in
  ((fst d, add_credits 40 (snd d)), set_handle (Some 0x40) no_link).

Abbreviation pair_run := (pair (demo_args false) (5 : Z) (1 : Z) [0x11; 2; 3; 4; 5; 6] 0 [1; 2; 3; 4; 5; 6] 0
  (demo_linked (map (acl_in CID_SMP) demo_pdus))).

Definition accepted (r : res (option (Central.central Z))) : option (Central.central Z) :=
  match r with Ok o => o | _ => None end.

Lemma pair_reaches_witness :
  is_Some (accepted (fst pair_run)) ∧
  ∃ ins s, accepted (fst pair_run) = Some s ∧
    CentralSafety.reach (demo_side 3 [0x11; 2; 3; 4; 5; 6] [1; 2; 3; 4; 5; 6] 5) (1 : Z) ins s.
Proof.
  assert (E : is_Some (accepted (fst pair_run))) by (vm_compute; eauto).
  split; [exact E|].
  pose proof (λ s, pair_reaches (demo_args false) (5 : Z) (1 : Z) [0x11; 2; 3; 4; 5; 6] 0 [1; 2; 3; 4; 5; 6] 0
    (demo_linked (map (acl_in CID_SMP) demo_pdus)) s (snd pair_run)) as H.
  destruct pair_run as [[[s|]|e|] s']; try (by destruct E).
  destruct (H s eq_refl) as [_ [ins Hr]]. exists ins, s. by split.
Defined.

Abbreviation send_run := (send_l2cap CID_ATT (replicate 30 7) (demo_linked [])).

End demo.

Lemma bond_roundtrip_witness :
  let b := Bond (seqZ 0 16) [1; 2; 3; 4; 5; 6] 0 [6; 5; 4; 3; 2; 255] 1
             (Dist None (Some 7) (Some (seqZ 200 8)) (Some (seqZ 100 16))) in
  j_peer (save_bond b) = "0605040302ff"%string ∧ load_bond (save_bond b) = Ok b.
Proof.
  cbn zeta. split; [by vm_compute|].
  apply bond_roundtrip; cbn; first [exact I|apply (bool_decide_unpack (bytes_ok _)); by vm_compute].
Defined.

End SecureLaws.
